(* ===== verification/_CoqProject ===== *)
-Q . S2P
Prelude.v
GoStrings.v
GoPath.v
GoOS.v
Sysutil.v
Frame.v
GoFmt.v
Resource.v
DropIn.v
Sysctl.v
Kmod.v
Swap.v
Mount.v
Attr.v
CPUGovernor.v
IOScheduler.v
IRQAffinity.v
CPUMask.v
NIC.v
Applies.v
Zones.v
GoFloat.v
FloatExact.v
FloatRound.v
FloatDecimal.v
GoTime.v
GoJSON.v
GoJSONRead.v
GoJSONDecode.v
Facts.v
Cache.v
Gather.v
Crash.v
Profile.v
Scaling.v
Engine.v
Tree.v
Cooperate.v
Bridge.v
Config.v
Flags.v
Main.v
Rerun.v
