(* ===== verification/Prelude.v ===== *)
(** * node-configurator: the verification development

    node-configurator tunes an EC2 instance that runs Kubernetes with Cilium: it finds out
    what the instance is, computes the state the host should be in, and brings the host
    there, or reports how far it is from it. This library models the program as it is
    written and proves what makes it correct: that looking changes nothing, that applying
    converges, that what is written is read back, that values stay in their ranges, and
    what happens on every error path. This file holds what all the others share.

    ** The program and its model

    The host is a value of type [World] ([GoOS]): a map from clean absolute paths to
    directories, regular files and kernel attributes, and a map for what only external
    commands know. A Go function that reads or changes the host is a state transformer
    [M World A]; one that returns an error as well is an [IO A], whose result is [Ok] or
    [Err] with the text of the error the program builds. Statements run in the order of the
    source, every early return and every wrapped error included; [defer] is [deferred].
    A computation that leaves the host alone is an instance of [ReadOnly], found by
    following its structure.

    - [GoStrings], [GoPath], [GoFmt], [GoFloat], [GoTime], [GoJSON], [GoJSONRead],
      [GoJSONDecode]: the parts of the standard library that the program computes with:
      splitting and trimming (UTF-8 white space included), 64-bit integers and their
      wrap-around, path cleaning and patterns, [%q] and padding, IEEE 754 binary64 with the
      shortest decimal of a number, the calendar and RFC 3339, the documents encoding/json
      writes, its parser, and what a struct takes from a document. They are executable and
      agree with the library byte for byte on what the program uses of them.
    - [GoOS]: reading, writing, renaming and creating files, temporary files, directory
      listings, [Glob]. What the kernel does with a write to an attribute, which calls
      fail and the random numbers of temporary names are the parameter [Kernel]. [Frame]
      says what a call depends on and what it touches.
    - [Sysutil] (internal/sysutil): rooted paths, atomic writes and backups, sysctl access,
      the primary interface, the distribution, memory. External commands are the class
      [Runner].
    - [Resource] (resource.go): statuses, results, and the interface every resource
      implements, as a record with three contracts: [WellBehaved] (a check changes nothing,
      its result is named after the resource and an error comes with the failed status),
      [Converges I] (where [I] holds, a successful Apply leaves nothing for the next check)
      and [QuietWhenUnchanged] (Apply does nothing when nothing is to be done). The
      comments of the interface in resource.go say exactly this.
    - [DropIn] (dropinfile.go, limits.go), [Sysctl] (sysctl.go), [Kmod] (kmod.go,
      cgroupv2.go), [Swap] (swap.go), [Mount] (mount.go), [CPUGovernor] (cpugovernor.go),
      [IOScheduler] (ioscheduler.go), [IRQAffinity] (irqaffinity.go), [NIC] with [CPUMask]
      (nictuning.go): one file per resource, its record, its check and its Apply, and the
      instances of the contracts. [Attr] holds the argument four of them share: a loop that
      writes one kernel attribute after another and is checked by reading them back.
      [Applies] follows the structure of every Apply once, for any preorder on hosts its
      writes and commands move along; [Zones] divides the host into the parts the resources
      look at.
    - [Facts], [Cache], [Gather] (internal/facts): the facts of the instance, the cache file
      and the gathering with all its fallbacks. The AWS SDK is the class [Cloud], the clock
      and the local time zone are [Clock], the size of the machine is [Platform].
    - [Crash]: the operations that write files (atomic.go, cache.go) once more, as sequences
      of system calls that may be stopped between two calls or within one.
    - [Profile] (internal/profile): the desired state as a function of the facts and the
      operator's overrides. [Scaling], with [FloatExact] on where binary64 is exact and
      [FloatRound] on how it rounds, gives the formulas of scaling.go without floats. What
      is computed or read is a binary64 again, and rounding keeps the order. [FloatDecimal]:
      17 digits tell any two numbers apart, so the bandwidth of the facts is stored to its
      last bit.
    - [Config] (internal/config): the operator's file, its durations and its overrides;
      parsing YAML is the class [Yaml], which calls back the program's [UnmarshalYAML] for
      a duration as the library does.
    - [Engine] (internal/engine): the list of resources, the filters, the run over them,
      the exit code and the reports.
      [Cooperate] shows that the resources it builds do not undo each other, [Bridge] that
      some settings exist only once a module is loaded, which is the one place where the
      order of the list costs a second run; [Tree], that the file system stays well formed.
    - [Flags] and [Main] (cmd/node-configurator): flags, with what is said of a bad one,
      subcommands and output. The process is the host with what was written to standard
      output and standard error. [Rerun] is about one invocation after another.

    ** What the theorems show

    A theorem whose comment starts with C and a number is one of the main properties; most
    rest on lemmas of their own file, and each that has hypotheses is followed by a concrete
    run that satisfies them.

    - Looking: [Main.checking_changes_only_the_cache] and [Engine.check_mode_read_only].
      Nothing but [apply] changes the host, except for the facts cache and the
      directories on the way to it, which [Main.check_writes_the_facts_cache] shows are
      written by [check] as well.
    - Converging: for each resource, [..._Apply_converges]; for a run over many,
      [Engine.Run_converges]: if they cooperate (the record [cooperate]: each settles, none
      undoes another), every resource that is not reported as failed has settled, and the
      next run changes nothing and exits with 0. What [Build] builds for any facts and any
      overrides is proved to cooperate in its order, on a host whose commands do what they
      say and nothing else: [Cooperate.apply_settles_the_host]; and so, from the flags to
      the exit code, does the command: [Rerun.apply_then_nothing].
      Where the code does not converge this is proved too:
      [Bridge.legacy_iptables_needs_two_runs], [Kmod.builtin_module_never_settles],
      [Swap.swap_units_never_masked], [IRQAffinity.vanished_irq_fails_apply].
    - Files: a write is atomic, a backup is taken once, no sysctl key leads out of
      /proc/sys, the two editors of fstab do not undo each other. Whatever the command does
      and however it ends, the host stays a tree, nothing that was there is removed and no
      node changes its kind ([Main.run_keeps_the_tree]).
    - Stops: the complete runs of the sequences of calls are the operations themselves
      ([Crash.writes_refined]). A write, stopped anywhere or run to its end, is to a reader
      of the file one indivisible step or none, and what it answers says which
      ([Crash.write_refines_atomic], [Crash.stopped_write_is_whole]); the start of a facts document is never taken for
      facts ([Crash.stopped_save_invents_nothing]); a backup, which is copied in place, may
      be torn for good ([Crash.torn_backup_is_kept]).
    - Ending: reading a duration, a document or a pattern does not depend on its fuel
      ([Config.UnmarshalYAML_ends], [GoJSONRead.ParseJSON_fuel], [GoPath.parse_pat_fuel]).
    - Types: what is gathered, loaded from any cache file included, are values of Go's
      types ([Gather.Gather_storable]).
    - Reading back what is written: the rendered sysctl drop-in, CPU masks, ethtool's ring
      sizes, durations, flags, lists of names, the facts cache.
    - Bounds: every scaled setting is within its range for all facts, overflowing ones and
      floats that are not numbers included; for the sizes instances have it is its formula
      exactly (the backlog up to one packet, for a bandwidth of more than 42 bits), and does
      not shrink as the instance grows, for any bandwidth below 2^42 Gbps
      ([Scaling.scaling_is_exact], [Scaling.scaling_monotone]); interrupts are spread evenly over the CPUs.
    - Deciding: the overrides have the last word (but for [vm.nr_hugepages], which the
      count of huge pages sets after them), what an absent, empty, malformed or partial
      configuration file means ([Config.Load_decides]), which resources run in which order,
      what each exit code means, how gathering degrades, and that the facts of any run that
      gathered without a warning serve the next one until they expire
      ([Gather.Gather_uses_cache]).

    ** Assumptions, fuel and limits

    What no file of the repository decides is a parameter, an argument of the definitions
    that use it, and what a theorem needs of it is a hypothesis of that theorem: that the
    kernel keeps a value written to it, that [swapoff] empties /proc/swaps, that the
    commands that only ask leave the host alone. Concrete kernels and commands show that
    the hypotheses hold together.

    Recursion is structural except for loops with fuel. Pattern parsing and duration parsing
    take the length of the text, and each step consumes at least a byte; the JSON parser
    takes [steps], twice the length and one, and any amount from there on gives the same;
    the zeros at the end of a decimal are fewer than its bits; [Glob] and the choice of a temporary
    name have the standard library's own limit of 10000, at which it gives up as well; the
    decimal exponent of a float below 1 is searched for up to 400 places, more than any
    binary64 has, and its shortest decimal among at most 17 digits, which is proved to
    suffice for every binary64 ([FloatDecimal.decimal_is_found]).

    Not modelled: concurrent changes of the host while the program runs, symbolic links and
    permissions (a failing call is a fault of the [Kernel]; reading an attribute may fail, reading a
    regular file that is there does not), timeouts of external commands,
    the text of parse errors of numbers where the program drops it, parsing YAML, and the
    AWS SDK. A stop is one of the program: what
    the host loses when it goes down itself, with calls that were made but not yet on the
    disk, is not modelled. The number of CPUs is taken to be below 2^63 - 31 where masks are
    rendered. *)

From Stdlib Require Export ZArith Lia Ascii.
From Stdlib Require String.
From stdpp Require Export base tactics option gmap strings sorting list.

(** ** Scopes, notations and hint databases *)

Declare Scope go_scope.
Delimit Scope go_scope with go.
#[global] Open Scope go_scope.

#[global] Arguments Ascii.eqb : simpl never.

(** Facts about strings, about computations and about the file system that
    the components' proofs use all the time. *)
Create HintDb go discriminated.
Create HintDb go_str.
Create HintDb go_fs.
Create Rewrite HintDb go_run.
Create Rewrite HintDb go_string.

(** ** Results and stateful computations

    A Go function that returns [(T, error)] with a meaningless [T] on the error
    path returns a [result T]; one that reads or changes the host returns
    [M S (result T)], a state transformer over the host state [S]. *)

Inductive result (E A : Type) : Type :=
| Ok (a : A)
| Err (e : E).
Arguments Ok {E A} a.
Arguments Err {E A} e.

#[export] Instance result_eq_dec {E A} `{EqDecision E, EqDecision A} :
  EqDecision (result E A).
Proof. solve_decision. Defined.

Definition is_ok {E A} (r : result E A) : bool :=
  match r with Ok _ => true | Err _ => false end.

Definition to_option {E A} (r : result E A) : option A :=
  match r with Ok a => Some a | Err _ => None end.

Definition M (S A : Type) : Type := S → A * S.

Definition ret {S A} (a : A) : M S A := λ s, (a, s).

Definition bind {S A B} (c : M S A) (k : A → M S B) : M S B :=
  λ s, let '(a, s') := c s in k a s'.

(** [if err != nil { return ..., err }] after a call. *)
Definition bind_ok {S E A B} (c : M S (result E A)) (k : A → M S (result E B)) :
    M S (result E B) :=
  bind c (λ r, match r with Ok a => k a | Err e => ret (Err e) end).

(** The same, the error wrapped on its way out ([fmt.Errorf] with a [%w]). *)
Definition map_err {S E F A} (f : E → F) (c : M S (result E A)) : M S (result F A) :=
  bind c (λ r, ret (match r with Ok a => Ok a | Err e => Err (f e) end)).

Definition gets {S A} (f : S → A) : M S A := λ s, (f s, s).
Definition modify {S} (f : S → S) : M S () := λ s, ((), f s).

(** A [for] loop over a slice whose body may return early with an error. *)
Fixpoint for_each {S E A} (l : list A) (body : A → M S (result E ())) :
    M S (result E ()) :=
  match l with
  | [] => ret (Ok ())
  | a :: l => bind_ok (body a) (λ _, for_each l body)
  end.

(** A [for] loop over a slice that collects what its body yields. *)
Fixpoint collect {S A B} (l : list A) (body : A → M S (list B)) : M S (list B) :=
  match l with
  | [] => ret []
  | a :: l => bind (body a) (λ bs, bind (collect l body) (λ bs', ret (bs ++ bs')))
  end.

Notation "x <- c ;; k" := (bind c (λ x, k))
  (at level 100, c at next level, right associativity) : go_scope.
Notation "x <-? c ;; k" := (bind_ok c (λ x, k))
  (at level 100, c at next level, right associativity) : go_scope.

#[global] Arguments ret {S A} a s /.
#[global] Arguments gets {S A} f s /.
#[global] Arguments modify {S} f s /.
#[global] Arguments bind : simpl never.
#[global] Arguments bind_ok : simpl never.
#[global] Arguments map_err : simpl never.

#[global] Typeclasses Opaque ret gets modify bind bind_ok map_err for_each collect.

(** ** Running a computation *)

Lemma bind_run {S A B} (c : M S A) (k : A → M S B) s :
  bind c k s = k (c s).1 (c s).2.
Proof. unfold bind. by destruct (c s). Qed.

Lemma bind_ok_run {S E A B} (c : M S (result E A)) (k : A → M S (result E B)) s :
  bind_ok c k s =
  match (c s).1 with Ok a => k a (c s).2 | Err e => (Err e, (c s).2) end.
Proof. unfold bind_ok. rewrite bind_run. by destruct (c s).1. Qed.

Lemma map_err_run {S E F A} (f : E → F) (c : M S (result E A)) s :
  map_err f c s =
  (match (c s).1 with Ok a => Ok a | Err e => Err (f e) end, (c s).2).
Proof. unfold map_err. by rewrite bind_run. Qed.

Lemma bind_ok_inv {S E A B} (c : M S (result E A)) (k : A → M S (result E B)) s b s' :
  bind_ok c k s = (Ok b, s') →
  ∃ a s1, c s = (Ok a, s1) ∧ k a s1 = (Ok b, s').
Proof.
  rewrite bind_ok_run. destruct (c s) as [[a|e] s1]; simpl; [eauto|done].
Qed.

Lemma map_err_inv {S E F A} (f : E → F) (c : M S (result E A)) s a s' :
  map_err f c s = (Ok a, s') → c s = (Ok a, s').
Proof. rewrite map_err_run. by destruct (c s) as [[]]; intros; simplify_eq/=. Qed.

(** Rewrite rules that run a computation on a state. *)
#[export] Hint Rewrite @bind_run @bind_ok_run @map_err_run : go_run.

(** ** Computations that leave the state alone

    [ReadOnly c] is resolved through the structure of [c]: the checks of every
    resource are read-only because they are built from read-only calls. *)

Class ReadOnly {S A} (c : M S A) : Prop := read_only : ∀ s, (c s).2 = s.

Section read_only.
Context {S : Type}.

#[export] Instance ret_read_only {A} (a : A) : ReadOnly (S:=S) (ret a).
Proof. by intros s. Qed.
#[export] Instance gets_read_only {A} (f : S → A) : ReadOnly (gets f).
Proof. by intros s. Qed.
#[export] Instance bind_read_only {A B} (c : M S A) (k : A → M S B) :
  ReadOnly c → (∀ a, ReadOnly (k a)) → ReadOnly (bind c k).
Proof. intros Hc Hk s. rewrite bind_run, Hk. apply Hc. Qed.
#[export] Instance bind_ok_read_only {E A B}
    (c : M S (result E A)) (k : A → M S (result E B)) :
  ReadOnly c → (∀ a, ReadOnly (k a)) → ReadOnly (bind_ok c k).
Proof.
  intros Hc Hk. apply bind_read_only; [done|]. intros [a|e]; [apply Hk|apply _].
Qed.
#[export] Instance map_err_read_only {E F A} (f : E → F) (c : M S (result E A)) :
  ReadOnly c → ReadOnly (map_err f c).
Proof. intros Hc. apply bind_read_only; [done|]. intros r. apply _. Qed.
#[export] Instance for_each_read_only {E A} (l : list A)
    (body : A → M S (result E ())) :
  (∀ a, ReadOnly (body a)) → ReadOnly (for_each l body).
Proof. intros Hb. induction l; simpl; apply _. Qed.
#[export] Instance collect_read_only {A B} (l : list A) (body : A → M S (list B)) :
  (∀ a, ReadOnly (body a)) → ReadOnly (collect l body).
Proof. intros Hb. induction l; simpl; apply _. Qed.
#[export] Instance if_read_only {A} (b : bool) (c1 c2 : M S A) :
  ReadOnly c1 → ReadOnly c2 → ReadOnly (if b then c1 else c2).
Proof. by destruct b. Qed.
End read_only.

Lemma read_only_run {S A} (c : M S A) `{!ReadOnly c} s : c s = ((c s).1, s).
Proof. rewrite <-(read_only s) at 3. by destruct (c s). Qed.

(** A run that is known to succeed, by its outcome. *)
Lemma run_ok {S E} (c : M S (result E ())) s : is_ok (c s).1 = true → c s = (Ok (), (c s).2).
Proof. by destruct (c s) as [[[]|] ?]. Qed.

(** The value a read-only computation yields. *)
Definition value {S A} (c : M S A) (s : S) : A := (c s).1.

Lemma bind_value {S A B} (c : M S A) (k : A → M S B) s :
  ReadOnly c → bind c k s = k (value c s) s.
Proof. intros Hc. by rewrite bind_run, Hc. Qed.

Lemma bind_ok_value {S E A B} (c : M S (result E A)) (k : A → M S (result E B)) s :
  ReadOnly c →
  bind_ok c k s = match value c s with Ok a => k a s | Err e => (Err e, s) end.
Proof. intros Hc. by rewrite bind_ok_run, Hc. Qed.

Lemma value_ret {S A} (a : A) (s : S) : value (ret a) s = a.
Proof. done. Qed.
#[export] Hint Rewrite @value_ret : go_run.

Lemma value_bind {S A B} (c : M S A) (k : A → M S B) s :
  ReadOnly c → value (bind c k) s = value (k (value c s)) s.
Proof. intros Hc. unfold value at 1. by rewrite bind_value. Qed.

Lemma value_bind_ok {S E A B} (c : M S (result E A)) (k : A → M S (result E B)) s :
  ReadOnly c →
  value (bind_ok c k) s =
  match value c s with Ok a => value (k a) s | Err e => Err e end.
Proof. intros Hc. unfold bind_ok. rewrite value_bind by done. by destruct (value c s). Qed.

Lemma value_map_err {S E F A} (f : E → F) (c : M S (result E A)) s :
  value (map_err f c) s = match value c s with Ok a => Ok a | Err e => Err (f e) end.
Proof. unfold value. by rewrite map_err_run. Qed.

Lemma collect_value {S A B} (l : list A) (body : A → M S (list B)) s :
  (∀ a, ReadOnly (body a)) →
  value (collect l body) s = l ≫= (λ a, value (body a) s).
Proof.
  intros Hb. unfold value. induction l as [|a l IH]; [done|].
  simpl. rewrite !bind_run. simpl. by rewrite Hb, IH.
Qed.

(** ** Computations whose every run relates the states before and after

    [Respects R c]: whatever its outcome, a run of [c] moves along the preorder [R]. With
    "these paths are as before" for [R] it is a frame, with "what was well formed still is"
    an invariant. Like [ReadOnly] it follows the structure of [c]. *)

Class Respects {S A} (R : relation S) (c : M S A) : Prop :=
  respects : ∀ s, R s (c s).2.

Section respects.
Context {S : Type} (R : relation S) `{!PreOrder R}.

#[export] Instance read_only_respects {A} (c : M S A) : ReadOnly c → Respects R c | 10.
Proof. intros Hc s. by rewrite Hc. Qed.

(** The continuation may use what the first computation is known to yield. *)
Lemma bind_respects_post {A B} (P : A → Prop) (c : M S A) (k : A → M S B) :
  Respects R c → (∀ s, P (c s).1) → (∀ a, P a → Respects R (k a)) → Respects R (bind c k).
Proof. intros Hc HP Hk s. rewrite bind_run. etrans; [apply Hc|by apply Hk]. Qed.

Lemma bind_ok_respects_post {E A B} (P : A → Prop)
    (c : M S (result E A)) (k : A → M S (result E B)) :
  Respects R c → (∀ s a, (c s).1 = Ok a → P a) → (∀ a, P a → Respects R (k a)) →
  Respects R (bind_ok c k).
Proof.
  intros Hc HP Hk s. rewrite bind_ok_run. pose proof (Hc s) as Hs.
  destruct (c s).1 eqn:Ha; simpl; [|done]. etrans; [exact Hs|]. eapply Hk, HP, Ha.
Qed.

#[export] Instance bind_respects {A B} (c : M S A) (k : A → M S B) :
  Respects R c → (∀ a, Respects R (k a)) → Respects R (bind c k).
Proof. intros Hc Hk. by apply (bind_respects_post (λ _, True)). Qed.
#[export] Instance bind_ok_respects {E A B}
    (c : M S (result E A)) (k : A → M S (result E B)) :
  Respects R c → (∀ a, Respects R (k a)) → Respects R (bind_ok c k).
Proof. intros Hc Hk. by apply (bind_ok_respects_post (λ _, True)). Qed.
#[export] Instance map_err_respects {E F A} (f : E → F) (c : M S (result E A)) :
  Respects R c → Respects R (map_err f c).
Proof. intros Hc s. rewrite map_err_run. apply Hc. Qed.
#[export] Instance if_respects {A} (b : bool) (c1 c2 : M S A) :
  Respects R c1 → Respects R c2 → Respects R (if b then c1 else c2).
Proof. by destruct b. Qed.

Lemma for_each_respects_in {E A} (l : list A) (body : A → M S (result E ())) :
  (∀ a, a ∈ l → Respects R (body a)) → Respects R (for_each l body).
Proof.
  intros Hb. induction l as [|a l IH]; simpl; [apply _|].
  apply bind_ok_respects; [apply Hb; by left|]. intros _. apply IH. intros b ?. apply Hb. by right.
Qed.
#[export] Instance for_each_respects {E A} (l : list A) (body : A → M S (result E ())) :
  (∀ a, Respects R (body a)) → Respects R (for_each l body).
Proof. intros Hb. by apply for_each_respects_in. Qed.
End respects.

(** A finer relation respects a coarser one. *)
Lemma respects_sub {S A} (R R' : relation S) (c : M S A) :
  (∀ s s', R s s' → R' s s') → Respects R c → Respects R' c.
Proof. intros Hsub Hc s. apply Hsub, Hc. Qed.

(** ** Loops *)

Section for_each.
Context {S E A : Type} (body : A → M S (result E ())).

Lemma for_each_cons_inv a l s s' :
  for_each (a :: l) body s = (Ok (), s') →
  ∃ s1, body a s = (Ok (), s1) ∧ for_each l body s1 = (Ok (), s').
Proof. intros ([] & s1 & ? & ?)%bind_ok_inv. eauto. Qed.

Lemma for_each_app l1 l2 s :
  for_each (l1 ++ l2) body s = bind_ok (for_each l1 body) (λ _, for_each l2 body) s.
Proof.
  revert s. induction l1 as [|a l1 IH]; intros s; [done|].
  simpl. rewrite !bind_ok_run.
  destruct (body a s) as [[[]|e] s1]; simpl; [|done]. by rewrite IH, bind_ok_run.
Qed.

(** An invariant of the state that every iteration keeps. *)
Lemma for_each_inv (I : S → Prop) l s r s' :
  (∀ a s r s', a ∈ l → I s → body a s = (r, s') → I s') →
  I s → for_each l body s = (r, s') → I s'.
Proof.
  revert s. induction l as [|a l IH]; intros s Hbody Hs.
  { simpl. unfold ret. by intros [= <- <-]. }
  simpl. rewrite bind_ok_run.
  destruct (body a s) as [r1 s1] eqn:Ha.
  assert (I s1) by (eapply Hbody; [apply list_elem_of_here|done|done]).
  destruct r1; simpl; [|by intros [= <- <-]].
  apply IH; [|done]. intros b t r' t' ?. apply Hbody. by apply list_elem_of_further.
Qed.

(** Iterations that do nothing. *)
Lemma for_each_noop l s :
  (∀ a, a ∈ l → body a s = (Ok (), s)) → for_each l body s = (Ok (), s).
Proof.
  induction l as [|a l IH]; intros Hb; [done|]. simpl.
  rewrite bind_ok_run, Hb by (by left). apply IH. intros b ?. apply Hb. by right.
Qed.

(** The rule the convergence proofs use: every iteration establishes [Q a]
    for its own element, and no later iteration breaks it. *)
Lemma for_each_establishes (I : S → Prop) (Q : A → S → Prop) l s s' :
  (∀ a s s', a ∈ l → I s → body a s = (Ok (), s') → I s' ∧ Q a s') →
  (∀ a b s s', a ∈ l → b ∈ l → I s → Q a s → body b s = (Ok (), s') → Q a s') →
  I s → for_each l body s = (Ok (), s') → I s' ∧ ∀ a, a ∈ l → Q a s'.
Proof.
  intros Hone Hkeep.
  enough (∀ pre todo s, pre ++ todo = l → I s → (∀ a, a ∈ pre → Q a s) →
    for_each todo body s = (Ok (), s') → I s' ∧ ∀ a, a ∈ l → Q a s') as H.
  { intros. apply (H [] l s); try done. by intros ? ?%elem_of_nil. }
  clear s. intros pre todo. revert pre.
  induction todo as [|a todo IH]; intros pre s Hl Hs Hpre Hrun.
  { simpl in Hrun. rewrite app_nil_r in Hl. by simplify_eq. }
  apply for_each_cons_inv in Hrun as (s1 & Ha & Hrun).
  assert (a ∈ l) as Hal by (subst l; set_solver).
  destruct (Hone a s s1 Hal Hs Ha) as [Hs1 Hq].
  apply (IH (pre ++ [a]) s1); [by rewrite <-app_assoc|done| |done].
  intros b [Hb|Hb%list_elem_of_singleton]%elem_of_app; [|by subst b].
  eapply (Hkeep b a s); try done; [subst l; set_solver|by apply Hpre].
Qed.
End for_each.

(** ** Lists *)

Definition nonempty {A} (l : list A) : bool :=
  match l with [] => false | _ => true end.

Lemma nonempty_true {A} (l : list A) : nonempty l = true ↔ l ≠ [].
Proof. by destruct l. Qed.
Lemma nonempty_false {A} (l : list A) : nonempty l = false ↔ l = [].
Proof. by destruct l. Qed.

Definition in_list (x : string) (l : list string) : bool := bool_decide (x ∈ l).

Lemma in_list_true x l : in_list x l = true ↔ x ∈ l.
Proof. apply bool_decide_eq_true. Qed.

Lemma bind_nil_iff {A B} (f : A → list B) (l : list A) :
  l ≫= f = [] ↔ ∀ a, a ∈ l → f a = [].
Proof.
  induction l as [|a l IH]; simpl; [split; [set_solver|done]|].
  rewrite app_nil, IH. set_solver.
Qed.

(** What holds of every two elements in their order holds in a part of the list as well. *)
Lemma StronglySorted_sublist {A} (R : relation A) l l' :
  sublist l l' → StronglySorted R l' → StronglySorted R l.
Proof.
  induction 1 as [|a l l' Hs IH|a l l' Hs IH]; intros Hl; [done|..];
    inversion_clear Hl as [|?? Hl' Ha]; [|by apply IH].
  constructor; [by apply IH|]. rewrite Forall_forall in Ha |- *.
  intros b Hb. apply Ha. by eapply elem_of_submseteq, sublist_submseteq.
Qed.

Lemma StronglySorted_filter {A} (R : relation A) (P : A → Prop) `{∀ x, Decision (P x)} l :
  StronglySorted R l → StronglySorted R (filter P l).
Proof. apply StronglySorted_sublist, sublist_filter. Qed.

Lemma StronglySorted_fmap {A B} (R : relation A) (R' : relation B) (f : A → B) l :
  (∀ x y, x ∈ l → y ∈ l → R x y → R' (f x) (f y)) → StronglySorted R l →
  StronglySorted R' (f <$> l).
Proof.
  intros HR Hl. induction Hl as [|x l Hl IH Hx]; [constructor|]. rewrite fmap_cons. constructor.
  - apply IH. intros y z ??. apply HR; by right.
  - rewrite Forall_forall in Hx. apply Forall_fmap, Forall_forall. intros y Hy.
    apply HR; [by left|by right|by apply Hx].
Qed.

Lemma NoDup_StronglySorted {A} (l : list A) : NoDup l → StronglySorted (≠) l.
Proof.
  induction 1 as [|x l Hx Hnd IH]; constructor; [done|]. apply Forall_forall. by intros y Hy ->.
Qed.

(** ** Tactics *)

(** Splits a successful run of a computation into the runs of its parts. *)
Ltac run_inv :=
  repeat match goal with
  | H : bind_ok _ _ _ = (Ok _, _) |- _ =>
      let a := fresh "a" in let s := fresh "s" in
      apply bind_ok_inv in H as (a & s & ? & H)
  | H : map_err _ _ _ = (Ok _, _) |- _ => apply map_err_inv in H
  | H : ret _ _ = (_, _) |- _ => unfold ret in H; simplify_eq
  | u : () |- _ => destruct u
  end.

(** Case analysis on the booleans that decide a branch, equations kept. *)
Ltac case_bool :=
  match goal with
  | |- context [if ?b then _ else _] =>
      lazymatch type of b with bool => destruct b eqn:? end
  | H : context [if ?b then _ else _] |- _ =>
      lazymatch type of b with bool => destruct b eqn:? end
  end.

(** Turns the boolean connectives of the code into propositions. *)
Ltac bool_prop :=
  repeat match goal with
  | H : (_ && _) = true |- _ => apply andb_true_iff in H as [? ?]
  | H : (_ || _) = false |- _ => apply orb_false_iff in H as [? ?]
  | H : negb _ = true |- _ => apply negb_true_iff in H
  | H : negb _ = false |- _ => apply negb_false_iff in H
  | H : bool_decide _ = true |- _ => apply bool_decide_eq_true in H
  | H : bool_decide _ = false |- _ => apply bool_decide_eq_false in H
  | H : (_ <? _)%Z = true |- _ => apply Z.ltb_lt in H
  | H : (_ <? _)%Z = false |- _ => apply Z.ltb_ge in H
  | H : (_ <=? _)%Z = true |- _ => apply Z.leb_le in H
  | H : (_ <=? _)%Z = false |- _ => apply Z.leb_gt in H
  | H : (_ =? _)%Z = true |- _ => apply Z.eqb_eq in H
  | H : (_ =? _)%Z = false |- _ => apply Z.eqb_neq in H
  | H : (_ <? _)%N = true |- _ => apply N.ltb_lt in H
  | H : (_ <=? _)%N = true |- _ => apply N.leb_le in H
  | H : (_ =? _)%N = true |- _ => apply N.eqb_eq in H
  | H : (_ =? _)%nat = true |- _ => apply Nat.eqb_eq in H
  end.

(** The same, with a case split on every disjunction that holds. *)
Ltac bool_cases :=
  bool_prop;
  repeat (match goal with
          | H : (_ || _) = true |- _ => apply orb_true_iff in H as [H|H]
          end; bool_prop).

(** Runs one read-only step of a computation, and splits on what it yields. *)
Ltac ro_step := unfold value at 1; rewrite bind_value by apply _.
Ltac ro_case :=
  ro_step;
  match goal with |- context [value ?c ?w] => destruct (value c w) eqn:? end.
