(* ===== verification/GoStrings.v ===== *)
(** * Go strings: the parts of [strings], [strconv], [bufio], [sort] and [fmt]
      the program calls.

    A Go string is a byte string, so it is a [string] (a list of bytes) here.
    White space is Unicode's, found by its UTF-8 encoding; integers are [Z] with
    the 64-bit range checked where the code parses them. *)

From Stdlib Require Import DecimalString DecimalN DecimalZ.
From S2P Require Import Prelude.

#[local] Arguments String.append !s1 s2 / : simpl nomatch.

Local Open Scope Z_scope.

Definition byte_of (n : N) : ascii := ascii_of_N n.
Definition nl : ascii := "010".
Definition cr : ascii := "013".
Definition quote_char : ascii := "034".
Definition nls : string := String nl EmptyString.
Definition slen (s : string) : Z := Z.of_nat (String.length s).

(** ** [strings] *)

(** [strings.Split(s, sep)] and [strings.SplitSeq] for a one-byte separator. *)
Fixpoint Split (sep : ascii) (s : string) : list string :=
  match s with
  | EmptyString => [EmptyString]
  | String c s =>
      if Ascii.eqb c sep then EmptyString :: Split sep s
      else match Split sep s with
           | [] => [String c EmptyString]
           | x :: xs => String c x :: xs
           end
  end.

Fixpoint Join (sep : string) (l : list string) : string :=
  match l with
  | [] => EmptyString
  | [x] => x
  | x :: l => x +:+ sep +:+ Join sep l
  end.

Definition HasPrefix (s p : string) : bool := String.prefix p s.

Fixpoint HasSuffix (s suf : string) : bool :=
  String.eqb s suf ||
  match s with EmptyString => false | String _ s => HasSuffix s suf end.

Definition TrimSuffix (s suf : string) : string :=
  if HasSuffix s suf
  then String.substring 0 (String.length s - String.length suf) s else s.

(** [strings.Cut(s, sep)] for a one-byte separator. *)
Fixpoint Cut (sep : ascii) (s : string) : string * string * bool :=
  match s with
  | EmptyString => (EmptyString, EmptyString, false)
  | String c s' =>
      if Ascii.eqb c sep then (EmptyString, s', true)
      else let '(b, a, ok) := Cut sep s' in (String c b, a, ok)
  end.

Fixpoint TrimLeftFunc (p : ascii → bool) (s : string) : string :=
  match s with
  | EmptyString => EmptyString
  | String c s' => if p c then TrimLeftFunc p s' else s
  end.

Fixpoint TrimRightFunc (p : ascii → bool) (s : string) : string :=
  match s with
  | EmptyString => EmptyString
  | String c s' =>
      match TrimRightFunc p s' with
      | EmptyString => if p c then EmptyString else String c EmptyString
      | r => String c r
      end
  end.

(** [strings.Trim(s, cutset)] for a cutset of single bytes. *)
(** [\d] of [regexp]: the ASCII digits. *)
Definition is_digit (c : ascii) : bool :=
  (48 <=? N_of_ascii c)%N && (N_of_ascii c <=? 57)%N.

(** [\d*] at the start of a text; [TrimLeftFunc is_digit] is what follows it. *)
Fixpoint take_digits (s : string) : string :=
  match s with
  | String c s' => if is_digit c then String c (take_digits s') else EmptyString
  | EmptyString => EmptyString
  end.

Definition Trim (s : string) (cutset : list ascii) : string :=
  let p c := existsb (Ascii.eqb c) cutset in
  TrimRightFunc p (TrimLeftFunc p s).

(** [strings.ReplaceAll(s, old, new)], [old] not empty: [skip] counts the bytes
    of the occurrence that is being replaced. *)
Fixpoint replace_go (skip : nat) (old new s : string) : string :=
  match s with
  | EmptyString => EmptyString
  | String c s' =>
      match skip with
      | S k => replace_go k old new s'
      | O => if String.prefix old s
             then new +:+ replace_go (String.length old - 1) old new s'
             else String c (replace_go O old new s')
      end
  end.
Definition ReplaceAll (s old new : string) : string := replace_go O old new s.

(** *** White space ([unicode.IsSpace]) *)

Definition is_ascii_space (c : ascii) : bool :=
  let n := N_of_ascii c in ((9 <=? n) && (n <=? 13) || (n =? 32))%N.

(** The length of the white-space rune a string starts with, 0 if there is none:
    the ASCII ones, U+0085, U+00A0, U+1680, U+2000-U+200A, U+2028, U+2029,
    U+202F, U+205F and U+3000 in UTF-8. *)
Definition space_len (s : string) : nat :=
  match s with
  | EmptyString => 0
  | String c0 s1 =>
    if is_ascii_space c0 then 1 else
    match s1 with
    | EmptyString => 0
    | String c1 s2 =>
      let n0 := N_of_ascii c0 in let n1 := N_of_ascii c1 in
      if ((n0 =? 194) && ((n1 =? 133) || (n1 =? 160)))%N then 2 else
      match s2 with
      | EmptyString => 0
      | String c2 _ =>
        let n2 := N_of_ascii c2 in
        if ((n0 =? 225) && (n1 =? 154) && (n2 =? 128)
            || (n0 =? 226) && (n1 =? 128) &&
               ((128 <=? n2) && (n2 <=? 138) || (n2 =? 168) || (n2 =? 169) || (n2 =? 175))
            || (n0 =? 226) && (n1 =? 129) && (n2 =? 159)
            || (n0 =? 227) && (n1 =? 128) && (n2 =? 128))%N
        then 3 else 0
      end
    end
  end.

(** Every byte of [s], marked with whether it belongs to a white-space rune. A
    rune's first byte is never a continuation byte, so the marks do not depend
    on where the scan started. *)
Fixpoint mark (skip : nat) (s : string) : list (ascii * bool) :=
  match s with
  | EmptyString => []
  | String c s' =>
      match skip with
      | S k => (c, true) :: mark k s'
      | O => match space_len s with
             | O => (c, false) :: mark O s'
             | S k => (c, true) :: mark k s'
             end
      end
  end.

Fixpoint of_marks (l : list (ascii * bool)) : string :=
  match l with [] => EmptyString | (c, _) :: l => String c (of_marks l) end.

Fixpoint drop_spaces (l : list (ascii * bool)) : list (ascii * bool) :=
  match l with (_, true) :: l => drop_spaces l | _ => l end.

Definition TrimSpace (s : string) : string :=
  of_marks (reverse (drop_spaces (reverse (drop_spaces (mark O s))))).

(** The maximal runs of bytes that are not white space. *)
Fixpoint fields_go (cur : string) (l : list (ascii * bool)) : list string :=
  match l with
  | [] => match cur with EmptyString => [] | _ => [cur] end
  | (_, true) :: l =>
      match cur with
      | EmptyString => fields_go EmptyString l
      | _ => cur :: fields_go EmptyString l
      end
  | (c, false) :: l => fields_go (cur +:+ String c EmptyString) l
  end.
Definition Fields (s : string) : list string := fields_go EmptyString (mark O s).

(** ** [bufio.Scanner] with [ScanLines] *)

Definition MaxScanTokenSize : Z := 65536.

Definition drop_cr (s : string) : string := TrimSuffix s (String cr EmptyString).

(** The lines of a reader, without their newlines; a last line that is empty is
    no line. *)
Definition raw_lines (s : string) : list string :=
  let l := Split nl s in
  match last l with
  | Some EmptyString => removelast l
  | _ => l
  end.

(** The tokens a scanner yields, and whether it stopped with [ErrTooLong]: a line
    of [MaxScanTokenSize] bytes fills the buffer before its newline is seen. *)
Fixpoint scan_tokens (ls : list string) : list string * bool :=
  match ls with
  | [] => ([], false)
  | l :: ls =>
      if MaxScanTokenSize <=? slen l then ([], true)
      else let '(ts, long) := scan_tokens ls in (drop_cr l :: ts, long)
  end.
Definition scan_lines (s : string) : list string * bool := scan_tokens (raw_lines s).

(** ** [strconv] *)

Definition min_int64 : Z := - 2 ^ 63.
Definition max_int64 : Z := 2 ^ 63 - 1.
Definition in_int64 (z : Z) : bool := (min_int64 <=? z) && (z <=? max_int64).

(** Two's complement wrap-around of Go's [int] and [int64]. *)
Definition wrap64 (z : Z) : Z := (z + 2 ^ 63) mod 2 ^ 64 - 2 ^ 63.

Definition digits_of_N (n : N) : string := NilZero.string_of_uint (N.to_uint n).
Definition N_of_digits (s : string) : option N :=
  N.of_uint <$> NilZero.uint_of_string s.

(** [strconv.Itoa], [fmt.Sprintf] of a decimal verb. *)
Definition Itoa (z : Z) : string :=
  if z <? 0 then String "-" (digits_of_N (Z.to_N (- z))) else digits_of_N (Z.to_N z).

(** [strconv.ParseInt(s, 10, 64)] and [strconv.Atoi]; [None] is any error. *)
Definition Atoi (s : string) : option Z :=
  let range z := if in_int64 z then Some z else None in
  match s with
  | EmptyString => None
  | String c r =>
      if Ascii.eqb c "-" then n ← N_of_digits r; range (- Z.of_N n)
      else if Ascii.eqb c "+" then n ← N_of_digits r; range (Z.of_N n)
      else n ← N_of_digits s; range (Z.of_N n)
  end.

Definition hex_digit (n : Z) : ascii :=
  byte_of (if n <? 10 then Z.to_N (48 + n) else Z.to_N (87 + n)).

Definition hex_value (c : ascii) : option Z :=
  let n := Z.of_N (N_of_ascii c) in
  if (48 <=? n) && (n <=? 57) then Some (n - 48)
  else if (97 <=? n) && (n <=? 102) then Some (n - 87)
  else if (65 <=? n) && (n <=? 70) then Some (n - 55)
  else None.

(** The low [k] hexadecimal digits of [n], most significant first: [%08x] of a
    [uint32] is [hex_fixed 8]. *)
Fixpoint hex_fixed (k : nat) (n : Z) : string :=
  match k with
  | O => EmptyString
  | S k => hex_fixed k (Z.shiftr n 4) +:+ String (hex_digit (Z.land n 15)) EmptyString
  end.

Fixpoint hex_go (acc : Z) (s : string) : option Z :=
  match s with
  | EmptyString => Some acc
  | String c s => d ← hex_value c; hex_go (16 * acc + d) s
  end.

(** [strconv.ParseUint(s, 16, 32)]; [None] is any error. *)
Definition ParseUint16_32 (s : string) : option Z :=
  match s with
  | EmptyString => None
  | _ => n ← hex_go 0 s; if n <? 2 ^ 32 then Some n else None
  end.

(** ** [sort] *)

#[export] Instance Z_le_total : Total Z.le.
Proof. intros x y. lia. Qed.

Definition sort_Strings (l : list string) : list string := merge_sort String.le l.
Definition sort_Ints (l : list Z) : list Z := merge_sort Z.le l.

(** ** Strings as byte lists *)

Lemma str_app_nil_r s : s +:+ EmptyString = s.
Proof. induction s as [|c s IH]; [done|]. simpl. by rewrite IH. Qed.

Lemma str_app_assoc (a b c : string) : (a +:+ b) +:+ c = a +:+ b +:+ c.
Proof. induction a as [|x a IH]; [done|]. simpl. by rewrite IH. Qed.

Lemma str_cons_app c (a b : string) : String c a +:+ b = String c (a +:+ b).
Proof. done. Qed.

Lemma str_nil_app (b : string) : EmptyString +:+ b = b.
Proof. done. Qed.

Lemma str_length_app (a b : string) :
  String.length (a +:+ b) = (String.length a + String.length b)%nat.
Proof. induction a as [|x a IH]; [done|]. simpl. by rewrite IH. Qed.

Lemma str_app_eq_nil (a b : string) :
  a +:+ b = EmptyString ↔ a = EmptyString ∧ b = EmptyString.
Proof. destruct a; simpl; naive_solver. Qed.

#[export] Hint Rewrite str_app_nil_r str_app_assoc str_cons_app str_nil_app : go_string.

Ltac str_simpl := autorewrite with go_string in *.

Lemma prefix_app p s : String.prefix p (p +:+ s) = true.
Proof. induction p as [|c p IH]; [by destruct s|]. simpl. by destruct (ascii_dec c c). Qed.

Lemma prefix_true_inv p s : String.prefix p s = true → ∃ r, s = p +:+ r.
Proof.
  revert s. induction p as [|c p IH]; intros s; [by exists s|].
  destruct s as [|d s]; [done|]. simpl. destruct (ascii_dec c d) as [->|]; [|done].
  intros [r ->]%IH. by exists r.
Qed.

(** ** Splitting and joining *)

(** No byte of the string is [sep]. *)
Fixpoint sep_free (sep : ascii) (s : string) : bool :=
  match s with
  | EmptyString => true
  | String c s => negb (Ascii.eqb c sep) && sep_free sep s
  end.

Lemma Split_cons sep s : ∃ x xs, Split sep s = x :: xs.
Proof.
  destruct s as [|c s]; simpl; [eauto|].
  destruct (Ascii.eqb c sep); [eauto|]. destruct (Split sep s); eauto.
Qed.

Lemma Split_nonnil sep s : Split sep s ≠ [].
Proof. destruct (Split_cons sep s) as (x & xs & ->). done. Qed.

Lemma Join_cons sep x l :
  l ≠ [] → Join sep (x :: l) = x +:+ sep +:+ Join sep l.
Proof. by destruct l. Qed.

Lemma Join_Split sep s : Join (String sep EmptyString) (Split sep s) = s.
Proof.
  induction s as [|c s IH]; [done|]. simpl.
  destruct (Split_cons sep s) as (x & xs & Hs).
  destruct (Ascii.eqb_spec c sep) as [->|].
  - rewrite Join_cons, IH by apply Split_nonnil. done.
  - rewrite Hs in *. destruct xs; simpl in *; by rewrite <-IH.
Qed.

Lemma Split_sep_free sep s x : x ∈ Split sep s → sep_free sep x = true.
Proof.
  revert x. induction s as [|c s IH]; intros x.
  { simpl. by intros ->%list_elem_of_singleton. }
  simpl. destruct (Ascii.eqb c sep) eqn:Hc.
  { intros [->|?]%elem_of_cons; [done|auto]. }
  destruct (Split_cons sep s) as (y & ys & Hs). rewrite Hs in *.
  intros [->|?]%elem_of_cons; simpl; [|apply IH; set_solver].
  rewrite Hc. simpl. apply IH. set_solver.
Qed.

Lemma Split_app_sep sep s r :
  sep_free sep s = true →
  Split sep (s +:+ String sep r) = s :: Split sep r.
Proof.
  induction s as [|c s IH]; simpl.
  - intros _. by rewrite Ascii.eqb_refl.
  - intros [Hc Hs]%andb_true_iff. apply negb_true_iff in Hc. by rewrite Hc, IH.
Qed.

Lemma Split_single sep s : sep_free sep s = true → Split sep s = [s].
Proof.
  induction s as [|c s IH]; [done|]. simpl.
  intros [Hc Hs]%andb_true_iff. apply negb_true_iff in Hc. by rewrite Hc, IH.
Qed.

Lemma Split_Join sep l :
  l ≠ [] → Forall (λ x, sep_free sep x = true) l →
  Split sep (Join (String sep EmptyString) l) = l.
Proof.
  intros Hl. induction 1 as [|x l Hx Hall IH]; [done|].
  destruct (decide (l = [])) as [->|Hne]; [by apply Split_single|].
  rewrite Join_cons by done. str_simpl. by rewrite Split_app_sep, IH.
Qed.

(** Splitting distributes over a separator between two strings. *)
Lemma Split_app sep s r : Split sep (s +:+ String sep r) = Split sep s ++ Split sep r.
Proof.
  induction s as [|c s IH]; simpl.
  - by rewrite Ascii.eqb_refl.
  - destruct (Ascii.eqb c sep); [by rewrite IH|].
    rewrite IH. by destruct (Split_cons sep s) as (x & xs & ->).
Qed.

(** ** White space *)

(** No white-space rune starts anywhere in the string. *)
Fixpoint spacefree (s : string) : bool :=
  match s with
  | EmptyString => true
  | String _ s' => Nat.eqb (space_len s) 0 && spacefree s'
  end.

(** The string is empty or starts with an ASCII byte: no rune that started
    before it can reach into it. *)
Definition ascii_head (s : string) : bool :=
  match s with EmptyString => true | String c _ => (N_of_ascii c <? 128)%N end.

(** A string of one or more ASCII white-space bytes. *)
Fixpoint all_spaces (s : string) : bool :=
  match s with
  | EmptyString => true
  | String c s => is_ascii_space c && all_spaces s
  end.

Definition plain_marks (s : string) : list (ascii * bool) :=
  map (λ c, (c, false)) (String.list_ascii_of_string s).
Definition space_marks (s : string) : list (ascii * bool) :=
  map (λ c, (c, true)) (String.list_ascii_of_string s).

(** A white-space rune found in a string is found in its extensions. *)
Lemma space_len_app s r : space_len s ≠ O → space_len (s +:+ r) = space_len s.
Proof.
  destruct s as [|c0 [|c1 [|c2 s]]]; simpl; try done;
    destruct (is_ascii_space c0); try done; repeat case_match; done.
Qed.

Lemma space_len_app_0 s r : space_len (s +:+ r) = O → space_len s = O.
Proof.
  intros H. destruct (decide (space_len s = O)) as [|Hs]; [done|].
  by rewrite space_len_app in H.
Qed.

(** The bytes after the first of a white-space rune are not ASCII. *)
Lemma space_len_ascii s c r :
  s ≠ EmptyString → (N_of_ascii c < 128)%N →
  space_len s = O → space_len (s +:+ String c r) = O.
Proof.
  destruct s as [|c0 [|c1 [|c2 s]]]; simpl; try done; intros _ Hc;
    destruct (is_ascii_space c0); try done.
  - intros _. case_bool; [bool_cases; lia|]. destruct r; [done|].
    case_bool; [bool_cases; lia|done].
  - destruct (_ && _)%N; [done|]. intros _. case_bool; [bool_cases; lia|done].
Qed.

Lemma bytes_app (a b : string) :
  String.list_ascii_of_string (a +:+ b) =
  String.list_ascii_of_string a ++ String.list_ascii_of_string b.
Proof. induction a as [|c a IH]; [done|]. simpl. by rewrite IH. Qed.

(** Enough of a string decides which white-space rune it starts with. *)
Lemma space_len_take c x y j :
  space_len (String c (x +:+ y)) = S j → (j ≤ String.length x)%nat →
  space_len (String c x) = S j.
Proof.
  destruct x as [|c1 [|c2 x]]; simpl; destruct (is_ascii_space c); try done;
    intros H Hj; repeat case_match; simplify_eq; try done; simpl in *; lia.
Qed.

#[global] Arguments space_len : simpl never.

Lemma plain_marks_app a b : plain_marks (a +:+ b) = plain_marks a ++ plain_marks b.
Proof. unfold plain_marks. by rewrite bytes_app, map_app. Qed.

Lemma space_len_ascii_head s r :
  s ≠ EmptyString → ascii_head r = true → space_len s = O → space_len (s +:+ r) = O.
Proof.
  intros Hs Hr H. destruct r as [|c r]; [by str_simpl|].
  apply N.ltb_lt in Hr. by apply space_len_ascii.
Qed.

(** A run without white space keeps its marks whatever ASCII byte follows. *)
Lemma mark_spacefree s r :
  spacefree s = true → ascii_head r = true →
  mark O (s +:+ r) = plain_marks s ++ mark O r.
Proof.
  intros Hs Hr. induction s as [|c s IH]; [done|].
  simpl in Hs. apply andb_true_iff in Hs as [Hc%Nat.eqb_eq Hs].
  assert (space_len (String c s +:+ r) = O) as Hc' by by apply space_len_ascii_head.
  change (mark O (String c s +:+ r)) with
    (match space_len (String c s +:+ r) with
     | O => (c, false) :: mark O (s +:+ r)
     | S k => (c, true) :: mark k (s +:+ r) end).
  by rewrite Hc', IH.
Qed.

Lemma space_len_1 c s : is_ascii_space c = true → space_len (String c s) = 1%nat.
Proof. intros H. unfold space_len. by rewrite H. Qed.

Lemma mark_spaces s r :
  all_spaces s = true →
  mark O (s +:+ r) = space_marks s ++ mark O r.
Proof.
  induction s as [|c s IH]; [done|]. simpl. intros [Hc Hs]%andb_true_iff.
  rewrite space_len_1 by done. by rewrite IH.
Qed.

Lemma is_ascii_space_ascii c : is_ascii_space c = true → (N_of_ascii c < 128)%N.
Proof. unfold is_ascii_space. intros H. bool_cases; lia. Qed.

Lemma all_spaces_head s r :
  all_spaces s = true → s ≠ EmptyString → ascii_head (s +:+ r) = true.
Proof.
  destruct s as [|c s]; simpl; [done|]. intros [Hc _]%andb_true_iff _.
  by apply N.ltb_lt, is_ascii_space_ascii.
Qed.

Lemma fields_go_plain cur s l :
  fields_go cur (plain_marks s ++ l) = fields_go (cur +:+ s) l.
Proof.
  revert cur. induction s as [|c s IH]; intros cur; [by str_simpl|].
  simpl. unfold plain_marks in IH. rewrite IH. by str_simpl.
Qed.

Lemma fields_go_spaces cur s l :
  s ≠ EmptyString →
  fields_go cur (space_marks s ++ l) =
  (match cur with EmptyString => [] | _ => [cur] end) ++ fields_go EmptyString l.
Proof.
  intros Hs. destruct s as [|c s]; [done|]. clear Hs. simpl.
  assert (fields_go EmptyString (space_marks s ++ l) = fields_go EmptyString l) as Hnil
    by (induction s; done).
  unfold space_marks in Hnil. rewrite Hnil. by destruct cur.
Qed.

(** A field is what [Fields] yields: not empty, no white space. *)
Definition field (s : string) : bool :=
  spacefree s && negb (String.eqb s EmptyString).

Lemma field_inv s : field s = true → spacefree s = true ∧ s ≠ EmptyString.
Proof.
  unfold field. intros [? H]%andb_true_iff. split; [done|]. intros ->. done.
Qed.

Lemma Fields_spaces sep r : all_spaces sep = true → Fields (sep +:+ r) = Fields r.
Proof.
  intros Hsep. unfold Fields. rewrite mark_spaces by done.
  destruct sep as [|c sep]; [done|]. by rewrite fields_go_spaces.
Qed.

Lemma Fields_field s : field s = true → Fields s = [s].
Proof.
  intros [Hs Hne]%field_inv. unfold Fields.
  rewrite <-(str_app_nil_r s) at 1. rewrite mark_spacefree by done. simpl.
  rewrite fields_go_plain. simpl. by destruct s.
Qed.

(** A field followed by white space is the first field of the rest. *)
Lemma Fields_cons s sep r :
  field s = true → all_spaces sep = true → sep ≠ EmptyString →
  Fields (s +:+ sep +:+ r) = s :: Fields r.
Proof.
  intros [Hs Hne]%field_inv Hsep Hsne. unfold Fields.
  rewrite mark_spacefree by (done || by apply all_spaces_head).
  rewrite mark_spaces, fields_go_plain by done.
  rewrite fields_go_spaces by done. simpl. by destruct s.
Qed.

(** Joining fields with any ASCII white space and taking the fields again. *)
Lemma Fields_Join sep l :
  all_spaces sep = true → sep ≠ EmptyString →
  Forall (λ s, field s = true) l → Fields (Join sep l) = l.
Proof.
  intros Hsep Hne. induction 1 as [|s l Hs _ IH]; [done|].
  destruct (decide (l = [])) as [->|Hl]; [by apply Fields_field|].
  rewrite Join_cons by done. by rewrite Fields_cons, IH.
Qed.

(** What [Fields] yields are fields: the run being collected stays free of
    white space whatever follows it. *)
Fixpoint open_run (cur rest : string) : Prop :=
  match cur with
  | EmptyString => True
  | String _ cur' => space_len (cur +:+ rest) = O ∧ open_run cur' rest
  end.

Lemma open_run_snoc cur c r :
  space_len (String c r) = O → open_run cur (String c r) →
  open_run (cur +:+ String c EmptyString) r.
Proof.
  intros Hc. induction cur as [|d cur IH]; [by intros _|].
  intros [Hd Hcur]. split; [|by apply IH]. by str_simpl.
Qed.

Lemma open_run_field cur r : cur ≠ EmptyString → open_run cur r → field cur = true.
Proof.
  intros Hne Hrun. unfold field. apply andb_true_iff. split; [|by destruct cur].
  clear Hne. induction cur as [|c cur IH]; [done|]. destruct Hrun as [Hc Hrun].
  simpl spacefree. apply andb_true_iff. split; [|auto].
  apply Nat.eqb_eq. by eapply space_len_app_0.
Qed.

Lemma fields_go_field s k cur :
  k = O ∨ cur = EmptyString → open_run cur s →
  Forall (λ f, field f = true) (fields_go cur (mark k s)).
Proof.
  revert k cur. induction s as [|c s IH]; intros k cur Hk Hrun.
  { simpl. destruct cur as [|d cur]; repeat constructor. by eapply open_run_field. }
  assert (Hspace : ∀ k', Forall (λ f, field f = true)
    (fields_go cur ((c, true) :: mark k' s))).
  { intros k'. simpl. destruct cur as [|d cur]; [apply IH; [by right|done]|].
    constructor; [by eapply open_run_field|apply IH; [by right|done]]. }
  destruct k as [|k]; [|apply Hspace].
  cbn [mark]. destruct (space_len (String c s)) as [|k] eqn:Hc; [|apply Hspace].
  apply IH; [by left|by apply open_run_snoc].
Qed.

Lemma Fields_field_all s : Forall (λ f, field f = true) (Fields s).
Proof. apply fields_go_field; [by left|done]. Qed.

(** *** Trimming *)

Definition trues (l : list (ascii * bool)) : Prop := Forall (λ x, x.2 = true) l.

Lemma drop_spaces_spec l :
  ∃ t, trues t ∧ l = t ++ drop_spaces l ∧
    (drop_spaces l = [] ∨ ∃ c l', drop_spaces l = (c, false) :: l').
Proof.
  induction l as [|[c []] l (t & Ht & Hl & Hd)]; simpl.
  - exists []. split; [constructor|]. auto.
  - exists ((c, true) :: t). split; [by constructor|]. simpl. by rewrite <-Hl.
  - exists []. split; [constructor|]. eauto.
Qed.

Lemma of_marks_mark k s : of_marks (mark k s) = s.
Proof.
  revert k. induction s as [|c s IH]; intros k; [done|].
  destruct k as [|k]; cbn [mark]; [destruct (space_len _)|]; simpl; by rewrite IH.
Qed.

Lemma mark_suffix k s m1 m2 :
  mark k s = m1 ++ m2 → ∃ k', m2 = mark k' (of_marks m2).
Proof.
  revert k s. induction m1 as [|x m1 IH]; intros k s Hs.
  { exists k. simpl in Hs. by rewrite <-Hs, of_marks_mark. }
  destruct s as [|c s]; [done|].
  destruct k as [|k]; cbn [mark] in Hs; [destruct (space_len _)|];
    simplify_eq/=; eauto.
Qed.

(** The bytes of a white-space rune are marked. *)
Lemma mark_skip k s m1 c m2 : mark k s = m1 ++ (c, false) :: m2 → (k ≤ length m1)%nat.
Proof.
  revert k s. induction m1 as [|x m1 IH]; intros [|k] [|d s] Hs; simpl in *;
    simplify_eq; try lia.
  match goal with E : mark _ _ = _ |- _ => apply IH in E end. lia.
Qed.

Lemma of_marks_app m1 m2 : of_marks (m1 ++ m2) = of_marks m1 +:+ of_marks m2.
Proof. induction m1 as [|[c b] m1 IH]; simpl; [done|]. by rewrite IH. Qed.

Lemma of_marks_length m : String.length (of_marks m) = length m.
Proof. induction m as [|[c b] m IH]; simpl; [done|]. by rewrite IH. Qed.

(** Marks up to a byte that is not white space do not depend on the rest. *)
Lemma mark_prefix k s m1 c m2 :
  mark k s = m1 ++ (c, false) :: m2 →
  mark k (of_marks (m1 ++ [(c, false)])) = m1 ++ [(c, false)].
Proof.
  revert k s. induction m1 as [|[d b] m1 IH]; intros k s Hs.
  { destruct s as [|d s]; [done|]. destruct k as [|k]; [|done].
    cbn [mark] in Hs. destruct (space_len (String d s)) eqn:Hd; simplify_eq/=.
    by rewrite (space_len_app_0 (String c EmptyString) s). }
  destruct s as [|e s]; [done|].
  destruct k as [|k]; cbn [mark] in Hs; [|by simplify_eq/=; erewrite IH].
  destruct (space_len (String e s)) as [|j] eqn:Hj; simplify_eq/=;
    match goal with E : mark _ s = _ |- _ => rename E into Hm end;
    pose proof (f_equal of_marks Hm) as Hof; rewrite of_marks_mark in Hof; subst s;
    change ((c, false) :: m2) with ([(c, false)] ++ m2) in Hj;
    rewrite app_assoc, of_marks_app in Hj.
  - rewrite (space_len_app_0 (String d _) _ Hj). by erewrite IH.
  - rewrite (space_len_take _ _ _ _ Hj); [by erewrite IH|].
    rewrite of_marks_length, length_app. apply mark_skip in Hm. lia.
Qed.

Lemma fields_go_trues t cur m : trues t →
  fields_go EmptyString (t ++ m) = fields_go EmptyString m ∧
  fields_go cur (m ++ t) = fields_go cur m.
Proof.
  intros Ht. split.
  - induction Ht as [|[c []] t Hc Ht IH]; simpl in *; done.
  - revert cur. induction m as [|[c []] m IH]; intros cur; simpl; [|by destruct cur; rewrite IH..].
    revert cur. induction Ht as [|[c []] t Hc Ht IH]; intros cur; simpl in *; [done| |done].
    destruct cur; [apply IH|]. by rewrite (IH EmptyString).
Qed.

(** The marks of a string are its leading white space, the marks of the trimmed
    string and its trailing white space. *)
Lemma TrimSpace_marks s :
  ∃ t1 t2, trues t1 ∧ trues t2 ∧ mark O s = t1 ++ mark O (TrimSpace s) ++ t2.
Proof.
  destruct (drop_spaces_spec (mark O s)) as (t1 & Ht1 & Hs & Hhead).
  set (core := drop_spaces (mark O s)) in *.
  destruct (drop_spaces_spec (reverse core)) as (t2 & Ht2 & Hr & Hlast).
  set (core' := drop_spaces (reverse core)) in *.
  exists t1, (reverse t2). split; [done|]. split; [by apply Forall_reverse|].
  assert (core = reverse core' ++ reverse t2) as Hcore.
  { by rewrite <-(reverse_involutive core), Hr, reverse_app. }
  rewrite Hs, Hcore. f_equal. f_equal.
  change (TrimSpace s) with (of_marks (reverse core')).
  destruct Hlast as [->|(c & l' & Hl')]; [done|].
  rewrite Hl', reverse_cons in *.
  destruct (mark_suffix O s t1 core Hs) as [k Hk].
  destruct Hhead as [Hnil|(d & l & Hd)].
  { rewrite Hnil in Hcore. destruct (reverse l'); done. }
  assert (k = O) as -> by (destruct k; [done|rewrite Hd in Hk; done]).
  rewrite Hcore, <-app_assoc in Hk. symmetry in Hk.
  by apply mark_prefix in Hk.
Qed.

Lemma Fields_TrimSpace s : Fields (TrimSpace s) = Fields s.
Proof.
  destruct (TrimSpace_marks s) as (t1 & t2 & Ht1 & Ht2 & Hs).
  unfold Fields at 2. rewrite Hs.
  rewrite (proj1 (fields_go_trues _ EmptyString _ Ht1)).
  by rewrite (proj2 (fields_go_trues _ _ _ Ht2)).
Qed.

Lemma reverse_map {A B} (f : A → B) (l : list A) :
  reverse (map f l) = map f (reverse l).
Proof. unfold reverse. by rewrite !rev_append_rev, !app_nil_r, map_rev. Qed.

(** A string that starts with a byte that is no white space keeps it. *)
Lemma TrimSpace_head c s :
  space_len (String c s) = O → ∃ s', TrimSpace (String c s) = String c s'.
Proof.
  intros Hc. unfold TrimSpace. cbn [mark]. rewrite Hc. cbn [drop_spaces].
  rewrite reverse_cons.
  assert (∀ l, ∃ l', drop_spaces (l ++ [(c, false)]) = l' ++ [(c, false)]) as Hdrop.
  { induction l as [|[d []] l IH]; simpl; [by exists []|done|].
    by exists ((d, false) :: l). }
  destruct (Hdrop (reverse (mark O s))) as [l' ->].
  rewrite reverse_app. simpl. eauto.
Qed.

(** Trimming what has no white space, with a trailing newline or not. *)
Lemma TrimSpace_spacefree s sep :
  spacefree s = true → all_spaces sep = true → TrimSpace (s +:+ sep) = s.
Proof.
  intros Hs Hsep.
  assert (mark O (s +:+ sep) = plain_marks s ++ space_marks sep) as Hm.
  { rewrite mark_spacefree; [|done|].
    - rewrite <-(str_app_nil_r sep) at 1. rewrite mark_spaces by done. simpl. by rewrite app_nil_r.
    - destruct (decide (sep = EmptyString)) as [->|?]; [done|].
      rewrite <-(str_app_nil_r sep). by apply all_spaces_head. }
  unfold TrimSpace, plain_marks, space_marks in *. rewrite Hm. clear Hm Hsep Hs.
  assert (∀ l r, drop_spaces (map (λ c, (c, true)) l ++ r) = drop_spaces r) as Htrue
    by (intros l; induction l; simpl; auto).
  assert (∀ l, drop_spaces (map (λ c, (c, false)) l) = map (λ c, (c, false)) l) as Hfalse
    by (by intros []).
  destruct s as [|c s].
  { simpl. rewrite <-(app_nil_r (map _ _)), Htrue. done. }
  simpl. rewrite reverse_cons, reverse_app, !reverse_map, <-app_assoc, Htrue.
  change [(c, false)] with (map (λ c : ascii, (c, false)) [c]).
  rewrite <-map_app, Hfalse, reverse_map, reverse_app, reverse_involutive. simpl.
  f_equal. clear. induction s as [|c s IH]; simpl; [done|]. by rewrite IH.
Qed.

(** ** ASCII words *)

Definition ascii_word (s : string) : bool :=
  forallb (λ c, (N_of_ascii c <? 128)%N && negb (is_ascii_space c))
    (String.list_ascii_of_string s).

Lemma ascii_word_spacefree s : ascii_word s = true → spacefree s = true.
Proof.
  induction s as [|c s IH]; [done|]. unfold ascii_word. simpl.
  intros [[Hc Hsp]%andb_true_iff Hs]%andb_true_iff. rewrite IH by done.
  rewrite andb_true_r. apply Nat.eqb_eq. bool_prop. unfold space_len.
  rewrite Hsp. destruct s as [|c1 [|c2 s]]; [done| |];
    case_bool; bool_cases; try lia; try done; case_bool; bool_cases; try lia; done.
Qed.

Lemma ascii_word_app a b : ascii_word (a +:+ b) = ascii_word a && ascii_word b.
Proof. unfold ascii_word. by rewrite bytes_app, forallb_app. Qed.

Lemma ascii_word_field s : ascii_word s = true → s ≠ EmptyString → field s = true.
Proof.
  intros Hs Hne. unfold field. rewrite ascii_word_spacefree by done. by destruct s.
Qed.

(** ** Numbers *)

Lemma uint_ascii_word d : ascii_word (NilEmpty.string_of_uint d) = true.
Proof. induction d; simpl; try done; unfold ascii_word in *; simpl; done. Qed.

Lemma digits_ascii_word n : ascii_word (digits_of_N n) = true.
Proof.
  unfold digits_of_N, NilZero.string_of_uint.
  destruct (N.to_uint n) eqn:Hn; [done|..]; rewrite <-Hn; apply uint_ascii_word.
Qed.

Lemma to_uint_nonnil n : N.to_uint n ≠ Decimal.Nil.
Proof. destruct n; simpl; [done|]. apply DecimalPos.Unsigned.to_uint_nonnil. Qed.

Lemma N_of_digits_of_N n : N_of_digits (digits_of_N n) = Some n.
Proof.
  unfold N_of_digits, digits_of_N. rewrite NilZero.usu by apply to_uint_nonnil.
  simpl. by rewrite Unsigned.of_to.
Qed.

Lemma digits_head n : ∃ c s, digits_of_N n = String c s ∧ Ascii.eqb c "-" = false ∧
  Ascii.eqb c "+" = false.
Proof.
  unfold digits_of_N, NilZero.string_of_uint.
  pose proof (to_uint_nonnil n) as H. destruct (N.to_uint n); simpl; eauto.
Qed.

Lemma Itoa_nonempty z : Itoa z ≠ EmptyString.
Proof.
  unfold Itoa. case_bool; [done|]. by destruct (digits_head (Z.to_N z)) as (? & ? & -> & _).
Qed.

Lemma Itoa_word z : ascii_word (Itoa z) = true.
Proof.
  unfold Itoa. case_bool; [|apply digits_ascii_word].
  unfold ascii_word. simpl. apply (digits_ascii_word (Z.to_N (- z))).
Qed.

Lemma Itoa_field z : field (Itoa z) = true.
Proof. apply ascii_word_field; [apply Itoa_word|apply Itoa_nonempty]. Qed.

(** The characters of a number. *)
Definition numeral_chars : list ascii :=
  ["0"; "1"; "2"; "3"; "4"; "5"; "6"; "7"; "8"; "9"; "-"]%char.

Lemma digits_forallb p n :
  forallb p numeral_chars = true →
  forallb p (String.list_ascii_of_string (digits_of_N n)) = true.
Proof.
  intros Hp. unfold numeral_chars in Hp. cbn [forallb] in Hp. bool_prop.
  assert (∀ d, forallb p (String.list_ascii_of_string (NilEmpty.string_of_uint d)) = true) as Hd.
  { induction d; cbn [NilEmpty.string_of_uint String.list_ascii_of_string forallb]; [done|..];
      apply andb_true_iff; split; done. }
  unfold digits_of_N, NilZero.string_of_uint.
  destruct (N.to_uint n) eqn:Hn; [|rewrite <-Hn; apply Hd..].
  cbn [String.list_ascii_of_string forallb]. by rewrite andb_true_r.
Qed.

Lemma Itoa_forallb p z :
  forallb p numeral_chars = true → forallb p (String.list_ascii_of_string (Itoa z)) = true.
Proof.
  intros Hp. unfold Itoa. case_bool; [|by apply digits_forallb].
  cbn [String.list_ascii_of_string forallb]. apply andb_true_iff. split; [|by apply digits_forallb].
  unfold numeral_chars in Hp. cbn [forallb] in Hp. by bool_prop.
Qed.

(** [strconv.Atoi] reads back what [strconv.Itoa] prints. *)
Lemma Atoi_Itoa z : in_int64 z = true → Atoi (Itoa z) = Some z.
Proof.
  intros Hz. unfold Itoa. case_bool; bool_prop.
  - simpl. rewrite N_of_digits_of_N. simpl.
    rewrite Z2N.id by lia. by rewrite Z.opp_involutive, Hz.
  - destruct (digits_head (Z.to_N z)) as (c & s & Hs & Hm & Hp).
    unfold Atoi. rewrite Hs, Hm, Hp, <-Hs, N_of_digits_of_N. simpl.
    rewrite Z2N.id by lia. by rewrite Hz.
Qed.

Lemma Atoi_range s z : Atoi s = Some z → in_int64 z = true.
Proof.
  assert (∀ (o : option N) (g : N → Z),
    (n ← o; if in_int64 (g n) then Some (g n) else None) = Some z → in_int64 z = true) as H.
  { intros [n|] g; [|done]. simpl. destruct (in_int64 (g n)) eqn:Hg; [|done]. by intros [= <-]. }
  unfold Atoi. destruct s as [|c r]; [done|]. repeat case_bool.
  - apply (H _ (λ n, - Z.of_N n)).
  - apply (H _ Z.of_N).
  - apply (H _ Z.of_N).
Qed.

Lemma Itoa_inj a b : in_int64 a = true → in_int64 b = true → Itoa a = Itoa b → a = b.
Proof.
  intros Ha Hb H. apply (f_equal Atoi) in H. rewrite !Atoi_Itoa in H by done. congruence.
Qed.

(** The first field of every line that has one. *)
Definition first_fields (lines : list string) : list string :=
  omap (λ line, head (Fields line)) lines.

(** ** Digits *)

Definition all_digits (s : string) : bool := forallb is_digit (String.list_ascii_of_string s).

Definition digit_head (s : string) : bool :=
  match s with String c _ => is_digit c | EmptyString => false end.

Lemma take_digits_app ds s :
  all_digits ds = true → digit_head s = false →
  take_digits (ds +:+ s) = ds ∧ TrimLeftFunc is_digit (ds +:+ s) = s.
Proof.
  unfold all_digits. induction ds as [|c ds IH]; intros Hd Hs; simpl in Hd.
  - rewrite !str_nil_app. destruct s as [|c s]; [done|]. simpl in *. by rewrite Hs.
  - apply andb_true_iff in Hd as [Hc Hd]. rewrite !str_cons_app. simpl. rewrite Hc.
    destruct (IH Hd Hs) as [-> ->]. done.
Qed.

Lemma all_digits_app a b : all_digits (a +:+ b) = all_digits a && all_digits b.
Proof. unfold all_digits. by rewrite bytes_app, forallb_app. Qed.

Lemma digits_all_digits n : all_digits (digits_of_N n) = true.
Proof.
  unfold all_digits, digits_of_N, NilZero.string_of_uint.
  assert (∀ d, forallb is_digit (String.list_ascii_of_string (NilEmpty.string_of_uint d)) = true)
    as Hd by (by induction d).
  destruct (N.to_uint n); [done|apply Hd..].
Qed.

Lemma TrimRightFunc_prefix p s :
  ∃ t, s = TrimRightFunc p s +:+ t ∧ forallb p (String.list_ascii_of_string t) = true.
Proof.
  induction s as [|c s (t & Hs & Ht)]; [by exists EmptyString|]. simpl.
  destruct (TrimRightFunc p s) as [|d r] eqn:Hr.
  - rewrite str_nil_app in Hs. subst t. destruct (p c) eqn:Hc.
    + exists (String c s). split; [done|]. simpl. by rewrite Hc.
    + exists s. by split.
  - exists t. split; [|done]. by rewrite str_cons_app, <-Hs.
Qed.

(** ** Sorting *)

Lemma wrap64_id z : in_int64 z = true → wrap64 z = z.
Proof.
  unfold in_int64, wrap64, min_int64, max_int64.
  intros [?%Z.leb_le ?%Z.leb_le]%andb_true_iff. rewrite Z.mod_small; lia.
Qed.

Lemma sort_Strings_perm l : sort_Strings l ≡ₚ l.
Proof. apply merge_sort_Permutation. Qed.
Lemma sort_Ints_perm l : sort_Ints l ≡ₚ l.
Proof. apply merge_sort_Permutation. Qed.
Lemma sort_Strings_sorted l : StronglySorted String.le (sort_Strings l).
Proof. apply (StronglySorted_merge_sort String.le). Qed.
Lemma sort_Ints_sorted l : StronglySorted Z.le (sort_Ints l).
Proof. apply (StronglySorted_merge_sort Z.le). Qed.

Lemma elem_of_sort_Strings x l : x ∈ sort_Strings l ↔ x ∈ l.
Proof. by rewrite sort_Strings_perm. Qed.

(** ** Bytes that stay out *)

Lemma sep_free_app c a b : sep_free c (a +:+ b) = sep_free c a && sep_free c b.
Proof. induction a as [|x a IH]; simpl; [done|]. by rewrite IH, andb_assoc. Qed.

Lemma Split_keeps_free c d s x :
  sep_free c s = true → x ∈ Split d s → sep_free c x = true.
Proof.
  revert x. induction s as [|y s IH]; intros x; simpl.
  { by intros _ ->%list_elem_of_singleton. }
  intros [Hy Hs]%andb_true_iff. destruct (Ascii.eqb y d).
  { intros [->|?]%elem_of_cons; [done|auto]. }
  destruct (Split_cons d s) as (z & zs & Hz). rewrite Hz in *.
  intros [->|?]%elem_of_cons; simpl; [|apply IH; [done|set_solver]].
  rewrite Hy. apply IH; [done|set_solver].
Qed.

(** Removing every occurrence of a one-byte string. *)
Lemma ReplaceAll_char_free c s :
  sep_free c (ReplaceAll s (String c EmptyString) EmptyString) = true.
Proof.
  unfold ReplaceAll. induction s as [|x s IH]; [done|].
  cbn [replace_go]. simpl String.prefix.
  destruct (ascii_dec c x) as [->|Hne].
  - assert (String.prefix EmptyString s = true) as -> by by destruct s. exact IH.
  - simpl. rewrite IH, andb_true_r. apply negb_true_iff. apply Ascii.eqb_neq. congruence.
Qed.

Lemma ReplaceAll_char_id c s :
  sep_free c s = true → ReplaceAll s (String c EmptyString) EmptyString = s.
Proof.
  unfold ReplaceAll. induction s as [|x s IH]; [done|].
  cbn [replace_go]. simpl. intros [Hx Hs]%andb_true_iff.
  destruct (ascii_dec c x) as [->|Hne]; [by rewrite Ascii.eqb_refl in Hx|]. by rewrite IH.
Qed.

Lemma Cut_app c a b : sep_free c a = true → Cut c (a +:+ String c b) = (a, b, true).
Proof.
  induction a as [|x a IH]; simpl; intros H.
  - by rewrite Ascii.eqb_refl.
  - bool_prop. rewrite IH by done. by case_bool; simplify_eq.
Qed.

Lemma TrimSpace_space c s : is_ascii_space c = true → TrimSpace (String c s) = TrimSpace s.
Proof.
  intros Hc. unfold TrimSpace. simpl. by rewrite space_len_1.
Qed.

(** The first byte decides a one-byte prefix. *)
Lemma HasPrefix_head d k s :
  k ≠ EmptyString →
  HasPrefix (k +:+ s) (String d EmptyString) = HasPrefix k (String d EmptyString).
Proof.
  assert (∀ s, String.prefix EmptyString s = true) as Hnil by by intros [].
  destruct k; [done|]. intros _. rewrite str_cons_app. unfold HasPrefix. simpl.
  by rewrite !Hnil.
Qed.

Lemma Split_line s r :
  sep_free nl s = true → Split nl (s +:+ nls +:+ r) = s :: Split nl r.
Proof. intros Hs. unfold nls. rewrite str_cons_app, str_nil_app. by apply Split_app_sep. Qed.

Lemma sep_free_forallb c s :
  sep_free c s = forallb (λ d, negb (Ascii.eqb d c)) (String.list_ascii_of_string s).
Proof. induction s as [|d s IH]; simpl; [done|]. by rewrite IH. Qed.

Lemma Itoa_sep_free c z :
  existsb (λ d, Ascii.eqb d c) numeral_chars = false → sep_free c (Itoa z) = true.
Proof.
  intros Hc. rewrite sep_free_forallb. apply Itoa_forallb.
  induction numeral_chars as [|d l IH]; [done|]. simpl in *. bool_prop.
  apply andb_true_iff. split; [by apply negb_true_iff|by apply IH].
Qed.

Lemma TrimSpace_id s : spacefree s = true → TrimSpace s = s.
Proof.
  intros Hs. pose proof (TrimSpace_spacefree s EmptyString Hs eq_refl) as H.
  by rewrite str_app_nil_r in H.
Qed.

(** *** Lines made of fields *)

(** The last byte is no white space. *)
Definition ends_plain (s : string) : Prop := ∃ m d, mark O s = m ++ [(d, false)].

Lemma plain_marks_ends s : s ≠ EmptyString → ∃ m d, plain_marks s = m ++ [(d, false)].
Proof.
  induction s as [|c s IH]; [done|]. intros _. destruct (decide (s = EmptyString)) as [->|Hne].
  - by exists [], c.
  - destruct (IH Hne) as (m & d & Hs). exists ((c, false) :: m), d.
    change (plain_marks (String c s)) with ((c, false) :: plain_marks s). by rewrite Hs.
Qed.

Lemma field_ends s : field s = true → ends_plain s.
Proof.
  intros [Hs Hne]%field_inv. unfold ends_plain.
  rewrite <-(str_app_nil_r s), mark_spacefree by done.
  destruct (plain_marks_ends s Hne) as (m & d & ->). simpl. by exists m, d; rewrite app_nil_r.
Qed.

Lemma spaced_ends s sep r :
  field s = true → all_spaces sep = true → sep ≠ EmptyString → ends_plain r →
  ends_plain (s +:+ sep +:+ r).
Proof.
  intros [Hs Hne]%field_inv Hsep Hsne (m & d & Hr). unfold ends_plain.
  rewrite mark_spacefree by (done || by apply all_spaces_head).
  rewrite mark_spaces, Hr by done.
  exists (plain_marks s ++ space_marks sep ++ m), d. by rewrite <-!app_assoc.
Qed.

Lemma Join_ends sep l :
  l ≠ [] → Forall (λ s, field s = true) l → all_spaces sep = true → sep ≠ EmptyString →
  ends_plain (Join sep l).
Proof.
  intros Hne Hl Hsep Hsne. induction Hl as [|s l Hs Hl IH]; [done|].
  destruct l as [|s' l]; [by apply field_ends|].
  rewrite Join_cons by done. apply spaced_ends; [done..|]. by apply IH.
Qed.

Lemma TrimSpace_ends c s :
  space_len (String c s) = O → ends_plain (String c s) → TrimSpace (String c s) = String c s.
Proof.
  intros Hc (m & d & Hm). unfold TrimSpace.
  assert (drop_spaces (mark O (String c s)) = mark O (String c s)) as ->.
  { simpl. by rewrite Hc. }
  rewrite Hm, reverse_snoc. cbn [drop_spaces]. rewrite <-reverse_snoc, reverse_involutive, <-Hm.
  apply of_marks_mark.
Qed.
