(* ===== verification/GoPath.v ===== *)
(** * [path/filepath]: lexical path processing

    [Clean], [Join], [Dir], [Base] and [Match] of the standard library, on the
    slash-separated paths of Linux, with the lemmas that place a joined path
    below its root. *)

From S2P Require Import Prelude GoStrings.

#[local] Arguments String.append !s1 s2 / : simpl nomatch.

Definition slash : ascii := "/".
Definition slashs : string := String slash EmptyString.

(** ** [Clean] and [Join] *)

(** One path element against the stack of elements kept so far (innermost first). *)
Definition clean_step (rooted : bool) (st : list string) (e : string) : list string :=
  if String.eqb e EmptyString || String.eqb e "." then st
  else if String.eqb e ".." then
    match st with
    | [] => if rooted then [] else [e]
    | x :: st' => if String.eqb x ".." then e :: st else st'
    end
  else e :: st.

Definition clean_stack (rooted : bool) (st : list string) (es : list string) :
    list string := fold_left (clean_step rooted) es st.

Definition is_rooted (p : string) : bool := HasPrefix p slashs.

(** The elements of the cleaned path, outermost first. *)
Definition clean_elems (p : string) : list string :=
  reverse (clean_stack (is_rooted p) [] (Split slash p)).

Definition render_path (rooted : bool) (es : list string) : string :=
  if rooted then slashs +:+ Join slashs es
  else match es with [] => "." | _ => Join slashs es end.

Definition Clean (p : string) : string := render_path (is_rooted p) (clean_elems p).

Fixpoint JoinPath (es : list string) : string :=
  match es with
  | [] => EmptyString
  | EmptyString :: es' => JoinPath es'
  | _ => Clean (Join slashs es)
  end.

(** [filepath.Split]: everything up to the last slash, and the rest. *)
Fixpoint SplitPath (p : string) : string * string :=
  match p with
  | EmptyString => (EmptyString, EmptyString)
  | String c p' =>
      let '(d, f) := SplitPath p' in
      match d with
      | EmptyString => if Ascii.eqb c slash then (slashs, f) else (EmptyString, String c f)
      | _ => (String c d, f)
      end
  end.

Definition DirPath (p : string) : string := Clean (SplitPath p).1.

Definition BasePath (p : string) : string :=
  match p with
  | EmptyString => "."
  | _ => match TrimRightFunc (Ascii.eqb slash) p with
         | EmptyString => slashs
         | q => (SplitPath q).2
         end
  end.

(** The child [name] of the directory [dir], the way [os.CreateTemp] and
    [filepath.Join] build it for a plain [name]. *)
Definition child (dir name : string) : string :=
  if HasSuffix dir slashs then dir +:+ name else dir +:+ slashs +:+ name.

(** The proper ancestors of a clean rooted path, outermost first. *)
Fixpoint prefixes {A} (l : list A) : list (list A) :=
  match l with
  | [] => []
  | x :: l => [] :: (cons x <$> prefixes l)
  end.

Definition ancestors (p : string) : list string :=
  render_path (is_rooted p) <$> prefixes (clean_elems p).

#[global] Typeclasses Opaque JoinPath Clean DirPath BasePath child ancestors.

(** ** [Match]

    A pattern is a list of chunks: [filepath.Match] tries them in the same order,
    a star against every split of the rest of the name. The patterns of the program
    use stars and one character class. *)

Inductive pat : Type :=
| PStar
| PAny
| PClass (neg : bool) (ranges : list (ascii * ascii))
| PChar (c : ascii).

Definition in_range (c : ascii) (r : ascii * ascii) : bool :=
  ((N_of_ascii r.1 <=? N_of_ascii c) && (N_of_ascii c <=? N_of_ascii r.2))%N.

(** The ranges of a character class up to its closing bracket; [first] while the
    class is still empty. *)
Fixpoint parse_class (fuel : nat) (neg : bool) (acc : list (ascii * ascii)) (p : string) :
    option (pat * string) :=
  match fuel with
  | O => None
  | S fuel =>
    let char s :=
      match s with
      | String "\" (String c s') => Some (c, s')
      | String "-" _ => None
      | String "]" _ => None
      | String c s' => Some (c, s')
      | EmptyString => None
      end in
    match p, acc with
    | String "]" p', _ :: _ => Some (PClass neg acc, p')
    | _, _ =>
      '(lo, p1) ← char p;
      match p1 with
      | String "-" p2 =>
          '(hi, p3) ← char p2; parse_class fuel neg (acc ++ [(lo, hi)]) p3
      | _ => parse_class fuel neg (acc ++ [(lo, lo)]) p1
      end
    end
  end.

(** The chunks of a pattern; [None] is [ErrBadPattern]. *)
Fixpoint parse_pat (fuel : nat) (p : string) : option (list pat) :=
  match fuel with
  | O => None
  | S fuel =>
    match p with
    | EmptyString => Some []
    | String "*" p => cons PStar <$> parse_pat fuel p
    | String "?" p => cons PAny <$> parse_pat fuel p
    | String "[" (String "^" p) =>
        '(c, p) ← parse_class (S (String.length p)) true [] p;
        cons c <$> parse_pat fuel p
    | String "[" p =>
        '(c, p) ← parse_class (S (String.length p)) false [] p;
        cons c <$> parse_pat fuel p
    | String "\" EmptyString => None
    | String "\" (String c p) => cons (PChar c) <$> parse_pat fuel p
    | String c p => cons (PChar c) <$> parse_pat fuel p
    end
  end.

(** Does the name match? Names hold no slash, which a star does not cross. *)
Fixpoint match_pat (ps : list pat) (s : string) : bool :=
  match ps with
  | [] => String.eqb s EmptyString
  | PStar :: ps =>
      (fix star (s : string) : bool :=
         match_pat ps s ||
         match s with
         | EmptyString => false
         | String c s' => negb (Ascii.eqb c slash) && star s'
         end) s
  | p :: ps =>
      match s with
      | EmptyString => false
      | String c s' =>
          match p with
          | PAny => negb (Ascii.eqb c slash)
          | PClass neg rs => xorb neg (existsb (in_range c) rs)
          | PChar d => Ascii.eqb c d
          | PStar => true
          end && match_pat ps s'
      end
  end.

Definition has_meta (p : string) : bool :=
  existsb (λ c, existsb (Ascii.eqb c) ["*"; "?"; "["; "\"]%char)
    (String.list_ascii_of_string p).

(** [filepath.Match]; [None] is [ErrBadPattern]. *)
Definition Match (pattern name : string) : option bool :=
  (λ ps, match_pat ps name) <$> parse_pat (S (String.length pattern)) pattern.

(** Every step takes at least a byte, so the length of the pattern is fuel enough. *)
Lemma parse_class_shorter f neg acc p c p' :
  parse_class f neg acc p = Some (c, p') → String.length p' < String.length p.
Proof.
  revert acc p. induction f as [|f IH]; intros acc p; [done|]. cbn [parse_class].
  repeat case_match; intros; simplify_option_eq; repeat case_match; simplify_eq; simpl in *;
    try (match goal with H : parse_class _ _ _ _ = _ |- _ => apply IH in H end; simpl in * ); lia.
Qed.

Lemma parse_class_fuel f f' neg acc p :
  String.length p < f → String.length p < f' → parse_class f neg acc p = parse_class f' neg acc p.
Proof.
  revert f' acc p. induction f as [|f IH]; intros f' acc p Hf Hf'; [lia|].
  destruct f' as [|f']; [lia|]. cbn [parse_class].
  repeat case_match; simplify_option_eq; repeat case_match; simplify_eq; simpl in *;
    first [done|apply IH; simpl; lia].
Qed.

Lemma parse_pat_fuel f f' p :
  String.length p < f → String.length p < f' → parse_pat f p = parse_pat f' p.
Proof.
  revert f' p. induction f as [|f IH]; intros f' p Hf Hf'; [lia|].
  destruct f' as [|f']; [lia|].
  assert (∀ neg q, String.length q < String.length p →
    ('(c, q) ← parse_class (S (String.length q)) neg [] q; cons c <$> parse_pat f q) =
    ('(c, q) ← parse_class (S (String.length q)) neg [] q; cons c <$> parse_pat f' q)) as Hclass.
  { intros neg q Hq. destruct (parse_class _ neg [] q) as [[c q']|] eqn:Hc; [|done].
    apply parse_class_shorter in Hc. simpl. f_equal. apply IH; lia. }
  cbn [parse_pat]. repeat case_match; simpl in Hf, Hf';
    first [done|apply Hclass; simpl; lia|f_equal; apply IH; simpl; lia].
Qed.

(** ** Plain elements

    A rooted clean path is a list of plain elements; [rooted_path] and [clean_elems]
    are inverse to each other on them. *)

Definition plain_elem (e : string) : bool :=
  sep_free slash e && negb (String.eqb e EmptyString) && negb (String.eqb e ".")
  && negb (String.eqb e "..").

Definition plain_elems (es : list string) : Prop := Forall (λ e, plain_elem e = true) es.

Definition rooted_path (es : list string) : string := slashs +:+ Join slashs es.

Lemma plain_elem_inv e : plain_elem e = true →
  sep_free slash e = true ∧ e ≠ EmptyString ∧ e ≠ "." ∧ e ≠ "..".
Proof.
  unfold plain_elem. intros H. bool_prop.
  repeat match goal with H : String.eqb _ _ = false |- _ => apply String.eqb_neq in H end.
  done.
Qed.

Lemma plain_elem_long e :
  sep_free slash e = true → 3 ≤ String.length e → plain_elem e = true.
Proof.
  intros Hfree Hlen. unfold plain_elem. rewrite Hfree.
  repeat (destruct e as [|? e]; [simpl in Hlen; lia|]). simpl.
  repeat match goal with |- context [Ascii.eqb ?a ?b] => destruct (Ascii.eqb a b) end; done.
Qed.

Lemma plain_elems_app l1 l2 : plain_elems (l1 ++ l2) ↔ plain_elems l1 ∧ plain_elems l2.
Proof. apply Forall_app. Qed.

Lemma plain_elems_cons e l : plain_elems (e :: l) ↔ plain_elem e = true ∧ plain_elems l.
Proof. unfold plain_elems. by rewrite Forall_cons. Qed.

Lemma clean_step_plain b st e : plain_elem e = true → clean_step b st e = e :: st.
Proof.
  intros (_ & H1 & H2 & H3)%plain_elem_inv. unfold clean_step.
  apply String.eqb_neq in H1, H2, H3. by rewrite H1, H2, H3.
Qed.

Lemma clean_stack_app b st l1 l2 :
  clean_stack b st (l1 ++ l2) = clean_stack b (clean_stack b st l1) l2.
Proof. apply fold_left_app. Qed.

Lemma clean_stack_plain b st es :
  Forall (λ e, e = EmptyString ∨ plain_elem e = true) es →
  clean_stack b st es = reverse (filter (λ e, e ≠ EmptyString) es) ++ st.
Proof.
  intros H. revert st. induction H as [|e es He _ IH]; intros st; [done|].
  simpl. destruct He as [->|He].
  - rewrite IH. by rewrite filter_cons_False by naive_solver.
  - rewrite clean_step_plain by done. rewrite IH.
    rewrite filter_cons_True by by apply plain_elem_inv in He as (_ & ? & _).
    by rewrite reverse_cons, <-app_assoc.
Qed.

Lemma clean_step_rooted_plain st e :
  plain_elems st → sep_free slash e = true → plain_elems (clean_step true st e).
Proof.
  intros Hst He. unfold clean_step.
  destruct (String.eqb e EmptyString) eqn:H1; [done|].
  destruct (String.eqb e ".") eqn:H2; [done|].
  destruct (String.eqb e "..") eqn:H3; simpl.
  - destruct st as [|x st]; [done|]. apply plain_elems_cons in Hst as [Hx Hst].
    destruct (String.eqb x "..") eqn:Hxx; [|done].
    apply String.eqb_eq in Hxx as ->. done.
  - constructor; [|done]. unfold plain_elem. by rewrite He, H1, H2, H3.
Qed.

Lemma clean_elems_rooted p : is_rooted p = true → plain_elems (clean_elems p).
Proof.
  intros Hp. unfold clean_elems, clean_stack. rewrite Hp.
  apply Forall_reverse.
  enough (∀ l st, plain_elems st → Forall (λ e, sep_free slash e = true) l →
    plain_elems (fold_left (clean_step true) l st)) as H.
  { apply H; [constructor|]. apply Forall_forall, Split_sep_free. }
  induction l as [|e l IH]; intros st Hst Hl; [done|].
  apply Forall_cons in Hl as [He Hl]. simpl. apply IH; [|done].
  by apply clean_step_rooted_plain.
Qed.

Lemma plain_sep_free es :
  plain_elems es → Forall (λ e, sep_free slash e = true) es.
Proof.
  intros H. eapply Forall_impl; [exact H|]. by intros e (? & _)%plain_elem_inv.
Qed.

Lemma Split_rooted es :
  plain_elems es → es ≠ [] → Split slash (rooted_path es) = EmptyString :: es.
Proof.
  intros Hes Hne. unfold rooted_path. simpl.
  f_equal. apply Split_Join; [done|by apply plain_sep_free].
Qed.

Lemma filter_plain es : plain_elems es → filter (λ e, e ≠ EmptyString) es = es.
Proof.
  induction 1 as [|e es He _ IH]; [done|].
  rewrite filter_cons_True; [by rewrite IH|]. by apply plain_elem_inv in He as (_ & ? & _).
Qed.

Lemma is_rooted_path es : is_rooted (rooted_path es) = true.
Proof. apply prefix_app. Qed.

Lemma clean_elems_rooted_path es : plain_elems es → clean_elems (rooted_path es) = es.
Proof.
  intros Hes. destruct (decide (es = [])) as [->|Hne]; [done|].
  unfold clean_elems. rewrite is_rooted_path, Split_rooted by done.
  change (EmptyString :: es) with ([EmptyString] ++ es).
  rewrite clean_stack_app, clean_stack_plain.
  - simpl. rewrite app_nil_r, reverse_involutive. by apply filter_plain.
  - eapply Forall_impl; [done|]. auto.
Qed.

Lemma rooted_path_inj es es' :
  plain_elems es → plain_elems es' → rooted_path es = rooted_path es' → es = es'.
Proof.
  intros H H' E. by rewrite <-(clean_elems_rooted_path es), E, clean_elems_rooted_path.
Qed.

(** ** Paths below a rooted directory *)

Lemma is_rooted_inv p : is_rooted p = true → ∃ p', p = String slash p'.
Proof. intros [r ->]%prefix_true_inv. by exists r. Qed.

Lemma is_rooted_slash r : is_rooted (String slash r) = true.
Proof. apply (prefix_app slashs r). Qed.

Lemma Split_Join_head r es :
  Forall (λ e, sep_free slash e = true) es →
  Split slash (Join slashs (r :: es)) = Split slash r ++ es.
Proof.
  intros Hes. destruct es as [|e es]; [by rewrite app_nil_r|].
  rewrite Join_cons by done. unfold slashs at 1. rewrite str_cons_app, Split_app.
  f_equal. by apply (Split_Join slash (e :: es)).
Qed.

(** Joining elements without a slash, a dot or a dot-dot onto a rooted path stays
    below it: the empty ones disappear, the others are appended. *)
Lemma JoinPath_below root es :
  is_rooted root = true → Forall (λ e, e = EmptyString ∨ plain_elem e = true) es →
  JoinPath (root :: es) =
  rooted_path (clean_elems root ++ filter (λ e, e ≠ EmptyString) es).
Proof.
  intros Hroot Hes.
  destruct (is_rooted_inv root Hroot) as [r Hr].
  assert (Forall (λ e, sep_free slash e = true) es) as Hfree.
  { eapply Forall_impl; [exact Hes|]. intros e [->|He%plain_elem_inv]; naive_solver. }
  assert (is_rooted (Join slashs (root :: es)) = true) as Hj.
  { rewrite Hr. destruct es; apply is_rooted_slash. }
  assert (JoinPath (root :: es) = Clean (Join slashs (root :: es))) as ->
    by by rewrite Hr.
  unfold Clean, clean_elems. rewrite Hj, Split_Join_head by done.
  unfold render_path, rooted_path. do 2 f_equal.
  rewrite clean_stack_app, clean_stack_plain by done.
  rewrite reverse_app, reverse_involutive. by rewrite Hroot.
Qed.

Lemma JoinPath_plain root es :
  is_rooted root = true → plain_elems es →
  JoinPath (root :: es) = rooted_path (clean_elems root ++ es).
Proof.
  intros Hroot Hes. rewrite JoinPath_below; [by rewrite filter_plain|done|].
  eapply Forall_impl; [exact Hes|]. auto.
Qed.

(** ** Ancestors *)

Lemma ancestors_rooted es :
  plain_elems es → ancestors (rooted_path es) = rooted_path <$> prefixes es.
Proof.
  intros Hes. unfold ancestors. by rewrite is_rooted_path, clean_elems_rooted_path.
Qed.

Lemma elem_of_prefixes {A} (l pre : list A) :
  pre ∈ prefixes l ↔ ∃ x post, l = pre ++ x :: post.
Proof.
  revert pre. induction l as [|a l IH]; intros pre; simpl.
  - split; [by intros ?%elem_of_nil|]. intros (x & post & H). by destruct pre.
  - rewrite elem_of_cons, list_elem_of_fmap. split.
    + intros [->|(pre' & -> & (x & post & ->)%IH)]; [by exists a, l|].
      by exists x, post.
    + intros (x & post & H). destruct pre as [|b pre]; [by left|].
      simplify_eq/=. right. exists pre. split; [done|]. apply IH. eauto.
Qed.

Lemma elem_of_ancestors es q :
  plain_elems es →
  q ∈ ancestors (rooted_path es) ↔
  ∃ pre x post, es = pre ++ x :: post ∧ q = rooted_path pre.
Proof.
  intros Hes. rewrite ancestors_rooted, list_elem_of_fmap by done. split.
  - intros (pre & -> & (x & post & H)%elem_of_prefixes). eauto.
  - intros (pre & x & post & H & ->). exists pre. split; [done|].
    apply elem_of_prefixes. eauto.
Qed.

(** ** Directory and base name *)

Lemma SplitPath_app d f :
  sep_free slash f = true → SplitPath (d +:+ slashs +:+ f) = (d +:+ slashs, f).
Proof.
  intros Hf. unfold slashs.
  assert (SplitPath f = (EmptyString, f)) as Hf'.
  { induction f as [|c f IH]; [done|]. simpl in *. bool_prop. rewrite IH by done.
    by rewrite H. }
  induction d as [|c d IH]; simpl in *; [by rewrite Hf'|].
  rewrite IH. by destruct d.
Qed.

Lemma Join_snoc sep l x : l ≠ [] → Join sep (l ++ [x]) = Join sep l +:+ sep +:+ x.
Proof.
  induction l as [|y l IH]; [done|]. intros _.
  destruct (decide (l = [])) as [->|Hl]; [done|].
  simpl app. rewrite !Join_cons, IH by (by destruct l). by str_simpl.
Qed.

Lemma DirPath_snoc es e :
  plain_elems (es ++ [e]) → DirPath (rooted_path (es ++ [e])) = rooted_path es.
Proof.
  intros [Hes He]%plain_elems_app. apply plain_elems_cons in He as [He _].
  apply plain_elem_inv in He as (He & _).
  unfold DirPath, rooted_path.
  destruct (decide (es = [])) as [->|Hne].
  { pose proof (SplitPath_app EmptyString e He) as H. simpl in *. by rewrite H. }
  rewrite Join_snoc by done. rewrite <-str_app_assoc, SplitPath_app by done. cbn [fst].
  assert (clean_elems ((slashs +:+ Join slashs es) +:+ slashs) = es) as Hce.
  { unfold clean_elems. rewrite str_app_assoc.
    unfold is_rooted, HasPrefix. rewrite prefix_app.
    assert (Split slash (slashs +:+ Join slashs es +:+ slashs) =
      EmptyString :: es ++ [EmptyString]) as ->.
    { simpl. f_equal. unfold slashs at 2. rewrite Split_app.
      f_equal. apply Split_Join; [done|by apply plain_sep_free]. }
    rewrite clean_stack_plain.
    - rewrite app_nil_r, reverse_involutive.
      rewrite filter_cons_False, filter_app by naive_solver.
      rewrite filter_plain, filter_cons_False by (done || naive_solver).
      by rewrite app_nil_r.
    - constructor; [by left|]. apply Forall_app. split; [|by repeat constructor].
      eapply Forall_impl; [exact Hes|]. auto. }
  unfold Clean. rewrite Hce. unfold is_rooted, HasPrefix.
  by rewrite str_app_assoc, prefix_app.
Qed.

(** The file [e] in the directory [es] of the root. *)
Definition file_path (es : list string) (e : string) : string := rooted_path (es ++ [e]).

Lemma HasSuffix_app s suf : HasSuffix (s +:+ suf) suf = true.
Proof.
  induction s as [|c s IH].
  - rewrite str_nil_app. destruct suf; cbn [HasSuffix]; by rewrite String.eqb_refl.
  - rewrite str_cons_app. cbn [HasSuffix]. rewrite IH. apply orb_true_r.
Qed.

Lemma HasSuffix_true_inv s suf : HasSuffix s suf = true → ∃ r, s = r +:+ suf.
Proof.
  induction s as [|c s IH]; cbn [HasSuffix]; intros [Heq|H]%orb_true_iff.
  - exists EmptyString. rewrite str_nil_app. by apply String.eqb_eq.
  - done.
  - exists EmptyString. rewrite str_nil_app. by apply String.eqb_eq.
  - destruct (IH H) as [r ->]. by exists (String c r).
Qed.

Lemma HasSuffix_cons c s :
  s ≠ EmptyString → HasSuffix (String c s) (String slash EmptyString) =
  HasSuffix s (String slash EmptyString).
Proof.
  intros Hs. cbn [HasSuffix].
  assert (String.eqb (String c s) (String slash EmptyString) = false) as ->; [|done].
  apply String.eqb_neq. naive_solver.
Qed.

Lemma HasSuffix_slash_free s e :
  sep_free slash e = true → e ≠ EmptyString → HasSuffix (s +:+ e) slashs = false.
Proof.
  intros He Hne. unfold slashs. induction s as [|c s IH].
  - rewrite str_nil_app. induction e as [|d e IH]; [done|]. simpl in He. bool_prop.
    destruct (decide (e = EmptyString)) as [->|He'].
    + cbn [HasSuffix]. simpl. match goal with E : Ascii.eqb _ _ = false |- _ => by rewrite E end.
    + rewrite HasSuffix_cons by done. auto.
  - rewrite str_cons_app, HasSuffix_cons; [done|by rewrite str_app_eq_nil; naive_solver].
Qed.

Lemma rooted_path_snoc es e :
  es ≠ [] → rooted_path (es ++ [e]) = rooted_path es +:+ slashs +:+ e.
Proof. intros Hes. unfold rooted_path. rewrite Join_snoc by done. by str_simpl. Qed.

Lemma rooted_path_no_slash es e :
  plain_elems (es ++ [e]) → HasSuffix (rooted_path (es ++ [e])) slashs = false.
Proof.
  intros [_ He]%plain_elems_app. apply plain_elems_cons in He as [He _].
  apply plain_elem_inv in He as (He & Hne & _).
  destruct (decide (es = [])) as [->|Hes].
  - by apply HasSuffix_slash_free.
  - rewrite rooted_path_snoc, <-str_app_assoc by done. by apply HasSuffix_slash_free.
Qed.

(** The children of a rooted directory. *)
Lemma child_rooted es name :
  plain_elems es → child (rooted_path es) name = rooted_path (es ++ [name]).
Proof.
  intros Hes. unfold child. destruct es as [|e0 es0] eqn:Heq using rev_ind; [done|].
  rewrite rooted_path_no_slash by done.
  rewrite (rooted_path_snoc (_ ++ [_])) by (by destruct es0). done.
Qed.

Lemma TrimRightFunc_slash_free e :
  sep_free slash e = true → TrimRightFunc (Ascii.eqb slash) e = e.
Proof.
  induction e as [|c e IH]; [done|]. simpl. intros H. bool_prop. rewrite IH by done.
  destruct e; [|done]. rewrite Ascii.eqb_sym.
  match goal with E : Ascii.eqb _ _ = false |- _ => by rewrite E end.
Qed.

Lemma file_path_eq es e :
  plain_elems es → file_path es e = child (rooted_path es) e.
Proof. intros H. by rewrite child_rooted. Qed.

Lemma DirPath_file es e : plain_elems (es ++ [e]) → DirPath (file_path es e) = rooted_path es.
Proof. apply DirPath_snoc. Qed.

Lemma BasePath_file es e : plain_elems (es ++ [e]) → BasePath (file_path es e) = e.
Proof.
  intros H. pose proof H as [Hes He]%plain_elems_app.
  apply plain_elems_cons in He as [He _]. apply plain_elem_inv in He as (He & Hne & _).
  rewrite file_path_eq by done.
  assert (∃ d, child (rooted_path es) e = d +:+ slashs +:+ e) as [d Hd].
  { rewrite child_rooted by done. destruct (decide (es = [])) as [->|Hes'].
    - by exists EmptyString.
    - exists (rooted_path es). by apply rooted_path_snoc. }
  rewrite Hd. unfold BasePath. clear Hd.
  assert (∀ d, TrimRightFunc (Ascii.eqb slash) (d +:+ e) = d +:+ e) as Htrim.
  { clear d. induction d as [|c d IH].
    - by apply TrimRightFunc_slash_free.
    - rewrite str_cons_app. simpl. rewrite IH. by destruct d, e. }
  assert (TrimRightFunc (Ascii.eqb slash) (d +:+ slashs +:+ e) = d +:+ slashs +:+ e) as Ht
    by (rewrite <-str_app_assoc; apply Htrim).
  pose proof (SplitPath_app d e He) as Hsp.
  assert (d +:+ slashs +:+ e ≠ EmptyString) as Hq by by destruct d.
  destruct (d +:+ slashs +:+ e) as [|c q]; [done|]. by rewrite Ht, Hsp.
Qed.

(** A number is the name of a file. *)
Lemma plain_elem_Itoa z : plain_elem (Itoa z) = true.
Proof.
  unfold plain_elem. rewrite Itoa_sep_free by by vm_compute. simpl.
  pose proof (Itoa_sep_free "." z eq_refl) as Hdot. pose proof (Itoa_nonempty z) as Hne.
  destruct (String.eqb_spec (Itoa z) EmptyString) as [?|_]; [done|].
  destruct (String.eqb_spec (Itoa z) ".") as [H|_]; [by rewrite H in Hdot|].
  destruct (String.eqb_spec (Itoa z) "..") as [H|_]; [by rewrite H in Hdot|done].
Qed.
