(* ===== verification/GoOS.v ===== *)
(** * [os], [path/filepath] and the host

    The host the program runs on: a file system of directories, regular files and
    kernel attributes (the files of [/proc] and [/sys], whose reads and writes the
    kernel answers), and the calls of [os] and [filepath] on it. What the kernel does
    with a write to one of its attributes, and which calls fail for reasons outside
    the program (a full disk, a read-only mount), is the parameter [Kernel]. *)

From S2P Require Import Prelude GoStrings GoPath.

(** ** Errors *)

Inductive errno : Set :=
| ENOENT | EEXIST | EISDIR | ENOTDIR | EACCES | EPERM | EROFS | EIO | EINVAL | ENOSPC
| EBUSY | EOPNOTSUPP.

#[export] Instance errno_eq_dec : EqDecision errno.
Proof. solve_decision. Defined.

Definition strerror (e : errno) : string :=
  match e with
  | ENOENT => "no such file or directory"
  | EEXIST => "file exists"
  | EISDIR => "is a directory"
  | ENOTDIR => "not a directory"
  | EACCES => "permission denied"
  | EPERM => "operation not permitted"
  | EROFS => "read-only file system"
  | EIO => "input/output error"
  | EINVAL => "invalid argument"
  | ENOSPC => "no space left on device"
  | EBUSY => "device or resource busy"
  | EOPNOTSUPP => "operation not supported"
  end.

(** Go error values: [*fs.PathError], [*os.LinkError], an error with a fixed text and
    [fmt.Errorf] with one [%w] between two texts. *)
Inductive error : Set :=
| PathError (op path : string) (e : errno)
| LinkError (op old new : string) (e : errno)
| TextError (msg : string)
| WrapError (pre : string) (inner : error) (post : string).

#[export] Instance error_eq_dec : EqDecision error.
Proof. solve_decision. Defined.

Fixpoint Error (e : error) : string :=
  match e with
  | PathError op path e => op +:+ " " +:+ path +:+ ": " +:+ strerror e
  | LinkError op old new e => op +:+ " " +:+ old +:+ " " +:+ new +:+ ": " +:+ strerror e
  | TextError msg => msg
  | WrapError pre e post => pre +:+ Error e +:+ post
  end.

(** [fmt.Errorf("msg: %w", err)]. *)
Definition Wrap (msg : string) (e : error) : error := WrapError (msg +:+ ": ") e EmptyString.

(** [os.IsNotExist] looks through the [os] errors, not through [%w]. *)
Definition IsNotExist (e : error) : bool :=
  match e with
  | PathError _ _ ENOENT | LinkError _ _ _ ENOENT => true
  | _ => false
  end.

(** ** The host *)

Inductive node : Set :=
| NDir
| NFile (mode : Z) (content : string)
| NKnob (content : result errno string).

#[export] Instance node_eq_dec : EqDecision node.
Proof. solve_decision. Defined.

(** [fs]: the nodes at their clean paths. [host]: what the external commands know and
    no file shows (ring sizes, systemd's units). *)
Record World : Set := mkWorld {
  fs : gmap string node;
  host : gmap string string
}.

#[export] Instance World_eq_dec : EqDecision World.
Proof. solve_decision. Defined.

Definition set_fs (f : gmap string node → gmap string node) (w : World) : World :=
  mkWorld (f (fs w)) (host w).

Definition IO (A : Type) : Type := M World (result error A).

Inductive fsop : Set :=
| OpMkdir | OpCreate | OpWrite | OpChmod | OpClose | OpRename | OpRemove.

(** What the kernel decides: the content of an attribute after a write to it (given
    its path, its content so far and the data), the calls that fail, the random
    numbers that temporary names are made of. *)
Class Kernel : Type := {
  knob_write : string → result errno string → string → result errno (result errno string);
  fault : fsop → string → option errno;
  random : World → nat → N
}.

(** The random part of a temporary name: 32 bits of the runtime's random numbers, in decimal. *)
Definition nextRandom {HK : Kernel} (w : World) (i : nat) : string :=
  Itoa (Z.of_N (random w i mod 2 ^ 32)).

(** The error of a path that is not there. *)
Definition missing_errno (m : gmap string node) (path : string) : errno :=
  if existsb (λ a, match m !! a with Some (NFile _ _) | Some (NKnob _) => true | _ => false end)
       (ancestors path)
  then ENOTDIR else ENOENT.

(** ** Reading *)

Definition Stat (path : string) : IO () :=
  gets (λ w, match fs w !! path with
             | Some _ => Ok ()
             | None => Err (PathError "stat" path (missing_errno (fs w) path))
             end).

Definition read_node (m : gmap string node) (path : string) : result error string :=
  match m !! path with
  | None => Err (PathError "open" path (missing_errno m path))
  | Some NDir => Err (PathError "read" path EISDIR)
  | Some (NFile _ c) => Ok c
  | Some (NKnob (Ok c)) => Ok c
  | Some (NKnob (Err e)) => Err (PathError "read" path e)
  end.

Definition ReadFile (path : string) : IO string := gets (λ w, read_node (fs w) path).

Definition ErrTooLong : error := TextError "bufio.Scanner: token too long".

(** [os.Open], then a [bufio.Scanner] over the file: the lines it yields and
    [scanner.Err()]. A read error ends the scan before its first line. *)
Definition OpenLines (path : string) : IO (list string * option error) :=
  gets (λ w,
    match fs w !! path with
    | None => Err (PathError "open" path (missing_errno (fs w) path))
    | Some _ =>
        match read_node (fs w) path with
        | Err e => Ok ([], Some e)
        | Ok c => let '(ls, long) := scan_lines c in
                  Ok (ls, if long then Some ErrTooLong else None)
        end
    end).

(** The names in a directory, sorted. *)
Fixpoint drop_prefix (p s : string) : option string :=
  match p, s with
  | EmptyString, _ => Some s
  | String c p, String d s => if Ascii.eqb c d then drop_prefix p s else None
  | _, _ => None
  end.

Definition child_name (dir path : string) : option string :=
  n ← drop_prefix (child dir EmptyString) path;
  if plain_elem n then Some n else None.

Definition dir_entries (m : gmap string node) (dir : string) : list string :=
  sort_Strings (omap (λ kv, child_name dir kv.1) (map_to_list m)).

Definition ReadDir (path : string) : IO (list string) :=
  gets (λ w,
    match fs w !! path with
    | None => Err (PathError "open" path (missing_errno (fs w) path))
    | Some NDir => Ok (dir_entries (fs w) path)
    | Some _ => Err (PathError "open" path ENOTDIR)
    end).

(** ** [filepath.Glob] *)

Definition ErrBadPattern : error := TextError "syntax error in pattern".

Definition cleanGlobPath (p : string) : string :=
  if String.eqb p EmptyString then "."
  else if String.eqb p slashs then p
  else TrimSuffix p slashs.

(** The entries of one directory that match the last element of a pattern; a
    malformed pattern shows when there is a name to match it with. *)
Definition glob_dir (m : gmap string node) (dir pattern : string) : option (list string) :=
  match m !! dir with
  | Some NDir =>
      match dir_entries m dir with
      | [] => Some []
      | ns =>
          (λ ps, (λ n, JoinPath [dir; n]) <$> filter (λ n, Is_true (match_pat ps n)) ns)
            <$> parse_pat (S (String.length pattern)) pattern
      end
  | _ => Some []
  end.

Fixpoint glob_dirs (m : gmap string node) (ds : list string) (file : string) :
    option (list string) :=
  match ds with
  | [] => Some []
  | d :: ds => l ← glob_dir m d file; app l <$> glob_dirs m ds file
  end.

(** [fuel] is the library's own bound on the nesting of a pattern. *)
Fixpoint glob_go (fuel : nat) (m : gmap string node) (pattern : string) :
    option (list string) :=
  match fuel with
  | O => None
  | S fuel =>
    _ ← Match pattern EmptyString;
    if negb (has_meta pattern)
    then Some (match m !! pattern with Some _ => [pattern] | None => [] end)
    else
      let '(d, file) := SplitPath pattern in
      let dir := cleanGlobPath d in
      if negb (has_meta dir) then glob_dir m dir file
      else if String.eqb dir pattern then None
      else ds ← glob_go fuel m dir; glob_dirs m ds file
  end.

Definition pathSeparatorsLimit : nat := Z.to_nat 10000.

Definition Glob (pattern : string) : IO (list string) :=
  gets (λ w, match glob_go pathSeparatorsLimit (fs w) pattern with
             | Some l => Ok l
             | None => Err ErrBadPattern
             end).

(** ** Writing *)

Definition maxTempTries : nat := Z.to_nat 10000.

Section writing.
Context {HK : Kernel}.

Definition put (path : string) (n : node) : M World () := modify (set_fs (insert path n)).

(** Puts data into a regular file that was opened with [O_TRUNC]. *)
Definition write_regular (path : string) (mode : Z) (data : string) : IO () :=
  match fault OpWrite path with
  | Some e => _ <- put path (NFile mode EmptyString);; ret (Err (PathError "write" path e))
  | None => _ <- put path (NFile mode data);; ret (Ok ())
  end.

Definition is_dir (m : gmap string node) (path : string) : bool :=
  match m !! path with Some NDir => true | _ => false end.

(** May a file be created at a path where nothing is? *)
Definition creatable (path : string) : IO () :=
  gets (λ w,
    if is_dir (fs w) (DirPath path)
    then match fault OpCreate path with
         | Some e => Err (PathError "open" path e)
         | None => Ok ()
         end
    else Err (PathError "open" path (missing_errno (fs w) path))).

Definition WriteFile (path data : string) (perm : Z) : IO () :=
  n <- gets (λ w, fs w !! path);;
  match n with
  | Some NDir => ret (Err (PathError "open" path EISDIR))
  | Some (NFile mode _) => write_regular path mode data
  | Some (NKnob old) =>
      match knob_write path old data with
      | Ok new => _ <- put path (NKnob new);; ret (Ok ())
      | Err e => ret (Err (PathError "write" path e))
      end
  | None => _ <-? creatable path;; write_regular path perm data
  end.

Definition Mkdir1 (path : string) : IO () :=
  n <- gets (λ w, fs w !! path);;
  match n with
  | Some NDir => ret (Ok ())
  | Some _ => ret (Err (PathError "mkdir" path ENOTDIR))
  | None => match fault OpMkdir path with
            | Some e => ret (Err (PathError "mkdir" path e))
            | None => _ <- put path NDir;; ret (Ok ())
            end
  end.

(** [os.MkdirAll]: every missing directory on the way, outermost first. *)
Definition MkdirAll (path : string) : IO () := for_each (ancestors path ++ [path]) Mkdir1.

(** [os.CreateTemp(dir, prefix + "*")]: the first random name that is free. *)
Fixpoint CreateTemp_go (tries i : nat) (dir prefix : string) : IO string :=
  match tries with
  | O => ret (Err (PathError "createtemp" (child dir prefix +:+ "*") EEXIST))
  | S tries =>
      w <- gets id;;
      let name := child dir (prefix +:+ nextRandom w i) in
      match fs w !! name with
      | Some _ => CreateTemp_go tries (S i) dir prefix
      | None => _ <-? creatable name;; _ <- put name (NFile 384 EmptyString);; ret (Ok name)
      end
  end.
Definition CreateTemp (dir prefix : string) : IO string :=
  CreateTemp_go maxTempTries O dir prefix.

(** The methods of the temporary [*os.File]. *)
Definition FileWrite (path data : string) : IO () :=
  match fault OpWrite path with
  | Some e => ret (Err (PathError "write" path e))
  | None => _ <- put path (NFile 384 data);; ret (Ok ())
  end.
Definition FileChmod (path : string) (mode : Z) : IO () :=
  match fault OpChmod path with
  | Some e => ret (Err (PathError "chmod" path e))
  | None =>
      _ <- modify (set_fs (alter (λ n, match n with NFile _ c => NFile mode c | _ => n end) path));;
      ret (Ok ())
  end.
Definition FileClose (path : string) : IO () :=
  ret (match fault OpClose path with
       | Some e => Err (PathError "close" path e)
       | None => Ok ()
       end).

Definition Rename (old new : string) : IO () :=
  w <- gets id;;
  match fault OpRename new, fs w !! old, fs w !! new with
  | Some e, _, _ => ret (Err (LinkError "rename" old new e))
  | None, None, _ => ret (Err (LinkError "rename" old new ENOENT))
  | None, Some _, Some NDir => ret (Err (LinkError "rename" old new EEXIST))
  | None, Some _, Some (NKnob _) => ret (Err (LinkError "rename" old new EPERM))
  | None, Some n, _ => _ <- modify (set_fs (λ m, <[new := n]> (delete old m)));; ret (Ok ())
  end.

Definition Remove (path : string) : IO () :=
  n <- gets (λ w, fs w !! path);;
  match n, fault OpRemove path with
  | None, _ => ret (Err (PathError "remove" path ENOENT))
  | Some _, Some e => ret (Err (PathError "remove" path e))
  | Some _, None => _ <- modify (set_fs (delete path));; ret (Ok ())
  end.
End writing.

#[global] Opaque pathSeparatorsLimit maxTempTries.

(** ** Reading leaves the host alone *)

#[export] Instance Stat_read_only p : ReadOnly (Stat p).
Proof. unfold Stat. apply _. Qed.
#[export] Instance ReadFile_read_only p : ReadOnly (ReadFile p).
Proof. unfold ReadFile. apply _. Qed.
#[export] Instance OpenLines_read_only p : ReadOnly (OpenLines p).
Proof. unfold OpenLines. apply _. Qed.
#[export] Instance ReadDir_read_only p : ReadOnly (ReadDir p).
Proof. unfold ReadDir. apply _. Qed.
#[export] Instance Glob_read_only p : ReadOnly (Glob p).
Proof. unfold Glob. apply _. Qed.

#[global] Typeclasses Opaque Stat ReadFile OpenLines ReadDir Glob.

(** ** Hosts of the same shape

    Two file systems have the same shape if they have the same paths and the same
    directories. Writes to files that are there keep the shape; listings and globs
    depend on nothing else. *)

Definition node_dir (n : node) : bool := match n with NDir => true | _ => false end.

Definition same_shape (m m' : gmap string node) : Prop := node_dir <$> m = node_dir <$> m'.

#[export] Instance same_shape_equiv : Equivalence same_shape.
Proof. split; unfold same_shape; [done|by intros ?? ->|by intros ??? ->]. Qed.

Lemma same_shape_lookup m m' p :
  same_shape m m' → node_dir <$> m !! p = node_dir <$> m' !! p.
Proof. intros H. by rewrite <-!lookup_fmap, H. Qed.

Lemma same_shape_insert m p n n' :
  m !! p = Some n → node_dir n = node_dir n' → same_shape (<[p:=n']> m) m.
Proof.
  intros Hp Hn. unfold same_shape. rewrite fmap_insert, insert_id; [done|].
  by rewrite lookup_fmap, Hp; simpl; rewrite Hn.
Qed.

Lemma sort_Strings_proper l l' : l ≡ₚ l' → sort_Strings l = sort_Strings l'.
Proof.
  intros H. apply (StronglySorted_unique String.le); try apply sort_Strings_sorted.
  by rewrite !sort_Strings_perm.
Qed.

#[export] Instance dir_entries_proper : Proper (same_shape ==> eq ==> eq) dir_entries.
Proof.
  intros m m' Hm d _ <-. apply sort_Strings_proper.
  assert (∀ m, omap (λ kv : string * node, child_name d kv.1) (map_to_list m) ≡ₚ
    omap (λ kv : string * bool, child_name d kv.1) (map_to_list (node_dir <$> m))) as H.
  { intros m0. rewrite map_to_list_fmap. induction (map_to_list m0) as [|[k n] l IH]; [done|].
    simpl. destruct (child_name d k); [by constructor|done]. }
  by rewrite (H m), (H m'), Hm.
Qed.

#[export] Instance missing_errno_proper : Proper (same_shape ==> eq ==> eq) missing_errno.
Proof.
  intros m m' Hm p _ <-. unfold missing_errno.
  assert (∀ l, existsb (λ a, match m !! a with
      Some (NFile _ _) | Some (NKnob _) => true | _ => false end) l =
    existsb (λ a, match m' !! a with
      Some (NFile _ _) | Some (NKnob _) => true | _ => false end) l) as H; [|by rewrite H].
  intros l. induction l as [|a l IH]; simpl; [done|]. rewrite IH. f_equal.
  pose proof (same_shape_lookup m m' a Hm).
  destruct (m !! a) as [[]|], (m' !! a) as [[]|]; done.
Qed.

#[export] Instance glob_dir_proper : Proper (same_shape ==> eq ==> eq ==> eq) glob_dir.
Proof.
  intros m m' Hm d _ <- f _ <-. unfold glob_dir.
  pose proof (same_shape_lookup m m' d Hm). rewrite (dir_entries_proper m m' Hm d d eq_refl).
  destruct (m !! d) as [[]|], (m' !! d) as [[]|]; done.
Qed.

#[export] Instance glob_dirs_proper : Proper (same_shape ==> eq ==> eq ==> eq) glob_dirs.
Proof.
  intros m m' Hm ds _ <- f _ <-. induction ds as [|d ds IH]; simpl; [done|].
  by rewrite IH, (glob_dir_proper m m' Hm d d eq_refl f f eq_refl).
Qed.

#[export] Instance glob_go_proper : Proper (eq ==> same_shape ==> eq ==> eq) glob_go.
Proof.
  intros n _ <- m m' Hm p _ <-. revert p. induction n as [|n IH]; intros p; [done|].
  simpl. destruct (Match p EmptyString); simpl; [|done].
  destruct (negb (has_meta p)).
  { pose proof (same_shape_lookup m m' p Hm).
    destruct (m !! p) as [[]|], (m' !! p) as [[]|]; done. }
  destruct (SplitPath p) as [d file].
  destruct (negb (has_meta _)); [by apply glob_dir_proper|].
  destruct (String.eqb _ _); [done|]. rewrite IH.
  destruct (glob_go n m' _) as [ds|]; simpl; [|done]. by apply glob_dirs_proper.
Qed.

Lemma Glob_shape p w w' :
  same_shape (fs w) (fs w') → value (Glob p) w = value (Glob p) w'.
Proof. intros H. unfold value, Glob. simpl. by rewrite (glob_go_proper _ _ eq_refl _ _ H p p eq_refl). Qed.

Lemma ReadDir_shape p w w' :
  same_shape (fs w) (fs w') → value (ReadDir p) w = value (ReadDir p) w'.
Proof.
  intros H. unfold value, ReadDir. simpl.
  pose proof (same_shape_lookup _ _ p H).
  rewrite (dir_entries_proper _ _ H p p eq_refl), (missing_errno_proper _ _ H p p eq_refl).
  destruct (fs w !! p) as [[]|], (fs w' !! p) as [[]|]; done.
Qed.

(** The names of a directory are plain. *)
Lemma drop_prefix_Some p s r : drop_prefix p s = Some r ↔ s = p +:+ r.
Proof.
  revert s. induction p as [|c p IH]; intros s; [rewrite str_nil_app; simpl; naive_solver|].
  rewrite str_cons_app. destruct s as [|d0 s]; simpl; [naive_solver|].
  destruct (Ascii.eqb_spec c d0) as [->|]; rewrite ?IH; naive_solver.
Qed.

Lemma child_name_Some d p n : child_name d p = Some n ↔ p = child d n ∧ plain_elem n = true.
Proof.
  unfold child_name.
  assert (child d n = child d EmptyString +:+ n) as ->.
  { unfold child. case_bool; by str_simpl. }
  rewrite <-drop_prefix_Some. destruct (drop_prefix _ p) as [r|]; simpl.
  - destruct (plain_elem r) eqn:Hr; (split; [by intros [= <-]|intros [[= <-] ?]]); congruence.
  - by split; [|intros [? _]].
Qed.

Lemma elem_of_dir_entries m d n :
  n ∈ dir_entries m d ↔ plain_elem n = true ∧ is_Some (m !! child d n).
Proof.
  unfold dir_entries. rewrite elem_of_sort_Strings, list_elem_of_omap. split.
  - intros ([k v] & Hin%elem_of_map_to_list & Hc). simpl in Hc.
    apply child_name_Some in Hc as [-> ?]. eauto.
  - intros [Hp [v Hv]]. exists (child d n, v). rewrite elem_of_map_to_list. split; [done|].
    by apply child_name_Some.
Qed.

Lemma dir_entries_nodup m d : NoDup (dir_entries m d).
Proof.
  unfold dir_entries. rewrite sort_Strings_perm.
  pose proof (NoDup_fst_map_to_list m) as Hnd.
  induction (map_to_list m) as [|[k v] l IH]; [constructor|].
  rewrite fmap_cons in Hnd. apply NoDup_cons in Hnd as [Hk Hnd]. simpl in *.
  destruct (child_name d k) as [n|] eqn:Hn; [|by apply IH].
  constructor; [|by apply IH]. intros ([k' v'] & Hin & Hn')%list_elem_of_omap. simpl in Hn'.
  apply child_name_Some in Hn as [-> _], Hn' as [-> _].
  apply Hk, list_elem_of_fmap. by exists (child d n, v').
Qed.

Lemma ReadDir_plain p w names n :
  value (ReadDir p) w = Ok names → n ∈ names → plain_elem n = true.
Proof.
  unfold value, ReadDir. simpl. destruct (fs w !! p) as [[]|]; [|done..].
  intros [= <-] [? _]%elem_of_dir_entries. done.
Qed.

Lemma ReadDir_proper p w w' :
  same_shape (fs w) (fs w') → (ReadDir p w).1 = (ReadDir p w').1.
Proof. apply ReadDir_shape. Qed.

Lemma Stat_shape p w w' :
  same_shape (fs w) (fs w') → value (Stat p) w = value (Stat p) w'.
Proof.
  intros H. unfold value, Stat. simpl. pose proof (same_shape_lookup _ _ p H).
  rewrite (missing_errno_proper _ _ H p p eq_refl).
  destruct (fs w !! p), (fs w' !! p); done.
Qed.

(** Reading a path depends on its own node. *)
Lemma ReadFile_ok_node p w c :
  value (ReadFile p) w = Ok c ↔
  (∃ m, fs w !! p = Some (NFile m c)) ∨ fs w !! p = Some (NKnob (Ok c)).
Proof.
  unfold value, ReadFile, read_node. simpl.
  destruct (fs w !! p) as [[|m c'|[c'|e]]|]; naive_solver.
Qed.

Lemma ReadFile_same p w w' c :
  fs w !! p = fs w' !! p → value (ReadFile p) w = Ok c → value (ReadFile p) w' = Ok c.
Proof. rewrite !ReadFile_ok_node. by intros ->. Qed.

(** ** What the writers do *)

Section writing_facts.
Context {HK : Kernel}.

(** Directories that are not there yet are added, the outermost first. *)
Fixpoint mkdirs (ds : list string) (m : gmap string node) : gmap string node :=
  match ds with
  | [] => m
  | d :: ds => mkdirs ds (match m !! d with Some _ => m | None => <[d:=NDir]> m end)
  end.

Lemma mkdirs_lookup_Some ds m p n : m !! p = Some n → mkdirs ds m !! p = Some n.
Proof.
  revert m. induction ds as [|d ds IH]; intros m Hp; [done|]. simpl. apply IH.
  destruct (m !! d) eqn:Hd; [done|]. rewrite lookup_insert_ne; [done|congruence].
Qed.

Lemma mkdirs_lookup_other ds m p : p ∉ ds → mkdirs ds m !! p = m !! p.
Proof.
  revert m. induction ds as [|d ds IH]; intros m Hp; [done|].
  apply not_elem_of_cons in Hp as [Hpd Hp]. simpl. rewrite IH by done.
  destruct (m !! d); [done|]. by rewrite lookup_insert_ne.
Qed.

Lemma mkdirs_lookup_new ds m p :
  p ∈ ds → m !! p = None → mkdirs ds m !! p = Some NDir.
Proof.
  revert m. induction ds as [|d ds IH]; intros m Hp Hm; [by apply elem_of_nil in Hp|].
  simpl. destruct (decide (d = p)) as [->|Hne].
  - rewrite Hm. apply mkdirs_lookup_Some. apply lookup_insert_eq.
  - apply elem_of_cons in Hp as [?|Hp]; [done|]. apply IH; [done|].
    destruct (m !! d); [done|]. by rewrite lookup_insert_ne.
Qed.

Lemma Mkdir1_ok d w w' :
  Mkdir1 d w = (Ok (), w') → w' = set_fs (mkdirs [d]) w ∧ fs w' !! d = Some NDir.
Proof.
  unfold Mkdir1. rewrite bind_run. simpl.
  destruct (fs w !! d) as [[]|] eqn:Hd; [| | |destruct (fault OpMkdir d)];
    unfold ret, put, bind; simpl; intros ?; simplify_eq/=.
  - split; [|done]. unfold set_fs. simpl. rewrite Hd. by destruct w'.
  - split; [|apply lookup_insert_eq]. unfold set_fs. simpl. by rewrite Hd.
Qed.

Lemma MkdirAll_ok path w w' :
  MkdirAll path w = (Ok (), w') →
  w' = set_fs (mkdirs (ancestors path ++ [path])) w ∧ fs w' !! path = Some NDir.
Proof.
  unfold MkdirAll. generalize (ancestors path) as ds. intros ds. revert w.
  induction ds as [|d ds IH]; intros w Hrun; apply for_each_cons_inv in Hrun as (w1 & H1 & H2).
  - simpl in H2. simplify_eq. by apply Mkdir1_ok in H1.
  - apply Mkdir1_ok in H1 as [-> _]. apply IH in H2 as [-> H2]. by split.
Qed.
End writing_facts.

Section creating_facts.
Context {HK : Kernel}.

(** The node a successful [os.WriteFile] leaves. *)
Definition written (m : gmap string node) (path data : string) (perm : Z) (n : node) : Prop :=
  match m !! path with
  | None => n = NFile perm data
  | Some NDir => False
  | Some (NFile mode _) => n = NFile mode data
  | Some (NKnob old) => ∃ c, knob_write path old data = Ok c ∧ n = NKnob c
  end.

Lemma WriteFile_ok path data perm w w' :
  WriteFile path data perm w = (Ok (), w') →
  ∃ n, written (fs w) path data perm n ∧ w' = set_fs (insert path n) w.
Proof.
  unfold WriteFile, written. rewrite bind_run. simpl.
  destruct (fs w !! path) as [[|mode c|old]|].
  - by intros ?.
  - unfold write_regular. destruct (fault OpWrite path); unfold bind, put; simpl; [done|].
    intros [= <-]. eauto.
  - destruct (knob_write path old data); unfold bind, put; simpl; [|done].
    intros [= <-]. eauto.
  - rewrite bind_ok_run. unfold creatable. simpl.
    destruct (is_dir (fs w) (DirPath path)); simpl; [|done].
    destruct (fault OpCreate path); simpl; [done|].
    unfold write_regular. destruct (fault OpWrite path); unfold bind, put; simpl; [done|].
    intros [= <-]. eauto.
Qed.

(** Whatever its outcome, it changes no other path. *)
Lemma WriteFile_other path data perm w r w' :
  WriteFile path data perm w = (r, w') →
  host w' = host w ∧ ∀ q, q ≠ path → fs w' !! q = fs w !! q.
Proof.
  unfold WriteFile. rewrite bind_run. simpl.
  assert (∀ mode r w', write_regular path mode data w = (r, w') →
    host w' = host w ∧ ∀ q, q ≠ path → fs w' !! q = fs w !! q) as Hreg.
  { intros mode r' w''. unfold write_regular.
    destruct (fault OpWrite path); unfold bind, put; simpl; intros; simplify_eq/=;
      (split; [done|]; intros; by rewrite lookup_insert_ne). }
  destruct (fs w !! path) as [[|mode c|old]|].
  - unfold ret. by intros; simplify_eq.
  - apply Hreg.
  - destruct (knob_write path old data); unfold bind, put; simpl; intros; simplify_eq/=;
      (split; [done|]); intros; by rewrite ?lookup_insert_ne.
  - rewrite bind_ok_run. unfold creatable. simpl.
    destruct (is_dir (fs w) (DirPath path)); simpl; [|by intros; simplify_eq].
    destruct (fault OpCreate path); simpl; [by intros; simplify_eq|]. apply Hreg.
Qed.

(** A write to a file that is there keeps the shape of the file system. *)
Lemma written_shape m path data perm n :
  is_Some (m !! path) → written m path data perm n → same_shape (<[path:=n]> m) m.
Proof.
  intros [n0 Hp]. unfold written. rewrite Hp.
  destruct n0; [done|intros ->|intros (c & _ & ->)]; by eapply same_shape_insert.
Qed.

Lemma CreateTemp_ok dir prefix w name w' :
  CreateTemp dir prefix w = (Ok name, w') →
  fs w !! name = None ∧ w' = set_fs (insert name (NFile 384 EmptyString)) w.
Proof.
  unfold CreateTemp. generalize O. induction maxTempTries as [|tries IH]; intros i; [done|].
  simpl. rewrite bind_run. simpl.
  destruct (fs w !! child dir _) eqn:Hn; [apply IH|].
  rewrite bind_ok_run. unfold creatable. simpl.
  destruct (is_dir _ _); simpl; [|done].
  destruct (fault OpCreate _); simpl; [done|].
  unfold bind, put. simpl. by intros [= <- <-].
Qed.
End creating_facts.

(** ** The calls as functions of the host *)

Section runs.
Context {HK : Kernel}.

Lemma FileWrite_run p data w :
  FileWrite p data w =
  match fault OpWrite p with
  | Some e => (Err (PathError "write" p e), w)
  | None => (Ok (), set_fs (insert p (NFile 384 data)) w)
  end.
Proof. unfold FileWrite. by destruct (fault OpWrite p). Qed.

Lemma FileChmod_run p mode w :
  FileChmod p mode w =
  match fault OpChmod p with
  | Some e => (Err (PathError "chmod" p e), w)
  | None => (Ok (), set_fs (alter (λ n, match n with NFile _ c => NFile mode c | _ => n end) p) w)
  end.
Proof. unfold FileChmod. by destruct (fault OpChmod p). Qed.

Lemma FileClose_run p w :
  FileClose p w =
  (match fault OpClose p with Some e => Err (PathError "close" p e) | None => Ok () end, w).
Proof. done. Qed.

Lemma Rename_run old new w :
  Rename old new w =
  match fault OpRename new, fs w !! old, fs w !! new with
  | Some e, _, _ => (Err (LinkError "rename" old new e), w)
  | None, None, _ => (Err (LinkError "rename" old new ENOENT), w)
  | None, Some _, Some NDir => (Err (LinkError "rename" old new EEXIST), w)
  | None, Some _, Some (NKnob _) => (Err (LinkError "rename" old new EPERM), w)
  | None, Some n, _ => (Ok (), set_fs (λ m, <[new := n]> (delete old m)) w)
  end.
Proof.
  unfold Rename. rewrite bind_run. simpl.
  destruct (fault OpRename new), (fs w !! old), (fs w !! new) as [[]|]; done.
Qed.

Lemma Remove_run p w :
  Remove p w =
  match fs w !! p, fault OpRemove p with
  | None, _ => (Err (PathError "remove" p ENOENT), w)
  | Some _, Some e => (Err (PathError "remove" p e), w)
  | Some _, None => (Ok (), set_fs (delete p) w)
  end.
Proof.
  unfold Remove. rewrite bind_run. simpl.
  by destruct (fs w !! p), (fault OpRemove p).
Qed.
End runs.

(** Only directories were added. *)
Definition only_dirs_added (m m' : gmap string node) : Prop :=
  ∀ q, m' !! q = m !! q ∨ (m !! q = None ∧ m' !! q = Some NDir).

#[export] Instance only_dirs_added_preorder : PreOrder only_dirs_added.
Proof.
  split; [by intros m q; left|].
  intros m1 m2 m3 H12 H23 q. destruct (H12 q) as [H|[H H']], (H23 q) as [G|[G G']];
    rewrite ?G, ?H, ?G'; auto; right; split; congruence.
Qed.

Lemma mkdirs_only_dirs ds m : only_dirs_added m (mkdirs ds m).
Proof.
  intros q. destruct (m !! q) as [n|] eqn:Hq; [left; by apply mkdirs_lookup_Some|].
  destruct (decide (q ∈ ds)) as [Hin|Hin].
  - right. split; [done|]. by apply mkdirs_lookup_new.
  - left. by rewrite mkdirs_lookup_other.
Qed.

Lemma only_dirs_added_subseteq m m' : only_dirs_added m m' → m ⊆ m'.
Proof.
  intros H. apply map_subseteq_spec. intros q n Hq. destruct (H q) as [->|[? _]]; congruence.
Qed.

(** Whatever its outcome, [MkdirAll] only adds directories, and only on the way. *)
Lemma MkdirAll_any {HK : Kernel} path w r w' :
  MkdirAll path w = (r, w') →
  host w' = host w ∧ only_dirs_added (fs w) (fs w') ∧
  ∀ q, q ∉ ancestors path ++ [path] → fs w' !! q = fs w !! q.
Proof.
  unfold MkdirAll. generalize (ancestors path ++ [path]) as ds. intros ds Hrun.
  refine (for_each_inv Mkdir1 (λ w', host w' = host w ∧ only_dirs_added (fs w) (fs w') ∧
    ∀ q, q ∉ ds → fs w' !! q = fs w !! q) ds w r w' _ _ Hrun); [|by auto].
  clear Hrun. intros d w1 r1 w2 Hd (Hh & Hsub & Hq). unfold Mkdir1.
  rewrite bind_run. simpl. destruct (fs w1 !! d) as [[]|] eqn:Hw1; simpl; try by intros [= <- <-].
  destruct (fault OpMkdir d); simpl; [by intros [= <- <-]|].
  unfold bind, put. simpl. intros [= <- <-]. simpl. split; [done|]. split.
  - etrans; [exact Hsub|]. intros q. destruct (decide (d = q)) as [<-|Hne].
    + right. by rewrite lookup_insert_eq.
    + left. by rewrite lookup_insert_ne.
  - intros q Hne. rewrite lookup_insert_ne by set_solver. by apply Hq.
Qed.

(** The directories on the way to a file. *)
Definition way_to (path : string) : list string := ancestors (DirPath path) ++ [DirPath path].

Lemma MkdirAll_way {HK : Kernel} path w r w' :
  MkdirAll (DirPath path) w = (r, w') →
  host w' = host w ∧
  ∀ q, fs w' !! q = fs w !! q ∨ (q ∈ way_to path ∧ fs w !! q = None ∧ fs w' !! q = Some NDir).
Proof.
  intros (Hh & Hdirs & Hway)%MkdirAll_any. split; [done|]. intros q.
  destruct (decide (q ∈ way_to path)) as [Hq|Hq]; [|left; by apply Hway].
  destruct (Hdirs q) as [|[? ?]]; auto.
Qed.

Lemma CreateTemp_err {HK : Kernel} dir prefix w e w' :
  CreateTemp dir prefix w = (Err e, w') → w' = w.
Proof.
  unfold CreateTemp. generalize O. induction maxTempTries as [|tries IH]; intros i.
  { simpl. by intros [= _ <-]. }
  simpl. rewrite bind_run. simpl. destruct (fs w !! child dir _); [apply IH|].
  rewrite bind_ok_run. unfold creatable. simpl.
  destruct (is_dir _ _); simpl; [|by intros [= _ <-]].
  destruct (fault OpCreate _); simpl; by intros [=].
Qed.

