(* ===== verification/Sysutil.v ===== *)
(** * internal/sysutil

    The OS primitives everything else is built from: paths below a root, atomic
    writes and backups, sysctl access, the primary interface, distribution and memory
    detection ([env.go], [atomic.go], [procsys.go], [netdev.go], [distro.go],
    [cmd.go]). *)

From S2P Require Import Prelude GoStrings GoPath GoOS.

(** ** env.go *)

Record Env : Set := mkEnv { Root : string }.

Definition New : Env := mkEnv "/".

Definition Path (e : Env) (elem : list string) : string :=
  let root := if String.eqb (Root e) EmptyString then "/" else Root e in
  JoinPath (root :: elem).

(** ** cmd.go

    [Runner] is the interface of the external commands: the name and arguments, the
    standard output, and an error. What a command does to the host is its own. *)

Class Runner : Type :=
  Run : string → list string → World → (string * option error) * World.

(** [out, err := r.Runner.Run(...)], the output used only if there is no error. *)
Definition run_cmd {HR : Runner} (name : string) (args : list string) : IO string :=
  o <- Run name args;;
  ret (match o.2 with Some e => Err e | None => Ok o.1 end).

#[export] Instance run_cmd_read_only {HR : Runner} name args :
  ReadOnly (Run name args) → ReadOnly (run_cmd name args).
Proof. unfold run_cmd. apply _. Qed.

Lemma run_cmd_ok {HR : Runner} name args w out w' :
  run_cmd name args w = (Ok out, w') → Run name args w = ((out, None), w').
Proof.
  unfold run_cmd. rewrite bind_run. destruct (Run name args w) as [[o [e|]] w1]; simpl;
    by intros [= <- <-].
Qed.

(** [ExecRunner.Run] over [os/exec]: the parameter [exec] runs the program and gives its
    standard output and standard error and how it failed. *)
Section exec_runner.
Context (exec : string → list string → World → (string * string * option error) * World).

Definition ExecRunner_Run (name : string) (args : list string) (w : World) :
    (string * option error) * World :=
  let '((stdout, stderr, err), w') := exec name args w in
  match err with
  | Some e =>
      (stdout,
       Some (WrapError (name +:+ " [" +:+ Join " " args +:+ "]: ") e
               (" (stderr: " +:+ stderr +:+ ")")), w')
  | None => (stdout, None, w')
  end.
End exec_runner.

(** ** atomic.go *)

Definition ReadFileString (path : string) : IO string := ReadFile path.

Section atomic.
Context {HK : Kernel}.

(** [defer func() { ... }()]: the deferred call runs last, its result dropped. *)
Definition deferred {A} (d : IO ()) (body : IO A) : IO A :=
  r <- body;; _ <- d;; ret r.

(** The body between the creation of the temporary file and the end. *)
Definition fill_temp (tmp path content : string) (mode : Z) : IO bool :=
  wr <- FileWrite tmp content;;
  match wr with
  | Err e => _ <- FileClose tmp;;
             ret (Err (Wrap ("writing temp file for " +:+ path) e))
  | Ok _ =>
    ch <- FileChmod tmp mode;;
    match ch with
    | Err e => _ <- FileClose tmp;;
               ret (Err (Wrap ("chmod temp file for " +:+ path) e))
    | Ok _ =>
      _ <-? map_err (Wrap ("closing temp file for " +:+ path)) (FileClose tmp);;
      _ <-? map_err (Wrap ("renaming temp file into " +:+ path)) (Rename tmp path);;
      ret (Ok true)
    end
  end.

Definition replace_file (path content : string) (mode : Z) : IO bool :=
  _ <-? map_err (Wrap ("creating parent dir for " +:+ path)) (MkdirAll (DirPath path));;
  tmp <-? map_err (Wrap ("creating temp file for " +:+ path))
            (CreateTemp (DirPath path) ("." +:+ BasePath path +:+ ".tmp-"));;
  deferred (Remove tmp) (fill_temp tmp path content mode).

(** Reports whether a write occurred. *)
Definition WriteFileIfChanged (path content : string) (mode : Z) : IO bool :=
  existing <- ReadFile path;;
  match existing with
  | Ok c =>
      if String.eqb c content then ret (Ok false) else replace_file path content mode
  | Err e =>
      if negb (IsNotExist e) then ret (Err (Wrap ("reading " +:+ path) e))
      else replace_file path content mode
  end.

Definition backup_path (path : string) : string := path +:+ ".node-configurator.orig".

Definition BackupFile (path : string) : IO () :=
  r <- ReadFile path;;
  match r with
  | Err e =>
      if IsNotExist e then ret (Ok ())
      else ret (Err (Wrap ("reading " +:+ path +:+ " for backup") e))
  | Ok data =>
      st <- Stat (backup_path path);;
      match st with
      | Ok _ => ret (Ok ())
      | Err _ => WriteFile (backup_path path) data 420
      end
  end.

(** ** procsys.go *)

Definition SysctlPath (e : Env) (key : string) : string :=
  let key := ReplaceAll key ".." EmptyString in
  let key := ReplaceAll key "/" EmptyString in
  Path e (["proc"; "sys"] ++ Split "." key).

Definition ReadSysctl (e : Env) (key : string) : IO string :=
  data <-? ReadFile (SysctlPath e key);; ret (Ok (TrimSpace data)).

Definition WriteSysctl (e : Env) (key value : string) : IO () :=
  let path := SysctlPath e key in
  _ <-? map_err (Wrap ("sysctl " +:+ key +:+ " not available on this kernel")) (Stat path);;
  WriteFile path value 420.

Definition SysctlExists (e : Env) (key : string) : M World bool :=
  st <- Stat (SysctlPath e key);; ret (is_ok st).
End atomic.

(** ** netdev.go *)

Fixpoint primary_go (e : Env) (fallback : string) (names : list string) : M World string :=
  match names with
  | [] => ret fallback
  | name :: names =>
      if String.eqb name "lo" then primary_go e fallback names
      else
        let fallback := if String.eqb fallback EmptyString then name else fallback in
        st <- Stat (Path e ["sys"; "class"; "net"; name; "device"]);;
        if is_ok st then ret name else primary_go e fallback names
  end.

Definition PrimaryInterface (e : Env) : M World string :=
  r <- ReadDir (Path e ["sys"; "class"; "net"]);;
  match r with
  | Err _ => ret EmptyString
  | Ok entries => primary_go e EmptyString entries
  end.

(** ** distro.go *)

Record Distro : Set := mkDistro { ID : string; VersionID : string }.

#[export] Instance Distro_eq_dec : EqDecision Distro.
Proof. solve_decision. Defined.

Definition IsAmazonLinux2 (d : Distro) : bool :=
  String.eqb (ID d) "amzn" && HasPrefix (VersionID d) "2".

Definition IsAmazonLinux2023 (d : Distro) : bool :=
  String.eqb (ID d) "amzn" && HasPrefix (VersionID d) "2023".

Definition IsUbuntu (d : Distro) : bool := String.eqb (ID d) "ubuntu".

Definition distro_line (d : Distro) (line : string) : Distro :=
  let '(key, value, ok) := Cut "=" line in
  if negb ok then d
  else
    let value := Trim value [quote_char] in
    if String.eqb key "ID" then mkDistro value (VersionID d)
    else if String.eqb key "VERSION_ID" then mkDistro (ID d) value
    else d.

Definition DetectDistro (e : Env) : M World (Distro * option error) :=
  r <- OpenLines (Path e ["etc"; "os-release"]);;
  match r with
  | Err err => ret (mkDistro EmptyString EmptyString, Some err)
  | Ok (lines, err) =>
      ret (fold_left distro_line lines (mkDistro EmptyString EmptyString), err)
  end.

Definition KernelVersion (e : Env) : IO string := ReadSysctl e "kernel.osrelease".

Definition CgroupV2Unified (e : Env) : M World bool :=
  st <- Stat (Path e ["sys"; "fs"; "cgroup"; "cgroup.controllers"]);; ret (is_ok st).

(** The error of a [MemTotal] that is no number; its text is not modelled, its only
    caller tests it against [nil]. *)
Definition ErrNum : error := TextError "strconv.ParseInt".

Fixpoint meminfo_total (lines : list string) (err : option error) : result error Z :=
  match lines with
  | [] => match err with Some e => Err e | None => Ok 0%Z end
  | line :: lines =>
      match Fields line with
      | f0 :: f1 :: _ =>
          if String.eqb f0 "MemTotal:"
          then match Atoi f1 with Some v => Ok v | None => Err ErrNum end
          else meminfo_total lines err
      | _ => meminfo_total lines err
      end
  end.

Definition ParseMemInfoTotalKiB (e : Env) : IO Z :=
  r <-? OpenLines (Path e ["proc"; "meminfo"]);;
  ret (meminfo_total r.1 r.2).

(** ** Atomic writes *)

Lemma child_inj d a b : child d a = child d b → a = b.
Proof.
  unfold child. intros H. destruct (HasSuffix d slashs).
  - by apply (inj (String.append d)) in H.
  - by apply (inj (String.append d)), (inj (String.append slashs)) in H.
Qed.

(** A temporary file is never the file it will replace. *)
Lemma temp_name_ne e r : ("." +:+ e +:+ ".tmp-") +:+ r ≠ e.
Proof.
  intros H. apply (f_equal String.length) in H. rewrite !str_length_app in H. simpl in H. lia.
Qed.

Section atomic_facts.
Context {HK : Kernel}.

(** Once the temporary file is there, either it has become the target or it is
    all that has changed. *)
Lemma fill_temp_spec tmp path content mode w r w' :
  tmp ≠ path → (∃ n0, fs w !! tmp = Some (NFile 384 n0)) →
  fill_temp tmp path content mode w = (r, w') →
  (r = Ok true ∧ w' = set_fs (λ m, <[path := NFile mode content]> (delete tmp m)) w) ∨
  (∃ e n, r = Err e ∧ w' = set_fs (insert tmp n) w).
Proof.
  intros Hne [c0 Htmp]. unfold fill_temp.
  rewrite bind_run, FileWrite_run. destruct (fault OpWrite tmp); simpl.
  { intros [= <- <-]. right. eexists _, (NFile 384 c0).
    split; [done|]. unfold set_fs. by rewrite insert_id by done; destruct w. }
  rewrite bind_run, FileChmod_run. destruct (fault OpChmod tmp); simpl.
  { intros [= <- <-]. right. eexists _, (NFile 384 content). done. }
  assert (set_fs (alter (λ n, match n with NFile _ c => NFile mode c | _ => n end) tmp)
    (set_fs (insert tmp (NFile 384 content)) w) =
    set_fs (insert tmp (NFile mode content)) w) as ->.
  { unfold set_fs. simpl. by rewrite alter_insert_eq. }
  rewrite bind_ok_run, map_err_run, FileClose_run. destruct (fault OpClose tmp); simpl.
  { intros [= <- <-]. right. do 2 eexists. done. }
  rewrite bind_ok_run, map_err_run, Rename_run. simpl. rewrite lookup_insert_eq.
  destruct (fault OpRename path); simpl.
  { intros [= <- <-]. right. do 2 eexists. done. }
  destruct (<[tmp:=NFile mode content]> (fs w) !! path) as [[]|]; simpl;
    intros [= <- <-]; try (right; do 2 eexists; done); left; (split; [done|]);
    unfold set_fs; simpl; by rewrite delete_insert_eq.
Qed.

(** What a write leaves: the file, and the directories that lead to it. *)
Definition write_effect (path content : string) (mode : Z) (m : gmap string node) :
    gmap string node :=
  <[path := NFile mode content]> (mkdirs (ancestors (DirPath path) ++ [DirPath path]) m).

(** What a failed write leaves: the target as it was and, if temporary files can be
    removed, nothing but directories that were missing. *)
Definition write_failed (path : string) (w w' : World) : Prop :=
  host w' = host w ∧ fs w' !! path = fs w !! path ∧ fs w ⊆ fs w' ∧
  ((∀ p, fault OpRemove p = None) → only_dirs_added (fs w) (fs w')).

(** The clean up after [fill_temp]: the temporary file goes unless it became the target. *)
Lemma deferred_fill_spec tmp path content mode w r w' :
  tmp ≠ path → fs w !! tmp = None →
  deferred (Remove tmp) (fill_temp tmp path content mode)
    (set_fs (insert tmp (NFile 384 EmptyString)) w) = (r, w') →
  (r = Ok true ∧ w' = set_fs (insert path (NFile mode content)) w) ∨
  (∃ e, r = Err e ∧ (w' = w ∨ fault OpRemove tmp ≠ None ∧ ∃ n, w' = set_fs (insert tmp n) w)).
Proof.
  intros Hne Htmp. unfold deferred. rewrite bind_run.
  set (w1 := set_fs _ w).
  destruct (fill_temp tmp path content mode w1) as [r2 w2] eqn:Hfill.
  apply fill_temp_spec in Hfill as [[-> ->]|(e & n & -> & ->)];
    [ | |done|by eexists; apply lookup_insert_eq]; simpl; rewrite bind_run, Remove_run; simpl.
  - rewrite lookup_insert_ne, lookup_delete_eq by done. intros [= <- <-]. left.
    split; [done|]. unfold set_fs. simpl. by rewrite delete_insert_id.
  - rewrite lookup_insert_eq. destruct (fault OpRemove tmp) eqn:Hrm; intros [= <- <-];
      right; eexists; (split; [done|]).
    + right. split; [done|]. exists n. unfold set_fs. simpl. by rewrite insert_insert_eq.
    + left. unfold set_fs. simpl. destruct w. simpl in *.
      by rewrite insert_insert_eq, delete_insert_id.
Qed.

Section file.
Context (es : list string) (e : string) (Hplain : plain_elems (es ++ [e])).
Abbreviation path := (file_path es e).

Lemma path_not_above : path ∉ ancestors (DirPath path) ++ [DirPath path].
Proof.
  rewrite DirPath_file by done.
  pose proof (proj1 (proj1 (plain_elems_app es [e]) Hplain)) as Hes.
  intros [Hin|Heq%list_elem_of_singleton]%elem_of_app.
  - apply elem_of_ancestors in Hin as (pre & x & post & -> & Heq); [|done].
    apply rooted_path_inj in Heq; [|done|by apply plain_elems_app in Hes as [? _]].
    apply (f_equal length) in Heq. rewrite !length_app in Heq. simpl in Heq. lia.
  - apply rooted_path_inj in Heq; [|done..].
    apply (f_equal length) in Heq. rewrite length_app in Heq. simpl in Heq. lia.
Qed.

Lemma CreateTemp_name w name w' :
  CreateTemp (DirPath path) ("." +:+ BasePath path +:+ ".tmp-") w = (Ok name, w') →
  name ≠ path.
Proof.
  pose proof (proj1 (proj1 (plain_elems_app es [e]) Hplain)) as Hes.
  rewrite DirPath_file, BasePath_file by done.
  unfold CreateTemp. generalize O. induction maxTempTries as [|tries IH]; intros i; [done|].
  simpl. rewrite bind_run. simpl. destruct (fs w !! _); [apply IH|].
  rewrite bind_ok_run. unfold creatable. simpl.
  destruct (is_dir _ _); simpl; [|done]. destruct (fault OpCreate _); simpl; [done|].
  unfold bind, put. simpl. intros [= <- _]. rewrite file_path_eq by done.
  intros Heq%child_inj. by apply temp_name_ne in Heq.
Qed.

(** Every run of the replacement, successful or not. *)
Lemma replace_file_spec content mode w r w' :
  replace_file path content mode w = (r, w') →
  (r = Ok true ∧ w' = set_fs (write_effect path content mode) w) ∨
  (∃ err, r = Err err ∧ write_failed path w w').
Proof.
  unfold replace_file. rewrite bind_ok_run, map_err_run.
  destruct (MkdirAll (DirPath path) w) as [r1 w1] eqn:Hmk.
  pose proof (MkdirAll_any _ _ _ _ Hmk) as (Hh & Hdirs & Hpath).
  specialize (Hpath path path_not_above).
  assert (write_failed path w w1) as Hfail.
  { split; [done|]. split; [done|]. split; [by apply only_dirs_added_subseteq|done]. }
  destruct r1 as [[]|err]; simpl; [|intros [= <- <-]; right; eauto].
  apply MkdirAll_ok in Hmk as [Hw1 _].
  rewrite bind_ok_run, map_err_run.
  destruct (CreateTemp _ _ w1) as [[tmp|err] w2] eqn:Hct; simpl.
  2: { apply CreateTemp_err in Hct as ->. intros [= <- <-]. right. eauto. }
  pose proof (CreateTemp_name _ _ _ Hct) as Hne.
  apply CreateTemp_ok in Hct as [Htmp ->].
  intros [[-> ->]|(err & -> & [->|(Hrm & n & ->)])]%deferred_fill_spec; [..|done|done].
  - left. split; [done|]. rewrite Hw1. done.
  - right. eauto.
  - right. exists err. split; [done|]. destruct Hfail as (_ & _ & Hsub & _).
    split; [done|]. split; [simpl; by rewrite lookup_insert_ne|].
    split; [|intros Hno; by rewrite Hno in Hrm].
    etrans; [exact Hsub|]. by apply insert_subseteq.
Qed.
End file.
End atomic_facts.

(** ** Paths below the root *)

Definition env_root (e : Env) : string :=
  if String.eqb (Root e) EmptyString then "/" else Root e.

(** The root is an absolute path: in production it is the file system's own. *)
Definition env_ok (e : Env) : bool := is_rooted (env_root e).

Definition env_elems (e : Env) : list string := clean_elems (env_root e).

Lemma env_elems_plain e : env_ok e = true → plain_elems (env_elems e).
Proof. apply clean_elems_rooted. Qed.

Lemma Path_plain e es :
  env_ok e = true → plain_elems es → Path e es = rooted_path (env_elems e ++ es).
Proof. intros He Hes. by apply JoinPath_plain. Qed.

Lemma Path_inj e es es' :
  env_ok e = true → plain_elems es → plain_elems es' → Path e es = Path e es' → es = es'.
Proof.
  intros He Hes Hes'. rewrite !Path_plain by done. intros H%rooted_path_inj;
    [by apply app_inv_head in H|by apply plain_elems_app; split; [apply env_elems_plain|]..].
Qed.

(** The elements of a sysctl key's path below [/proc/sys]. *)
Definition sysctl_elems (key : string) : list string :=
  filter (λ e, e ≠ EmptyString)
    (Split "." (ReplaceAll (ReplaceAll key ".." EmptyString) "/" EmptyString)).

Lemma split_key_plain s x :
  sep_free slash s = true → x ∈ Split "." s → x = EmptyString ∨ plain_elem x = true.
Proof.
  intros Hs Hx. destruct (decide (x = EmptyString)) as [|Hne]; [by left|right].
  pose proof (Split_sep_free _ _ _ Hx) as Hdot.
  pose proof (Split_keeps_free _ _ _ _ Hs Hx) as Hslash.
  unfold plain_elem. rewrite Hslash. simpl.
  apply String.eqb_neq in Hne. rewrite Hne. simpl.
  destruct (String.eqb_spec x ".") as [->|]; [done|].
  destruct (String.eqb_spec x "..") as [->|]; done.
Qed.

Lemma sysctl_elems_plain key : plain_elems (sysctl_elems key).
Proof.
  apply Forall_forall. intros x [Hne Hx]%list_elem_of_filter.
  apply split_key_plain in Hx as [?|?]; [done|done|]. apply (ReplaceAll_char_free slash).
Qed.

Lemma SysctlPath_elems e key :
  env_ok e = true →
  SysctlPath e key = rooted_path (env_elems e ++ ["proc"; "sys"] ++ sysctl_elems key).
Proof.
  intros He. unfold SysctlPath, Path.
  rewrite JoinPath_below; [|done|].
  - by rewrite filter_app.
  - apply Forall_app. split; [repeat constructor; by right|].
    apply Forall_forall. intros x Hx. eapply split_key_plain; [|exact Hx].
    apply (ReplaceAll_char_free slash).
Qed.

(** A key whose path keeps all of it: no slash, no empty element. *)
Definition clean_key (key : string) : bool :=
  sep_free slash key && String.eqb (ReplaceAll key ".." EmptyString) key
  && forallb (λ x, negb (String.eqb x EmptyString)) (Split "." key).

Lemma clean_key_elems key : clean_key key = true → sysctl_elems key = Split "." key.
Proof.
  unfold clean_key, sysctl_elems. intros H. bool_prop.
  match goal with H : String.eqb _ _ = true |- _ => apply String.eqb_eq in H as -> end.
  rewrite ReplaceAll_char_id by done.
  match goal with H : forallb _ _ = true |- _ => rename H into Hall end.
  induction (Split "." key) as [|x l IH]; [done|]. simpl in Hall. bool_prop.
  rewrite filter_cons_True, IH; [done..|by apply String.eqb_neq].
Qed.

Lemma SysctlPath_inj e k k' :
  env_ok e = true → clean_key k = true → clean_key k' = true →
  SysctlPath e k = SysctlPath e k' → k = k'.
Proof.
  intros He Hk Hk'. rewrite !SysctlPath_elems by done.
  pose proof (env_elems_plain e He). intros Heq%rooted_path_inj.
  - apply app_inv_head, app_inv_head in Heq. rewrite !clean_key_elems in Heq by done.
    by rewrite <-(Join_Split "." k), Heq, Join_Split.
  - rewrite !plain_elems_app. split_and!; [done|by repeat constructor|apply sysctl_elems_plain].
  - rewrite !plain_elems_app. split_and!; [done|by repeat constructor|apply sysctl_elems_plain].
Qed.

(** ** Read-only calls *)

#[global] Typeclasses Opaque Path SysctlPath.

#[export] Instance ReadFileString_read_only p : ReadOnly (ReadFileString p).
Proof. unfold ReadFileString. apply _. Qed.
#[export] Instance ReadSysctl_read_only e k : ReadOnly (ReadSysctl e k).
Proof. unfold ReadSysctl. apply _. Qed.
#[export] Instance SysctlExists_read_only e k : ReadOnly (SysctlExists e k).
Proof. unfold SysctlExists. apply _. Qed.
#[export] Instance CgroupV2Unified_read_only e : ReadOnly (CgroupV2Unified e).
Proof. unfold CgroupV2Unified. apply _. Qed.
#[export] Instance primary_go_read_only e fb names : ReadOnly (primary_go e fb names).
Proof. revert fb. induction names as [|n names IH]; intros fb; cbn [primary_go]; apply _. Qed.
#[export] Instance PrimaryInterface_read_only e : ReadOnly (PrimaryInterface e).
Proof. apply bind_read_only; [apply _|]. intros [a|err]; apply _. Qed.
#[export] Instance DetectDistro_read_only e : ReadOnly (DetectDistro e).
Proof. apply bind_read_only; [apply _|]. intros [[]|err]; apply _. Qed.
#[export] Instance ParseMemInfoTotalKiB_read_only e : ReadOnly (ParseMemInfoTotalKiB e).
Proof. unfold ParseMemInfoTotalKiB. apply _. Qed.

(** The primary interface is one of the names of a directory, if there is one. *)
Lemma primary_go_name e w names fallback :
  value (primary_go e fallback names) w ∈ fallback :: names.
Proof.
  revert fallback. induction names as [|n names IH]; intros fallback; [by left|].
  cbn [primary_go]. case_bool; [specialize (IH fallback); set_solver|].
  rewrite value_bind by apply _. destruct (is_ok _); [by right; left|].
  specialize (IH (if String.eqb fallback EmptyString then n else fallback)).
  case_bool; set_solver.
Qed.

Lemma PrimaryInterface_plain e w :
  value (PrimaryInterface e) w = EmptyString ∨
  plain_elem (value (PrimaryInterface e) w) = true.
Proof.
  unfold PrimaryInterface. rewrite value_bind by apply _.
  destruct (value (ReadDir _) w) as [names|err] eqn:Hr; [|by left].
  pose proof (primary_go_name e w names EmptyString) as Hin.
  apply elem_of_cons in Hin as [Hin|Hin]; [by left|right]. by eapply ReadDir_plain.
Qed.

(** ** Writing a file and reading it back *)

Section write_facts.
Context {HK : Kernel}.
Context (es : list string) (e : string) (Hplain : plain_elems (es ++ [e])).
Abbreviation path := (file_path es e).

Lemma WriteFileIfChanged_spec content mode w r w' :
  WriteFileIfChanged path content mode w = (r, w') →
  (r = Ok false ∧ w' = w ∧ value (ReadFile path) w = Ok content) ∨
  (r = Ok true ∧ w' = set_fs (write_effect path content mode) w ∧
     value (ReadFile path) w ≠ Ok content) ∨
  (∃ err, r = Err err ∧ write_failed path w w').
Proof.
  unfold WriteFileIfChanged. rewrite bind_value by apply _.
  destruct (value (ReadFile path) w) as [c|err] eqn:Hr.
  - destruct (String.eqb_spec c content) as [->|Hne].
    + intros [= <- <-]. by left.
    + intros [[-> ->]|?]%replace_file_spec; [..|done]; right; [left|by right].
      split; [done|]. split; [done|]. congruence.
  - destruct (IsNotExist err); simpl.
    + intros [[-> ->]|?]%replace_file_spec; [..|done]; right; [left|by right]. done.
    + intros [= <- <-]. right. right. eexists. split; [done|]. done.
Qed.

Lemma WriteFileIfChanged_ok content mode w b w' :
  WriteFileIfChanged path content mode w = (Ok b, w') →
  value (ReadFile path) w' = Ok content ∧ host w' = host w ∧
  (b = false → w' = w) ∧
  ∀ q, q ≠ path →
    fs w' !! q = fs w !! q ∨
    (fs w !! q = None ∧ fs w' !! q = Some NDir ∧ q ∈ ancestors (DirPath path) ++ [DirPath path]).
Proof.
  intros [(Hb & -> & Hr)|[(Hb & -> & _)|(err & ? & _)]]%WriteFileIfChanged_spec; [..|done];
    simplify_eq.
  - split_and!; auto.
  - split_and!; [|done|done|].
    + apply ReadFile_ok_node. left. exists mode. apply lookup_insert_eq.
    + intros q Hq. simpl. unfold write_effect. rewrite lookup_insert_ne by done.
      destruct (decide (q ∈ ancestors (DirPath path) ++ [DirPath path])) as [Hin|Hin].
      * destruct (fs w !! q) eqn:Hw; [left; by apply mkdirs_lookup_Some|right].
        split_and!; [done|by apply mkdirs_lookup_new|done].
      * left. by apply mkdirs_lookup_other.
Qed.

(** A file that is there keeps its node under a write to another path, whatever
    the outcome of the write. *)
Lemma WriteFileIfChanged_other content mode w r w' q n :
  WriteFileIfChanged path content mode w = (r, w') →
  q ≠ path → fs w !! q = Some n → fs w' !! q = Some n.
Proof.
  intros Hrun Hq Hn. destruct r as [b|err].
  - apply WriteFileIfChanged_ok in Hrun as (_ & _ & _ & Hother).
    destruct (Hother q Hq) as [->|(? & _)]; congruence.
  - apply WriteFileIfChanged_spec in Hrun as [(? & _)|[(? & _)|(? & _ & _ & _ & Hsub & _)]];
      [done..|]. eapply map_subseteq_spec; eauto.
Qed.

(** Nothing but the file and the directories that lead to it changes. *)
Lemma WriteFileIfChanged_keeps content mode w r w' qs :
  WriteFileIfChanged path content mode w = (r, w') →
  plain_elems qs → (∀ post, es ++ [e] ≠ qs ++ post) → is_ok r = true →
  fs w' !! rooted_path qs = fs w !! rooted_path qs.
Proof.
  intros Hrun Hqs Hpre Hr. destruct r as [b|]; [|done].
  apply WriteFileIfChanged_ok in Hrun as (_ & _ & _ & Hother).
  pose proof (proj1 (proj1 (plain_elems_app es [e]) Hplain)) as Hes.
  destruct (Hother (rooted_path qs)) as [|(_ & _ & Hin)]; [|done|exfalso].
  { intros Heq%rooted_path_inj; [|done..]. apply (Hpre []). by rewrite app_nil_r. }
  rewrite DirPath_file in Hin by done.
  apply elem_of_app in Hin as [Hin|Heq%list_elem_of_singleton].
  - apply elem_of_ancestors in Hin as (pre & x & post & -> & Heq); [|done].
    apply plain_elems_app in Hes as [? _].
    apply rooted_path_inj in Heq as ->; [|done..].
    apply (Hpre (x :: post ++ [e])). by rewrite <-app_assoc.
  - apply rooted_path_inj in Heq as ->; [|done..]. by apply (Hpre [e]).
Qed.
End write_facts.

(** ** Backups *)

Lemma rooted_path_app es e s : rooted_path (es ++ [e]) +:+ s = rooted_path (es ++ [e +:+ s]).
Proof.
  destruct (decide (es = [])) as [->|Hes]; [done|].
  rewrite !rooted_path_snoc by done. by str_simpl.
Qed.

Section backup_facts.
Context {HK : Kernel}.

(** Whatever its outcome, a backup changes at most the backup file, and never a backup
    that is already there. *)
Lemma BackupFile_other path w r w' :
  BackupFile path w = (r, w') →
  host w' = host w ∧ (∀ q, q ≠ backup_path path → fs w' !! q = fs w !! q) ∧
  (∀ n, fs w !! backup_path path = Some n → w' = w).
Proof.
  unfold BackupFile. rewrite bind_value by apply _.
  destruct (value (ReadFile path) w) as [data|e].
  - rewrite bind_value by apply _. unfold value, Stat. simpl.
    destruct (fs w !! backup_path path) eqn:Hb; simpl; [by intros [= _ <-]|].
    intros [Hh Ho]%WriteFile_other. by split_and!.
  - case_bool; by intros [= _ <-].
Qed.

(** After a backup that succeeded, the backup of a file that can be read is there. *)
Lemma BackupFile_ok path w w' c :
  BackupFile path w = (Ok (), w') → value (ReadFile path) w = Ok c →
  (∃ n, fs w !! backup_path path = Some n ∧ w' = w) ∨
  (fs w !! backup_path path = None ∧ fs w' !! backup_path path = Some (NFile 420 c)).
Proof.
  unfold BackupFile. rewrite bind_value by apply _. intros Hrun Hc. rewrite Hc in Hrun.
  rewrite bind_value in Hrun by apply _. unfold value, Stat in Hrun. simpl in Hrun.
  destruct (fs w !! backup_path path) eqn:Hb; simpl in Hrun.
  - simplify_eq. left. eauto.
  - apply WriteFile_ok in Hrun as (n & Hn & ->). right. unfold written in Hn.
    rewrite Hb in Hn. subst n. split; [done|]. simpl. apply lookup_insert_eq.
Qed.
End backup_facts.

(** ** Properties *)

(** A small root file system for the witnesses: no call fails, attributes keep what
    is written to them. *)
Definition plain_kernel : Kernel := {|
  knob_write := λ _ _ data, Ok (Ok data);
  fault := λ _ _, None;
  random := λ _ i, N.of_nat i
|}.

Definition etc_world (files : list (string * node)) : World :=
  mkWorld (list_to_map (files ++ [("/", NDir); ("/etc", NDir)])) ∅.

(** C5: no sysctl key, however malformed, leads out of /proc/sys: the path is the root's
    /proc/sys followed by plain elements (no slash, not empty, no dot, no dot-dot). *)
Theorem SysctlPath_confined (e : Env) (key : string) :
  env_ok e = true →
  ∃ es, plain_elems es ∧
    SysctlPath e key = rooted_path (env_elems e ++ ["proc"; "sys"] ++ es) ∧
    Path e ["proc"; "sys"] = rooted_path (env_elems e ++ ["proc"; "sys"]).
Proof.
  intros He. exists (sysctl_elems key). split; [apply sysctl_elems_plain|].
  split; [by apply SysctlPath_elems|]. apply Path_plain; [done|by repeat constructor].
Qed.

Example SysctlPath_confined_witness :
  SysctlPath New "../../etc/shadow" = "/proc/sys/etcshadow" ∧
  ∃ es, plain_elems es ∧
    SysctlPath New "../../etc/shadow" = rooted_path (env_elems New ++ ["proc"; "sys"] ++ es) ∧
    Path New ["proc"; "sys"] = rooted_path (env_elems New ++ ["proc"; "sys"]).
Proof.
  split; [by vm_compute|]. apply (SysctlPath_confined New "../../etc/shadow"). reflexivity.
Defined.

(** C6: a write through WriteFileIfChanged is atomic. In every run, successful or not, the
    target holds either what it held before or the whole new content (and then only if the
    call reported a write); no other file that was there changes; and as long as temporary
    files can be removed nothing but missing directories is added. *)
Theorem WriteFileIfChanged_atomic {HK : Kernel} (es : list string) (e content : string)
    (mode : Z) (w : World) (r : result error bool) (w' : World) :
  plain_elems (es ++ [e]) →
  WriteFileIfChanged (file_path es e) content mode w = (r, w') →
  ((r ≠ Ok true ∧ fs w' !! file_path es e = fs w !! file_path es e) ∨
   (r = Ok true ∧ fs w' !! file_path es e = Some (NFile mode content))) ∧
  (∀ q n, q ≠ file_path es e → fs w !! q = Some n → fs w' !! q = Some n) ∧
  ((∀ p, fault OpRemove p = None) →
   ∀ q, q ≠ file_path es e → fs w !! q = None →
        fs w' !! q = None ∨ fs w' !! q = Some NDir).
Proof.
  intros Hplain Hrun. split_and!.
  - apply WriteFileIfChanged_spec in Hrun as [(-> & -> & _)|[(-> & -> & _)|(err & -> & _ & Hp & _)]];
      [by left|right|by left|done]. split; [done|]. apply lookup_insert_eq.
  - intros q n. by eapply WriteFileIfChanged_other.
  - intros Hrm q Hq Hn.
    destruct (WriteFileIfChanged_spec _ _ Hplain _ _ _ _ _ Hrun) as
      [(_ & -> & _)|[(Hr & _ & _)|(err & _ & _ & _ & _ & Hdirs)]].
    + by left.
    + rewrite Hr in Hrun. apply WriteFileIfChanged_ok in Hrun as (_ & _ & _ & Hother); [|done].
      destruct (Hother q Hq) as [->|(_ & -> & _)]; auto.
    + destruct (Hdirs Hrm q) as [->|[_ ->]]; auto.
Qed.

(** *** The primary interface *)

(** Is there a device behind an interface? *)
Definition has_device (e : Env) (w : World) (name : string) : bool :=
  is_ok (value (Stat (Path e ["sys"; "class"; "net"; name; "device"])) w).

(** The candidates: every interface but the loopback. *)
Definition candidates (names : list string) : list string := filter (λ n, n ≠ "lo") names.

Definition first_of (dflt : string) (names : list string) : string := default dflt (head names).

Lemma primary_go_value e w names fallback :
  Forall (λ n, n ≠ EmptyString) names →
  value (primary_go e fallback names) w =
  first_of (if String.eqb fallback EmptyString then first_of EmptyString (candidates names)
            else fallback)
    (filter (λ n, has_device e w n = true) (candidates names)).
Proof.
  intros Hne. revert fallback. induction Hne as [|n names Hn Hne IH]; intros fallback.
  { unfold value, first_of. simpl. by destruct (String.eqb_spec fallback EmptyString). }
  cbn [primary_go]. unfold candidates. destruct (String.eqb_spec n "lo") as [->|Hlo].
  - rewrite filter_cons_False by naive_solver. apply IH.
  - rewrite filter_cons_True by done. rewrite value_bind by apply _. fold (candidates names).
    rewrite filter_cons. fold (has_device e w n).
    destruct (has_device e w n) eqn:Hd.
    + rewrite decide_True by done. by rewrite value_ret.
    + rewrite decide_False by done. rewrite IH. unfold first_of at 3 4. cbn [head default from_option].
      destruct (String.eqb_spec fallback EmptyString) as [->|Hf]; simpl.
      * apply String.eqb_neq in Hn. by rewrite Hn.
      * apply String.eqb_neq in Hf. by rewrite Hf.
Qed.

Lemma dir_entries_nonempty m d : Forall (λ n, n ≠ EmptyString) (dir_entries m d).
Proof.
  apply Forall_forall. intros n Hn. unfold dir_entries in Hn.
  apply elem_of_sort_Strings, list_elem_of_omap in Hn as (kv & _ & Hc).
  unfold child_name in Hc. destruct (drop_prefix _ _) as [r|]; simpl in Hc; [|done].
  destruct (plain_elem r) eqn:Hr; [|done]. injection Hc as <-.
  by apply plain_elem_inv in Hr as (_ & ? & _).
Qed.

(** The interface that is tuned is the first one, in the order of their names, that has a
    device behind it; only on a host where none has, it is the first one that is not the
    loopback; and there is none only if the loopback is alone. *)
Theorem PrimaryInterface_spec (e : Env) (w : World) :
  value (PrimaryInterface e) w =
  match value (ReadDir (Path e ["sys"; "class"; "net"])) w with
  | Err _ => EmptyString
  | Ok names =>
      first_of (first_of EmptyString (candidates names))
        (filter (λ n, has_device e w n = true) (candidates names))
  end.
Proof.
  unfold PrimaryInterface. rewrite value_bind by apply _.
  destruct (value (ReadDir _) w) as [names|err] eqn:Hr; [|done].
  rewrite primary_go_value; [done|].
  unfold value, ReadDir in Hr. simpl in Hr. destruct (fs w !! _) as [[]|]; [|done..].
  injection Hr as <-. apply dir_entries_nonempty.
Qed.

(** An Amazon Linux 2023 host is taken for Amazon Linux 2 as well. *)
Theorem IsAmazonLinux2_of_2023 (d : Distro) :
  IsAmazonLinux2023 d = true → IsAmazonLinux2 d = true.
Proof.
  unfold IsAmazonLinux2023, IsAmazonLinux2. intros H. bool_prop.
  match goal with Hp : HasPrefix _ _ = true |- _ =>
    apply prefix_true_inv in Hp as [rest ->] end.
  apply andb_true_iff. split; [done|]. apply (prefix_app "2" ("023" +:+ rest)).
Qed.

Example IsAmazonLinux2_of_2023_witness :
  IsAmazonLinux2 (mkDistro "amzn" "2023") = true.
Proof. by apply (IsAmazonLinux2_of_2023 (mkDistro "amzn" "2023")). Defined.

(** C7: the original of a file is backed up once and for all. No run of BackupFile, whatever
    its outcome, changes a backup that is there or any other file; a run that succeeds on a
    readable file leaves a backup, which holds the file's content if it is a new one. *)
Theorem BackupFile_keeps_first {HK : Kernel} (path : string) (w : World)
    (r : result error ()) (w' : World) :
  BackupFile path w = (r, w') →
  (∀ n, fs w !! backup_path path = Some n → w' = w) ∧
  (∀ q, q ≠ backup_path path → fs w' !! q = fs w !! q) ∧
  (∀ c, r = Ok () → value (ReadFile path) w = Ok c → fs w !! backup_path path = None →
        fs w' !! backup_path path = Some (NFile 420 c)).
Proof.
  intros Hrun. pose proof (BackupFile_other _ _ _ _ Hrun) as (_ & Hother & Hkeep).
  split_and!; [done..|]. intros c -> Hc Hb.
  destruct (BackupFile_ok _ _ _ _ Hrun Hc) as [(n & Hn & _)|[_ ?]]; [congruence|done].
Qed.

Definition motd_world : World := etc_world [("/etc/motd", NFile 420 "old")].

Example WriteFileIfChanged_atomic_witness :
  let k := plain_kernel in
  let run := WriteFileIfChanged (file_path ["etc"] "motd") "new" 420 motd_world in
  run.1 = Ok true ∧ fs run.2 !! "/etc/motd" = Some (NFile 420 "new") ∧
  ((run.1 ≠ Ok true ∧ fs run.2 !! file_path ["etc"] "motd" = fs motd_world !! file_path ["etc"] "motd") ∨
   (run.1 = Ok true ∧ fs run.2 !! file_path ["etc"] "motd" = Some (NFile 420 "new"))).
Proof.
  intros k run. split; [by vm_compute|]. split; [by vm_compute|].
  refine (proj1 (WriteFileIfChanged_atomic ["etc"] "motd" "new" 420 motd_world run.1 run.2 _ _)).
  - simpl. by repeat constructor.
  - apply surjective_pairing.
Defined.

Example BackupFile_keeps_first_witness :
  let k := plain_kernel in
  let w1 := (BackupFile "/etc/motd" motd_world).2 in
  fs w1 !! backup_path "/etc/motd" = Some (NFile 420 "old") ∧
  (BackupFile "/etc/motd" (set_fs (insert "/etc/motd" (NFile 420 "new")) w1)).2
    = set_fs (insert "/etc/motd" (NFile 420 "new")) w1.
Proof.
  intros k w1. split.
  - refine (proj2 (proj2 (BackupFile_keeps_first "/etc/motd" motd_world
      (BackupFile "/etc/motd" motd_world).1 w1 (surjective_pairing _))) "old" _ _ _);
      by vm_compute.
  - refine (proj1 (BackupFile_keeps_first "/etc/motd"
      (set_fs (insert "/etc/motd" (NFile 420 "new")) w1) _ _ (surjective_pairing _))
      (NFile 420 "old") _). by vm_compute.
Defined.
