(* ===== verification/Frame.v ===== *)
(** * What the calls of [os] and [filepath] depend on and what they touch

    A listing depends on the names below one directory ([below]); a call that writes touches
    the paths it is given, the directories on the way and its temporary files, whatever its
    outcome ([files_only]). From these two the engine's resources are shown not to get in
    each other's way. *)

From S2P Require Import Prelude GoStrings GoPath GoOS Sysutil.

(** ** Paths below a directory *)

Definition below (base : list string) (q : string) : Prop :=
  ∃ es, plain_elems es ∧ q = rooted_path (base ++ es).

Lemma below_self base : below base (rooted_path base).
Proof. exists []. split; [constructor|by rewrite app_nil_r]. Qed.

Lemma below_child base d n :
  plain_elems base → below base d → plain_elem n = true → below base (child d n).
Proof.
  intros Hb (es & Hes & ->) Hn. exists (es ++ [n]). split.
  - apply plain_elems_app. split; [done|]. by repeat constructor.
  - rewrite child_rooted by (by apply plain_elems_app). by rewrite <-app_assoc.
Qed.

(** Everything below a directory starts with its path. *)
Lemma below_text base q :
  base ≠ [] → below base q → ∃ s, q = rooted_path base +:+ s.
Proof.
  intros Hb (es & _ & ->). induction es as [|e es IH] using rev_ind.
  { exists EmptyString. by rewrite app_nil_r, str_app_nil_r. }
  destruct IH as [s IH]. exists (s +:+ slashs +:+ e).
  rewrite app_assoc, rooted_path_snoc by (by destruct base). by rewrite IH, str_app_assoc.
Qed.

Lemma JoinPath_rooted es n :
  plain_elems es → plain_elem n = true →
  JoinPath [rooted_path es; n] = rooted_path (es ++ [n]).
Proof.
  intros Hes Hn. rewrite JoinPath_plain; [|apply is_rooted_path|by repeat constructor].
  by rewrite clean_elems_rooted_path.
Qed.

(** ** Listings are local

    Two file systems look alike below a directory if they have the same paths and the same
    directories there. *)

Definition alike_below (base : list string) (m m' : gmap string node) : Prop :=
  ∀ q, below base q → node_dir <$> m !! q = node_dir <$> m' !! q.

Section listings.
Context (base : list string) (Hbase : plain_elems base).

Lemma dir_entries_local m m' d :
  alike_below base m m' → below base d → dir_entries m d = dir_entries m' d.
Proof.
  intros Hm Hd. apply (StronglySorted_unique String.le); try apply sort_Strings_sorted.
  apply NoDup_Permutation.
  1,2: apply dir_entries_nodup.
  intros n. rewrite !elem_of_dir_entries.
  assert (plain_elem n = true → is_Some (m !! child d n) ↔ is_Some (m' !! child d n)) as H.
  { intros Hn. rewrite <-!(fmap_is_Some node_dir), Hm; [done|]. by apply below_child. }
  naive_solver.
Qed.

Lemma ReadDir_local w w' p :
  alike_below base (fs w) (fs w') → below base p →
  (∀ names, value (ReadDir p) w = Ok names → value (ReadDir p) w' = Ok names).
Proof.
  intros Hm Hp names. unfold value, ReadDir. simpl. pose proof (Hm p Hp) as Hn.
  rewrite (dir_entries_local _ _ p Hm Hp).
  destruct (fs w !! p) as [[]|], (fs w' !! p) as [[]|]; done.
Qed.

Lemma glob_dir_local m m' d f :
  alike_below base m m' → below base d → glob_dir m d f = glob_dir m' d f.
Proof.
  intros Hm Hd. unfold glob_dir. pose proof (Hm d Hd) as Hn.
  rewrite (dir_entries_local _ _ d Hm Hd).
  destruct (m !! d) as [[]|], (m' !! d) as [[]|]; done.
Qed.

Lemma glob_dir_below m d f l :
  below base d → glob_dir m d f = Some l → Forall (below base) l.
Proof.
  intros (es & Hes & ->). unfold glob_dir.
  destruct (m !! _) as [[]|]; try (intros [= <-]; constructor).
  destruct (dir_entries m _) as [|n ns] eqn:Hns; [by intros [= <-]|].
  destruct (parse_pat _ f); [|done]. cbn [fmap option_fmap option_map]. intros [= <-].
  apply Forall_fmap, Forall_forall. intros x [_ Hx]%list_elem_of_filter.
  rewrite <-Hns in Hx. apply elem_of_dir_entries in Hx as [Hx _]. 
  change (below base (JoinPath [rooted_path (base ++ es); x])).
  rewrite JoinPath_rooted by (done || by apply plain_elems_app).
  exists (es ++ [x]). split; [|by rewrite app_assoc].
  apply plain_elems_app. split; [done|]. by repeat constructor.
Qed.

Lemma glob_dirs_local m m' ds f :
  alike_below base m m' → Forall (below base) ds → glob_dirs m ds f = glob_dirs m' ds f.
Proof.
  intros Hm. induction 1 as [|d ds Hd Hds IH]; [done|]. simpl.
  by rewrite (glob_dir_local m m' d f Hm Hd), IH.
Qed.

Lemma glob_dirs_below m ds f l :
  Forall (below base) ds → glob_dirs m ds f = Some l → Forall (below base) l.
Proof.
  intros Hds. revert l. induction Hds as [|d ds Hd Hds IH]; intros l; simpl; [by intros [= <-]|].
  destruct (glob_dir m d f) as [l1|] eqn:H1; simpl; [|done].
  destruct (glob_dirs m ds f) as [l2|]; simpl; [|done]. intros [= <-].
  apply Forall_app. split; [by eapply glob_dir_below|by apply IH].
Qed.
End listings.

(** ** Patterns

    The recursion of [Glob] removes one element of the pattern at each step and ends at the
    directories the pattern names literally. *)

Lemma has_meta_app a b : has_meta (a +:+ b) = has_meta a || has_meta b.
Proof.
  unfold has_meta. rewrite <-existsb_app. f_equal.
  induction a as [|c a IH]; [by rewrite str_nil_app|].
  rewrite str_cons_app. simpl. by rewrite IH.
Qed.

Lemma TrimSuffix_slash p : TrimSuffix (p +:+ slashs) slashs = p.
Proof.
  unfold TrimSuffix. rewrite HasSuffix_app, str_length_app. simpl.
  replace (String.length p + 1 - 1) with (String.length p) by lia.
  induction p as [|c p IH]; [done|]. rewrite str_cons_app. simpl. by rewrite IH.
Qed.

Lemma glob_pattern_split es x :
  es ≠ [] → plain_elem x = true →
  SplitPath (rooted_path (es ++ [x])) = (rooted_path es +:+ slashs, x) ∧
  cleanGlobPath (rooted_path es +:+ slashs) = rooted_path es.
Proof.
  intros Hes Hx. rewrite rooted_path_snoc by done.
  apply plain_elem_inv in Hx as (Hfree & _). split; [by apply SplitPath_app|].
  unfold cleanGlobPath. rewrite TrimSuffix_slash.
  destruct (String.eqb_spec (rooted_path es +:+ slashs) EmptyString) as [H|_].
  { apply str_app_eq_nil in H as [_ ?]. done. }
  destruct (String.eqb_spec (rooted_path es +:+ slashs) slashs) as [H|_]; [|done].
  apply (f_equal String.length) in H. rewrite str_length_app in H. unfold rooted_path in H.
  simpl in H. lia.
Qed.

(** One step of the recursion, for a pattern with an element to remove. *)
Lemma glob_go_step fuel m es x :
  es ≠ [] → plain_elem x = true →
  glob_go (S fuel) m (rooted_path (es ++ [x])) =
  (_ ← Match (rooted_path (es ++ [x])) EmptyString;
   if negb (has_meta (rooted_path (es ++ [x])))
   then Some (match m !! rooted_path (es ++ [x]) with
              | Some _ => [rooted_path (es ++ [x])] | None => [] end)
   else if negb (has_meta (rooted_path es)) then glob_dir m (rooted_path es) x
   else ds ← glob_go fuel m (rooted_path es); glob_dirs m ds x).
Proof.
  intros Hes Hx. destruct (glob_pattern_split es x Hes Hx) as [Hs Hc].
  cbn [glob_go]. rewrite Hs. cbv zeta iota beta. rewrite Hc.
  destruct (String.eqb_spec (rooted_path es) (rooted_path (es ++ [x]))) as [H|_]; [|done].
  rewrite rooted_path_snoc in H by done. apply (f_equal String.length) in H.
  rewrite !str_length_app in H. simpl in H. lia.
Qed.

Section patterns.
Context (base : list string) (Hbase : plain_elems base) (Hne : base ≠ []).
Context (Hlit : has_meta (rooted_path base) = false).

(** What a pattern below a literal directory finds lies below it, depends on nothing else,
    and does not depend on the fuel once there is one unit for each element. *)
Lemma glob_go_below es m m' fuel fuel' :
  plain_elems es → alike_below base m m' →
  length es ≤ fuel → length es ≤ fuel' →
  glob_go (S fuel) m (rooted_path (base ++ es)) = glob_go (S fuel') m' (rooted_path (base ++ es)) ∧
  ∀ l, glob_go (S fuel) m (rooted_path (base ++ es)) = Some l → Forall (below base) l.
Proof.
  intros Hes Hm. revert fuel fuel'.
  induction es as [|x es IH] using rev_ind; intros fuel fuel' Hf Hf'.
  - rewrite app_nil_r. cbn [glob_go]. rewrite Hlit. cbn [negb].
    pose proof (Hm _ (below_self base)) as Hn.
    destruct (Match _ _); simpl; [|done]. split.
    + destruct (m !! rooted_path base), (m' !! rooted_path base); done.
    + intros l [= <-]. case_match; repeat constructor. apply below_self.
  - apply plain_elems_app in Hes as [Hes Hx]. apply plain_elems_cons in Hx as [Hx _].
    rewrite length_app in Hf, Hf'. simpl in Hf, Hf'.
    assert (base ++ es ≠ []) as Hbes by (by destruct base).
    assert (below base (rooted_path (base ++ es))) as Hb by (by exists es).
    assert (below base (rooted_path ((base ++ es) ++ [x]))) as Hbx.
    { exists (es ++ [x]). rewrite app_assoc. split; [|done].
      apply plain_elems_app. split; [done|]. by repeat constructor. }
    rewrite !app_assoc, !glob_go_step by done.
    destruct (Match _ _); simpl; [|done].
    destruct (negb (has_meta (rooted_path ((base ++ es) ++ [x])))).
    { pose proof (Hm _ Hbx) as Hn. split.
      - destruct (m !! rooted_path _), (m' !! rooted_path _); done.
      - intros l [= <-]. case_match; by repeat constructor. }
    destruct (negb (has_meta (rooted_path (base ++ es)))).
    { split; [by apply (glob_dir_local base)|]. intros l. by apply glob_dir_below. }
    destruct fuel as [|fuel], fuel' as [|fuel']; try lia.
    destruct (IH Hes fuel fuel') as [Heq Hall]; [lia..|]. rewrite <-Heq.
    destruct (glob_go (S fuel) m _) as [ds|] eqn:Hds; simpl; [|done].
    specialize (Hall ds eq_refl). split; [by apply (glob_dirs_local base)|].
    intros l. by apply glob_dirs_below.
Qed.
End patterns.

Lemma Glob_below base es w w' :
  plain_elems base → base ≠ [] → has_meta (rooted_path base) = false → plain_elems es →
  length es < pathSeparatorsLimit → alike_below base (fs w) (fs w') →
  value (Glob (rooted_path (base ++ es))) w = value (Glob (rooted_path (base ++ es))) w' ∧
  ∀ l, value (Glob (rooted_path (base ++ es))) w = Ok l → Forall (below base) l.
Proof.
  intros Hb Hne Hlit Hes Hlen Hm. unfold value, Glob. simpl.
  destruct pathSeparatorsLimit as [|fuel]; [lia|].
  destruct (glob_go_below base Hb Hne Hlit es (fs w) (fs w') fuel fuel) as [Heq Hall]; [done..|lia|lia|].
  rewrite <-Heq. destruct (glob_go (S fuel) (fs w) _) as [l|]; [|done].
  split; [done|]. intros l' [= <-]. by apply Hall.
Qed.

(** One step along the structure of a computation; a step that changes nothing is done. *)
Ltac respects_bind :=
  (apply bind_ok_respects || apply bind_respects);
  try lazymatch goal with |- PreOrder _ => apply _ end;
  try (apply read_only_respects; [apply _|apply _]).

(** ** What the calls touch

    [W] are the paths that are watched: [files_only W] relates two hosts on which the
    commands know the same and the watched paths are the same. *)

Definition files_only (W : string → Prop) (w w' : World) : Prop :=
  host w' = host w ∧ ∀ q, W q → fs w' !! q = fs w !! q.

#[export] Instance files_only_preorder W : PreOrder (files_only W).
Proof.
  split; [by intros w|]. intros w1 w2 w3 [Hh H] [Hh' H'].
  split; [congruence|]. intros q Hq. by rewrite H', H.
Qed.

(** A path an atomic write may be aimed at: nothing is watched there, on the way to it or at
    the names its temporary file may get. *)
Record unwatched_write (W : string → Prop) (path : string) : Prop := {
  uw_path : ¬ W path;
  uw_dirs : Forall (λ d, ¬ W d) (ancestors (DirPath path) ++ [DirPath path]);
  uw_temp : ∀ r, ¬ W (child (DirPath path) (("." +:+ BasePath path +:+ ".tmp-") +:+ r))
}.

Section frames.
Context {HK : Kernel} (W : string → Prop).

Lemma put_frame p n : ¬ W p → Respects (files_only W) (put p n).
Proof.
  intros Hp w. split; [done|]. intros q Hq. simpl.
  rewrite lookup_insert_ne; [done|]. by intros ->.
Qed.

#[local] Hint Resolve put_frame : core.
#[local] Hint Extern 0 (Respects _ (ret _)) => apply read_only_respects; apply _ : core.

Lemma WriteFile_frame p data perm : ¬ W p → Respects (files_only W) (WriteFile p data perm).
Proof.
  intros Hp w. destruct (WriteFile p data perm w) as [r w'] eqn:Hrun.
  apply WriteFile_other in Hrun as [Hh Ho]. split; [done|].
  intros q Hq. apply Ho. by intros ->.
Qed.

Lemma MkdirAll_frame p :
  Forall (λ d, ¬ W d) (ancestors p ++ [p]) → Respects (files_only W) (MkdirAll p).
Proof.
  intros Hp w. destruct (MkdirAll p w) as [r w'] eqn:Hrun.
  apply MkdirAll_any in Hrun as (Hh & _ & Ho). split; [done|].
  intros q Hq. apply Ho. rewrite Forall_forall in Hp. intros Hin. by apply (Hp q).
Qed.

Lemma CreateTemp_frame dir prefix :
  (∀ r, ¬ W (child dir (prefix +:+ r))) → Respects (files_only W) (CreateTemp dir prefix) ∧
  ∀ w name, (CreateTemp dir prefix w).1 = Ok name → ¬ W name.
Proof.
  intros Hp. unfold CreateTemp. generalize O.
  induction maxTempTries as [|tries IH]; intros i; [split; [apply _|done]|].
  assert (∀ w : World, CreateTemp_go (S tries) i dir prefix w =
    match fs w !! child dir (prefix +:+ nextRandom w i) with
    | Some _ => CreateTemp_go tries (S i) dir prefix w
    | None => bind_ok (creatable (child dir (prefix +:+ nextRandom w i)))
        (λ _, bind (put (child dir (prefix +:+ nextRandom w i)) (NFile 384 EmptyString))
          (λ _, ret (Ok (child dir (prefix +:+ nextRandom w i))))) w
    end) as Hgo.
  { intros w. simpl. rewrite bind_run. simpl. by destruct (fs w !! _). }
  split.
  - intros w. rewrite Hgo. destruct (fs w !! _); [apply (IH (S i))|].
    apply bind_ok_respects; [apply _|unfold creatable; apply _|]. intros _.
    apply bind_respects; [apply _|by apply put_frame|]. intros _. apply _.
  - intros w name. rewrite Hgo. destruct (fs w !! _); [apply (IH (S i))|].
    rewrite bind_ok_run. destruct (creatable _ w).1; [|done].
    rewrite bind_run. simpl. intros [= <-]. apply Hp.
Qed.

Lemma FileWrite_frame p data : ¬ W p → Respects (files_only W) (FileWrite p data).
Proof.
  intros Hp. unfold FileWrite. destruct (fault OpWrite p); [apply _|].
  apply bind_respects; [apply _|by apply put_frame|]. apply _.
Qed.

Lemma FileChmod_frame p mode : ¬ W p → Respects (files_only W) (FileChmod p mode).
Proof.
  intros Hp w. rewrite FileChmod_run. destruct (fault OpChmod p); [done|].
  split; [done|]. intros q Hq. simpl. rewrite lookup_alter_ne; [done|]. by intros ->.
Qed.

Lemma Rename_frame old new : ¬ W old → ¬ W new → Respects (files_only W) (Rename old new).
Proof.
  intros Ho Hn w. rewrite Rename_run.
  assert (∀ n, files_only W w (set_fs (λ m, <[new:=n]> (delete old m)) w)) as H.
  { intros n. split; [done|]. intros q Hq. simpl.
    rewrite lookup_insert_ne by (by intros ->). rewrite lookup_delete_ne; [done|by intros ->]. }
  destruct (fault OpRename new), (fs w !! old), (fs w !! new) as [[]|]; try done; apply H.
Qed.

Lemma Remove_frame p : ¬ W p → Respects (files_only W) (Remove p).
Proof.
  intros Hp w. rewrite Remove_run. destruct (fs w !! p), (fault OpRemove p); try done.
  split; [done|]. intros q Hq. simpl. rewrite lookup_delete_ne; [done|]. by intros ->.
Qed.

#[local] Hint Resolve FileWrite_frame FileChmod_frame Rename_frame Remove_frame : core.

Lemma fill_temp_frame tmp path content mode :
  ¬ W tmp → ¬ W path → Respects (files_only W) (fill_temp tmp path content mode).
Proof.
  intros Ht Hp. unfold fill_temp. apply bind_respects; [apply _|auto|]. intros [|e]; [|apply _].
  apply bind_respects; [apply _|auto|]. intros [|e]; [|apply _].
  apply bind_ok_respects; [apply _|apply _|]. intros _.
  apply bind_ok_respects; [apply _|apply map_err_respects; auto|]. apply _.
Qed.

Lemma replace_file_frame path content mode :
  unwatched_write W path → Respects (files_only W) (replace_file path content mode).
Proof.
  intros [Hp Hd Ht]. unfold replace_file. apply bind_ok_respects; [apply _|..].
  { by apply map_err_respects, MkdirAll_frame. }
  intros _. destruct (CreateTemp_frame (DirPath path) ("." +:+ BasePath path +:+ ".tmp-"))
    as [Hc Hname]; [by intros r|].
  apply (bind_ok_respects_post _ (λ tmp, ¬ W tmp)).
  - by apply map_err_respects.
  - intros s tmp. rewrite map_err_run. simpl.
    destruct (CreateTemp _ _ s).1 eqn:Hs; [|done]. intros [= <-]. by eapply Hname.
  - intros tmp Htmp. unfold deferred.
    apply bind_respects; [apply _|by apply fill_temp_frame|]. intros r.
    apply bind_respects; [apply _|by apply Remove_frame|]. apply _.
Qed.

Lemma WriteFileIfChanged_frame path content mode :
  unwatched_write W path → Respects (files_only W) (WriteFileIfChanged path content mode).
Proof.
  intros Hp. unfold WriteFileIfChanged. apply bind_respects; [apply _|apply _|].
  intros [c|e]; apply if_respects; (by apply replace_file_frame) || apply _.
Qed.

Lemma BackupFile_frame path : ¬ W (backup_path path) → Respects (files_only W) (BackupFile path).
Proof.
  intros Hp w. destruct (BackupFile path w) as [r w'] eqn:Hrun.
  apply BackupFile_other in Hrun as (Hh & Ho & _). split; [done|].
  intros q Hq. apply Ho. by intros ->.
Qed.
End frames.
