(* ===== verification/GoFmt.v ===== *)
(** * [fmt] and [unicode/utf8]: the verbs the program formats with

    Padding counts runes and [%q] quotes them, so UTF-8 is decoded here. Which runes
    outside ASCII are printable is Unicode's table, the parameter [Unicode]. *)

From S2P Require Import Prelude GoStrings.

Local Open Scope N_scope.

(** ** [utf8.DecodeRuneInString]: the rune and its width; an invalid byte is U+FFFD of
    width 1. *)
Definition RuneError : N := 65533.

Definition cont (n : N) : bool := (128 <=? n) && (n <=? 191).

Definition decode_rune (s : string) : N * nat :=
  match s with
  | EmptyString => (RuneError, 0%nat)
  | String c0 s =>
    let n0 := N_of_ascii c0 in
    if n0 <? 128 then (n0, 1%nat) else
    match s with
    | EmptyString => (RuneError, 1%nat)
    | String c1 s =>
      let n1 := N_of_ascii c1 in
      if (194 <=? n0) && (n0 <=? 223) && cont n1
      then ((n0 - 192) * 64 + (n1 - 128), 2%nat) else
      match s with
      | EmptyString => (RuneError, 1%nat)
      | String c2 s =>
        let n2 := N_of_ascii c2 in
        let lo := if n0 =? 224 then 160 else 128 in
        let hi := if n0 =? 237 then 159 else 191 in
        if (224 <=? n0) && (n0 <=? 239) && (lo <=? n1) && (n1 <=? hi) && cont n2
        then ((n0 - 224) * 4096 + (n1 - 128) * 64 + (n2 - 128), 3%nat) else
        match s with
        | EmptyString => (RuneError, 1%nat)
        | String c3 _ =>
          let n3 := N_of_ascii c3 in
          let lo := if n0 =? 240 then 144 else 128 in
          let hi := if n0 =? 244 then 143 else 191 in
          if (240 <=? n0) && (n0 <=? 244) && (lo <=? n1) && (n1 <=? hi) && cont n2 && cont n3
          then ((n0 - 240) * 262144 + (n1 - 128) * 4096 + (n2 - 128) * 64 + (n3 - 128), 4%nat)
          else (RuneError, 1%nat)
        end
      end
    end
  end.

Fixpoint rune_count_go (skip : nat) (s : string) : nat :=
  match s with
  | EmptyString => 0
  | String _ s' =>
      match skip with
      | S k => rune_count_go k s'
      | O => S (rune_count_go (pred (decode_rune s).2) s')
      end
  end.
Definition RuneCountInString (s : string) : nat := rune_count_go O s.

Fixpoint spaces (n : nat) : string :=
  match n with O => EmptyString | S n => String " " (spaces n) end.

(** [%-<n>s]. *)
Definition PadRight (n : nat) (s : string) : string :=
  s +:+ spaces (n - RuneCountInString s).

(** [%t]. *)
Definition fmt_bool (b : bool) : string := if b then "true" else "false".

(** ** [%q] *)

Class Unicode : Type := { is_print : N → bool }.

Definition backslash : ascii := "\".

(** The escape of one rune that was decoded from the first [width] bytes of [s]. *)
Definition quote_rune `{!Unicode} (s : string) (r : N) (width : nat) : string :=
  let esc c := String backslash (String c EmptyString) in
  let byte := match s with String c _ => N_of_ascii c | _ => 0 end in
  if (Nat.eqb width 1) && (128 <=? byte) then
    esc "x"%char +:+ hex_fixed 2 (Z.of_N byte)
  else if (r =? 34) then String backslash (String quote_char EmptyString)
  else if (r =? 92) then esc backslash
  else if (32 <=? r) && (r <? 127) || (128 <=? r) && is_print r
       then String.substring 0 width s
  else if r =? 7 then esc "a"%char
  else if r =? 8 then esc "b"%char
  else if r =? 12 then esc "f"%char
  else if r =? 10 then esc "n"%char
  else if r =? 13 then esc "r"%char
  else if r =? 9 then esc "t"%char
  else if r =? 11 then esc "v"%char
  else if (r <? 32) || (r =? 127) then esc "x"%char +:+ hex_fixed 2 (Z.of_N r)
  else if r <? 65536 then esc "u"%char +:+ hex_fixed 4 (Z.of_N r)
  else esc "U"%char +:+ hex_fixed 8 (Z.of_N r).

Fixpoint quote_go `{!Unicode} (skip : nat) (s : string) : string :=
  match s with
  | EmptyString => EmptyString
  | String _ s' =>
      match skip with
      | S k => quote_go k s'
      | O => let '(r, width) := decode_rune s in
             quote_rune s r width +:+ quote_go (pred width) s'
      end
  end.

Definition Quote `{!Unicode} (s : string) : string :=
  String quote_char (quote_go O s +:+ String quote_char EmptyString).

(** Every rune printable, for concrete runs. *)
Definition plain_unicode : Unicode := {| is_print := λ _, true |}.

(** ** Texts, rune by rune

    [f] gives what becomes of the rune that a text starts with, and the number of bytes
    that it took. *)
Fixpoint walk (f : string → string * nat) (skip : nat) (s : string) : string :=
  match s with
  | EmptyString => EmptyString
  | String _ s' =>
      match skip with
      | S k => walk f k s'
      | O => let '(out, n) := f s in out +:+ walk f (pred n) s'
      end
  end.

(** Does the text start with a byte that is not UTF-8? *)
Definition bad_byte (s : string) : bool :=
  match s with
  | String c _ => Nat.eqb (decode_rune s).2 1 && (128 <=? N_of_ascii c)
  | EmptyString => false
  end.

(** U+FFFD in UTF-8. *)
Definition replacement : string :=
  String (byte_of 239) (String (byte_of 191) (String (byte_of 189) EmptyString)).

Definition clean_rune (s : string) : string * nat :=
  if bad_byte s then (replacement, 1%nat)
  else let n := (decode_rune s).2 in (String.substring 0 n s, n).

(** A text with every invalid byte replaced. *)
Definition clean (s : string) : string := walk clean_rune O s.

Definition valid_utf8 (s : string) : bool := String.eqb (clean s) s.

Local Close Scope N_scope.

Lemma walk_skip f x s : walk f (String.length x) (x +:+ s) = walk f O s.
Proof. induction x as [|c x IH]; [done|]. by rewrite str_cons_app. Qed.

(** A rune is decided by its own bytes. *)
Lemma walk_rune f x s out :
  x ≠ EmptyString → f (x +:+ s) = (out, String.length x) → walk f O (x +:+ s) = out +:+ walk f O s.
Proof.
  intros Hx Hf. destruct x as [|c x]; [done|]. rewrite str_cons_app in *. cbn [walk].
  rewrite Hf. simpl. by rewrite walk_skip.
Qed.

Lemma substring_take x s : String.substring 0 (String.length x) (x +:+ s) = x.
Proof.
  induction x as [|c x IH]; [by destruct s|]. rewrite str_cons_app. simpl. by rewrite IH.
Qed.

(** [utf8.EncodeRune] of a rune that is none of the surrogates. *)
Definition encode_rune (r : Z) : string :=
  let low n := String (byte_of (Z.to_N (128 + n mod 64))) in
  if (r <? 128)%Z then String (byte_of (Z.to_N r)) EmptyString
  else if (r <? 2048)%Z then
    String (byte_of (Z.to_N (192 + r / 64))) (low r EmptyString)
  else if (r <? 65536)%Z then
    String (byte_of (Z.to_N (224 + r / 4096))) (low (r / 64)%Z (low r EmptyString))
  else String (byte_of (Z.to_N (240 + r / 262144)))
         (low (r / 4096) (low (r / 64) (low r EmptyString)))%Z.

Lemma byte_of_ascii z c : z = Z.of_N (N_of_ascii c) → byte_of (Z.to_N z) = c.
Proof. intros ->. unfold byte_of. by rewrite N2Z.id, ascii_N_embedding. Qed.

(** Solves what a byte of an encoded rune is. *)
Ltac rune_byte := apply byte_of_ascii; Z.to_euclidean_division_equations; lia.

Ltac rune_bounds := bool_prop; unfold cont in *; bool_prop;
  repeat match goal with
  | H : (_ <=? _)%N = true |- _ => apply N.leb_le in H
  | H : (_ <? _)%N = false |- _ => apply N.ltb_ge in H
  end.

Lemma encode_1 c : (N_of_ascii c < 128)%N → encode_rune (Z.of_N (N_of_ascii c)) = String c EmptyString.
Proof.
  intros Hc. unfold encode_rune. rewrite (proj2 (Z.ltb_lt _ 128)) by lia.
  f_equal. by apply byte_of_ascii.
Qed.

Lemma encode_2 c0 c1 :
  (194 <= N_of_ascii c0 <= 223)%N → cont (N_of_ascii c1) = true →
  encode_rune (Z.of_N ((N_of_ascii c0 - 192) * 64 + (N_of_ascii c1 - 128))) =
  String c0 (String c1 EmptyString).
Proof.
  intros H0 H1. rune_bounds. set (n0 := N_of_ascii c0) in *. set (n1 := N_of_ascii c1) in *.
  unfold encode_rune. rewrite (proj2 (Z.ltb_ge _ 128)), (proj2 (Z.ltb_lt _ 2048)) by lia.
  repeat f_equal; rune_byte.
Qed.

Lemma encode_3 c0 c1 c2 :
  (224 <= N_of_ascii c0 <= 239)%N → cont (N_of_ascii c1) = true →
  (N_of_ascii c0 = 224 → 160 <= N_of_ascii c1)%N → cont (N_of_ascii c2) = true →
  encode_rune (Z.of_N ((N_of_ascii c0 - 224) * 4096 + (N_of_ascii c1 - 128) * 64
                         + (N_of_ascii c2 - 128))) =
  String c0 (String c1 (String c2 EmptyString)).
Proof.
  intros H0 H1 Hlo H2. rune_bounds. set (n0 := N_of_ascii c0) in *.
  set (n1 := N_of_ascii c1) in *. set (n2 := N_of_ascii c2) in *.
  unfold encode_rune. rewrite (proj2 (Z.ltb_ge _ 128)), (proj2 (Z.ltb_ge _ 2048)),
    (proj2 (Z.ltb_lt _ 65536)) by lia.
  repeat f_equal; rune_byte.
Qed.

Lemma encode_4 c0 c1 c2 c3 :
  (240 <= N_of_ascii c0 <= 244)%N → cont (N_of_ascii c1) = true →
  (N_of_ascii c0 = 240 → 144 <= N_of_ascii c1)%N → cont (N_of_ascii c2) = true →
  cont (N_of_ascii c3) = true →
  encode_rune (Z.of_N ((N_of_ascii c0 - 240) * 262144 + (N_of_ascii c1 - 128) * 4096
                         + (N_of_ascii c2 - 128) * 64 + (N_of_ascii c3 - 128))) =
  String c0 (String c1 (String c2 (String c3 EmptyString))).
Proof.
  intros H0 H1 Hlo H2 H3. rune_bounds. set (n0 := N_of_ascii c0) in *.
  set (n1 := N_of_ascii c1) in *. set (n2 := N_of_ascii c2) in *. set (n3 := N_of_ascii c3) in *.
  unfold encode_rune. rewrite (proj2 (Z.ltb_ge _ 128)), (proj2 (Z.ltb_ge _ 2048)),
    (proj2 (Z.ltb_ge _ 65536)) by lia.
  repeat f_equal; rune_byte.
Qed.

Lemma rune_3 n0 n1 n2 :
  (224 <=? n0)%N && (n0 <=? 239)%N && ((if (n0 =? 224)%N then 160 else 128) <=? n1)%N
    && (n1 <=? (if (n0 =? 237)%N then 159 else 191))%N && cont n2 = true →
  (224 <= n0 <= 239)%N ∧ cont n1 = true ∧ (n0 = 224 → 160 <= n1)%N ∧ cont n2 = true.
Proof.
  intros H. bool_prop. split_and!; [lia|lia| | |done].
  - unfold cont. apply andb_true_iff. rewrite !N.leb_le.
    destruct (n0 =? 224)%N, (n0 =? 237)%N; lia.
  - by intros ->.
Qed.

Lemma rune_4 n0 n1 n2 n3 :
  (240 <=? n0)%N && (n0 <=? 244)%N && ((if (n0 =? 240)%N then 144 else 128) <=? n1)%N
    && (n1 <=? (if (n0 =? 244)%N then 143 else 191))%N && cont n2 && cont n3 = true →
  (240 <= n0 <= 244)%N ∧ cont n1 = true ∧ (n0 = 240 → 144 <= n1)%N ∧ cont n2 = true ∧
  cont n3 = true.
Proof.
  intros H. bool_prop. split_and!; [lia|lia| | |done|done].
  - unfold cont. apply andb_true_iff. rewrite !N.leb_le.
    destruct (n0 =? 240)%N, (n0 =? 244)%N; lia.
  - by intros ->.
Qed.

Definition high_bytes (s : string) : bool :=
  forallb (λ c, 128 <=? N_of_ascii c)%N (String.list_ascii_of_string s).

(** The first rune of a text: its bytes, whatever follows them; or one invalid byte. *)
Lemma rune_cases s :
  s ≠ EmptyString →
  ∃ x t, s = x +:+ t ∧ x ≠ EmptyString ∧
    ((∃ c, x = String c EmptyString ∧ (128 <= N_of_ascii c)%N ∧ bad_byte s = true ∧
       decode_rune s = (RuneError, 1)) ∨
     (bad_byte s = false ∧ encode_rune (Z.of_N (decode_rune s).1) = x ∧
      ((∃ c, x = String c EmptyString) ∨ high_bytes x = true) ∧
      ∀ t', decode_rune (x +:+ t') = ((decode_rune s).1, String.length x) ∧
       bad_byte (x +:+ t') = false)).
Proof.
  intros Hs. destruct s as [|c0 s]; [done|]. clear Hs.
  destruct (N_of_ascii c0 <? 128)%N eqn:H0.
  { exists (String c0 EmptyString), s. split_and!; [done..|]. right.
    unfold bad_byte, decode_rune. rewrite H0. apply N.ltb_lt in H0 as H0'.
    assert ((128 <=? N_of_ascii c0)%N = false) as Hge by (apply N.leb_gt; lia).
    rewrite Hge. split_and!; [done|by apply encode_1|eauto|].
    intros t'. by rewrite str_cons_app, H0, Hge. }
  assert (128 <= N_of_ascii c0)%N as H0' by (apply N.ltb_ge in H0; lia).
  assert (∀ s', decode_rune (String c0 s') = (RuneError, 1) →
    bad_byte (String c0 s') = true) as Hbad.
  { intros s' H. unfold bad_byte. rewrite H. simpl. by apply N.leb_le. }
  destruct (decide (decode_rune (String c0 s) = (RuneError, 1))) as [He|He].
  { exists (String c0 EmptyString), s. split_and!; [done..|]. left. exists c0. auto. }
  unfold decode_rune in He. rewrite H0 in He.
  destruct s as [|c1 s]; [done|].
  destruct (_ && _) eqn:H1 in He.
  { exists (String c0 (String c1 EmptyString)), s. split_and!; [done..|]. right.
    unfold bad_byte, decode_rune. rewrite H0, H1. split_and!; [done| | |].
    2:{ right. rune_bounds. unfold high_bytes. simpl. by rewrite !(proj2 (N.leb_le 128 _)). }
    { rune_bounds. apply encode_2; [lia|]. unfold cont. apply andb_true_iff. by rewrite !N.leb_le. }
    intros t'. by rewrite !str_cons_app, H0, H1. }
  destruct s as [|c2 s]; [done|].
  destruct (_ && _) eqn:H2 in He.
  { exists (String c0 (String c1 (String c2 EmptyString))), s. split_and!; [done..|]. right.
    unfold bad_byte, decode_rune. rewrite H0, H1, H2. split_and!; [done| | |].
    2:{ right. apply rune_3 in H2 as (? & ? & ? & ?). rune_bounds. unfold high_bytes. simpl.
        by rewrite !(proj2 (N.leb_le 128 _)). }
    { apply rune_3 in H2 as (? & ? & ? & ?). by apply encode_3. }
    intros t'. by rewrite !str_cons_app, H0, H1, H2. }
  destruct s as [|c3 s]; [done|].
  destruct (_ && _) eqn:H3 in He; [|done].
  exists (String c0 (String c1 (String c2 (String c3 EmptyString)))), s. split_and!; [done..|].
  right. unfold bad_byte, decode_rune. rewrite H0, H1, H2, H3. split_and!; [done| | |].
  2:{ right. apply rune_4 in H3 as (? & ? & ? & ? & ?). rune_bounds. unfold high_bytes. simpl.
      by rewrite !(proj2 (N.leb_le 128 _)). }
  { apply rune_4 in H3 as (? & ? & ? & ? & ?). by apply encode_4. }
  intros t'. by rewrite !str_cons_app, H0, H1, H2, H3.
Qed.
