(* ===== verification/Resource.v ===== *)
(** * internal/resource/resource.go

    The outcome of a check, the interface every resource implements and the contract its
    comments state: a check changes nothing, its result carries the resource's name, an
    error comes with [StatusFailed]; and once [Apply] has succeeded the next check finds
    nothing left to do. *)

From S2P Require Import Prelude GoStrings GoFmt GoOS.

(** ** Status and Result *)

Inductive Status : Set :=
| StatusUnchanged
| StatusWouldChange
| StatusChanged
| StatusFailed
| StatusSkipped
| StatusRebootRequired.

#[export] Instance Status_eq_dec : EqDecision Status.
Proof. solve_decision. Defined.

Definition status_string (s : Status) : string :=
  match s with
  | StatusUnchanged => "unchanged"
  | StatusWouldChange => "would_change"
  | StatusChanged => "changed"
  | StatusFailed => "failed"
  | StatusSkipped => "skipped"
  | StatusRebootRequired => "reboot_required"
  end.

Definition Changed (s : Status) : bool :=
  bool_decide (s = StatusChanged) || bool_decide (s = StatusWouldChange).

Record Result : Set := mkResult { rName : string; rStatus : Status; rDetail : string }.

#[export] Instance Result_eq_dec : EqDecision Result.
Proof. solve_decision. Defined.

Definition Result_String (r : Result) : string :=
  if String.eqb (rDetail r) EmptyString
  then PadRight 28 (rName r) +:+ " " +:+ status_string (rStatus r)
  else PadRight 28 (rName r) +:+ " " +:+ PadRight 16 (status_string (rStatus r))
         +:+ " " +:+ rDetail r.

Definition joinDetails (fragments : list string) : string :=
  Join "; " (filter (λ f, f ≠ EmptyString) fragments).

(** ** The interface *)

(** [Check] returns a result and an error; both are used by the engine. *)
Definition Checked : Type := M World (Result * option error).

Record Resource : Type := mkResource {
  Name : string;
  Checking : Checked;
  Apply : IO ()
}.

Definition checked (r : Result) : Checked := ret (r, None).

(** The result of a check that failed itself. *)
Definition check_failed (name : string) (e : error) : Checked :=
  ret (mkResult name StatusFailed (Error e), Some e).

(** ** The contract *)

(** Nothing is left for [Apply] to do. *)
Definition settled (c : Result * option error) : Prop :=
  c.2 = None ∧ rStatus c.1 ∈ [StatusUnchanged; StatusSkipped; StatusRebootRequired].

(** What a check may report. *)
Definition check_result_ok (name : string) (c : Result * option error) : Prop :=
  rName c.1 = name ∧ rStatus c.1 ≠ StatusChanged ∧
  (is_Some c.2 ↔ rStatus c.1 = StatusFailed).

(** Every resource: the part of the contract that needs no assumption on the host. *)
Class WellBehaved (r : Resource) : Prop := {
  wb_read_only :: ReadOnly (Checking r);
  wb_result : ∀ w, check_result_ok (Name r) (value (Checking r) w)
}.

(** A resource that converges on the hosts that satisfy [I]. *)
Class Converges (I : World → Prop) (r : Resource) : Prop := {
  cv_behaved :: WellBehaved r;
  cv_invariant : ∀ w x w', I w → Apply r w = (x, w') → I w';
  cv_settles : ∀ w w', I w → Apply r w = (Ok (), w') → settled (value (Checking r) w')
}.

(** A resource that only writes when there is something to change. *)
Class QuietWhenUnchanged (r : Resource) : Prop :=
  quiet : ∀ w, rStatus (value (Checking r) w).1 = StatusUnchanged → Apply r w = (Ok (), w).

(** Has the resource converged on this host? *)
Definition converged (r : Resource) (w : World) : Prop := settled (value (Checking r) w).

#[export] Instance settled_dec c : Decision (settled c).
Proof. unfold settled. apply _. Defined.

Lemma settled_unchanged name d : settled (mkResult name StatusUnchanged d, None).
Proof. split; [done|simpl; set_solver]. Qed.
Lemma settled_skipped name d : settled (mkResult name StatusSkipped d, None).
Proof. split; [done|simpl; set_solver]. Qed.
Lemma settled_reboot name d : settled (mkResult name StatusRebootRequired d, None).
Proof. split; [done|simpl; set_solver]. Qed.

#[export] Hint Resolve settled_unchanged settled_skipped settled_reboot : go.

Lemma settled_not_changed c : settled c → Changed (rStatus c.1) = false ∧ rStatus c.1 ≠ StatusFailed.
Proof.
  intros [_ H]. destruct (rStatus c.1); try (split; done); exfalso;
    rewrite !elem_of_cons, elem_of_nil in H; naive_solver.
Qed.

Lemma check_result_checked name (s : Status) d :
  s ≠ StatusChanged → s ≠ StatusFailed → check_result_ok name (mkResult name s d, None).
Proof. intros. split_and!; [done..|]. simpl. split; [by intros []|done]. Qed.

Lemma check_result_failed name e d :
  check_result_ok name (mkResult name StatusFailed d, Some e).
Proof. split_and!; [done..|]. simpl. split; eauto. Qed.

#[export] Hint Resolve check_result_checked check_result_failed : go.
#[export] Hint Extern 1 (_ ≠ _) => discriminate : go.

#[global] Typeclasses Opaque checked check_failed.

#[export] Instance checked_read_only r : ReadOnly (checked r).
Proof. unfold checked. apply _. Qed.
#[export] Instance check_failed_read_only name e : ReadOnly (check_failed name e).
Proof. unfold check_failed. apply _. Qed.

Lemma value_checked r w : value (checked r) w = (r, None).
Proof. done. Qed.
Lemma value_check_failed name e w :
  value (check_failed name e) w = (mkResult name StatusFailed (Error e), Some e).
Proof. done. Qed.

#[export] Hint Rewrite value_checked value_check_failed : go_run.

Lemma unchanged_settled r `{!WellBehaved r} w :
  rStatus (value (Checking r) w).1 = StatusUnchanged → settled (value (Checking r) w).
Proof.
  intros Hs. destruct (wb_result (r:=r) w) as (_ & _ & Herr). unfold settled. rewrite Hs in *.
  split; [|set_solver]. destruct (value (Checking r) w).2; [|done].
  exfalso. assert (StatusUnchanged = StatusFailed) by (apply Herr; eauto). done.
Qed.

(** Details list only what there is to say. *)
Lemma joinDetails_nil l : joinDetails l = EmptyString ↔ Forall (λ f, f = EmptyString) l.
Proof.
  unfold joinDetails. induction l as [|f l IH]; [simpl; split; [constructor|done]|].
  rewrite Forall_cons. destruct (decide (f = EmptyString)) as [->|Hf].
  - rewrite filter_cons_False by naive_solver. rewrite IH. naive_solver.
  - rewrite filter_cons_True by done. split; [|naive_solver].
    intros H. exfalso. destruct (filter _ l); simpl in H; [done|].
    by apply str_app_eq_nil in H as [? _].
Qed.

(** Closes [check_result_ok] and [settled] for a check that has come to its result. *)
Ltac check_done := autorewrite with go_run; simpl; auto with go.
