(* ===== verification/DropIn.v ===== *)
(** * internal/resource/dropinfile.go and limits.go

    [DropInFileResource]: a rendered file, written if its content differs; and the two
    renderers of the limits drop-ins it is used with. *)

From S2P Require Import Prelude GoStrings GoPath GoOS Sysutil Resource.

(** ** limits.go *)

Definition managed_header : string :=
  "# Managed by node-configurator. Local edits will be overwritten." +:+ nls.

(** The limits are [uint64]; 0 processes stands for no limit. *)
Definition RenderLimitsConf (nofile nproc : Z) : string :=
  let nprocStr := if (0 <? nproc)%Z then Itoa nproc else "infinity" in
  managed_header
    +:+ "* soft nofile " +:+ Itoa nofile +:+ nls
    +:+ "* hard nofile " +:+ Itoa nofile +:+ nls
    +:+ "* soft nproc " +:+ nprocStr +:+ nls
    +:+ "* hard nproc " +:+ nprocStr +:+ nls.

Definition RenderSystemdLimitDropIn (nofile : Z) : string :=
  managed_header +:+ "[Service]" +:+ nls +:+ "LimitNOFILE=" +:+ Itoa nofile +:+ nls.

(** ** dropinfile.go *)

Record DropInFileResource : Set := mkDropIn {
  df_ResourceName : string;
  df_Path : string;
  df_Content : string;
  df_Mode : Z
}.

Definition DropInFileResource_Check (r : DropInFileResource) : Checked :=
  existing <- ReadFileString (df_Path r);;
  match existing with
  | Ok c =>
      if String.eqb c (df_Content r)
      then checked (mkResult (df_ResourceName r) StatusUnchanged EmptyString)
      else checked (mkResult (df_ResourceName r) StatusWouldChange
                      (df_Path r +:+ " out of date"))
  | Err _ =>
      checked (mkResult (df_ResourceName r) StatusWouldChange (df_Path r +:+ " out of date"))
  end.

Section apply.
Context {HK : Kernel}.

Definition DropInFileResource_Apply (r : DropInFileResource) : IO () :=
  let mode := if (df_Mode r =? 0)%Z then 420%Z else df_Mode r in
  _ <-? map_err (Wrap ("writing " +:+ df_Path r))
          (WriteFileIfChanged (df_Path r) (df_Content r) mode);;
  ret (Ok ()).

Definition dropin_resource (r : DropInFileResource) : Resource :=
  mkResource (df_ResourceName r) (DropInFileResource_Check r) (DropInFileResource_Apply r).

(** ** The contract *)

#[export] Instance dropin_behaved r : WellBehaved (dropin_resource r).
Proof.
  split; simpl; unfold DropInFileResource_Check.
  - apply bind_read_only; [apply _|]. intros []; apply _.
  - intros w. ro_case; [case_bool|]; simpl; eauto with go.
Qed.

Lemma DropIn_apply_inv r w w' :
  DropInFileResource_Apply r w = (Ok (), w') →
  ∃ mode b, WriteFileIfChanged (df_Path r) (df_Content r) mode w = (Ok b, w').
Proof.
  unfold DropInFileResource_Apply. intros H. run_inv. eauto.
Qed.

(** It converges wherever its path is the path of a file. *)
Lemma dropin_converges es e r :
  plain_elems (es ++ [e]) → df_Path r = file_path es e →
  Converges (λ _, True) (dropin_resource r).
Proof.
  intros Hplain Hpath. split; [apply _|done|].
  intros w w' _ (mode & b & Hrun)%DropIn_apply_inv. rewrite Hpath in Hrun.
  apply WriteFileIfChanged_ok in Hrun as (Hread & _); [|done].
  simpl. unfold DropInFileResource_Check, ReadFileString. rewrite Hpath. ro_step.
  rewrite Hread, String.eqb_refl. simpl. auto with go.
Qed.

(** It has converged where the file reads as its content. *)
Lemma dropin_converged r w :
  converged (dropin_resource r) w ↔ value (ReadFile (df_Path r)) w = Ok (df_Content r).
Proof.
  unfold converged. simpl. unfold DropInFileResource_Check, ReadFileString.
  rewrite value_bind by apply _. destruct (value (ReadFile (df_Path r)) w) as [c|err].
  - destruct (String.eqb_spec c (df_Content r)) as [->|Hne]; split; try done.
    + intros _. apply settled_unchanged.
    + intros [Hc _]%settled_not_changed. done.
    + by intros [= ->].
  - split; [|done]. intros [Hc _]%settled_not_changed. done.
Qed.
End apply.

(** ** Persisted settings

    The sysctl and the module resources end the same way: an optional drop-in file that
    holds their settings. *)

Definition persist_needed (file content : string) : M World bool :=
  if String.eqb file EmptyString then ret false
  else
    existing <- ReadFileString file;;
    ret (match existing with
         | Err _ => true
         | Ok c => negb (String.eqb c content)
         end).

Definition persist {HK : Kernel} (msg file content : string) : IO () :=
  if String.eqb file EmptyString then ret (Ok ())
  else
    _ <-? map_err (Wrap (msg +:+ file)) (WriteFileIfChanged file content 420);;
    ret (Ok ()).

(** The file is none of the nodes at or below [qs]. *)
Definition persist_outside (file : string) (qs : list string) : Prop :=
  file = EmptyString ∨
  ∃ es e, plain_elems (es ++ [e]) ∧ file = file_path es e ∧ ∀ post, es ++ [e] ≠ qs ++ post.

#[export] Instance persist_needed_read_only file content :
  ReadOnly (persist_needed file content).
Proof. unfold persist_needed. apply _. Qed.

Section persist_facts.
Context {HK : Kernel} (msg file content : string).

Lemma persist_needed_false w :
  value (persist_needed file content) w = false ↔
  file = EmptyString ∨ value (ReadFile file) w = Ok content.
Proof.
  unfold persist_needed, ReadFileString.
  destruct (String.eqb_spec file EmptyString) as [He|He]; [split; [by left|done]|].
  rewrite value_bind by apply _. destruct (value (ReadFile _) w) as [c|]; simpl.
  - unfold value at 1. simpl. rewrite negb_false_iff, String.eqb_eq. naive_solver.
  - split; [done|naive_solver].
Qed.

Lemma persist_quiet w :
  value (persist_needed file content) w = false → persist msg file content w = (Ok (), w).
Proof.
  rewrite persist_needed_false. unfold persist.
  destruct (String.eqb_spec file EmptyString) as [|Hne]; [done|]. intros [?|Hread]; [done|].
  rewrite bind_ok_run, map_err_run. unfold WriteFileIfChanged.
  by rewrite bind_value, Hread, String.eqb_refl by apply _.
Qed.

(** Whatever its outcome. *)
Lemma persist_keeps qs sub w x w' n :
  persist_outside file qs → persist msg file content w = (x, w') →
  plain_elems (qs ++ sub) → fs w !! rooted_path (qs ++ sub) = Some n →
  fs w' !! rooted_path (qs ++ sub) = Some n.
Proof.
  intros Hout Hrun Hsub Hn. unfold persist in Hrun. case_bool; [by injection Hrun as _ <-|].
  destruct Hout as [Hnil|(es & e & Hplain & -> & Hout)].
  { match goal with H : String.eqb _ _ = false |- _ => by rewrite Hnil in H end. }
  rewrite bind_ok_run, map_err_run in Hrun.
  destruct (WriteFileIfChanged _ _ _ w) as [rw w1] eqn:Hw.
  assert (w' = w1) as -> by (destruct rw; by injection Hrun).
  eapply WriteFileIfChanged_other; [exact Hplain|exact Hw| |exact Hn].
  intros Heq%rooted_path_inj; [|done..]. apply (Hout sub). done.
Qed.

Lemma persist_ok qs w w' :
  persist_outside file qs → persist msg file content w = (Ok (), w') →
  value (persist_needed file content) w' = false ∧
  ∀ sub, plain_elems (qs ++ sub) →
    fs w' !! rooted_path (qs ++ sub) = fs w !! rooted_path (qs ++ sub).
Proof.
  intros Hout Hrun. unfold persist in Hrun. rewrite persist_needed_false. case_bool.
  { run_inv. split; [|done]. left. by apply String.eqb_eq. }
  destruct Hout as [Hnil|(es & e & Hplain & -> & Hout)].
  { match goal with H : String.eqb _ _ = false |- _ => by rewrite Hnil in H end. }
  run_inv. match goal with H : WriteFileIfChanged _ _ _ _ = _ |- _ => rename H into Hw end.
  split; [right; by apply (WriteFileIfChanged_ok es e Hplain) in Hw as [? _]|].
  intros sub Hsub. eapply WriteFileIfChanged_keeps; [done|exact Hw|done| |done].
  intros post. rewrite <-app_assoc. apply Hout.
Qed.
End persist_facts.

(** ** Properties *)

(** A drop-in converges wherever its path is that of a file: once Apply has succeeded, the
    file reads as its content exactly, nothing is left to do, and applying again writes
    nothing. *)
Theorem DropInFileResource_Apply_converges {HK : Kernel} (r : DropInFileResource)
    (es : list string) (e : string) (w w' : World) :
  plain_elems (es ++ [e]) → df_Path r = file_path es e →
  DropInFileResource_Apply r w = (Ok (), w') →
  value (ReadFile (df_Path r)) w' = Ok (df_Content r) ∧
  settled (value (DropInFileResource_Check r) w') ∧
  DropInFileResource_Apply r w' = (Ok (), w').
Proof.
  intros Hplain Hpath Hrun. destruct (DropIn_apply_inv r w w' Hrun) as (mode & b & Hw).
  rewrite Hpath in Hw |- *. apply WriteFileIfChanged_ok in Hw as (Hread & _); [|done].
  split; [done|]. split.
  - by apply (cv_settles (Converges := dropin_converges es e r Hplain Hpath) w w').
  - unfold DropInFileResource_Apply. rewrite bind_ok_run, map_err_run. unfold WriteFileIfChanged.
    by rewrite Hpath, bind_value, Hread, String.eqb_refl by apply _.
Qed.

Definition limits_dropin : DropInFileResource :=
  mkDropIn "limits" "/etc/security/limits.d/99-node-configurator.conf"
    (RenderLimitsConf 1048576 0) 0.

Example DropInFileResource_Apply_converges_witness :
  let k := plain_kernel in
  let w' := (DropInFileResource_Apply limits_dropin (etc_world [])).2 in
  value (ReadFile (df_Path limits_dropin)) w' = Ok (df_Content limits_dropin) ∧
  settled (value (DropInFileResource_Check limits_dropin) w') ∧
  DropInFileResource_Apply limits_dropin w' = (Ok (), w').
Proof.
  intros k w'.
  apply (DropInFileResource_Apply_converges limits_dropin ["etc"; "security"; "limits.d"]
    "99-node-configurator.conf" (etc_world []) w').
  - by repeat constructor.
  - by vm_compute.
  - apply run_ok. by vm_compute.
Defined.
