(* ===== verification/Sysctl.v ===== *)
(** * internal/resource/sysctl.go

    [SysctlResource]: a map of kernel parameters, compared with and written to the live
    kernel key by key in sorted order, and persisted to a drop-in file. *)

From S2P Require Import Prelude GoStrings GoFmt GoPath GoOS Sysutil Resource DropIn.

(** ** Rendering *)

Definition sortedKeys (m : gmap string string) : list string :=
  sort_Strings (map_to_list m).*1.

(** [m[key]]: the empty string for a key that is not there. *)
Definition setting (m : gmap string string) (key : string) : string :=
  default EmptyString (m !! key).

Definition normalizeSysctlValue (s : string) : string := Join " " (Fields s).

Definition render_settings (m : gmap string string) (keys : list string) : string :=
  foldr (λ key b, key +:+ " = " +:+ setting m key +:+ nls +:+ b) EmptyString keys.

Definition renderSysctlFile (settings : gmap string string) : string :=
  "# Managed by node-configurator. Local edits will be overwritten." +:+ nls
    +:+ render_settings settings (sortedKeys settings).

(** ** The resource *)

Record SysctlResource : Type := mkSysctl {
  sc_Env : Env;
  sc_Settings : gmap string string;
  sc_PersistFile : string
}.

Definition SysctlResource_persistNeeded (r : SysctlResource) : M World bool :=
  if String.eqb (sc_PersistFile r) EmptyString then ret false
  else
    existing <- ReadFileString (sc_PersistFile r);;
    ret (match existing with
         | Err _ => true
         | Ok c => negb (String.eqb c (renderSysctlFile (sc_Settings r)))
         end).

Section resource.
Context {HK : Kernel} {HU : Unicode}.

(** One key: what it adds to the drift and to the skipped keys. *)
Definition diff_key (r : SysctlResource) (key : string) : IO (list string * list string) :=
  let want := setting (sc_Settings r) key in
  ex <- SysctlExists (sc_Env r) key;;
  if negb ex then ret (Ok ([], [key]))
  else
    cur <-? map_err (Wrap ("reading sysctl " +:+ key)) (ReadSysctl (sc_Env r) key);;
    ret (Ok (if String.eqb (normalizeSysctlValue cur) (normalizeSysctlValue want) then []
             else [key +:+ ": " +:+ Quote cur +:+ " -> " +:+ Quote want], [])).

Fixpoint diff_keys (r : SysctlResource) (keys : list string) :
    IO (list string * list string) :=
  match keys with
  | [] => ret (Ok ([], []))
  | key :: keys =>
      d <-? diff_key r key;;
      ds <-? diff_keys r keys;;
      ret (Ok (d.1 ++ ds.1, d.2 ++ ds.2))
  end.

Definition SysctlResource_diffLive (r : SysctlResource) : IO (list string * list string) :=
  diff_keys r (sortedKeys (sc_Settings r)).

Definition SysctlResource_Check (r : SysctlResource) : Checked :=
  d <- SysctlResource_diffLive r;;
  match d with
  | Err e => check_failed "sysctl" e
  | Ok (drift, skipped) =>
      persistDrift <- SysctlResource_persistNeeded r;;
      if negb (nonempty drift) && negb persistDrift then
        checked (mkResult "sysctl" StatusUnchanged
          (if nonempty skipped
           then Itoa (Z.of_nat (length skipped))
                  +:+ " key(s) not present on this kernel, skipped: " +:+ Join ", " skipped
           else EmptyString))
      else
        let detail := Join ", " drift in
        let detail := if persistDrift then joinDetails [detail; "drop-in file out of date"]
                      else detail in
        checked (mkResult "sysctl" StatusWouldChange detail)
  end.

Definition apply_key (r : SysctlResource) (key : string) : IO () :=
  let want := setting (sc_Settings r) key in
  ex <- SysctlExists (sc_Env r) key;;
  if negb ex then ret (Ok ())
  else
    cur <- ReadSysctl (sc_Env r) key;;
    let same := match cur with
                | Ok c => String.eqb (normalizeSysctlValue c) (normalizeSysctlValue want)
                | Err _ => false
                end in
    if same then ret (Ok ())
    else map_err (Wrap ("applying sysctl " +:+ key +:+ "=" +:+ want))
           (WriteSysctl (sc_Env r) key want).

Definition SysctlResource_Apply (r : SysctlResource) : IO () :=
  _ <-? for_each (sortedKeys (sc_Settings r)) (apply_key r);;
  if String.eqb (sc_PersistFile r) EmptyString then ret (Ok ())
  else
    _ <-? map_err (Wrap ("persisting sysctl drop-in " +:+ sc_PersistFile r))
            (WriteFileIfChanged (sc_PersistFile r) (renderSysctlFile (sc_Settings r)) 420);;
    ret (Ok ()).

Definition sysctl_resource (r : SysctlResource) : Resource :=
  mkResource "sysctl" (SysctlResource_Check r) (SysctlResource_Apply r).
End resource.


(** ** Comparing values *)

Lemma Fields_normalize s : Fields (normalizeSysctlValue s) = Fields s.
Proof. apply Fields_Join; [done|done|apply Fields_field_all]. Qed.

Lemma normalize_eq a b :
  normalizeSysctlValue a = normalizeSysctlValue b ↔ Fields a = Fields b.
Proof.
  split; intros H; [by rewrite <-Fields_normalize, H, Fields_normalize|].
  unfold normalizeSysctlValue. by rewrite H.
Qed.

Lemma normalize_eqb a b :
  String.eqb (normalizeSysctlValue a) (normalizeSysctlValue b) =
  bool_decide (Fields a = Fields b).
Proof.
  destruct (String.eqb_spec (normalizeSysctlValue a) (normalizeSysctlValue b)) as [H|H];
    rewrite normalize_eq in H; [by rewrite bool_decide_true|by rewrite bool_decide_false].
Qed.

(** ** One key *)

Section key_facts.
Context {HK : Kernel} {HU : Unicode} (r : SysctlResource).

(** There is nothing to do for a key: the kernel has none, or it has the value. *)
Definition key_settled (key : string) (w : World) : Prop :=
  fs w !! SysctlPath (sc_Env r) key = None ∨
  ∃ c, value (ReadFile (SysctlPath (sc_Env r) key)) w = Ok c ∧
       Fields c = Fields (setting (sc_Settings r) key).

Lemma SysctlExists_value key w :
  value (SysctlExists (sc_Env r) key) w =
  bool_decide (is_Some (fs w !! SysctlPath (sc_Env r) key)).
Proof.
  unfold SysctlExists. ro_step. unfold value, Stat. simpl.
  by destruct (fs w !! SysctlPath (sc_Env r) key).
Qed.

Lemma ReadSysctl_value key w :
  value (ReadSysctl (sc_Env r) key) w =
  match value (ReadFile (SysctlPath (sc_Env r) key)) w with
  | Ok c => Ok (TrimSpace c)
  | Err e => Err e
  end.
Proof.
  unfold ReadSysctl, value. rewrite bind_ok_run.
  by destruct (ReadFile (SysctlPath (sc_Env r) key) w) as [[]].
Qed.

#[export] Instance diff_key_read_only key : ReadOnly (diff_key r key).
Proof. unfold diff_key. apply _. Qed.
#[export] Instance diff_keys_read_only keys : ReadOnly (diff_keys r keys).
Proof. induction keys; simpl; apply _. Qed.

Lemma diff_key_settled key w :
  key_settled key w ↔ ∃ sk, value (diff_key r key) w = Ok ([], sk).
Proof.
  unfold key_settled, diff_key. rewrite value_bind, SysctlExists_value by apply _.
  destruct (fs w !! SysctlPath (sc_Env r) key) as [n|] eqn:Hn; simpl.
  2: { split; [eauto|by left]. }
  rewrite value_bind_ok, value_map_err, ReadSysctl_value by apply _.
  destruct (value (ReadFile _) w) as [c|e]; simpl.
  - rewrite normalize_eqb, Fields_TrimSpace.
    case_bool_decide as Hf; split; [eauto| |intros [?|(? & ? & ?)]; by simplify_eq|by intros []].
    intros _. right. eauto.
  - split; [intros [?|(? & ? & ?)]; done|by intros []].
Qed.

Lemma diff_keys_settled keys w :
  (∀ key, key ∈ keys → key_settled key w) ↔ ∃ sk, value (diff_keys r keys) w = Ok ([], sk).
Proof.
  induction keys as [|key keys IH]; simpl; [split; [eauto|set_solver]|].
  assert (value (d <-? diff_key r key;; ds <-? diff_keys r keys;;
                 ret (Ok (d.1 ++ ds.1, d.2 ++ ds.2))) w =
    match value (diff_key r key) w, value (diff_keys r keys) w with
    | Err e, _ => Err e
    | Ok _, Err e => Err e
    | Ok d, Ok ds => Ok (d.1 ++ ds.1, d.2 ++ ds.2)
    end) as ->.
  { rewrite value_bind_ok by apply _. destruct (value (diff_key r key) w); [|done].
    by rewrite value_bind_ok by apply _. }
  setoid_rewrite elem_of_cons. split.
  - intros H. destruct (proj1 (diff_key_settled key w)) as [sk ->]; [apply H; by left|].
    destruct (proj1 IH) as [sk' ->]; [auto|]. simpl. eauto.
  - intros [sk Hsk].
    destruct (value (diff_key r key) w) as [[d1 d2]|] eqn:Hk; [|done].
    destruct (value (diff_keys r keys) w) as [[ds1 ds2]|] eqn:Hks; [|done].
    simpl in Hsk. simplify_eq. match goal with H : _ ++ _ = [] |- _ => rename H into Hnil end.
    apply app_nil in Hnil as [-> ->].
    intros k [->|Hin]; [apply diff_key_settled; eauto|apply IH; eauto].
Qed.

(** A settled key is left alone. *)
Lemma apply_key_settled key w : key_settled key w → apply_key r key w = (Ok (), w).
Proof.
  unfold key_settled, apply_key. intros Hs.
  rewrite bind_value by apply _. rewrite SysctlExists_value.
  destruct Hs as [->|(c & Hc & Hf)]; [done|].
  case_bool_decide; simpl; [|done].
  rewrite bind_value by apply _.
  by rewrite ReadSysctl_value, Hc, normalize_eqb, Fields_TrimSpace, bool_decide_true.
Qed.

(** Every run of one key changes no other path. *)
Lemma apply_key_other key w x w' q :
  apply_key r key w = (x, w') → q ≠ SysctlPath (sc_Env r) key →
  host w' = host w ∧ fs w' !! q = fs w !! q.
Proof.
  unfold apply_key. rewrite bind_value by apply _. case_bool; [by intros [= <- <-]|].
  rewrite bind_value by apply _. case_bool; [by intros [= <- <-]|].
  rewrite map_err_run. unfold WriteSysctl. rewrite bind_ok_run, map_err_run, (read_only w).
  destruct (Stat _ w).1; simpl; [|by intros [= <- <-]].
  destruct (WriteFile _ _ _ w) as [y w1] eqn:Hw. simpl. intros [= <- <-] Hq.
  apply WriteFile_other in Hw as [??]. auto.
Qed.

(** The kernel takes the value: a write that succeeds is read back, up to white space. *)
Definition keeps_value (key : string) : Prop :=
  ∀ old new, knob_write (SysctlPath (sc_Env r) key) old (setting (sc_Settings r) key) = Ok new →
    ∃ c, new = Ok c ∧ Fields c = Fields (setting (sc_Settings r) key).

Lemma apply_key_ok key w w' :
  keeps_value key → apply_key r key w = (Ok (), w') → key_settled key w'.
Proof.
  intros Hkeep Hrun. unfold apply_key in Hrun. unfold key_settled.
  rewrite bind_value, SysctlExists_value in Hrun by apply _.
  case_bool_decide as Hex; simpl in Hrun.
  2: { simplify_eq. left. by destruct (fs w' !! _); [destruct Hex|]. }
  rewrite bind_value, ReadSysctl_value in Hrun by apply _.
  assert (WriteSysctl (sc_Env r) key (setting (sc_Settings r) key) w = (Ok (), w') →
    key_settled key w') as Hwrite.
  { unfold WriteSysctl. intros Hr. run_inv. simplify_eq.
    match goal with H : Stat _ _ = _ |- _ =>
      rewrite (read_only_run (Stat _)) in H; simplify_eq end.
    apply WriteFile_ok in Hr as (n & Hn & ->). right.
    setoid_rewrite ReadFile_ok_node. simpl. rewrite lookup_insert_eq.
    unfold written in Hn. destruct (fs _ !! _) as [[|m c|old]|]; [done|subst n; eauto| |].
    - destruct Hn as (c & Hc & ->). destruct (Hkeep _ _ Hc) as (c' & -> & ?). eauto.
    - subst n. eauto. }
  destruct (value (ReadFile _) w) as [c|e] eqn:Hread; simpl in Hrun.
  - rewrite normalize_eqb, Fields_TrimSpace in Hrun. case_bool_decide; simpl in Hrun.
    + simplify_eq. right. eauto.
    + run_inv. by apply Hwrite.
  - run_inv. by apply Hwrite.
Qed.

(** One key depends on its own path. *)
Lemma key_settled_same key w w' :
  fs w' !! SysctlPath (sc_Env r) key = fs w !! SysctlPath (sc_Env r) key →
  key_settled key w → key_settled key w'.
Proof.
  intros Heq [H|(c & Hc & ?)]; [left; congruence|right].
  exists c. split; [|done]. by eapply ReadFile_same.
Qed.
End key_facts.

(** ** The resource *)

Section resource_facts.
Context {HK : Kernel} {HU : Unicode}.

#[export] Instance persistNeeded_read_only r : ReadOnly (SysctlResource_persistNeeded r).
Proof. unfold SysctlResource_persistNeeded. apply _. Qed.

#[export] Instance SysctlResource_Check_read_only r : ReadOnly (SysctlResource_Check r).
Proof.
  unfold SysctlResource_Check, SysctlResource_diffLive.
  apply bind_read_only; [apply _|]. intros [[]|]; apply _.
Qed.

#[export] Instance sysctl_behaved r : WellBehaved (sysctl_resource r).
Proof.
  split; simpl; [apply _|]. intros w. unfold SysctlResource_Check, SysctlResource_diffLive.
  rewrite value_bind by apply _. destruct (value (diff_keys _ _) w) as [[drift skipped]|]; simpl.
  - rewrite value_bind by apply _. case_bool; check_done.
  - check_done.
Qed.

(** The check reports [StatusUnchanged] exactly when nothing is left to do. *)
Lemma sysctl_unchanged r w :
  rStatus (value (SysctlResource_Check r) w).1 = StatusUnchanged ↔
  (∀ key, key ∈ sortedKeys (sc_Settings r) → key_settled r key w) ∧
  value (SysctlResource_persistNeeded r) w = false.
Proof.
  rewrite diff_keys_settled. unfold SysctlResource_Check, SysctlResource_diffLive.
  rewrite value_bind by apply _.
  destruct (value (diff_keys _ _) w) as [[drift skipped]|e]; simpl.
  2: { unfold value at 1. simpl. split; [done|]. by intros [[] _]. }
  rewrite value_bind by apply _.
  destruct drift, (value (SysctlResource_persistNeeded r) w); unfold value; simpl; naive_solver.
Qed.

#[export] Instance sysctl_quiet r : QuietWhenUnchanged (sysctl_resource r).
Proof.
  intros w. simpl. rewrite sysctl_unchanged. intros [Hkeys Hpersist].
  unfold SysctlResource_Apply. rewrite bind_ok_run, for_each_noop
    by (intros key ?; by apply apply_key_settled, Hkeys). simpl.
  exact (persist_quiet "persisting sysctl drop-in " _ _ _ Hpersist).
Qed.

(** What the convergence of the live keys needs: a rooted environment, keys whose
    paths are distinct, a kernel that keeps the values, and a drop-in outside
    /proc/sys. *)
Record sysctl_ok (r : SysctlResource) : Prop := {
  so_env : env_ok (sc_Env r) = true;
  so_clean : ∀ key, key ∈ sortedKeys (sc_Settings r) → clean_key key = true;
  so_keeps : ∀ key, key ∈ sortedKeys (sc_Settings r) → keeps_value r key;
  so_persist : persist_outside (sc_PersistFile r) (env_elems (sc_Env r) ++ ["proc"; "sys"])
}.

Lemma sysctl_apply_unchanged r w w' :
  sysctl_ok r → SysctlResource_Apply r w = (Ok (), w') →
  rStatus (value (SysctlResource_Check r) w').1 = StatusUnchanged.
Proof.
  intros [He Hclean Hkeeps Hpersist] Hrun. apply sysctl_unchanged.
  unfold SysctlResource_Apply in Hrun. run_inv.
  match goal with H : for_each _ _ _ = _ |- _ => rename H into Hkeys end.
  apply (for_each_establishes _ (λ _, True) (key_settled r)) in Hkeys as [_ Hkeys]; [|..|done].
  2: { intros k t t' Hk _ Hr. split; [done|]. eapply apply_key_ok; eauto. }
  2: { intros k k' t t' Hk Hk' _ Hq Hr. destruct (decide (k = k')) as [->|Hne].
       { rewrite apply_key_settled in Hr by done. by simplify_eq. }
       eapply key_settled_same; [|exact Hq].
       eapply apply_key_other; [exact Hr|]. intros Heq.
       apply Hne. eapply SysctlPath_inj; eauto. }
  eapply (persist_ok "persisting sysctl drop-in " (sc_PersistFile r)) in Hrun
    as [Hneed Hkeep]; [|exact Hpersist].
  split; [|done]. intros key Hin. eapply key_settled_same; [|by apply Hkeys].
  rewrite SysctlPath_elems, (app_assoc (env_elems _)) by done. apply Hkeep.
  rewrite !plain_elems_app. split_and!; [by apply env_elems_plain|by repeat constructor|].
  apply sysctl_elems_plain.
Qed.

Lemma sysctl_converges r : sysctl_ok r → Converges (λ _, True) (sysctl_resource r).
Proof.
  intros Hok. split; [apply _|done|]. intros w w' _ Hrun.
  refine (unchanged_settled (sysctl_resource r) w' _). exact (sysctl_apply_unchanged r w w' Hok Hrun).
Qed.
End resource_facts.

(** ** Reading a drop-in back

    What [sysctl --system] reads in such a file: comments apart, each line assigns what
    follows its first equals sign, white space trimmed on both sides. *)

Definition conf_entry (line : string) : option (string * string) :=
  if HasPrefix line "#" then None
  else let '(k, v, ok) := Cut "=" line in
       if ok then Some (TrimSpace k, TrimSpace v) else None.

Definition parse_conf (content : string) : gmap string string :=
  list_to_map (omap conf_entry (Split nl content)).

(** Settings a line of the file can hold. *)
Definition conf_key (k : string) : bool :=
  spacefree k && sep_free "=" k && sep_free nl k && negb (HasPrefix k "#")
  && negb (String.eqb k EmptyString).
Definition conf_value (v : string) : bool := sep_free nl v && String.eqb (TrimSpace v) v.
Definition conf_settings (m : gmap string string) : Prop :=
  map_Forall (λ k v, conf_key k = true ∧ conf_value v = true) m.

Lemma elem_of_sortedKeys m k : k ∈ sortedKeys m ↔ is_Some (m !! k).
Proof.
  unfold sortedKeys. rewrite elem_of_sort_Strings, list_elem_of_fmap. split.
  - intros ([k' v] & -> & Hin%elem_of_map_to_list). eauto.
  - intros [v Hv]. exists (k, v). by rewrite elem_of_map_to_list.
Qed.

Lemma NoDup_sortedKeys m : NoDup (sortedKeys m).
Proof. unfold sortedKeys. rewrite sort_Strings_perm. apply NoDup_fst_map_to_list. Qed.

Lemma conf_entry_setting k v :
  conf_key k = true → conf_value v = true → conf_entry (k +:+ " = " +:+ v) = Some (k, v).
Proof.
  unfold conf_key, conf_value. intros Hk Hv. bool_prop. unfold conf_entry.
  assert (HasPrefix (k +:+ " = " +:+ v) "#" = false) as ->.
  { rewrite HasPrefix_head by (by apply String.eqb_neq). done. }
  replace (k +:+ " = " +:+ v) with ((k +:+ " ") +:+ String "=" (String " " v)) by by str_simpl.
  rewrite Cut_app by (rewrite sep_free_app; by apply andb_true_iff).
  rewrite TrimSpace_spacefree, TrimSpace_space by done.
  do 2 f_equal. by apply String.eqb_eq.
Qed.

Lemma omap_entries m keys :
  conf_settings m → (∀ k, k ∈ keys → is_Some (m !! k)) →
  omap conf_entry (Split nl (render_settings m keys)) = (λ k, (k, setting m k)) <$> keys.
Proof.
  intros Hm. induction keys as [|k keys IH]; intros Hin; [done|].
  destruct (Hin k) as [v Hv]; [by left|]. destruct (Hm k v Hv) as [Hk Hval].
  assert (setting m k = v) as Hset by (unfold setting; by rewrite Hv).
  simpl. rewrite Hset.
  replace (k +:+ " = " +:+ v +:+ nls +:+ render_settings m keys)
    with ((k +:+ " = " +:+ v) +:+ nls +:+ render_settings m keys) by by str_simpl.
  rewrite Split_line.
  - simpl. rewrite conf_entry_setting by done. f_equal. apply IH. intros k' ?. apply Hin. by right.
  - unfold conf_key, conf_value in *. bool_prop. rewrite !sep_free_app.
    repeat (apply andb_true_iff; split); done.
Qed.

Lemma parse_render m : conf_settings m → parse_conf (renderSysctlFile m) = m.
Proof.
  intros Hm. unfold parse_conf, renderSysctlFile.
  rewrite Split_line by done. simpl omap.
  rewrite omap_entries; [|done|by intros k ?%elem_of_sortedKeys].
  apply map_eq. intros k. destruct (m !! k) as [v|] eqn:Hv.
  - apply elem_of_list_to_map_1.
    + rewrite <-list_fmap_compose. simpl. rewrite list_fmap_id. apply NoDup_sortedKeys.
    + apply list_elem_of_fmap. exists k. unfold setting. rewrite Hv. split; [done|].
      apply elem_of_sortedKeys. eauto.
  - apply not_elem_of_list_to_map_1. rewrite <-list_fmap_compose. simpl.
    rewrite list_fmap_id, elem_of_sortedKeys, Hv. by intros [].
Qed.

(** ** Properties *)

(** A kernel that echoes the fields of what is written tab-separated, on a line. *)
Definition tab_kernel : Kernel := {|
  knob_write := λ _ _ data, Ok (Ok (Join (String "009" EmptyString) (Fields data) +:+ nls));
  fault := λ _ _, None;
  random := λ _ i, N.of_nat i
|}.

Lemma tab_kernel_keeps (r : SysctlResource) key : keeps_value (HK := tab_kernel) r key.
Proof.
  intros old new [= <-]. eexists. split; [done|].
  generalize (setting (sc_Settings r) key). intros v.
  rewrite <-(Fields_TrimSpace (Join _ _ +:+ _)).
  destruct (Fields v) as [|f fs] eqn:Hf; [done|].
  assert (Forall (λ s, field s = true) (f :: fs)) as Hall.
  { rewrite <-Hf. apply Fields_field_all. }
  rewrite Fields_TrimSpace.
  clear Hf. revert f Hall. induction fs as [|g fs IH]; intros f Hall; inversion Hall; subst.
  - simpl. replace (f +:+ nls) with (f +:+ nls +:+ EmptyString) by by str_simpl.
    by rewrite Fields_cons.
  - rewrite Join_cons, !str_app_assoc, Fields_cons by done. by rewrite IH.
Qed.

(** C11: applying the sysctl bundle converges. Once Apply has succeeded, every key the
    kernel has reads back as its desired value up to white space, the check reports
    StatusUnchanged, and applying again changes nothing at all. *)
Theorem SysctlResource_Apply_converges {HK : Kernel} {HU : Unicode} (r : SysctlResource)
    (w w' : World) :
  sysctl_ok r →
  SysctlResource_Apply r w = (Ok (), w') →
  (∀ k v, sc_Settings r !! k = Some v →
     fs w' !! SysctlPath (sc_Env r) k = None ∨
     ∃ c, value (ReadFile (SysctlPath (sc_Env r) k)) w' = Ok c ∧ Fields c = Fields v) ∧
  rStatus (value (SysctlResource_Check r) w').1 = StatusUnchanged ∧
  SysctlResource_Apply r w' = (Ok (), w').
Proof.
  intros Hok Hrun. pose proof (sysctl_apply_unchanged r w w' Hok Hrun) as Hst.
  split_and!; [|done|by apply (sysctl_quiet r)].
  apply sysctl_unchanged in Hst as [Hkeys _]. intros k v Hkv.
  destruct (Hkeys k) as [|(c & ? & Hf)]; [apply elem_of_sortedKeys; eauto|by left|right].
  exists c. split; [done|]. rewrite Hf. unfold setting. by rewrite Hkv.
Qed.

(** C29: the drop-in file holds the settings: read the way sysctl.d files are read, the
    rendered file gives back exactly the map it was rendered from. *)
Theorem renderSysctlFile_parses (m : gmap string string) :
  conf_settings m → parse_conf (renderSysctlFile m) = m.
Proof. apply parse_render. Qed.

(** Values are compared up to the runs of white space between their fields, whatever
    the kernel separates them with; normalizing is idempotent and decides exactly that. *)
Theorem normalizeSysctlValue_spec (a b sep : string) :
  normalizeSysctlValue (normalizeSysctlValue a) = normalizeSysctlValue a ∧
  (normalizeSysctlValue a = normalizeSysctlValue b ↔ Fields a = Fields b) ∧
  (all_spaces sep = true → sep ≠ EmptyString →
   normalizeSysctlValue (Join sep (Fields a)) = normalizeSysctlValue a).
Proof.
  split_and!; [apply normalize_eq, Fields_normalize|apply normalize_eq|].
  intros Hsep Hne. apply normalize_eq. by rewrite Fields_Join by (try done; apply Fields_field_all).
Qed.

Definition net_settings : gmap string string :=
  list_to_map [("net.core.somaxconn", "65535"); ("net.ipv4.tcp_rmem", "4096 87380 16777216");
               ("net.core.absent", "1")].

Definition net_sysctl : SysctlResource :=
  mkSysctl New net_settings "/etc/sysctl.d/99-node-configurator.conf".

Definition net_world : World :=
  etc_world [("/proc/sys/net/core/somaxconn", NKnob (Ok ("128" +:+ nls)));
             ("/proc/sys/net/ipv4/tcp_rmem", NKnob (Ok "4096"))].

Example SysctlResource_Apply_converges_witness :
  let k := tab_kernel in let u := plain_unicode in
  let w' := (SysctlResource_Apply net_sysctl net_world).2 in
  rStatus (value (SysctlResource_Check net_sysctl) net_world).1 = StatusWouldChange ∧
  rStatus (value (SysctlResource_Check net_sysctl) w').1 = StatusUnchanged ∧
  SysctlResource_Apply net_sysctl w' = (Ok (), w').
Proof.
  intros k u w'. split; [by vm_compute|].
  refine (proj2 (SysctlResource_Apply_converges net_sysctl net_world w' _ _)).
  - split.
    + by vm_compute.
    + apply Forall_forall. by vm_compute; repeat constructor.
    + intros key _. apply tab_kernel_keeps.
    + right. exists ["etc"; "sysctl.d"], "99-node-configurator.conf".
      split_and!; [by repeat constructor|by vm_compute|]. intros post. by vm_compute.
  - apply run_ok. by vm_compute.
Defined.

Example renderSysctlFile_parses_witness :
  parse_conf (renderSysctlFile net_settings) = net_settings.
Proof.
  apply (renderSysctlFile_parses net_settings). unfold conf_settings.
  apply (bool_decide_unpack _). by vm_compute.
Defined.

Example normalizeSysctlValue_spec_witness :
  normalizeSysctlValue (Join " 	 " (Fields "4096 87380")) = "4096 87380" ∧
  normalizeSysctlValue (Join " 	 " (Fields "4096 87380")) = normalizeSysctlValue "4096 87380".
Proof.
  split; [by vm_compute|].
  refine (proj2 (proj2 (normalizeSysctlValue_spec "4096 87380" "1" " 	 ")) _ _); by vm_compute.
Defined.
