(* ===== verification/Kmod.v ===== *)
(** * internal/resource/kmod.go and cgroupv2.go

    [KernelModuleResource]: modules loaded through [modprobe] when [/proc/modules] does
    not list them, and persisted to a modules-load.d drop-in. [CgroupV2Resource]: a
    check with nothing to apply. *)

From S2P Require Import Prelude GoStrings GoPath GoOS Sysutil Resource DropIn.

(** ** kmod.go *)

Record KernelModuleResource : Set := mkKmod {
  km_Env : Env;
  km_Modules : list string;
  km_PersistFile : string
}.

Definition renderModulesFile (modules : list string) : string :=
  "# Managed by node-configurator. Local edits will be overwritten." +:+ nls
    +:+ foldr (λ m b, m +:+ nls +:+ b) EmptyString modules.

Definition wantModules (r : KernelModuleResource) : list string := sort_Strings (km_Modules r).

Definition KernelModule_persistNeeded (r : KernelModuleResource) : M World bool :=
  if String.eqb (km_PersistFile r) EmptyString then ret false
  else
    existing <- ReadFileString (km_PersistFile r);;
    ret (match existing with
         | Err _ => true
         | Ok c => negb (String.eqb c (renderModulesFile (wantModules r)))
         end).

(** The map [loaded] is the set of its keys: all its values are [true]. *)
Definition loadedModules (r : KernelModuleResource) : IO (gset string) :=
  f <-? map_err (Wrap "reading /proc/modules") (OpenLines (Path (km_Env r) ["proc"; "modules"]));;
  ret (match f.2 with
       | Some e => Err e
       | None => Ok (list_to_set (first_fields f.1))
       end).

Definition KernelModuleResource_Check (r : KernelModuleResource) : Checked :=
  if negb (nonempty (km_Modules r))
  then checked (mkResult "kernel-modules" StatusSkipped "no modules configured")
  else
    l <- loadedModules r;;
    match l with
    | Err e => check_failed "kernel-modules" e
    | Ok loaded =>
        let missing := filter (λ m, m ∉ loaded) (wantModules r) in
        persistDrift <- KernelModule_persistNeeded r;;
        if negb (nonempty missing) && negb persistDrift
        then checked (mkResult "kernel-modules" StatusUnchanged EmptyString)
        else
          let detail := if nonempty missing then "not loaded: " +:+ Join ", " missing
                        else EmptyString in
          let detail := if persistDrift then joinDetails [detail; "drop-in file out of date"]
                        else detail in
          checked (mkResult "kernel-modules" StatusWouldChange detail)
    end.

Section kmod.
Context {HK : Kernel} {HR : Runner}.

Definition load_module (loaded : gset string) (m : string) : IO () :=
  if bool_decide (m ∈ loaded) then ret (Ok ())
  else
    _ <-? map_err (Wrap ("modprobe " +:+ m)) (run_cmd "modprobe" [m]);;
    ret (Ok ()).

Definition KernelModuleResource_Apply (r : KernelModuleResource) : IO () :=
  loaded <-? loadedModules r;;
  _ <-? for_each (wantModules r) (load_module loaded);;
  if String.eqb (km_PersistFile r) EmptyString then ret (Ok ())
  else
    _ <-? map_err (Wrap ("persisting modules-load.d drop-in " +:+ km_PersistFile r))
            (WriteFileIfChanged (km_PersistFile r) (renderModulesFile (wantModules r)) 420);;
    ret (Ok ()).

Definition kmod_resource (r : KernelModuleResource) : Resource :=
  mkResource "kernel-modules" (KernelModuleResource_Check r) (KernelModuleResource_Apply r).
End kmod.

(** ** cgroupv2.go *)

Definition CgroupV2Resource_Check (e : Env) : Checked :=
  u <- CgroupV2Unified e;;
  if u then checked (mkResult "cgroup-v2" StatusUnchanged EmptyString)
  else checked (mkResult "cgroup-v2" StatusRebootRequired
         "host is on the cgroup v1 hierarchy; add systemd.unified_cgroup_hierarchy=1 to the kernel command line and reboot").

Definition CgroupV2Resource_Apply (e : Env) : IO () := ret (Ok ()).

Definition cgroupv2_resource (e : Env) : Resource :=
  mkResource "cgroup-v2" (CgroupV2Resource_Check e) (CgroupV2Resource_Apply e).

#[export] Instance cgroupv2_converges e I : Converges I (cgroupv2_resource e).
Proof.
  split.
  - split; simpl; [unfold CgroupV2Resource_Check; apply _|].
    intros w. unfold CgroupV2Resource_Check. rewrite value_bind by apply _.
    case_bool; check_done.
  - by intros w x w' Hw [= _ <-].
  - intros w w' _ _. simpl. unfold CgroupV2Resource_Check. rewrite value_bind by apply _.
    case_bool; check_done.
Qed.

(** ** The contract of the module resource *)

Lemma elem_of_wantModules r m : m ∈ wantModules r ↔ m ∈ km_Modules r.
Proof. apply elem_of_sort_Strings. Qed.

Section kmod_facts.
Context {HK : Kernel} {HR : Runner} (r : KernelModuleResource).

#[export] Instance kmod_persistNeeded_read_only : ReadOnly (KernelModule_persistNeeded r).
Proof. unfold KernelModule_persistNeeded. apply _. Qed.
#[export] Instance loadedModules_read_only : ReadOnly (loadedModules r).
Proof. unfold loadedModules. apply _. Qed.

#[export] Instance kmod_behaved : WellBehaved (kmod_resource r).
Proof.
  split; simpl; unfold KernelModuleResource_Check.
  - apply if_read_only; [apply _|]. apply bind_read_only; [apply _|]. intros []; apply _.
  - intros w. case_bool; [check_done|]. rewrite value_bind by apply _.
    destruct (value (loadedModules r) w); [|check_done].
    rewrite value_bind by apply _. case_bool; check_done.
Qed.

(** What the check decides, when there are modules to load. *)
Lemma kmod_unchanged w :
  km_Modules r ≠ [] →
  rStatus (value (KernelModuleResource_Check r) w).1 = StatusUnchanged ↔
  (∃ loaded, value (loadedModules r) w = Ok loaded ∧ ∀ m, m ∈ km_Modules r → m ∈ loaded) ∧
  value (KernelModule_persistNeeded r) w = false.
Proof.
  intros Hne. unfold KernelModuleResource_Check.
  apply nonempty_true in Hne as ->. simpl.
  rewrite value_bind by apply _. destruct (value (loadedModules r) w) as [loaded|e].
  2: { rewrite value_check_failed. split; [done|]. by intros [(? & ? & _) _]. }
  rewrite value_bind by apply _.
  assert (nonempty (filter (λ m, m ∉ loaded) (wantModules r)) = false ↔
    ∀ m, m ∈ km_Modules r → m ∈ loaded) as Hmiss.
  { rewrite nonempty_false. unfold wantModules.
    split.
    - intros Hnil m Hm. destruct (decide (m ∈ loaded)) as [|Hn]; [done|exfalso].
      assert (m ∈ filter (λ m, m ∉ loaded) (sort_Strings (km_Modules r))) as Hin.
      { apply list_elem_of_filter. split; [done|]. by apply elem_of_sort_Strings. }
      rewrite Hnil in Hin. by apply elem_of_nil in Hin.
    - intros Hall. destruct (filter _ _) as [|m l] eqn:Hf; [done|exfalso].
      assert (m ∈ m :: l) as Hin by by left. rewrite <-Hf in Hin.
      apply list_elem_of_filter in Hin as [Hn Hin]. apply Hn, Hall.
      by apply elem_of_sort_Strings. }
  destruct (nonempty _), (value (KernelModule_persistNeeded r) w); simpl;
    rewrite ?value_checked; simpl; naive_solver.
Qed.

(** [modprobe] does what it says when it succeeds: the module is listed, the others
    stay, and files outside /proc and /sys are its own business. *)
Definition modprobe_loads (m : string) : Prop :=
  ∀ w w' out loaded, value (loadedModules r) w = Ok loaded →
    Run "modprobe" [m] w = ((out, None), w') →
    ∃ loaded', value (loadedModules r) w' = Ok loaded' ∧ loaded ⊆ loaded' ∧ m ∈ loaded'.

Lemma load_module_ok loaded0 m w w' loaded :
  modprobe_loads m → value (loadedModules r) w = Ok loaded →
  loaded0 ⊆ loaded → load_module loaded0 m w = (Ok (), w') →
  ∃ loaded', value (loadedModules r) w' = Ok loaded' ∧ loaded ⊆ loaded' ∧ m ∈ loaded'.
Proof.
  unfold load_module. intros Hmod Hl Hsub Hrun. case_bool_decide.
  - run_inv. exists loaded. split_and!; [done..|set_solver].
  - run_inv. match goal with H : run_cmd _ _ _ = _ |- _ => apply run_cmd_ok in H; by eapply Hmod end.
Qed.

Lemma load_modules_ok loaded0 ms w w' loaded :
  (∀ m, m ∈ ms → modprobe_loads m) → value (loadedModules r) w = Ok loaded →
  loaded0 ⊆ loaded → for_each ms (load_module loaded0) w = (Ok (), w') →
  ∃ loaded', value (loadedModules r) w' = Ok loaded' ∧ loaded ⊆ loaded' ∧
    ∀ m, m ∈ ms → m ∈ loaded'.
Proof.
  intros Hmod. revert w loaded. induction ms as [|m ms IH]; intros w loaded Hl Hsub Hrun.
  - simpl in Hrun. simplify_eq. exists loaded. split_and!; [done..|set_solver].
  - apply for_each_cons_inv in Hrun as (w1 & H1 & H2).
    eapply load_module_ok in H1 as (l1 & Hl1 & Hs1 & Hm); [|apply Hmod; by left|done..].
    eapply IH in H2 as (l2 & Hl2 & Hs2 & Hms); [| |done|set_solver].
    + exists l2. split_and!; [done|set_solver|]. intros m' [->|?]%elem_of_cons; set_solver.
    + intros m' ?. apply Hmod. by right.
Qed.

Record kmod_ok : Prop := {
  ko_env : env_ok (km_Env r) = true;
  ko_loads : ∀ m, m ∈ km_Modules r → modprobe_loads m;
  ko_persist : persist_outside (km_PersistFile r) (env_elems (km_Env r) ++ ["proc"; "modules"])
}.

(** What [/proc/modules] lists depends on its own file. *)
Lemma loadedModules_same w w' :
  fs w' !! Path (km_Env r) ["proc"; "modules"] = fs w !! Path (km_Env r) ["proc"; "modules"] →
  is_Some (fs w !! Path (km_Env r) ["proc"; "modules"]) →
  value (loadedModules r) w' = value (loadedModules r) w.
Proof.
  intros Heq [n Hn]. unfold loadedModules. rewrite !value_bind_ok, !value_map_err by apply _.
  unfold value, OpenLines, read_node. simpl. by rewrite Heq, Hn.
Qed.

Lemma loadedModules_there w loaded :
  value (loadedModules r) w = Ok loaded →
  is_Some (fs w !! Path (km_Env r) ["proc"; "modules"]).
Proof.
  unfold loadedModules. rewrite value_bind_ok, value_map_err by apply _.
  unfold value, OpenLines. simpl. destruct (fs w !! _); [by eauto|done].
Qed.

Lemma kmod_apply_unchanged w w' :
  km_Modules r ≠ [] → kmod_ok → KernelModuleResource_Apply r w = (Ok (), w') →
  rStatus (value (KernelModuleResource_Check r) w').1 = StatusUnchanged.
Proof.
  intros Hne [He Hloads Hpersist] Hrun. apply kmod_unchanged; [done|].
  unfold KernelModuleResource_Apply in Hrun. run_inv.
  match goal with H : loadedModules r _ = (Ok ?l, _) |- _ =>
    rewrite (read_only_run (loadedModules r)) in H; injection H as Hl <-;
    change (value (loadedModules r) w = Ok l) in Hl; rename l into loaded end.
  match goal with H : for_each _ _ _ = _ |- _ => rename H into Hfe end.
  eapply load_modules_ok in Hfe as (loaded' & Hl' & _ & Hall);
    [|intros m Hm; by apply Hloads, elem_of_wantModules|exact Hl|done].
  assert (∀ m, m ∈ km_Modules r → m ∈ loaded') as Hin.
  { intros m Hm. by apply Hall, elem_of_wantModules. }
  eapply (persist_ok "persisting modules-load.d drop-in " (km_PersistFile r)) in Hrun
    as [Hneed Hkeep]; [|exact Hpersist].
  split; [|done]. exists loaded'. split; [|done]. rewrite <-Hl'. apply loadedModules_same.
  - rewrite Path_plain by (done || by repeat constructor).
    specialize (Hkeep []). rewrite app_nil_r in Hkeep. apply Hkeep.
    rewrite plain_elems_app. split; [by apply env_elems_plain|by repeat constructor].
  - by eapply loadedModules_there.
Qed.

Lemma load_module_loaded loaded m w : m ∈ loaded → load_module loaded m w = (Ok (), w).
Proof. intros Hm. unfold load_module. by rewrite bool_decide_true. Qed.

#[export] Instance kmod_quiet : QuietWhenUnchanged (kmod_resource r).
Proof.
  intros w Hst. simpl in *. destruct (decide (km_Modules r = [])) as [Hnil|Hne].
  { unfold KernelModuleResource_Check in Hst. by rewrite Hnil in Hst. }
  apply kmod_unchanged in Hst as [(loaded & Hl & Hall) Hneed]; [|done].
  unfold KernelModuleResource_Apply.
  rewrite bind_ok_value, Hl by apply _. rewrite bind_ok_run, for_each_noop.
  - exact (persist_quiet "persisting modules-load.d drop-in " _ _ _ Hneed).
  - intros m Hm. by apply load_module_loaded, Hall, elem_of_wantModules.
Qed.

(** *** Modules that are not listed *)

Definition unlisted (m : string) (w : World) : Prop :=
  ∃ loaded, value (loadedModules r) w = Ok loaded ∧ m ∉ loaded.

Lemma unlisted_drift m w :
  m ∈ km_Modules r → unlisted m w →
  rStatus (value (KernelModuleResource_Check r) w).1 = StatusWouldChange.
Proof.
  intros Hm (loaded & Hl & Hnot).
  assert (km_Modules r ≠ []) as Hne by (intros Hn; rewrite Hn in Hm; by apply elem_of_nil in Hm).
  unfold KernelModuleResource_Check. apply nonempty_true in Hne as ->. simpl.
  rewrite value_bind, Hl, value_bind by apply _.
  destruct (filter (λ m, m ∉ loaded) (wantModules r)) eqn:Hf; simpl; [|done].
  exfalso. assert (m ∈ filter (λ m, m ∉ loaded) (wantModules r)) as Hin.
  { apply list_elem_of_filter. split; [done|]. by apply elem_of_wantModules. }
  rewrite Hf in Hin. by apply elem_of_nil in Hin.
Qed.

Lemma unlisted_same m w w' :
  (∀ n, fs w !! Path (km_Env r) ["proc"; "modules"] = Some n →
        fs w' !! Path (km_Env r) ["proc"; "modules"] = Some n) →
  unlisted m w → unlisted m w'.
Proof.
  intros Hsame (loaded & Hl & Hnot). destruct (loadedModules_there w loaded Hl) as [n Hn].
  exists loaded. split; [|done]. rewrite <-Hl. apply loadedModules_same; [|by exists n].
  rewrite Hn. by apply Hsame.
Qed.

Lemma unlisted_kept m w :
  env_ok (km_Env r) = true →
  persist_outside (km_PersistFile r) (env_elems (km_Env r) ++ ["proc"; "modules"]) →
  (∀ m' w, m' ∈ km_Modules r → unlisted m w → unlisted m (Run "modprobe" [m'] w).2) →
  unlisted m w → unlisted m (KernelModuleResource_Apply r w).2.
Proof.
  intros He Hpersist Hmod Hw. unfold KernelModuleResource_Apply.
  rewrite bind_ok_value by apply _. destruct (value (loadedModules r) w) as [loaded|e]; [|done].
  rewrite bind_ok_run. destruct (for_each _ _ w) as [x w1] eqn:Hfe. cbn [fst snd].
  assert (unlisted m w1) as Hw1.
  { eapply for_each_inv; [|exact Hw|exact Hfe]. intros m' s y s' Hm' Hs. unfold load_module.
    case_bool_decide; [by intros [= _ <-]|]. rewrite bind_ok_run, map_err_run.
    unfold run_cmd. rewrite bind_run. intros Hrun.
    specialize (Hmod m' s (proj1 (elem_of_wantModules r m') Hm') Hs).
    destruct (Run "modprobe" [m'] s) as [[out [err|]] s1]; by injection Hrun as _ <-. }
  destruct x as [u|e]; [|done].
  destruct (persist "persisting modules-load.d drop-in " (km_PersistFile r)
    (renderModulesFile (wantModules r)) w1) as [y w2] eqn:Hp.
  assert (unlisted m w2) as Hw2.
  { eapply unlisted_same; [|exact Hw1]. intros n.
    rewrite Path_plain by (done || by repeat constructor).
    pose proof (persist_keeps _ _ _ _ [] w1 y w2 n Hpersist Hp) as Hk. rewrite app_nil_r in Hk.
    apply Hk. rewrite plain_elems_app. split; [by apply env_elems_plain|by repeat constructor]. }
  change (unlisted m (persist "persisting modules-load.d drop-in " (km_PersistFile r)
    (renderModulesFile (wantModules r)) w1).2). by rewrite Hp.
Qed.

Lemma kmod_converges : kmod_ok → Converges (λ _, True) (kmod_resource r).
Proof.
  intros Hok. split; [apply _|done|]. intros w w' _ Hrun.
  destruct (decide (km_Modules r = [])) as [Hnil|Hne].
  - simpl. unfold KernelModuleResource_Check. rewrite Hnil. simpl. check_done.
  - refine (unchanged_settled (kmod_resource r) w' _). exact (kmod_apply_unchanged w w' Hne Hok Hrun).
Qed.
End kmod_facts.

(** ** Properties *)

(** Applying the module resource converges: once Apply has succeeded, every configured
    module is listed in /proc/modules, the drop-in holds them, and applying again neither
    runs modprobe nor writes. *)
Theorem KernelModuleResource_Apply_converges {HK : Kernel} {HR : Runner}
    (r : KernelModuleResource) (w w' : World) :
  km_Modules r ≠ [] → kmod_ok r →
  KernelModuleResource_Apply r w = (Ok (), w') →
  (∃ loaded, value (loadedModules r) w' = Ok loaded ∧ ∀ m, m ∈ km_Modules r → m ∈ loaded) ∧
  (km_PersistFile r = EmptyString ∨
   value (ReadFile (km_PersistFile r)) w' = Ok (renderModulesFile (wantModules r))) ∧
  rStatus (value (KernelModuleResource_Check r) w').1 = StatusUnchanged ∧
  KernelModuleResource_Apply r w' = (Ok (), w').
Proof.
  intros Hne Hok Hrun. pose proof (kmod_apply_unchanged r w w' Hne Hok Hrun) as Hst.
  pose proof (proj1 (kmod_unchanged r w' Hne) Hst) as [Hl Hneed].
  split_and!; [done|by apply persist_needed_false in Hneed|done|by apply (kmod_quiet r)].
Qed.

(** C33: a module that is built into the kernel is never converged. It is not listed in
    /proc/modules, and no modprobe lists it: then, whatever the drop-in holds or gets and
    whatever becomes of the other modules, the check reports drift, before the first Apply
    and after any number of them, whether they succeed (modprobe accepts such a module) or
    fail. *)
Theorem builtin_module_never_settles {HK : Kernel} {HR : Runner} (r : KernelModuleResource)
    (w : World) (m : string) (n : nat)
    (He : env_ok (km_Env r) = true)
    (Hpersist : persist_outside (km_PersistFile r) (env_elems (km_Env r) ++ ["proc"; "modules"]))
    (Hm : m ∈ km_Modules r) (Hw : unlisted r m w)
    (Hbuiltin : ∀ m' w1, m' ∈ km_Modules r → unlisted r m w1 →
       unlisted r m (Run "modprobe" [m'] w1).2) :
  let wn := Nat.iter n (λ w, (KernelModuleResource_Apply r w).2) w in
  rStatus (value (KernelModuleResource_Check r) wn).1 = StatusWouldChange.
Proof.
  apply (unlisted_drift r m); [done|]. induction n as [|n IH]; [done|]. simpl.
  by apply unlisted_kept.
Qed.

Definition overlay_line : string := "overlay 151552 3 - Live 0x0" +:+ nls.
Definition bridge_line : string := "br_netfilter 32768 0 - Live 0x0" +:+ nls.

(** A [modprobe] that knows one module, on a host that has one other loaded. *)
Definition bridge_runner : Runner := λ name args w,
  if bool_decide (fs w !! "/proc/modules" = Some (NKnob (Ok overlay_line)))
     && bool_decide (args = ["br_netfilter"])
  then ((EmptyString, None), set_fs (insert "/proc/modules"
          (NKnob (Ok (bridge_line +:+ overlay_line)))) w)
  else ((EmptyString, Some (TextError "exit status 1")), w).

Definition two_modules : KernelModuleResource :=
  mkKmod New ["overlay"; "br_netfilter"] "/etc/modules-load.d/99-node-configurator.conf".

Definition modules_world : World :=
  etc_world [("/proc/modules", NKnob (Ok overlay_line))].

Example KernelModuleResource_Apply_converges_witness :
  let k := plain_kernel in let rn := bridge_runner in
  let w' := (KernelModuleResource_Apply two_modules modules_world).2 in
  fs w' !! "/proc/modules" = Some (NKnob (Ok (bridge_line +:+ overlay_line))) ∧
  rStatus (value (KernelModuleResource_Check two_modules) w').1 = StatusUnchanged ∧
  KernelModuleResource_Apply two_modules w' = (Ok (), w').
Proof.
  intros k rn w'. split; [by vm_compute|].
  refine (proj2 (proj2 (KernelModuleResource_Apply_converges two_modules modules_world w' _ _ _))).
  - done.
  - split.
    + by vm_compute.
    + intros m _ w1 w2 out loaded Hl. unfold Run, rn, bridge_runner.
      case_bool_decide as Hfs; simpl; [|done].
      case_bool_decide as Hm; [|done]. injection Hm as ->. intros [= _ <-].
      assert (Ok (E:=error) loaded = Ok {["overlay"]}) as [= ->].
      { rewrite <-Hl. unfold value, loadedModules, OpenLines.
        rewrite bind_ok_run, map_err_run. unfold gets.
        change (Path (km_Env two_modules) ["proc"; "modules"]) with "/proc/modules".
        cbn [fst snd]. unfold read_node. rewrite Hfs. by vm_compute. }
      exists {["br_netfilter"; "overlay"]}. split; [|set_solver].
      unfold value, loadedModules, OpenLines. rewrite bind_ok_run, map_err_run. unfold gets.
      change (Path (km_Env two_modules) ["proc"; "modules"]) with "/proc/modules".
      cbn [fst snd]. unfold read_node. simpl fs. rewrite lookup_insert_eq. by vm_compute.
    + right. exists ["etc"; "modules-load.d"], "99-node-configurator.conf".
      split_and!; [by repeat constructor|by vm_compute|]. intros post. by vm_compute.
  - apply run_ok. by vm_compute.
Defined.

(** A kernel with BBR built in, and the drop-in of the engine. *)
Definition bbr_module : KernelModuleResource :=
  mkKmod New ["tcp_bbr"] "/etc/modules-load.d/99-node-configurator.conf".

Example builtin_module_never_settles_witness :
  let k := plain_kernel in let rn : Runner := λ _ _ w, ((EmptyString, None), w) in
  let w' := (KernelModuleResource_Apply bbr_module modules_world).2 in
  (KernelModuleResource_Apply bbr_module modules_world).1 = Ok () ∧
  is_Some (fs w' !! "/etc/modules-load.d/99-node-configurator.conf") ∧
  rStatus (value (KernelModuleResource_Check bbr_module) w').1 = StatusWouldChange.
Proof.
  intros k rn w'. split; [by vm_compute|]. split; [eexists; by vm_compute|].
  apply (builtin_module_never_settles bbr_module modules_world "tcp_bbr" 1).
  - by vm_compute.
  - right. exists ["etc"; "modules-load.d"], "99-node-configurator.conf".
    split_and!; [by repeat constructor|by vm_compute|]. intros post. by vm_compute.
  - by left.
  - exists {["overlay"]}. split; by vm_compute.
  - done.
Defined.
