(* ===== verification/Swap.v ===== *)
(** * internal/resource/swap.go

    [SwapResource]: swap turned off, the swap entries of [/etc/fstab] commented out and
    systemd's swap units masked. *)

From S2P Require Import Prelude GoStrings GoPath GoOS Sysutil Resource.

(** ** /etc/fstab *)

Definition fstabPath (e : Env) : string := Path e ["etc"; "fstab"].

(** The condition both loops over the lines share. *)
Definition swap_line (line : string) : bool :=
  let trimmed := TrimSpace line in
  if String.eqb trimmed EmptyString || HasPrefix trimmed "#" then false
  else match Fields trimmed with
       | _ :: _ :: f :: _ => String.eqb f "swap"
       | _ => false
       end.

Definition fstabHasActiveSwapLines (fstabContent : string) : bool :=
  existsb swap_line (Split nl fstabContent).

Definition comment_line (line : string) : string :=
  if swap_line line then "# disabled by node-configurator: " +:+ line else line.

Definition commented (content : string) : string :=
  Join nls (comment_line <$> Split nl content).

Section swap.
Context {HK : Kernel} {HR : Runner}.

Definition commentFstabSwapLines (e : Env) : IO () :=
  r <- ReadFileString (fstabPath e);;
  match r with
  | Err err =>
      if IsNotExist err then ret (Ok ())
      else ret (Err (Wrap "reading /etc/fstab" err))
  | Ok content =>
      if negb (fstabHasActiveSwapLines content) then ret (Ok ())
      else
        _ <-? map_err (Wrap "backing up /etc/fstab") (BackupFile (fstabPath e));;
        _ <-? map_err (Wrap "writing /etc/fstab")
                (WriteFileIfChanged (fstabPath e) (commented content) 420);;
        ret (Ok ())
  end.

(** ** The resource *)

(** The first fields of the lines after the header. *)
Definition activeSwapDevices (e : Env) : IO (list string) :=
  f <-? map_err (Wrap "reading /proc/swaps") (OpenLines (Path e ["proc"; "swaps"]));;
  ret (match f.2 with
       | Some err => Err err
       | None => Ok (first_fields (tail f.1))
       end).

Definition list_units_args : list string :=
  ["list-units"; "--type=swap"; "--no-legend"; "--plain"].

Definition activeSwapUnits : M World (list string) :=
  o <- Run "systemctl" list_units_args;;
  ret (match o.2 with
       | Some _ => []
       | None => first_fields (scan_lines o.1).1
       end).

Definition SwapResource_Check (e : Env) : Checked :=
  a <- activeSwapDevices e;;
  match a with
  | Err err => check_failed "swap" err
  | Ok active =>
      f <- ReadFileString (fstabPath e);;
      let fstabDrift := fstabHasActiveSwapLines (match f with Ok c => c | Err _ => EmptyString end) in
      units <- activeSwapUnits;;
      if negb (nonempty active) && negb fstabDrift && negb (nonempty units)
      then checked (mkResult "swap" StatusUnchanged EmptyString)
      else
        let detail := if nonempty active then "active swap: " +:+ Join ", " active
                      else EmptyString in
        let detail := if fstabDrift then joinDetails [detail; "/etc/fstab has active swap entries"]
                      else detail in
        let detail := if nonempty units
                      then joinDetails [detail; "active swap units: " +:+ Join ", " units]
                      else detail in
        checked (mkResult "swap" StatusWouldChange detail)
  end.

Definition mask_unit (unit : string) : IO () :=
  _ <-? map_err (Wrap ("systemctl mask " +:+ unit)) (run_cmd "systemctl" ["mask"; unit]);;
  ret (Ok ()).

(** [swapoff -a] when there is swap to turn off, then the entries of the table. *)
Definition swap_off (e : Env) : IO () :=
  active <-? activeSwapDevices e;;
  _ <-? (if nonempty active
         then (_ <-? map_err (Wrap "swapoff -a") (run_cmd "swapoff" ["-a"]);; ret (Ok ()))
         else ret (Ok ()));;
  commentFstabSwapLines e.

Definition SwapResource_Apply (e : Env) : IO () :=
  _ <-? swap_off e;;
  units <- activeSwapUnits;;
  for_each units mask_unit.

Definition swap_resource (e : Env) : Resource :=
  mkResource "swap" (SwapResource_Check e) (SwapResource_Apply e).
End swap.

(** ** The table *)

Lemma swap_line_prefixed line : swap_line ("# disabled by node-configurator: " +:+ line) = false.
Proof.
  unfold swap_line. rewrite str_cons_app.
  destruct (TrimSpace_head "#" (" disabled by node-configurator: " +:+ line)) as [s ->]; [done|].
  by destruct s.
Qed.

Lemma swap_line_commented line : swap_line (comment_line line) = false.
Proof.
  unfold comment_line. destruct (swap_line line) eqn:Hl; [apply swap_line_prefixed|done].
Qed.

Lemma Split_commented content : Split nl (commented content) = comment_line <$> Split nl content.
Proof.
  apply Split_Join.
  - intros H%fmap_nil_inv. by apply Split_nonnil in H.
  - apply Forall_fmap, Forall_forall. intros l Hl%Split_sep_free. simpl.
    unfold comment_line. case_bool; [|done]. by rewrite sep_free_app, Hl.
Qed.

Lemma no_swap_lines content : fstabHasActiveSwapLines (commented content) = false.
Proof.
  unfold fstabHasActiveSwapLines. rewrite Split_commented.
  induction (Split nl content) as [|l ls IH]; [done|].
  rewrite fmap_cons. cbn [existsb]. by rewrite swap_line_commented.
Qed.

Lemma commented_id content : fstabHasActiveSwapLines content = false → commented content = content.
Proof.
  unfold fstabHasActiveSwapLines, commented. intros H. rewrite <-(Join_Split nl content) at 2.
  fold nls. f_equal. induction (Split nl content) as [|l ls IH]; [done|].
  cbn [existsb] in H. bool_prop. rewrite fmap_cons, IH by done. f_equal. unfold comment_line.
  by match goal with E : swap_line _ = false |- _ => rewrite E end.
Qed.

(** ** Rewriting the table *)

Section fstab.
Context {HK : Kernel} (e : Env) (He : env_ok e = true).

(** A table that cannot be read counts as an empty one. *)
Definition fstab_content (w : World) : string :=
  match value (ReadFileString (fstabPath e)) w with Ok c => c | Err _ => EmptyString end.

Definition rewrite_fstab (content : string) : IO () :=
  _ <-? map_err (Wrap "backing up /etc/fstab") (BackupFile (fstabPath e));;
  _ <-? map_err (Wrap "writing /etc/fstab") (WriteFileIfChanged (fstabPath e) content 420);;
  ret (Ok ()).

Lemma fstabPath_file : fstabPath e = file_path (env_elems e ++ ["etc"]) "fstab".
Proof.
  unfold fstabPath. rewrite Path_plain by (done || by repeat constructor).
  unfold file_path. by rewrite <-app_assoc.
Qed.

Lemma fstab_plain : plain_elems ((env_elems e ++ ["etc"]) ++ ["fstab"]).
Proof. rewrite !plain_elems_app. split_and!; [by apply env_elems_plain|by repeat constructor..]. Qed.

Lemma fstab_backup_path :
  backup_path (fstabPath e) = Path e ["etc"; "fstab.node-configurator.orig"].
Proof.
  rewrite fstabPath_file, Path_plain by (done || by repeat constructor).
  unfold backup_path, file_path. by rewrite rooted_path_app, <-app_assoc.
Qed.

(** It holds the new content afterwards, and what the kernel shows in [/proc] is as before. *)
Lemma rewrite_fstab_ok content w w' :
  rewrite_fstab content w = (Ok (), w') →
  fstab_content w' = content ∧
  ∀ sub, plain_elems sub → fs w' !! Path e ("proc" :: sub) = fs w !! Path e ("proc" :: sub).
Proof.
  unfold rewrite_fstab. intros Hrun. run_inv.
  match goal with H : BackupFile _ _ = _ |- _ => apply BackupFile_other in H as (_ & Hb & _) end.
  match goal with H : WriteFileIfChanged _ _ _ _ = _ |- _ =>
    rewrite fstabPath_file in H; rename H into Hw end.
  split.
  - unfold fstab_content, ReadFileString. rewrite fstabPath_file.
    apply (WriteFileIfChanged_ok _ _ fstab_plain) in Hw as [-> _]. done.
  - intros sub Hsub.
    assert (plain_elems ("proc" :: sub)) as Hplain by (by apply plain_elems_cons).
    rewrite Path_plain by done. etrans.
    + eapply WriteFileIfChanged_keeps; [exact fstab_plain|exact Hw| | |done].
      * rewrite plain_elems_app. split; [by apply env_elems_plain|done].
      * intros post. rewrite <-!app_assoc. by intros Heq%app_inv_head.
    + apply Hb. rewrite fstab_backup_path, <-Path_plain by done.
      intros Heq%Path_inj; [done..|by repeat constructor].
Qed.
End fstab.

(** ** The contract *)

Section swap_facts.
Context {HK : Kernel} {HR : Runner} (e : Env).

(** Listing the units is a query. *)
Context {Hquery : ReadOnly (Run "systemctl" list_units_args)}.

#[export] Instance activeSwapDevices_read_only : ReadOnly (activeSwapDevices e).
Proof. unfold activeSwapDevices. apply _. Qed.
#[export] Instance activeSwapUnits_read_only : ReadOnly activeSwapUnits.
Proof. unfold activeSwapUnits. apply _. Qed.

#[export] Instance swap_behaved : WellBehaved (swap_resource e).
Proof.
  split; simpl; unfold SwapResource_Check.
  - apply bind_read_only; [apply _|]. intros []; apply _.
  - intros w. rewrite value_bind by apply _. destruct (value (activeSwapDevices e) w); [|check_done].
    rewrite !value_bind by apply _. case_bool; check_done.
Qed.

(** Nothing is left to do: no device is in use, no entry is active, no unit is listed. *)
Lemma swap_unchanged w :
  rStatus (value (SwapResource_Check e) w).1 = StatusUnchanged ↔
  value (activeSwapDevices e) w = Ok [] ∧
  fstabHasActiveSwapLines (fstab_content e w) = false ∧
  value activeSwapUnits w = [].
Proof.
  unfold SwapResource_Check, fstab_content. rewrite value_bind by apply _.
  destruct (value (activeSwapDevices e) w) as [active|err].
  2: { rewrite value_check_failed. by split; [|intros [? _]]. }
  rewrite !value_bind by apply _. unfold ReadFileString.
  destruct active, (fstabHasActiveSwapLines _), (value activeSwapUnits w);
    simpl; rewrite ?value_checked; simpl; (split; [done|]); intros (? & ? & ?); congruence.
Qed.

Lemma commentFstab_quiet w :
  fstabHasActiveSwapLines (fstab_content e w) = false →
  (∀ err, value (ReadFileString (fstabPath e)) w = Err err → IsNotExist err = true) →
  commentFstabSwapLines e w = (Ok (), w).
Proof.
  unfold fstab_content, commentFstabSwapLines. rewrite bind_value by apply _.
  destruct (value (ReadFileString (fstabPath e)) w) as [c|err].
  - by intros ->.
  - intros _ H. by rewrite (H err eq_refl).
Qed.

Lemma commentFstab_ok w w' :
  env_ok e = true → commentFstabSwapLines e w = (Ok (), w') →
  (fstab_content e w' = commented (fstab_content e w)) ∧
  fstabHasActiveSwapLines (fstab_content e w') = false ∧
  ∀ sub, plain_elems sub → fs w' !! Path e ("proc" :: sub) = fs w !! Path e ("proc" :: sub).
Proof.
  intros He. unfold commentFstabSwapLines. rewrite bind_value by apply _.
  unfold fstab_content at 2. destruct (value (ReadFileString (fstabPath e)) w) as [c|err] eqn:Hr.
  - destruct (fstabHasActiveSwapLines c) eqn:Hs; simpl.
    + intros Hrun. change (rewrite_fstab e (commented c) w = (Ok (), w')) in Hrun.
      apply rewrite_fstab_ok in Hrun as [Hc Hp]; [|done].
      rewrite Hc. split_and!; [done|apply no_swap_lines|done].
    + intros [= <-]. unfold fstab_content. rewrite Hr, commented_id by done. done.
  - destruct (IsNotExist err); simpl; [|done]. intros [= <-].
    unfold fstab_content. by rewrite Hr.
Qed.

(** What /proc/swaps lists depends on its own file. *)
Lemma activeSwapDevices_same w w' :
  fs w' !! Path e ["proc"; "swaps"] = fs w !! Path e ["proc"; "swaps"] →
  value (activeSwapDevices e) w = Ok [] → value (activeSwapDevices e) w' = Ok [].
Proof.
  intros Heq. unfold activeSwapDevices. rewrite !value_bind_ok, !value_map_err by apply _.
  unfold value, OpenLines, read_node. simpl. rewrite Heq.
  by destruct (fs w !! _).
Qed.

(** [swapoff -a] that succeeds leaves no swap in use. *)
Definition swapoff_clears : Prop :=
  ∀ w w' out, Run "swapoff" ["-a"] w = ((out, None), w') →
    value (activeSwapDevices e) w' = Ok [].

(** systemd lists a swap unit as long as its device is in use. *)
Definition units_follow_devices : Prop :=
  ∀ w, value (activeSwapDevices e) w = Ok [] → value activeSwapUnits w = [].

Lemma swap_off_ok w w' :
  env_ok e = true → swapoff_clears → swap_off e w = (Ok (), w') →
  value (activeSwapDevices e) w' = Ok [] ∧
  fstabHasActiveSwapLines (fstab_content e w') = false.
Proof.
  intros He Hoff Hrun. unfold swap_off in Hrun. run_inv.
  apply commentFstab_ok in Hrun as (_ & Hf & Hproc); [|done]. split; [|done].
  eapply activeSwapDevices_same; [apply (Hproc ["swaps"]); by repeat constructor|].
  match goal with H : activeSwapDevices e _ = (Ok ?l, _) |- _ =>
    rewrite (read_only_run (activeSwapDevices e)) in H; injection H as Ha <-;
    change (value (activeSwapDevices e) w = Ok l) in Ha end.
  case_bool.
  - run_inv. match goal with H : run_cmd _ _ _ = _ |- _ => apply run_cmd_ok in H; by eapply Hoff end.
  - run_inv. match goal with H : nonempty _ = false |- _ => apply nonempty_false in H end.
    by simplify_eq.
Qed.

(** When the devices go, so do their units: there is none left to mask. *)
Lemma SwapResource_Apply_run w w' :
  env_ok e = true → swapoff_clears → units_follow_devices →
  swap_off e w = (Ok (), w') → SwapResource_Apply e w = (Ok (), w').
Proof.
  intros He Hoff Hunits Hrun. pose proof (swap_off_ok w w' He Hoff Hrun) as [Hd _].
  unfold SwapResource_Apply. rewrite bind_ok_run, Hrun. simpl.
  by rewrite bind_value, Hunits by (done || apply _).
Qed.

Lemma SwapResource_Apply_inv w w' :
  env_ok e = true → swapoff_clears → units_follow_devices →
  SwapResource_Apply e w = (Ok (), w') → swap_off e w = (Ok (), w').
Proof.
  intros He Hoff Hunits Hrun. unfold SwapResource_Apply in Hrun.
  apply bind_ok_inv in Hrun as ([] & s & Hs & Hrun).
  pose proof (swap_off_ok w s He Hoff Hs) as [Hd _].
  rewrite bind_value, Hunits in Hrun by (done || apply _). simpl in Hrun. by simplify_eq.
Qed.

Lemma swap_apply_unchanged w w' :
  env_ok e = true → swapoff_clears → units_follow_devices →
  SwapResource_Apply e w = (Ok (), w') →
  rStatus (value (SwapResource_Check e) w').1 = StatusUnchanged.
Proof.
  intros He Hoff Hunits Hrun%SwapResource_Apply_inv; [|done..].
  apply swap_off_ok in Hrun as [??]; [|done..]. apply swap_unchanged. auto.
Qed.

Lemma swap_converges :
  env_ok e = true → swapoff_clears → units_follow_devices →
  Converges (λ _, True) (swap_resource e).
Proof.
  intros He Hoff Hunits. split; [apply _|done|]. intros w w' _ Hrun.
  refine (unchanged_settled (swap_resource e) w' _).
  exact (swap_apply_unchanged w w' He Hoff Hunits Hrun).
Qed.
End swap_facts.

(** ** Properties *)

(** C16: commenting out the swap entries rewrites the table line by line: swap entries get the
    prefix and stay readable, every other line is untouched and in place, no active swap
    entry is left, a table without one is not written at all, and the first rewrite leaves
    the original in the backup file. *)
Theorem commentFstabSwapLines_spec {HK : Kernel} (e : Env) (w w' : World) (c : string) :
  env_ok e = true →
  commentFstabSwapLines e w = (Ok (), w') →
  value (ReadFileString (fstabPath e)) w = Ok c →
  Split nl (fstab_content e w') = comment_line <$> Split nl c ∧
  fstabHasActiveSwapLines (fstab_content e w') = false ∧
  (fstabHasActiveSwapLines c = false → w' = w) ∧
  (fstabHasActiveSwapLines c = true → fs w !! backup_path (fstabPath e) = None →
   fs w' !! backup_path (fstabPath e) = Some (NFile 420 c)).
Proof.
  intros He Hrun Hc. pose proof (commentFstab_ok e w w' He Hrun) as (Hcont & Hno & _).
  unfold fstab_content at 2 in Hcont. rewrite Hc in Hcont.
  split; [by rewrite Hcont, Split_commented|]. split; [done|].
  unfold commentFstabSwapLines in Hrun. rewrite bind_value, Hc in Hrun by apply _.
  destruct (fstabHasActiveSwapLines c) eqn:Hs; simpl in Hrun; [|by simplify_eq].
  split; [done|]. intros _ Hnone. run_inv.
  match goal with H : BackupFile _ _ = _ |- _ =>
    eapply BackupFile_ok in H as [(n & Hn & _)|[_ Hb]]; [congruence| |exact Hc] end.
  match goal with H : WriteFileIfChanged _ _ _ _ = _ |- _ =>
    rewrite fstabPath_file in H by done;
    eapply (WriteFileIfChanged_other _ _ (fstab_plain e He)); [exact H| |exact Hb] end.
  rewrite fstab_backup_path by done. rewrite <-fstabPath_file by done.
  intros Heq%Path_inj; [done..|by repeat constructor|by repeat constructor].
Qed.

(** Applying the swap resource converges, given that swapoff turns swap off and that
    systemd drops a swap unit with its device: afterwards no device is in use, the table
    has no active swap entry and the check reports StatusUnchanged. *)
Theorem SwapResource_Apply_converges {HK : Kernel} {HR : Runner} (e : Env) (w w' : World) :
  ReadOnly (Run "systemctl" list_units_args) →
  env_ok e = true → swapoff_clears e → units_follow_devices e →
  SwapResource_Apply e w = (Ok (), w') →
  value (activeSwapDevices e) w' = Ok [] ∧
  fstabHasActiveSwapLines (fstab_content e w') = false ∧
  rStatus (value (SwapResource_Check e) w').1 = StatusUnchanged.
Proof.
  intros Hq He Hoff Hunits Hrun.
  pose proof (swap_apply_unchanged e w w' He Hoff Hunits Hrun) as Hst.
  pose proof (proj1 (swap_unchanged e w') Hst) as (? & ? & _). done.
Qed.

(** C32: no unit is ever masked on such a host. The units are listed after swapoff has made
    them inactive, so the list is empty: Apply does exactly what turning swap off and
    rewriting the table do, whichever units were active when it started. *)
Theorem swap_units_never_masked {HK : Kernel} {HR : Runner} (e : Env) (w w' : World) :
  ReadOnly (Run "systemctl" list_units_args) →
  env_ok e = true → swapoff_clears e → units_follow_devices e →
  SwapResource_Apply e w = (Ok (), w') ↔ swap_off e w = (Ok (), w').
Proof.
  intros Hq He Hoff Hunits. split.
  - by apply SwapResource_Apply_inv.
  - by apply SwapResource_Apply_run.
Qed.

Definition swaps_header : string := "Filename Type Size Used Priority" +:+ nls.
Definition swap_fstab : string :=
  "UUID=1 / ext4 defaults 0 1" +:+ nls +:+ "/swapfile none swap sw 0 0" +:+ nls.

Definition swap_host : World :=
  etc_world [("/etc/fstab", NFile 420 swap_fstab);
             ("/proc/swaps", NKnob (Ok (swaps_header +:+ "/swapfile file 1048572 0 -2" +:+ nls)))].

(** [swapoff] empties /proc/swaps; systemd lists a unit while a device is in use. *)
Definition swap_runner : Runner := λ name args w,
  if String.eqb name "swapoff"
  then ((EmptyString, None), set_fs (insert "/proc/swaps" (NKnob (Ok swaps_header))) w)
  else if String.eqb name "systemctl"
  then ((match value (activeSwapDevices New) w with
         | Ok [] => EmptyString
         | _ => "swapfile.swap loaded active active /swapfile" +:+ nls
         end, None), w)
  else ((EmptyString, Some (TextError "not found")), w).

Lemma swap_runner_clears : swapoff_clears (HR := swap_runner) New.
Proof.
  intros w w' out [= _ <-]. unfold value, activeSwapDevices, OpenLines.
  rewrite bind_ok_run, map_err_run. unfold gets.
  change (Path New ["proc"; "swaps"]) with "/proc/swaps". unfold read_node. simpl fs.
  rewrite lookup_insert_eq. by vm_compute.
Qed.

Lemma swap_runner_follows : units_follow_devices (HR := swap_runner) New.
Proof.
  intros w Hw. unfold activeSwapUnits. unfold value at 1. rewrite bind_run.
  unfold Run, swap_runner at 1. simpl. by rewrite Hw.
Qed.

Example commentFstabSwapLines_spec_witness :
  let k := plain_kernel in
  let w' := (commentFstabSwapLines New swap_host).2 in
  Split nl (fstab_content New w') = comment_line <$> Split nl swap_fstab ∧
  fs w' !! "/etc/fstab.node-configurator.orig" = Some (NFile 420 swap_fstab).
Proof.
  intros k w'.
  assert (commentFstabSwapLines New swap_host = (Ok (), w')) as Hrun.
  { apply run_ok. by vm_compute. }
  destruct (commentFstabSwapLines_spec New swap_host w' swap_fstab eq_refl Hrun)
    as (H1 & _ & _ & H2); [by vm_compute|].
  split; [exact H1|]. apply H2; by vm_compute.
Defined.

Example SwapResource_Apply_converges_witness :
  let k := plain_kernel in let rn := swap_runner in
  let w' := (SwapResource_Apply New swap_host).2 in
  rStatus (value (SwapResource_Check New) swap_host).1 = StatusWouldChange ∧
  value (activeSwapDevices New) w' = Ok [] ∧
  fstabHasActiveSwapLines (fstab_content New w') = false ∧
  rStatus (value (SwapResource_Check New) w').1 = StatusUnchanged.
Proof.
  intros k rn w'. split; [by vm_compute|].
  apply (SwapResource_Apply_converges New swap_host w').
  - intros w. done.
  - done.
  - apply swap_runner_clears.
  - apply swap_runner_follows.
  - apply run_ok. by vm_compute.
Defined.

Example swap_units_never_masked_witness :
  let k := plain_kernel in let rn := swap_runner in
  let w' := (swap_off New swap_host).2 in
  value activeSwapUnits swap_host = ["swapfile.swap"] ∧
  SwapResource_Apply New swap_host = (Ok (), w').
Proof.
  intros k rn w'. split; [by vm_compute|].
  apply (swap_units_never_masked New swap_host w').
  - intros w. done.
  - done.
  - apply swap_runner_clears.
  - apply swap_runner_follows.
  - apply run_ok. by vm_compute.
Defined.
