(* ===== verification/Mount.v ===== *)
(** * internal/resource/mount.go

    [MountResource]: a file system mounted at a path and, if asked for, an entry for it
    in [/etc/fstab]. *)

From S2P Require Import Prelude GoStrings GoPath GoOS Sysutil Resource Swap.

Record MountResource : Set := mkMount {
  mt_Env : Env;
  mt_ResourceName : string;
  mt_Device : string;
  mt_Path : string;
  mt_FSType : string;
  mt_Options : string;
  mt_FstabPersist : bool
}.

(** The condition of the loop over the lines. *)
Definition mount_line (path line : string) : bool :=
  let line := TrimSpace line in
  if String.eqb line EmptyString || HasPrefix line "#" then false
  else match Fields line with
       | _ :: f :: _ => String.eqb f path
       | _ => false
       end.

Definition fstabLineExists (fstabContent path : string) : bool :=
  existsb (mount_line path) (Split nl fstabContent).

(** The entry that is appended, and the table with it. *)
Definition mount_entry (r : MountResource) : string :=
  mt_Device r +:+ " " +:+ mt_Path r +:+ " " +:+ mt_FSType r +:+ " " +:+ mt_Options r +:+ " 0 0".

Definition with_entry (r : MountResource) (existing : string) : string :=
  (if negb (String.eqb existing EmptyString) && negb (HasSuffix existing nls)
   then existing +:+ nls else existing) +:+ mount_entry r +:+ nls.

Definition mounted_line (r : MountResource) (line : string) : bool :=
  match Fields line with
  | _ :: p :: t :: _ => String.eqb p (mt_Path r) && String.eqb t (mt_FSType r)
  | _ => false
  end.

(** The scan stops at the first line that matches, before a scan error could show. *)
Definition isMounted (r : MountResource) : IO bool :=
  f <-? map_err (Wrap "reading /proc/mounts") (OpenLines (Path (mt_Env r) ["proc"; "mounts"]));;
  ret (if existsb (mounted_line r) f.1 then Ok true
       else match f.2 with Some e => Err e | None => Ok false end).

Definition MountResource_Check (r : MountResource) : Checked :=
  m <- isMounted r;;
  match m with
  | Err e => check_failed (mt_ResourceName r) e
  | Ok mounted =>
      fstabDrift <- (if mt_FstabPersist r then
                       f <- ReadFileString (fstabPath (mt_Env r));;
                       ret (negb (fstabLineExists
                              (match f with Ok c => c | Err _ => EmptyString end) (mt_Path r)))
                     else ret false);;
      if mounted && negb fstabDrift
      then checked (mkResult (mt_ResourceName r) StatusUnchanged EmptyString)
      else
        let detail := if mounted then EmptyString
                      else mt_FSType r +:+ " not mounted at " +:+ mt_Path r in
        let detail := if fstabDrift then joinDetails [detail; "missing /etc/fstab entry"]
                      else detail in
        checked (mkResult (mt_ResourceName r) StatusWouldChange detail)
  end.

Section mount.
Context {HK : Kernel} {HR : Runner}.

Definition mount_args (r : MountResource) : list string :=
  let args := ["-t"; mt_FSType r; mt_Device r; mt_Path r] in
  if String.eqb (mt_Options r) EmptyString then args else ["-o"; mt_Options r] ++ args.

Definition persistFstab (r : MountResource) : IO () :=
  let path := fstabPath (mt_Env r) in
  e <- ReadFileString path;;
  match e with
  | Err err =>
      if negb (IsNotExist err) then ret (Err (Wrap "reading /etc/fstab" err))
      else if fstabLineExists EmptyString (mt_Path r) then ret (Ok ())
      else
        _ <-? map_err (Wrap "backing up /etc/fstab") (BackupFile path);;
        _ <-? map_err (Wrap "writing /etc/fstab")
                (WriteFileIfChanged path (with_entry r EmptyString) 420);;
        ret (Ok ())
  | Ok existing =>
      if fstabLineExists existing (mt_Path r) then ret (Ok ())
      else
        _ <-? map_err (Wrap "backing up /etc/fstab") (BackupFile path);;
        _ <-? map_err (Wrap "writing /etc/fstab")
                (WriteFileIfChanged path (with_entry r existing) 420);;
        ret (Ok ())
  end.

(** The mount point is created at [r.Path] itself, not below the root of [r.Env]. *)
Definition do_mount (r : MountResource) : IO () :=
  _ <-? map_err (Wrap ("creating mount point " +:+ mt_Path r)) (MkdirAll (mt_Path r));;
  _ <-? map_err (Wrap ("mounting " +:+ mt_FSType r +:+ " at " +:+ mt_Path r))
          (run_cmd "mount" (mount_args r));;
  ret (Ok ()).

Definition MountResource_Apply (r : MountResource) : IO () :=
  mounted <-? isMounted r;;
  _ <-? (if negb mounted then do_mount r else ret (Ok ()));;
  if mt_FstabPersist r then persistFstab r else ret (Ok ()).

Definition mount_resource (r : MountResource) : Resource :=
  mkResource (mt_ResourceName r) (MountResource_Check r) (MountResource_Apply r).
End mount.

(** ** The table *)

(** An entry the table can hold: fields without white space, no comment sign. *)
Definition entry_ok (r : MountResource) : bool :=
  field (mt_Device r) && negb (HasPrefix (mt_Device r) "#") && field (mt_Path r)
  && field (mt_FSType r) && sep_free nl (mount_entry r).

Lemma field_first_not_hash s : field s = true → HasPrefix s "#" = false →
  ∃ c s', s = String c s' ∧ space_len s = O ∧ HasPrefix (String c EmptyString) "#" = false.
Proof.
  intros [Hf Hne]%field_inv Hp. destruct s as [|c s]; [done|]. exists c, s.
  split; [done|]. simpl in Hf. apply andb_true_iff in Hf as [Hc _]. split.
  - by apply Nat.eqb_eq.
  - rewrite <-(HasPrefix_head "#" (String c EmptyString) s) by done. done.
Qed.

(** A line that starts with a field is read as its fields. *)
Lemma entry_fields r :
  entry_ok r = true →
  ∃ rest, Fields (mount_entry r) = mt_Device r :: mt_Path r :: mt_FSType r :: rest.
Proof.
  unfold entry_ok, mount_entry. intros H. bool_prop.
  exists (Fields (mt_Options r +:+ " 0 0")).
  by rewrite !Fields_cons.
Qed.

Lemma entry_not_comment r :
  entry_ok r = true →
  String.eqb (TrimSpace (mount_entry r)) EmptyString || HasPrefix (TrimSpace (mount_entry r)) "#"
    = false.
Proof.
  intros Hok. unfold entry_ok in Hok. bool_prop.
  match goal with Hf : field (mt_Device r) = true, Hh : HasPrefix (mt_Device r) "#" = false |- _ =>
    destruct (field_first_not_hash _ Hf Hh) as (c & s & Hs & Hlen & Hc); rewrite Hs in Hf end.
  unfold mount_entry. rewrite Hs, str_cons_app.
  edestruct (TrimSpace_head c) as [s' ->].
  { rewrite <-str_cons_app. apply (space_len_ascii_head (String c s)); [done|done|by rewrite <-Hs]. }
  change (String c s') with (String c EmptyString +:+ s'). by rewrite HasPrefix_head, Hc.
Qed.

Lemma mount_line_entry r : entry_ok r = true → mount_line (mt_Path r) (mount_entry r) = true.
Proof.
  intros Hok. unfold mount_line. rewrite entry_not_comment by done.
  destruct (entry_fields r Hok) as [rest Hf]. by rewrite Fields_TrimSpace, Hf, String.eqb_refl.
Qed.

Lemma swap_line_entry r :
  entry_ok r = true → swap_line (mount_entry r) = String.eqb (mt_FSType r) "swap".
Proof.
  intros Hok. unfold swap_line. rewrite entry_not_comment by done.
  destruct (entry_fields r Hok) as [rest Hf]. by rewrite Fields_TrimSpace, Hf.
Qed.

(** The entry comes after the lines that were there, which stay as they are. *)
Abbreviation proper_lines content := (filter (λ l, l ≠ EmptyString) (Split nl content)).

Lemma proper_lines_line s r :
  proper_lines (s +:+ nls +:+ r) = proper_lines s ++ proper_lines r.
Proof. unfold nls. by rewrite str_cons_app, str_nil_app, Split_app, filter_app. Qed.

Lemma with_entry_lines r existing :
  entry_ok r = true →
  proper_lines (with_entry r existing) = proper_lines existing ++ [mount_entry r].
Proof.
  intros Hok.
  assert (proper_lines (mount_entry r +:+ nls) = [mount_entry r]) as Hentry.
  { replace (mount_entry r +:+ nls) with (mount_entry r +:+ nls +:+ EmptyString) by by str_simpl.
    unfold entry_ok in Hok. bool_prop. rewrite Split_line by done. rewrite filter_cons_True; [done|].
    intros Hnil. unfold mount_entry in Hnil. rewrite !str_app_eq_nil in Hnil. by destruct Hnil as (_ & ? & _). }
  unfold with_entry. destruct (String.eqb_spec existing EmptyString) as [->|Hne]; simpl.
  { rewrite str_nil_app. exact Hentry. }
  destruct (HasSuffix existing nls) eqn:Hsuf; simpl.
  - apply HasSuffix_true_inv in Hsuf as [s ->].
    rewrite str_app_assoc, proper_lines_line, Hentry. f_equal.
    replace (s +:+ nls) with (s +:+ nls +:+ EmptyString) by by str_simpl.
    rewrite proper_lines_line. simpl. by rewrite app_nil_r.
  - by rewrite str_app_assoc, proper_lines_line, Hentry.
Qed.

Lemma existsb_proper f content :
  f EmptyString = false → existsb f (Split nl content) = existsb f (proper_lines content).
Proof.
  intros Hf. induction (Split nl content) as [|l ls IH]; [done|].
  destruct (decide (l = EmptyString)) as [->|Hne].
  - rewrite filter_cons_False by naive_solver. simpl. by rewrite Hf.
  - rewrite filter_cons_True by done. simpl. by rewrite IH.
Qed.

Lemma with_entry_existsb f r existing :
  entry_ok r = true → f EmptyString = false →
  existsb f (Split nl (with_entry r existing)) =
  existsb f (Split nl existing) || f (mount_entry r).
Proof.
  intros Hok Hf. rewrite !(existsb_proper f) by done. rewrite with_entry_lines by done.
  rewrite existsb_app. simpl. by rewrite orb_false_r.
Qed.

Lemma with_entry_exists r existing :
  entry_ok r = true → fstabLineExists (with_entry r existing) (mt_Path r) = true.
Proof.
  intros Hok. unfold fstabLineExists.
  rewrite with_entry_existsb by done. by rewrite mount_line_entry, orb_true_r.
Qed.

Lemma with_entry_swap r existing :
  entry_ok r = true → mt_FSType r ≠ "swap" →
  fstabHasActiveSwapLines (with_entry r existing) = fstabHasActiveSwapLines existing.
Proof.
  intros Hok Ht. unfold fstabHasActiveSwapLines. rewrite with_entry_existsb by done.
  apply String.eqb_neq in Ht. by rewrite swap_line_entry, Ht, orb_false_r.
Qed.

(** ** The contract *)

Section mount_facts.
Context {HK : Kernel} {HR : Runner} (r : MountResource).

#[export] Instance isMounted_read_only : ReadOnly (isMounted r).
Proof. unfold isMounted. apply _. Qed.

#[export] Instance mount_behaved : WellBehaved (mount_resource r).
Proof.
  split; simpl; unfold MountResource_Check.
  - apply bind_read_only; [apply _|]. intros [mounted|]; [|apply _].
    apply bind_read_only; [apply _|]. intros; apply _.
  - intros w. rewrite value_bind by apply _. destruct (value (isMounted r) w); [|check_done].
    rewrite value_bind by apply _. case_bool; check_done.
Qed.

(** Nothing is left to do. *)
Lemma mount_unchanged w :
  rStatus (value (MountResource_Check r) w).1 = StatusUnchanged ↔
  value (isMounted r) w = Ok true ∧
  (mt_FstabPersist r = true →
   fstabLineExists (fstab_content (mt_Env r) w) (mt_Path r) = true).
Proof.
  unfold MountResource_Check, fstab_content. rewrite value_bind by apply _.
  destruct (value (isMounted r) w) as [mounted|e].
  2: { rewrite value_check_failed. by split; [|intros [? _]]. }
  rewrite value_bind by apply _. unfold ReadFileString. destruct (mt_FstabPersist r).
  - rewrite value_bind, value_ret by apply _.
    destruct mounted, (fstabLineExists _ _); cbn [negb andb]; rewrite value_checked; simpl; split;
      try done; intros []; try done; naive_solver.
  - rewrite value_ret. destruct mounted; cbn [negb andb]; rewrite value_checked; simpl; split;
      try done; by intros [].
Qed.

Lemma persistFstab_run w :
  persistFstab r w =
  match value (ReadFileString (fstabPath (mt_Env r))) w with
  | Err err =>
      if negb (IsNotExist err) then (Err (Wrap "reading /etc/fstab" err), w)
      else rewrite_fstab (mt_Env r) (with_entry r EmptyString) w
  | Ok existing =>
      if fstabLineExists existing (mt_Path r) then (Ok (), w)
      else rewrite_fstab (mt_Env r) (with_entry r existing) w
  end.
Proof.
  unfold persistFstab. rewrite bind_value by apply _.
  destruct (value (ReadFileString _) w) as [c|err]; by case_bool.
Qed.

(** The table has an entry for the path, as it was or appended to it. *)
Lemma persistFstab_ok w w' :
  env_ok (mt_Env r) = true → entry_ok r = true → persistFstab r w = (Ok (), w') →
  fstab_content (mt_Env r) w' =
    (if fstabLineExists (fstab_content (mt_Env r) w) (mt_Path r)
     then fstab_content (mt_Env r) w else with_entry r (fstab_content (mt_Env r) w)) ∧
  fstabLineExists (fstab_content (mt_Env r) w') (mt_Path r) = true ∧
  ∀ sub, plain_elems sub →
    fs w' !! Path (mt_Env r) ("proc" :: sub) = fs w !! Path (mt_Env r) ("proc" :: sub).
Proof.
  intros He Hok. rewrite persistFstab_run.
  unfold fstab_content at 2 3 4. destruct (value (ReadFileString _) w) as [c|err] eqn:Hc.
  - destruct (fstabLineExists c (mt_Path r)) eqn:Hl.
    + intros [= <-]. unfold fstab_content. by rewrite Hc.
    + intros [Hcont Hp]%rewrite_fstab_ok; [|done]. rewrite Hcont.
      split_and!; [done|by apply with_entry_exists|done].
  - destruct (IsNotExist err); simpl; [|done].
    intros [Hcont Hp]%rewrite_fstab_ok; [|done]. rewrite Hcont.
    split_and!; [done|by apply with_entry_exists|done].
Qed.

(** What /proc/mounts lists depends on its own file. *)
Lemma isMounted_same w w' b :
  fs w' !! Path (mt_Env r) ["proc"; "mounts"] = fs w !! Path (mt_Env r) ["proc"; "mounts"] →
  value (isMounted r) w = Ok b → value (isMounted r) w' = Ok b.
Proof.
  intros Heq. unfold isMounted. rewrite !value_bind_ok, !value_map_err by apply _.
  unfold value, OpenLines, read_node. simpl. rewrite Heq.
  by destruct (fs w !! _).
Qed.

(** A [mount] that succeeds has mounted the file system. *)
Definition mount_mounts : Prop :=
  ∀ w w' out, Run "mount" (mount_args r) w = ((out, None), w') → value (isMounted r) w' = Ok true.

Lemma do_mount_ok w w' : mount_mounts → do_mount r w = (Ok (), w') → value (isMounted r) w' = Ok true.
Proof.
  intros Hm Hrun. unfold do_mount in Hrun. run_inv.
  match goal with H : run_cmd _ _ _ = _ |- _ => apply run_cmd_ok in H; by eapply Hm end.
Qed.

Lemma mount_apply_unchanged w w' :
  env_ok (mt_Env r) = true → (mt_FstabPersist r = true → entry_ok r = true) → mount_mounts →
  MountResource_Apply r w = (Ok (), w') →
  rStatus (value (MountResource_Check r) w').1 = StatusUnchanged.
Proof.
  intros He Hentry Hm Hrun. apply mount_unchanged. unfold MountResource_Apply in Hrun.
  apply bind_ok_inv in Hrun as (mounted & s & Hs & Hrun).
  rewrite (read_only_run (isMounted r)) in Hs. injection Hs as Hs <-.
  apply bind_ok_inv in Hrun as ([] & s & Hs' & Hrun).
  assert (value (isMounted r) s = Ok true) as His.
  { destruct mounted; simpl in Hs'; [by simplify_eq|by eapply do_mount_ok]. }
  destruct (mt_FstabPersist r); [|by simplify_eq/=].
  apply persistFstab_ok in Hrun as (_ & Hex & Hproc); [|done|by apply Hentry].
  split; [|done]. eapply isMounted_same; [|exact His]. apply (Hproc ["mounts"]). by repeat constructor.
Qed.

Lemma mount_converges :
  env_ok (mt_Env r) = true → (mt_FstabPersist r = true → entry_ok r = true) → mount_mounts →
  Converges (λ _, True) (mount_resource r).
Proof.
  intros He Hentry Hm. split; [apply _|done|]. intros w w' _ Hrun.
  refine (unchanged_settled (mount_resource r) w' _).
  exact (mount_apply_unchanged w w' He Hentry Hm Hrun).
Qed.
End mount_facts.

(** ** Properties *)

(** C27: applying a mount converges, given that a mount command that succeeds has mounted:
    afterwards /proc/mounts lists it, the table has an entry for its mount point if asked
    for, and the check reports StatusUnchanged. *)
Theorem MountResource_Apply_converges {HK : Kernel} {HR : Runner} (r : MountResource)
    (w w' : World) :
  env_ok (mt_Env r) = true → (mt_FstabPersist r = true → entry_ok r = true) → mount_mounts r →
  MountResource_Apply r w = (Ok (), w') →
  value (isMounted r) w' = Ok true ∧
  (mt_FstabPersist r = true → fstabLineExists (fstab_content (mt_Env r) w') (mt_Path r) = true) ∧
  rStatus (value (MountResource_Check r) w').1 = StatusUnchanged.
Proof.
  intros He Hentry Hm Hrun.
  pose proof (mount_apply_unchanged r w w' He Hentry Hm Hrun) as Hst.
  pose proof (proj1 (mount_unchanged r w') Hst) as [??]. done.
Qed.

(** Persisting a mount appends one entry and nothing else: no line of the table is
    changed, moved or joined to the new one, an entry that is there is not repeated, and the
    table has an entry for the mount point afterwards. *)
Theorem persistFstab_appends {HK : Kernel} (r : MountResource) (w w' : World) :
  env_ok (mt_Env r) = true → entry_ok r = true →
  persistFstab r w = (Ok (), w') →
  proper_lines (fstab_content (mt_Env r) w') =
    proper_lines (fstab_content (mt_Env r) w) ++
    (if fstabLineExists (fstab_content (mt_Env r) w) (mt_Path r) then [] else [mount_entry r]) ∧
  fstabLineExists (fstab_content (mt_Env r) w') (mt_Path r) = true.
Proof.
  intros He Hok (Hc & Hex & _)%persistFstab_ok; [|done..]. split; [|done]. rewrite Hc.
  case_bool; [by rewrite app_nil_r|by apply with_entry_lines].
Qed.

(** C17: the two resources that edit the table do not undo each other's work, in whichever
    order they run: commenting out swap entries keeps the entry of a mount, and adding the
    entry of a mount brings no swap entry back. *)
Theorem fstab_editors_compose (r : MountResource) (content : string) :
  entry_ok r = true → mt_FSType r ≠ "swap" →
  (fstabHasActiveSwapLines (with_entry r (commented content)) = false ∧
   fstabLineExists (with_entry r (commented content)) (mt_Path r) = true) ∧
  (fstabHasActiveSwapLines (commented (with_entry r content)) = false ∧
   fstabLineExists (commented (with_entry r content)) (mt_Path r) = true).
Proof.
  intros Hok Ht. split; split.
  - rewrite with_entry_swap by done. apply no_swap_lines.
  - by apply with_entry_exists.
  - apply no_swap_lines.
  - unfold fstabLineExists. rewrite Split_commented.
    apply existsb_exists. exists (mount_entry r). split; [|by apply mount_line_entry].
    apply list_elem_of_In, list_elem_of_fmap. exists (mount_entry r).
    apply String.eqb_neq in Ht. split.
    + unfold comment_line. by rewrite swap_line_entry, Ht.
    + assert (mount_entry r ∈ proper_lines (with_entry r content)) as Hin.
      { rewrite with_entry_lines by done. set_solver. }
      by apply list_elem_of_filter in Hin as [_ ?].
Qed.

Definition bpffs : MountResource :=
  mkMount New "bpffs-mount" "bpffs" "/sys/fs/bpf" "bpf" "rw,nosuid,nodev,noexec,relatime" true.

Definition mounts_line : string := "/dev/nvme0n1p1 / xfs rw,noatime 0 0" +:+ nls.

Definition mount_host : World :=
  etc_world [("/etc/fstab", NFile 420 swap_fstab); ("/proc/mounts", NKnob (Ok mounts_line))].

Definition mount_runner : Runner := λ name args w,
  ((EmptyString, None), set_fs (insert "/proc/mounts"
     (NKnob (Ok (mounts_line +:+ "bpffs /sys/fs/bpf bpf rw 0 0" +:+ nls)))) w).

Lemma mount_runner_mounts : mount_mounts (HR := mount_runner) bpffs.
Proof.
  intros w w' out [= _ <-]. unfold value, isMounted, OpenLines.
  rewrite bind_ok_run, map_err_run. unfold gets.
  change (Path (mt_Env bpffs) ["proc"; "mounts"]) with "/proc/mounts". unfold read_node. simpl fs.
  rewrite lookup_insert_eq. by vm_compute.
Qed.

Example MountResource_Apply_converges_witness :
  let k := plain_kernel in let rn := mount_runner in
  let w' := (MountResource_Apply bpffs mount_host).2 in
  value (isMounted bpffs) mount_host = Ok false ∧
  rStatus (value (MountResource_Check bpffs) w').1 = StatusUnchanged.
Proof.
  intros k rn w'. split; [by vm_compute|].
  apply (MountResource_Apply_converges bpffs mount_host w').
  - done.
  - intros _. by vm_compute.
  - apply mount_runner_mounts.
  - apply run_ok. by vm_compute.
Defined.

Example persistFstab_appends_witness :
  let k := plain_kernel in
  let w' := (persistFstab bpffs mount_host).2 in
  proper_lines (fstab_content New w') =
    proper_lines (fstab_content New mount_host) ++
    (if fstabLineExists (fstab_content New mount_host) "/sys/fs/bpf" then []
     else [mount_entry bpffs]) ∧
  fstabLineExists (fstab_content New w') "/sys/fs/bpf" = true.
Proof.
  intros k w'. apply (persistFstab_appends bpffs mount_host w').
  - done.
  - by vm_compute.
  - apply run_ok. by vm_compute.
Defined.

Example fstab_editors_compose_witness :
  fstabHasActiveSwapLines swap_fstab = true ∧
  fstabLineExists (commented (with_entry bpffs swap_fstab)) "/sys/fs/bpf" = true.
Proof.
  split; [by vm_compute|].
  apply (fstab_editors_compose bpffs swap_fstab); [by vm_compute|done].
Defined.
