(* ===== verification/Attr.v ===== *)
(** * Kernel attributes

    Four resources have the same shape: for each of a list of attributes, compare what
    it reads with what is wanted and write it if it differs. What their loops share is
    proved here once, for any body that settles its own attribute and touches no other. *)

From S2P Require Import Prelude GoStrings GoPath GoOS.

Section attr.
Context {HK : Kernel} {A : Type} (path : A → string) (good : A → string → bool).

(** The checks skip what cannot be read. *)
Definition attr_settled (a : A) (w : World) : Prop :=
  ∀ c, value (ReadFile (path a)) w = Ok c → good a c = true.

(** A write that the kernel accepts is read back as wanted. *)
Definition attr_keeps (a : A) (data : string) (w : World) : Prop :=
  ∀ n c, written (fs w) (path a) data 420 n →
    (∃ mode, n = NFile mode c) ∨ n = NKnob (Ok c) → good a c = true.

Lemma attr_keeps_intro a data w :
  good a data = true →
  (∀ old c, knob_write (path a) old data = Ok (Ok c) → good a c = true) →
  attr_keeps a data w.
Proof.
  intros Hfile Hknob n c Hw Hn. unfold written in Hw.
  destruct (fs w !! path a) as [[|mode c'|old]|]; [done|..].
  - destruct Hn as [[? ->]| ->]; by simplify_eq.
  - destruct Hw as (k & Hk & ->). destruct Hn as [[? ?]|?]; simplify_eq. by eapply Hknob.
  - destruct Hn as [[? ->]| ->]; by simplify_eq.
Qed.

Lemma write_settles a data w w' :
  attr_keeps a data w → WriteFile (path a) data 420 w = (Ok (), w') → attr_settled a w'.
Proof.
  intros Hkeep (n & Hn & ->)%WriteFile_ok c Hc.
  apply (Hkeep n c Hn). apply ReadFile_ok_node in Hc. simpl in Hc.
  rewrite lookup_insert_eq in Hc. naive_solver.
Qed.

Lemma attr_settled_same a w w' :
  fs w' !! path a = fs w !! path a → attr_settled a w → attr_settled a w'.
Proof. intros Heq Hs c Hc. apply Hs. by eapply ReadFile_same. Qed.

Section loop.
Context (I : World → Prop) (body : A → IO ()) (items : list A).
Context (body_ok : ∀ a w w', a ∈ items → I w → body a w = (Ok (), w') → I w' ∧ attr_settled a w').
Context (body_other : ∀ a w r w' q,
  body a w = (r, w') → q ≠ path a → fs w' !! q = fs w !! q).
Context (same_path : ∀ a b c,
  a ∈ items → b ∈ items → path a = path b → good b c = true → good a c = true).

Lemma loop_settles w w' :
  I w → for_each items body w = (Ok (), w') → I w' ∧ ∀ a, a ∈ items → attr_settled a w'.
Proof using body_ok body_other same_path.
  apply (for_each_establishes body I attr_settled); [eauto|].
  intros a b s s' Ha Hb Hs Hsa Hrun.
  destruct (String.eqb_spec (path a) (path b)) as [Heq|Hne].
  - intros c Hc. apply (same_path a b c Ha Hb Heq). rewrite Heq in Hc.
    destruct (body_ok b s s' Hb Hs Hrun) as [_ Hset]. by apply Hset.
  - eapply attr_settled_same; [|exact Hsa]. by eapply body_other.
Qed.

(** Every run changes only the paths of the items. *)
Lemma loop_other w r w' q :
  for_each items body w = (r, w') → (∀ a, a ∈ items → q ≠ path a) → fs w' !! q = fs w !! q.
Proof using body_other.
  intros Hrun Hq. refine (for_each_inv body (λ w', fs w' !! q = fs w !! q) items w r w' _ _ Hrun);
    [|done].
  intros a s r' s' Ha <- Hbody. eapply body_other; eauto.
Qed.
End loop.
End attr.

(** Attribute directories take no new files: writes keep their shape. *)
Lemma WriteFile_shape {HK : Kernel} path data perm w r w' :
  fault OpCreate path ≠ None → WriteFile path data perm w = (r, w') → same_shape (fs w') (fs w).
Proof.
  intros Hf. unfold WriteFile. rewrite bind_run. simpl.
  destruct (fs w !! path) as [[|mode c|old]|] eqn:Hp.
  - by intros [= _ <-].
  - unfold write_regular. destruct (fault OpWrite path); unfold bind, put; simpl;
      intros [= _ <-]; by eapply same_shape_insert.
  - destruct (knob_write path old data); unfold bind, put; simpl; intros [= _ <-]; [|done].
    by eapply same_shape_insert.
  - rewrite bind_ok_run. unfold creatable. simpl.
    destruct (is_dir (fs w) (DirPath path)); simpl; [|by intros [= _ <-]].
    by destruct (fault OpCreate path); simpl; [intros [= _ <-]|].
Qed.

(** A write to a kernel attribute leaves a kernel attribute. *)
Lemma WriteFile_knob {HK : Kernel} path data perm w r w' old :
  fs w !! path = Some (NKnob old) → WriteFile path data perm w = (r, w') →
  ∃ new, fs w' !! path = Some (NKnob new).
Proof.
  intros Hp. unfold WriteFile. rewrite bind_run. simpl. rewrite Hp.
  destruct (knob_write path old data); unfold bind, put; simpl; intros [= _ <-]; [|eauto].
  eexists. simpl. apply lookup_insert_eq.
Qed.

(** Nor does a write make a directory. *)
Lemma WriteFile_is_dir {HK : Kernel} path data perm w r w' d :
  WriteFile path data perm w = (r, w') → is_dir (fs w) d = false → is_dir (fs w') d = false.
Proof.
  unfold WriteFile, is_dir. rewrite bind_run. simpl.
  assert (∀ mode n r w', write_regular path mode n w = (r, w') →
    match fs w !! d with Some NDir => true | _ => false end = false →
    match fs w' !! d with Some NDir => true | _ => false end = false) as Hreg.
  { intros mode n r' w''. unfold write_regular.
    destruct (fault OpWrite path); unfold bind, put; simpl; intros [= _ <-]; simpl;
      (destruct (decide (path = d)) as [->|]; [by rewrite lookup_insert_eq|by rewrite lookup_insert_ne]). }
  destruct (fs w !! path) as [[|mode c|old]|] eqn:Hp.
  - by intros [= _ <-].
  - apply Hreg.
  - destruct (knob_write path old data); unfold bind, put; simpl; intros [= _ <-]; [|done]; simpl.
    destruct (decide (path = d)) as [->|]; [by rewrite lookup_insert_eq|by rewrite lookup_insert_ne].
  - rewrite bind_ok_run. unfold creatable. simpl.
    destruct (is_dir (fs w) (DirPath path)); simpl; [|by intros [= _ <-]].
    destruct (fault OpCreate path); simpl; [by intros [= _ <-]|]. apply Hreg.
Qed.

(** A kernel whose attribute directories take no files and whose attributes keep what is
    written to them, on a line. *)
Definition sysfs_kernel : Kernel := {|
  knob_write := λ _ _ data, Ok (Ok (data +:+ nls));
  fault := λ op _, match op with OpCreate => Some EACCES | _ => None end;
  random := λ _ i, N.of_nat i
|}.

(** Nothing can be written below a directory that is gone. *)
Lemma WriteFile_gone {HK : Kernel} path data perm w :
  fs w !! path = None → is_dir (fs w) (DirPath path) = false →
  ∃ e, WriteFile path data perm w = (Err e, w).
Proof.
  intros Hp Hd. unfold WriteFile. rewrite bind_run. simpl. rewrite Hp.
  rewrite bind_ok_run. unfold creatable. simpl. rewrite Hd. simpl. eauto.
Qed.
