(* ===== verification/CPUGovernor.v ===== *)
(** * internal/resource/cpugovernor.go

    [CPUGovernorResource]: the cpufreq governor of every CPU that has one. *)

From S2P Require Import Prelude GoStrings GoFmt GoPath GoOS Sysutil Resource Attr.

Record CPUGovernorResource : Set := mkCPUGovernor {
  cg_Env : Env;
  cg_Governor : string
}.

Definition governorPaths (r : CPUGovernorResource) : IO (list string) :=
  Glob (Path (cg_Env r)
    ["sys"; "devices"; "system"; "cpu"; "cpu[0-9]*"; "cpufreq"; "scaling_governor"]).

Definition governor_set (r : CPUGovernorResource) (content : string) : bool :=
  String.eqb (TrimSpace content) (cg_Governor r).

Section governor.
Context {HK : Kernel} {HU : Unicode}.

(** The paths that read as another governor. *)
Definition governor_drift (r : CPUGovernorResource) (p : string) : M World (list string) :=
  cur <- ReadFileString p;;
  ret (match cur with
       | Err _ => []
       | Ok c => if governor_set r c then [] else [p]
       end).

Definition CPUGovernorResource_Check (r : CPUGovernorResource) : Checked :=
  if String.eqb (cg_Governor r) EmptyString
  then checked (mkResult "cpu-governor" StatusSkipped "disabled")
  else
    p <- governorPaths r;;
    match p with
    | Err e => check_failed "cpu-governor" e
    | Ok paths =>
        if negb (nonempty paths)
        then checked (mkResult "cpu-governor" StatusSkipped "no adjustable cpufreq governor on this host")
        else
          drifted <- collect paths (governor_drift r);;
          let drift := Z.of_nat (length drifted) in
          if (drift =? 0)%Z then checked (mkResult "cpu-governor" StatusUnchanged EmptyString)
          else checked (mkResult "cpu-governor" StatusWouldChange
                 (Itoa drift +:+ " of " +:+ Itoa (Z.of_nat (length paths)) +:+ " CPUs not on "
                    +:+ Quote (cg_Governor r) +:+ " governor"))
    end.

Definition set_governor (r : CPUGovernorResource) (p : string) : IO () :=
  cur <- ReadFileString p;;
  if (match cur with Ok c => governor_set r c | Err _ => false end) then ret (Ok ())
  else map_err (Wrap ("setting governor via " +:+ p)) (WriteFile p (cg_Governor r) 420).

Definition CPUGovernorResource_Apply (r : CPUGovernorResource) : IO () :=
  if String.eqb (cg_Governor r) EmptyString then ret (Ok ())
  else paths <-? governorPaths r;; for_each paths (set_governor r).

Definition cpugovernor_resource (r : CPUGovernorResource) : Resource :=
  mkResource "cpu-governor" (CPUGovernorResource_Check r) (CPUGovernorResource_Apply r).
End governor.

(** ** The contract *)

Section governor_facts.
Context {HK : Kernel} {HU : Unicode} (r : CPUGovernorResource).

#[export] Instance governorPaths_read_only : ReadOnly (governorPaths r).
Proof. unfold governorPaths. apply _. Qed.
#[export] Instance governor_drift_read_only p : ReadOnly (governor_drift r p).
Proof. unfold governor_drift. apply _. Qed.

#[export] Instance cpugovernor_behaved : WellBehaved (cpugovernor_resource r).
Proof.
  split; simpl; unfold CPUGovernorResource_Check.
  - apply if_read_only; [apply _|]. apply bind_read_only; [apply _|]. intros []; apply _.
  - intros w. case_bool; [check_done|]. rewrite value_bind by apply _.
    destruct (value (governorPaths r) w); [|check_done].
    case_bool; [check_done|]. rewrite value_bind by apply _. case_bool; check_done.
Qed.

Abbreviation settled_at p w := (attr_settled (λ p, p) (λ _, governor_set r) p w).

Lemma governor_drift_nil p w : value (governor_drift r p) w = [] ↔ settled_at p w.
Proof.
  unfold governor_drift, ReadFileString, attr_settled. rewrite value_bind, value_ret by apply _.
  destruct (value (ReadFile p) w) as [c|]; [|naive_solver].
  destruct (governor_set r c) eqn:Hg; split; try done; [by intros _ c' [= <-]|].
  intros H. specialize (H c eq_refl). congruence.
Qed.

(** What the check decides on a host with adjustable governors. *)
Lemma governor_unchanged paths w :
  cg_Governor r ≠ EmptyString → value (governorPaths r) w = Ok paths → paths ≠ [] →
  rStatus (value (CPUGovernorResource_Check r) w).1 = StatusUnchanged ↔
  ∀ p, p ∈ paths → settled_at p w.
Proof.
  intros Hg%String.eqb_neq Hp Hne%nonempty_true. unfold CPUGovernorResource_Check. rewrite Hg.
  rewrite value_bind, Hp by apply _. rewrite Hne. cbn [negb].
  rewrite value_bind, collect_value by apply _.
  setoid_rewrite <-governor_drift_nil. rewrite <-bind_nil_iff.
  destruct (paths ≫= _); cbn [length]; case_bool; bool_prop; rewrite value_checked; simpl;
    split; try done; lia.
Qed.

(** The attributes that are found cannot be made anew, and keep the governor that is
    written to them. *)
Definition governor_ok : Prop := ∀ w paths p,
  value (governorPaths r) w = Ok paths → p ∈ paths →
  fault OpCreate p ≠ None ∧
  ∀ s, attr_keeps (λ p, p) (λ _, governor_set r) p (cg_Governor r) s.

Lemma set_governor_any p w x w' :
  set_governor r p w = (x, w') → w' = w ∨ ∃ y, WriteFile p (cg_Governor r) 420 w = (y, w').
Proof.
  unfold set_governor, ReadFileString. rewrite bind_value by apply _.
  case_bool; [by intros [= _ <-]; left|]. rewrite map_err_run.
  destruct (WriteFile _ _ _ w) as [y w1]. intros [= _ <-]. right. eauto.
Qed.

Lemma set_governor_ok p w w' :
  (∀ s, attr_keeps (λ p, p) (λ _, governor_set r) p (cg_Governor r) s) →
  set_governor r p w = (Ok (), w') → settled_at p w'.
Proof.
  intros Hkeep. unfold set_governor, ReadFileString. rewrite bind_value by apply _.
  destruct (value (ReadFile p) w) as [c|e] eqn:Hc.
  - destruct (governor_set r c) eqn:Hg.
    + intros [= <-] c' Hc'. simpl in Hc'. rewrite Hc in Hc'. by injection Hc' as <-.
    + intros Hrun%map_err_inv. by eapply (write_settles (λ p, p)).
  - intros Hrun%map_err_inv. by eapply (write_settles (λ p, p)).
Qed.

Lemma governor_loop w0 paths w w' :
  governor_ok → value (governorPaths r) w0 = Ok paths →
  for_each paths (set_governor r) w = (Ok (), w') →
  same_shape (fs w') (fs w) ∧ ∀ p, p ∈ paths → settled_at p w'.
Proof.
  intros Hok Hpaths Hrun. split.
  - refine (for_each_inv (set_governor r) (λ w', same_shape (fs w') (fs w)) paths w _ w' _ _ Hrun);
      [|done].
    intros p s x s' Hp Hs [->|[y Hy]]%set_governor_any; [done|]. etrans; [|exact Hs].
    eapply WriteFile_shape; [apply (Hok w0 paths p Hpaths Hp)|exact Hy].
  - eapply (loop_settles (λ p, p) _ (λ _, True) (set_governor r)); [|..|exact Hrun]; try done.
    + intros p s s' Hp _ Hs. split; [done|].
      eapply set_governor_ok; [apply (Hok w0 paths p Hpaths Hp)|exact Hs].
    + intros p s x s' q [->|[y Hy]]%set_governor_any Hq; [done|].
      eapply WriteFile_other; [exact Hy|done].
Qed.

Lemma governor_apply paths w w' :
  governor_ok → cg_Governor r ≠ EmptyString → value (governorPaths r) w = Ok paths →
  CPUGovernorResource_Apply r w = (Ok (), w') →
  value (governorPaths r) w' = Ok paths ∧ ∀ p, p ∈ paths → settled_at p w'.
Proof.
  intros Hok Hg%String.eqb_neq Hp Hrun. unfold CPUGovernorResource_Apply in Hrun. rewrite Hg in Hrun.
  rewrite bind_ok_value, Hp in Hrun by apply _. apply (governor_loop w) in Hrun as [Hshape Hall]; [|done..].
  split; [|done]. rewrite <-Hp. by apply Glob_shape.
Qed.

Lemma cpugovernor_converges :
  governor_ok → Converges (λ _, True) (cpugovernor_resource r).
Proof.
  intros Hok. split; [apply _|done|]. intros w w' _ Hrun. simpl in *.
  unfold CPUGovernorResource_Apply in Hrun.
  destruct (String.eqb_spec (cg_Governor r) EmptyString) as [Hnil|Hne].
  { unfold CPUGovernorResource_Check. rewrite Hnil. simpl. check_done. }
  destruct (value (governorPaths r) w) as [paths|err] eqn:Hp.
  2: { by rewrite bind_ok_value, Hp in Hrun by apply _. }
  edestruct (governor_apply paths w w') as [Hp' Hall]; [done..| |].
  { unfold CPUGovernorResource_Apply. apply String.eqb_neq in Hne as ->. exact Hrun. }
  destruct (decide (paths = [])) as [->|Hpaths].
  { unfold CPUGovernorResource_Check. apply String.eqb_neq in Hne as ->.
    rewrite value_bind, Hp' by apply _. simpl. check_done. }
  refine (unchanged_settled (cpugovernor_resource r) w' _).
  by apply (governor_unchanged paths).
Qed.
End governor_facts.

(** ** Properties *)

(** Applying the governor converges on hosts whose attribute directories take no files:
    afterwards every CPU's governor that can be read reads as the configured one, the same
    CPUs are found as before, and nothing is left to do. *)
Theorem CPUGovernorResource_Apply_converges {HK : Kernel} {HU : Unicode}
    (r : CPUGovernorResource) (paths : list string) (w w' : World) :
  governor_ok r → cg_Governor r ≠ EmptyString →
  value (governorPaths r) w = Ok paths →
  CPUGovernorResource_Apply r w = (Ok (), w') →
  value (governorPaths r) w' = Ok paths ∧
  (∀ p c, p ∈ paths → value (ReadFile p) w' = Ok c → TrimSpace c = cg_Governor r) ∧
  settled (value (CPUGovernorResource_Check r) w').
Proof.
  intros Hok Hg Hp Hrun. pose proof (governor_apply r paths w w' Hok Hg Hp Hrun) as [Hp' Hall].
  split; [done|]. split.
  - intros p c Hin Hc. apply String.eqb_eq. by apply (Hall p Hin).
  - by apply (cv_settles (Converges := cpugovernor_converges r Hok) w w' I).
Qed.

Definition cpu_path (n : string) : string :=
  "/sys/devices/system/cpu/" +:+ n +:+ "/cpufreq/scaling_governor".

Definition cpu_world : World :=
  etc_world [("/sys/devices/system/cpu", NDir);
             ("/sys/devices/system/cpu/cpu0", NDir); ("/sys/devices/system/cpu/cpu1", NDir);
             ("/sys/devices/system/cpu/cpufreq", NDir);
             ("/sys/devices/system/cpu/cpu0/cpufreq", NDir);
             ("/sys/devices/system/cpu/cpu1/cpufreq", NDir);
             (cpu_path "cpu0", NKnob (Ok ("powersave" +:+ nls)));
             (cpu_path "cpu1", NKnob (Ok ("performance" +:+ nls)))].

Example CPUGovernorResource_Apply_converges_witness :
  let k := sysfs_kernel in let u := plain_unicode in
  let r := mkCPUGovernor New "performance" in
  let w' := (CPUGovernorResource_Apply r cpu_world).2 in
  rStatus (value (CPUGovernorResource_Check r) cpu_world).1 = StatusWouldChange ∧
  value (governorPaths r) w' = Ok [cpu_path "cpu0"; cpu_path "cpu1"] ∧
  settled (value (CPUGovernorResource_Check r) w').
Proof.
  intros k u r w'. split; [by vm_compute|].
  destruct (CPUGovernorResource_Apply_converges r [cpu_path "cpu0"; cpu_path "cpu1"] cpu_world w')
    as (H1 & _ & H2); [..|by split].
  - intros w paths p _ _. split; [done|]. intros s. apply attr_keeps_intro; [done|].
    intros old c [= <-]. by vm_compute.
  - done.
  - by vm_compute.
  - apply run_ok. by vm_compute.
Defined.
