(* ===== verification/IOScheduler.v ===== *)
(** * internal/resource/ioscheduler.go

    [IOSchedulerResource]: the I/O scheduler of every whole NVMe disk, where its driver
    offers the one that is wanted. *)

From S2P Require Import Prelude GoStrings GoFmt GoPath GoOS Sysutil Resource Attr.

Record IOSchedulerResource : Set := mkIOScheduler {
  io_Env : Env;
  io_Scheduler : string
}.

(** [^nvme\d+n\d+$]: what is left of a string after one digit or more. *)
Fixpoint skip_digits (s : string) : string :=
  match s with
  | String c s' => if is_digit c then skip_digits s' else s
  | EmptyString => EmptyString
  end.
Definition digits (s : string) : option string :=
  match s with
  | String c s' => if is_digit c then Some (skip_digits s') else None
  | EmptyString => None
  end.
Definition nvmeWholeDiskRe (name : string) : bool :=
  match (r ← drop_prefix "nvme" name; r ← digits r; r ← drop_prefix "n" r; digits r) with
  | Some EmptyString => true
  | _ => false
  end.

Definition nvmeDevices (r : IOSchedulerResource) : IO (list string) :=
  d <- ReadDir (Path (io_Env r) ["sys"; "block"]);;
  ret (match d with
       | Err e => if IsNotExist e then Ok [] else Err (Wrap "reading /sys/block" e)
       | Ok entries => Ok (filter (λ n, nvmeWholeDiskRe n = true) entries)
       end).

Definition schedulerPath (r : IOSchedulerResource) (dev : string) : string :=
  Path (io_Env r) ["sys"; "block"; dev; "queue"; "scheduler"].

(** One field of "mq-deadline [kyber] none": the active scheduler is bracketed. *)
Definition scheduler_field (st : string * list string) (field : string) : string * list string :=
  let '(current, available) := st in
  if HasPrefix field "[" && HasSuffix field "]"
  then let name := Trim field ["["; "]"]%char in (name, available ++ [name])
  else (current, available ++ [field]).

Definition parse_scheduler (raw : string) : string * list string :=
  fold_left scheduler_field (Fields (TrimSpace raw)) (EmptyString, []).

Definition readScheduler (r : IOSchedulerResource) (dev : string) : IO (string * list string) :=
  raw <-? ReadFileString (schedulerPath r dev);;
  ret (Ok (parse_scheduler raw)).

(** Nothing to do: the scheduler is the wanted one, or the driver does not offer it. *)
Definition scheduler_fine (r : IOSchedulerResource) (s : string * list string) : bool :=
  String.eqb s.1 (io_Scheduler r) || negb (in_list (io_Scheduler r) s.2).

Definition scheduler_drift (r : IOSchedulerResource) (dev : string) : M World (list string) :=
  s <- readScheduler r dev;;
  ret (match s with
       | Err _ => []
       | Ok s =>
           if String.eqb s.1 (io_Scheduler r) then []
           else if negb (in_list (io_Scheduler r) s.2) then []
           else [dev +:+ ": " +:+ s.1 +:+ " -> " +:+ io_Scheduler r]
       end).

Definition IOSchedulerResource_Check (r : IOSchedulerResource) : Checked :=
  if String.eqb (io_Scheduler r) EmptyString
  then checked (mkResult "io-scheduler" StatusSkipped "disabled")
  else
    d <- nvmeDevices r;;
    match d with
    | Err e => check_failed "io-scheduler" e
    | Ok devices =>
        if negb (nonempty devices)
        then checked (mkResult "io-scheduler" StatusSkipped "no NVMe block devices found")
        else
          drift <- collect devices (scheduler_drift r);;
          if negb (nonempty drift)
          then checked (mkResult "io-scheduler" StatusUnchanged EmptyString)
          else checked (mkResult "io-scheduler" StatusWouldChange (Join ", " drift))
    end.

Section iosched.
Context {HK : Kernel}.

Definition set_scheduler (r : IOSchedulerResource) (dev : string) : IO () :=
  s <- readScheduler r dev;;
  if (match s with
      | Err _ => true
      | Ok s => String.eqb s.1 (io_Scheduler r) || negb (in_list (io_Scheduler r) s.2)
      end)
  then ret (Ok ())
  else map_err (Wrap ("setting scheduler for " +:+ dev))
         (WriteFile (schedulerPath r dev) (io_Scheduler r) 420).

Definition IOSchedulerResource_Apply (r : IOSchedulerResource) : IO () :=
  if String.eqb (io_Scheduler r) EmptyString then ret (Ok ())
  else devices <-? nvmeDevices r;; for_each devices (set_scheduler r).

Definition ioscheduler_resource (r : IOSchedulerResource) : Resource :=
  mkResource "io-scheduler" (IOSchedulerResource_Check r) (IOSchedulerResource_Apply r).
End iosched.

(** ** The contract *)

Section iosched_facts.
Context {HK : Kernel} (r : IOSchedulerResource).

Definition good_scheduler (c : string) : bool := scheduler_fine r (parse_scheduler c).

#[export] Instance nvmeDevices_read_only : ReadOnly (nvmeDevices r).
Proof. unfold nvmeDevices. apply _. Qed.
#[export] Instance readScheduler_read_only dev : ReadOnly (readScheduler r dev).
Proof. unfold readScheduler. apply _. Qed.
#[export] Instance scheduler_drift_read_only dev : ReadOnly (scheduler_drift r dev).
Proof. unfold scheduler_drift. apply _. Qed.

#[export] Instance ioscheduler_behaved : WellBehaved (ioscheduler_resource r).
Proof.
  split; simpl; unfold IOSchedulerResource_Check.
  - apply if_read_only; [apply _|]. apply bind_read_only; [apply _|]. intros []; apply _.
  - intros w. case_bool; [check_done|]. rewrite value_bind by apply _.
    destruct (value (nvmeDevices r) w); [|check_done].
    case_bool; [check_done|]. rewrite value_bind by apply _. case_bool; check_done.
Qed.

Abbreviation settled_at dev w := (attr_settled (schedulerPath r) (λ _, good_scheduler) dev w).

Lemma readScheduler_value dev w :
  value (readScheduler r dev) w =
  match value (ReadFile (schedulerPath r dev)) w with
  | Ok c => Ok (parse_scheduler c)
  | Err e => Err e
  end.
Proof.
  unfold readScheduler, ReadFileString. rewrite value_bind_ok by apply _.
  by destruct (value (ReadFile _) w).
Qed.

Lemma scheduler_drift_nil dev w : value (scheduler_drift r dev) w = [] ↔ settled_at dev w.
Proof.
  unfold scheduler_drift, attr_settled, good_scheduler, scheduler_fine.
  rewrite value_bind, value_ret, readScheduler_value by apply _.
  destruct (value (ReadFile _) w) as [c|]; [|naive_solver].
  destruct (String.eqb (parse_scheduler c).1 (io_Scheduler r)) eqn:He,
    (in_list (io_Scheduler r) (parse_scheduler c).2) eqn:Hin; simpl; split; try done;
    try (intros _ c' [= <-]; by rewrite ?He, ?Hin).
  intros H. specialize (H c eq_refl). by rewrite He, Hin in H.
Qed.

Lemma iosched_unchanged devices w :
  io_Scheduler r ≠ EmptyString → value (nvmeDevices r) w = Ok devices → devices ≠ [] →
  rStatus (value (IOSchedulerResource_Check r) w).1 = StatusUnchanged ↔
  ∀ dev, dev ∈ devices → settled_at dev w.
Proof.
  intros Hg%String.eqb_neq Hp Hne%nonempty_true. unfold IOSchedulerResource_Check. rewrite Hg.
  rewrite value_bind, Hp by apply _. rewrite Hne. cbn [negb].
  rewrite value_bind, collect_value by apply _.
  setoid_rewrite <-scheduler_drift_nil. rewrite <-bind_nil_iff.
  destruct (devices ≫= _); cbn [nonempty negb]; rewrite value_checked; simpl; by split.
Qed.

Lemma set_scheduler_settled dev w : settled_at dev w → set_scheduler r dev w = (Ok (), w).
Proof.
  unfold attr_settled, set_scheduler. intros Hs.
  rewrite bind_value, readScheduler_value by apply _.
  destruct (value (ReadFile _) w) as [c|]; [|done].
  specialize (Hs c eq_refl). unfold good_scheduler, scheduler_fine in Hs. by rewrite Hs.
Qed.

(** A write happens only when the scheduler is offered and not the current one. *)
Lemma set_scheduler_any dev w x w' :
  set_scheduler r dev w = (x, w') →
  w' = w ∨
  (∃ s, value (readScheduler r dev) w = Ok s ∧ s.1 ≠ io_Scheduler r ∧ io_Scheduler r ∈ s.2) ∧
  ∃ y, WriteFile (schedulerPath r dev) (io_Scheduler r) 420 w = (y, w') ∧ (is_ok x = is_ok y).
Proof.
  unfold set_scheduler. rewrite bind_value by apply _.
  destruct (value (readScheduler r dev) w) as [s|e]; [|by intros [= _ <-]; left].
  case_bool; [by intros [= _ <-]; left|]. rewrite map_err_run.
  destruct (WriteFile _ _ _ w) as [y w1]. intros [= <- <-]. right. bool_prop. split.
  - exists s. split_and!; [done|by apply String.eqb_neq|by apply in_list_true].
  - exists y. split; [done|]. by destruct y.
Qed.

(** The attribute files cannot be made; a driver switches to a scheduler it offers. *)
Definition iosched_ok : Prop := ∀ dev, plain_elem dev = true →
  fault OpCreate (schedulerPath r dev) ≠ None ∧
  ∀ old c, knob_write (schedulerPath r dev) old (io_Scheduler r) = Ok (Ok c) →
    good_scheduler c = true.

(** The schedulers of the host are kernel attributes. *)
Definition iosched_host (w : World) : Prop := ∀ dev, plain_elem dev = true →
  match fs w !! schedulerPath r dev with Some (NFile _ _) => False | _ => True end.

(** The disks that are listed are names of a directory. *)
Lemma nvmeDevices_plain w devices dev :
  value (nvmeDevices r) w = Ok devices → dev ∈ devices → plain_elem dev = true.
Proof.
  unfold nvmeDevices. rewrite value_bind, value_ret by apply _.
  destruct (value (ReadDir _) w) as [entries|e] eqn:Hr.
  - intros [= <-] [_ Hin]%list_elem_of_filter. by eapply ReadDir_plain.
  - case_bool; intros [= <-]; by intros ?%elem_of_nil.
Qed.

Lemma set_scheduler_host dev w x w' :
  iosched_ok → plain_elem dev = true →
  set_scheduler r dev w = (x, w') → iosched_host w → iosched_host w'.
Proof.
  intros Hok Hdev [->|(_ & y & Hy & _)]%set_scheduler_any Hw dev' Hdev'; [by apply Hw|].
  destruct (String.eqb_spec (schedulerPath r dev') (schedulerPath r dev)) as [Heq|Hne].
  - rewrite Heq. destruct (fs w !! schedulerPath r dev) as [[|m c|old]|] eqn:Hp.
    + unfold WriteFile in Hy. rewrite bind_run in Hy. simpl in Hy. rewrite Hp in Hy.
      injection Hy as _ <-. by rewrite Hp.
    + specialize (Hw dev Hdev). by rewrite Hp in Hw.
    + destruct (WriteFile_knob _ _ _ _ _ _ _ Hp Hy) as [new ->]. done.
    + pose proof (same_shape_lookup _ _ (schedulerPath r dev)
        (WriteFile_shape _ _ _ _ _ _ (proj1 (Hok dev Hdev)) Hy)) as Hs. rewrite Hp in Hs.
      by destruct (fs w' !! schedulerPath r dev).
  - apply WriteFile_other in Hy as [_ ->]; [by apply Hw|done].
Qed.

Lemma write_scheduler_ok dev w w' :
  iosched_ok → plain_elem dev = true → iosched_host w →
  WriteFile (schedulerPath r dev) (io_Scheduler r) 420 w = (Ok (), w') → settled_at dev w'.
Proof.
  intros Hok Hdev Hw Hy. eapply write_settles; [|exact Hy].
  intros n c Hn Hc. unfold written in Hn. specialize (Hw dev Hdev).
  destruct (fs w !! schedulerPath r dev) as [[|m c'|old]|] eqn:Hp; [done..| |].
  - destruct Hn as (k & Hk & ->). destruct Hc as [[? ?]|?]; simplify_eq.
    by apply (Hok dev Hdev) in Hk.
  - exfalso. unfold WriteFile in Hy. rewrite bind_run in Hy. simpl in Hy. rewrite Hp in Hy.
    rewrite bind_ok_run in Hy. unfold creatable in Hy. simpl in Hy.
    destruct (is_dir _ _); simpl in Hy; [|done].
    pose proof (proj1 (Hok dev Hdev)).
    by destruct (fault OpCreate (schedulerPath r dev)).
Qed.

Lemma set_scheduler_ok dev w w' :
  iosched_ok → plain_elem dev = true → iosched_host w → set_scheduler r dev w = (Ok (), w') →
  iosched_host w' ∧ settled_at dev w'.
Proof.
  intros Hok Hdev Hw Hrun. split; [by eapply set_scheduler_host|].
  unfold set_scheduler in Hrun. rewrite bind_value, readScheduler_value in Hrun by apply _.
  destruct (value (ReadFile (schedulerPath r dev)) w) as [c|e] eqn:Hc.
  - destruct (String.eqb _ _ || _) eqn:Hb.
    + injection Hrun as <-. intros c' Hc'. rewrite Hc in Hc'. by injection Hc' as <-.
    + apply map_err_inv in Hrun. by eapply write_scheduler_ok.
  - injection Hrun as <-. intros c' Hc'. by rewrite Hc in Hc'.
Qed.

Lemma iosched_loop devices w w' :
  iosched_ok → Forall (λ dev, plain_elem dev = true) devices → iosched_host w →
  for_each devices (set_scheduler r) w = (Ok (), w') →
  same_shape (fs w') (fs w) ∧ iosched_host w' ∧ ∀ dev, dev ∈ devices → settled_at dev w'.
Proof.
  intros Hok Hdevs Hw Hrun. rewrite Forall_forall in Hdevs. split.
  - refine (for_each_inv (set_scheduler r) (λ w', same_shape (fs w') (fs w)) devices w _ w' _ _ Hrun);
      [|done].
    intros p s x s' Hp Hs [->|(_ & y & Hy & _)]%set_scheduler_any; [done|]. etrans; [|exact Hs].
    eapply WriteFile_shape; [apply (Hok p), Hdevs, Hp|exact Hy].
  - eapply (loop_settles (schedulerPath r) _ iosched_host (set_scheduler r));
      [| | |exact Hw|exact Hrun]; [|
      |done].
    + intros p s s' Hp. apply set_scheduler_ok; [done|by apply Hdevs].
    + intros p s x s' q [->|(_ & y & Hy & _)]%set_scheduler_any Hq; [done|].
      eapply WriteFile_other; [exact Hy|done].
Qed.

Lemma nvmeDevices_shape w w' devices :
  same_shape (fs w') (fs w) → value (nvmeDevices r) w = Ok devices →
  value (nvmeDevices r) w' = Ok devices.
Proof.
  intros Hs <-. unfold nvmeDevices. rewrite !value_bind, !value_ret by apply _.
  by rewrite (ReadDir_shape _ _ _ Hs).
Qed.

Lemma iosched_apply devices w w' :
  iosched_ok → iosched_host w → io_Scheduler r ≠ EmptyString →
  value (nvmeDevices r) w = Ok devices → IOSchedulerResource_Apply r w = (Ok (), w') →
  value (nvmeDevices r) w' = Ok devices ∧ iosched_host w' ∧
  ∀ dev, dev ∈ devices → settled_at dev w'.
Proof.
  intros Hok Hw Hg%String.eqb_neq Hd Hrun. unfold IOSchedulerResource_Apply in Hrun.
  rewrite Hg, bind_ok_value, Hd in Hrun by apply _.
  apply iosched_loop in Hrun as (Hshape & Hw' & Hall); [|done| |done].
  2: { apply Forall_forall. intros dev. by eapply nvmeDevices_plain. }
  split; [|done]. by eapply nvmeDevices_shape.
Qed.

Lemma iosched_invariant w x w' :
  iosched_ok → iosched_host w → IOSchedulerResource_Apply r w = (x, w') → iosched_host w'.
Proof.
  intros Hok Hw Hrun. unfold IOSchedulerResource_Apply in Hrun.
  case_bool; [by injection Hrun as _ <-|]. rewrite bind_ok_value in Hrun by apply _.
  destruct (value (nvmeDevices r) w) eqn:Hd; [|by injection Hrun as _ <-].
  refine (for_each_inv (set_scheduler r) iosched_host _ w x w' _ Hw Hrun).
  intros dev s y s' Hin Hs Hr. eapply set_scheduler_host; [done| |exact Hr|done].
  by eapply nvmeDevices_plain.
Qed.

Lemma ioscheduler_converges : iosched_ok → Converges iosched_host (ioscheduler_resource r).
Proof.
  intros Hok. split; [apply _|intros w x w' Hw Hrun; by eapply iosched_invariant|].
  intros w w' Hw Hrun. simpl in *.
  destruct (String.eqb_spec (io_Scheduler r) EmptyString) as [Hnil|Hne].
  { unfold IOSchedulerResource_Check. rewrite Hnil. simpl. check_done. }
  destruct (value (nvmeDevices r) w) as [devices|err] eqn:Hd.
  2: { unfold IOSchedulerResource_Apply in Hrun. apply String.eqb_neq in Hne.
       by rewrite Hne, bind_ok_value, Hd in Hrun by apply _. }
  edestruct (iosched_apply devices w w') as (Hd' & _ & Hall); [done..|].
  destruct (decide (devices = [])) as [->|Hds].
  { unfold IOSchedulerResource_Check. apply String.eqb_neq in Hne as ->.
    rewrite value_bind, Hd' by apply _. simpl. check_done. }
  refine (unchanged_settled (ioscheduler_resource r) w' _).
  by apply (iosched_unchanged devices).
Qed.

#[export] Instance ioscheduler_quiet : QuietWhenUnchanged (ioscheduler_resource r).
Proof.
  intros w Hst. simpl in *. unfold IOSchedulerResource_Apply.
  destruct (String.eqb_spec (io_Scheduler r) EmptyString) as [Hnil|Hne]; [done|].
  destruct (value (nvmeDevices r) w) as [devices|err] eqn:Hd.
  2: { unfold IOSchedulerResource_Check in Hst. apply String.eqb_neq in Hne.
       by rewrite Hne, value_bind, Hd in Hst by apply _. }
  rewrite bind_ok_value, Hd by apply _. apply for_each_noop. intros dev Hdev.
  apply set_scheduler_settled. destruct (decide (devices = [])) as [->|Hds].
  { by apply elem_of_nil in Hdev. }
  by eapply (iosched_unchanged devices).
Qed.
End iosched_facts.

(** ** Properties *)

(** C28: a scheduler is only ever written where the driver offers it and another one is
    active. Whatever the outcome of Apply, an attribute that changed is the scheduler of a
    listed NVMe disk whose driver offered the wanted scheduler and had another one active. *)
Theorem IOScheduler_writes_only_offered {HK : Kernel} (r : IOSchedulerResource) (w : World)
    (devices : list string) (x : result error ()) (w' : World) (q : string) :
  value (nvmeDevices r) w = Ok devices →
  IOSchedulerResource_Apply r w = (x, w') →
  fs w' !! q ≠ fs w !! q →
  ∃ dev s, dev ∈ devices ∧ nvmeWholeDiskRe dev = true ∧ q = schedulerPath r dev ∧
    value (readScheduler r dev) w = Ok s ∧ s.1 ≠ io_Scheduler r ∧ io_Scheduler r ∈ s.2.
Proof.
  intros Hd Hrun Hq.
  assert (∀ dev, dev ∈ devices → nvmeWholeDiskRe dev = true) as Hre.
  { intros dev Hin. unfold nvmeDevices in Hd. rewrite value_bind, value_ret in Hd by apply _.
    destruct (value (ReadDir _) w) as [es|e]; [|by destruct (IsNotExist e); simplify_eq; set_solver].
    injection Hd as <-. by apply list_elem_of_filter in Hin as [? _]. }
  unfold IOSchedulerResource_Apply in Hrun. case_bool; [by injection Hrun as _ <-|].
  rewrite bind_ok_value, Hd in Hrun by apply _.
  refine (for_each_inv (set_scheduler r) (λ w', fs w' !! q ≠ fs w !! q → _) devices w x w'
    _ _ Hrun Hq); [|by intros ?].
  clear Hrun Hq w' x. intros dev s x s' Hin IH Hrun Hne.
  destruct (decide (fs s !! q = fs w !! q)) as [Heq|Hneq]; [|by apply IH].
  destruct (set_scheduler_any _ _ _ _ _ Hrun) as [->|((st & Hst & Hcur & Hav) & y & Hy & _)]; [done|].
  destruct (String.eqb_spec q (schedulerPath r dev)) as [->|Hpath].
  - exists dev, st. split_and!; [done|by apply Hre|done| |done|done].
    rewrite readScheduler_value in Hst |- *.
    destruct (value (ReadFile (schedulerPath r dev)) s) as [c|] eqn:Hc; [|done].
    by rewrite (ReadFile_same _ _ _ _ Heq Hc).
  - apply WriteFile_other in Hy as [_ Ho]. by rewrite Ho in Hne.
Qed.

(** Applying the I/O scheduler converges on hosts whose schedulers are kernel attributes
    that switch to a scheduler they offer: the same disks are found afterwards, each reads
    the wanted scheduler unless it does not offer it, and the check is settled. *)
Theorem IOSchedulerResource_Apply_converges {HK : Kernel} (r : IOSchedulerResource)
    (devices : list string) (w w' : World) :
  iosched_ok r → iosched_host r w → io_Scheduler r ≠ EmptyString →
  value (nvmeDevices r) w = Ok devices →
  IOSchedulerResource_Apply r w = (Ok (), w') →
  value (nvmeDevices r) w' = Ok devices ∧
  (∀ dev c, dev ∈ devices → value (ReadFile (schedulerPath r dev)) w' = Ok c →
     (parse_scheduler c).1 = io_Scheduler r ∨ io_Scheduler r ∉ (parse_scheduler c).2) ∧
  settled (value (IOSchedulerResource_Check r) w').
Proof.
  intros Hok Hw Hg Hd Hrun. pose proof (iosched_apply r devices w w' Hok Hw Hg Hd Hrun) as (? & _ & Hall).
  split; [done|]. split.
  - intros dev c Hin Hc. pose proof (Hall dev Hin c Hc) as Hgood.
    unfold good_scheduler, scheduler_fine in Hgood. apply orb_true_iff in Hgood as [Hgood|Hgood].
    + left. by apply String.eqb_eq.
    + right. bool_prop. intros Hin'%in_list_true. congruence.
  - by apply (cv_settles (Converges := ioscheduler_converges r Hok) w w').
Qed.

(** A driver that brackets the scheduler it was told to use. *)
Definition nvme_kernel : Kernel := {|
  knob_write := λ _ _ data,
    if String.eqb data "none" then Ok (Ok ("[none] mq-deadline" +:+ nls)) else Err EINVAL;
  fault := λ op _, match op with OpCreate => Some EACCES | _ => None end;
  random := λ _ i, N.of_nat i
|}.

Definition nvme_world : World :=
  etc_world [("/sys/block", NDir); ("/sys/block/nvme0n1", NDir); ("/sys/block/nvme1n1", NDir);
             ("/sys/block/loop0", NDir);
             ("/sys/block/nvme0n1/queue/scheduler", NKnob (Ok ("none [mq-deadline]" +:+ nls)));
             ("/sys/block/nvme1n1/queue/scheduler", NKnob (Ok ("[mq-deadline] kyber" +:+ nls)))].

Definition none_scheduler : IOSchedulerResource := mkIOScheduler New "none".

Example IOScheduler_writes_only_offered_witness :
  let k := nvme_kernel in
  let run := IOSchedulerResource_Apply none_scheduler nvme_world in
  run.1 = Ok () ∧
  ∃ dev s, dev ∈ ["nvme0n1"; "nvme1n1"] ∧ nvmeWholeDiskRe dev = true ∧
    "/sys/block/nvme0n1/queue/scheduler" = schedulerPath none_scheduler dev ∧
    value (readScheduler none_scheduler dev) nvme_world = Ok s ∧ s.1 ≠ "none" ∧ "none" ∈ s.2.
Proof.
  intros k run. split; [by vm_compute|].
  apply (IOScheduler_writes_only_offered none_scheduler nvme_world ["nvme0n1"; "nvme1n1"] run.1 run.2).
  - by vm_compute.
  - apply surjective_pairing.
  - by vm_compute.
Defined.

Example IOSchedulerResource_Apply_converges_witness :
  let k := nvme_kernel in
  let w' := (IOSchedulerResource_Apply none_scheduler nvme_world).2 in
  rStatus (value (IOSchedulerResource_Check none_scheduler) nvme_world).1 = StatusWouldChange ∧
  settled (value (IOSchedulerResource_Check none_scheduler) w').
Proof.
  intros k w'. split; [by vm_compute|].
  refine (proj2 (proj2 (IOSchedulerResource_Apply_converges none_scheduler ["nvme0n1"; "nvme1n1"]
    nvme_world w' _ _ _ _ _))).
  - intros dev _. split; [done|]. intros old c. simpl. intros [= <-]. by vm_compute.
  - intros dev _. unfold nvme_world, etc_world. simpl fs.
    destruct (_ !! _) as [[|m c|]|] eqn:Hl; try done.
    rewrite !lookup_insert_Some, lookup_empty in Hl. intuition congruence.
  - done.
  - by vm_compute.
  - apply run_ok. by vm_compute.
Defined.
