(* ===== verification/IRQAffinity.v ===== *)
(** * internal/resource/irqaffinity.go

    [IRQAffinityResource]: the interrupts of a network interface's queues, spread
    round-robin over the CPUs. *)

From S2P Require Import Prelude GoStrings GoPath GoOS Sysutil Resource Attr.

Record IRQAffinityResource : Set := mkIRQ {
  iq_Env : Env;
  iq_Interface : string;
  iq_NumCPUs : Z
}.

(** One line of /proc/interrupts: its number, if it is one of the interface's queues. *)
Definition queue_irq (prefix line : string) : list Z :=
  match Fields line with
  | [] => []
  | f0 :: rest =>
      let desc := default EmptyString (last (f0 :: rest)) in
      if negb (HasPrefix desc prefix) then []
      else match Atoi (TrimSuffix f0 ":") with
           | None => []
           | Some irqNum => [irqNum]
           end
  end.

Definition enaIRQs (r : IRQAffinityResource) : IO (list string) :=
  f <-? map_err (Wrap "reading /proc/interrupts")
          (OpenLines (Path (iq_Env r) ["proc"; "interrupts"]));;
  ret (match f.2 with
       | Some e => Err e
       | None => Ok (Itoa <$> sort_Ints (f.1 ≫= queue_irq (iq_Interface r +:+ "-")))
       end).

Definition affinityPath (r : IRQAffinityResource) (irq : string) : string :=
  Path (iq_Env r) ["proc"; "irq"; irq; "smp_affinity_list"].

(** The loop of [desiredAffinity] from its i-th iteration on. *)
Fixpoint assign (n i : Z) (irqs : list string) (want : gmap string Z) : gmap string Z :=
  match irqs with
  | [] => want
  | irq :: irqs => assign n (i + 1) irqs (<[irq := (i mod n)%Z]> want)
  end.

Definition desiredAffinity (r : IRQAffinityResource) (irqs : list string) : gmap string Z :=
  let n := if (iq_NumCPUs r <=? 0)%Z then 1%Z else iq_NumCPUs r in
  assign n 0 irqs ∅.

(** [strconv.Itoa(want[irq])]: 0 for a key that is not there. *)
Definition wantStr (want : gmap string Z) (irq : string) : string :=
  Itoa (default 0%Z (want !! irq)).

Definition irq_drift (r : IRQAffinityResource) (want : gmap string Z) (irq : string) :
    M World (list string) :=
  cur <- ReadFileString (affinityPath r irq);;
  ret (match cur with
       | Err _ => []
       | Ok cur =>
           let cur := TrimSpace cur in
           if negb (String.eqb cur (wantStr want irq))
           then ["irq " +:+ irq +:+ ": " +:+ cur +:+ " -> " +:+ wantStr want irq] else []
       end).

Definition IRQAffinityResource_Check (r : IRQAffinityResource) : Checked :=
  if String.eqb (iq_Interface r) EmptyString || (iq_NumCPUs r <=? 1)%Z
  then checked (mkResult "irq-affinity" StatusSkipped
         "no interface or only one vCPU, nothing to spread")
  else
    l <- enaIRQs r;;
    match l with
    | Err e => check_failed "irq-affinity" e
    | Ok irqs =>
        if negb (nonempty irqs)
        then checked (mkResult "irq-affinity" StatusSkipped
               ("no queue IRQs found for " +:+ iq_Interface r))
        else
          drift <- collect irqs (irq_drift r (desiredAffinity r irqs));;
          if negb (nonempty drift)
          then checked (mkResult "irq-affinity" StatusUnchanged EmptyString)
          else checked (mkResult "irq-affinity" StatusWouldChange (Join ", " drift))
    end.

Section irq.
Context {HK : Kernel}.

Definition set_affinity (r : IRQAffinityResource) (want : gmap string Z) (irq : string) : IO () :=
  let path := affinityPath r irq in
  cur <- ReadFileString path;;
  if (match cur with Ok c => String.eqb (TrimSpace c) (wantStr want irq) | Err _ => false end)
  then ret (Ok ())
  else map_err (Wrap ("setting affinity for irq " +:+ irq))
         (WriteFile path (wantStr want irq) 420).

Definition IRQAffinityResource_Apply (r : IRQAffinityResource) : IO () :=
  irqs <-? enaIRQs r;;
  for_each irqs (set_affinity r (desiredAffinity r irqs)).

Definition irqaffinity_resource (r : IRQAffinityResource) : Resource :=
  mkResource "irq-affinity" (IRQAffinityResource_Check r) (IRQAffinityResource_Apply r).
End irq.

(** ** The assignment *)

Lemma assign_other n i irqs m irq : irq ∉ irqs → assign n i irqs m !! irq = m !! irq.
Proof.
  revert i m. induction irqs as [|x irqs IH]; intros i m Hin; [done|].
  apply not_elem_of_cons in Hin as [Hx Hin]. simpl. rewrite IH by done. by rewrite lookup_insert_ne.
Qed.

Lemma assign_lookup n i irqs m j irq :
  NoDup irqs → irqs !! j = Some irq →
  assign n i irqs m !! irq = Some ((i + Z.of_nat j) mod n)%Z.
Proof.
  intros Hnd. revert i m j. induction Hnd as [|x irqs Hx Hnd IH]; intros i m j; [done|].
  destruct j as [|j]; simpl.
  - intros [= ->]. rewrite assign_other by done. rewrite lookup_insert_eq. do 2 f_equal. lia.
  - intros Hj. rewrite (IH (i + 1)%Z _ j Hj). do 2 f_equal. lia.
Qed.

(** Whether or not an interrupt is listed twice, what is wanted is a CPU of the host. *)
Lemma assign_range n i irqs m irq c :
  (0 < n)%Z → (∀ c', m !! irq = Some c' → 0 ≤ c' < n)%Z →
  assign n i irqs m !! irq = Some c → (0 ≤ c < n)%Z.
Proof.
  intros Hn. revert i m. induction irqs as [|x irqs IH]; intros i m Hm; [apply Hm|].
  simpl. apply IH. intros c'. destruct (decide (x = irq)) as [->|Hne].
  - rewrite lookup_insert_eq. intros [= <-]. by apply Z.mod_pos_bound.
  - rewrite lookup_insert_ne by done. apply Hm.
Qed.

(** How many of [0 .. k-1] are [c] modulo [n]. *)
Lemma count_residues (n c : Z) (k : nat) :
  (0 ≤ c < n)%Z →
  Z.of_nat (length (filter (λ i : nat, (Z.of_nat i mod n = c)%Z) (seq 0 k))) =
  ((Z.of_nat k + n - 1 - c) / n)%Z.
Proof.
  intros Hc. induction k as [|k IH].
  - simpl. symmetry. apply Z.div_small. lia.
  - rewrite seq_S, filter_app, length_app, Nat2Z.inj_add, IH. cbn [Nat.add].
    pose proof (Z.div_mod (Z.of_nat k) n ltac:(lia)) as Hdm.
    pose proof (Z.mod_pos_bound (Z.of_nat k) n ltac:(lia)) as Hb.
    rewrite filter_cons, filter_nil.
    destruct (decide (Z.of_nat k mod n = c)%Z) as [Heq|Hne]; simpl length;
      set (q := (Z.of_nat k / n)%Z) in *; set (m := (Z.of_nat k mod n)%Z) in *.
    + assert ((Z.of_nat k + n - 1 - c) / n = q)%Z as ->.
      { symmetry. apply (Z.div_unique _ n q (n - 1)); lia. }
      apply (Z.div_unique _ n (q + 1) 0); lia.
    + destruct (Z.lt_ge_cases m c) as [Hlt|Hge].
      * assert ((Z.of_nat k + n - 1 - c) / n = q)%Z as ->.
        { symmetry. apply (Z.div_unique _ n q (m + n - 1 - c)); lia. }
        rewrite Z.add_0_r. apply (Z.div_unique _ n q (m + n - c)); lia.
      * assert ((Z.of_nat k + n - 1 - c) / n = q + 1)%Z as ->.
        { symmetry. apply (Z.div_unique _ n (q + 1) (m - 1 - c)); lia. }
        rewrite Z.add_0_r. apply (Z.div_unique _ n (q + 1) (m - c)); lia.
Qed.

Lemma filter_indices {A} (P : A → Prop) (Q : nat → Prop) `{∀ x, Decision (P x)}
    `{∀ i, Decision (Q i)} (l : list A) (s : nat) :
  (∀ i x, l !! i = Some x → P x ↔ Q (s + i)%nat) →
  length (filter P l) = length (filter Q (seq s (length l))).
Proof.
  revert s. induction l as [|x l IH]; intros s Hl; [done|]. simpl.
  rewrite !filter_cons. pose proof (Hl O x eq_refl) as Hx. rewrite Nat.add_0_r in Hx.
  rewrite (decide_ext (P x) (Q s)) by done.
  assert (length (filter P l) = length (filter Q (seq (S s) (length l)))) as Heq.
  { apply IH. intros i y Hy. replace (S s + i)%nat with (s + S i)%nat by lia. by apply Hl. }
  destruct (decide (Q s)); simpl; by rewrite Heq.
Qed.

Lemma want_index r irqs j irq :
  (0 < iq_NumCPUs r)%Z → NoDup irqs → irqs !! j = Some irq →
  desiredAffinity r irqs !! irq = Some (Z.of_nat j mod iq_NumCPUs r)%Z.
Proof.
  intros Hn Hnd Hj. unfold desiredAffinity.
  assert ((iq_NumCPUs r <=? 0)%Z = false) as -> by lia.
  by rewrite (assign_lookup _ _ _ _ j) by done.
Qed.

(** ** The contract *)

Section irq_facts.
Context {HK : Kernel} (r : IRQAffinityResource).

#[export] Instance enaIRQs_read_only : ReadOnly (enaIRQs r).
Proof. unfold enaIRQs. apply _. Qed.
#[export] Instance irq_drift_read_only want irq : ReadOnly (irq_drift r want irq).
Proof. unfold irq_drift. apply _. Qed.

#[export] Instance irqaffinity_behaved : WellBehaved (irqaffinity_resource r).
Proof.
  split; simpl; unfold IRQAffinityResource_Check.
  - apply if_read_only; [apply _|]. apply bind_read_only; [apply _|]. intros []; apply _.
  - intros w. case_bool; [check_done|]. rewrite value_bind by apply _.
    destruct (value (enaIRQs r) w); [|check_done].
    case_bool; [check_done|]. rewrite value_bind by apply _. case_bool; check_done.
Qed.

Section want.
Context (want : gmap string Z).

Definition affinity_set (irq : string) (c : string) : bool :=
  String.eqb (TrimSpace c) (wantStr want irq).

Abbreviation settled_at irq w := (attr_settled (affinityPath r) affinity_set irq w).

Lemma irq_drift_nil irq w : value (irq_drift r want irq) w = [] ↔ settled_at irq w.
Proof.
  unfold irq_drift, ReadFileString, attr_settled, affinity_set.
  rewrite value_bind, value_ret by apply _.
  destruct (value (ReadFile _) w) as [c|]; [|naive_solver].
  destruct (String.eqb (TrimSpace c) (wantStr want irq)) eqn:Hg; simpl; split; try done;
    [by intros _ c' [= <-]|].
  intros H. specialize (H c eq_refl). congruence.
Qed.

Lemma set_affinity_any irq w x w' :
  set_affinity r want irq w = (x, w') →
  w' = w ∨ ∃ y, WriteFile (affinityPath r irq) (wantStr want irq) 420 w = (y, w') ∧ is_ok x = is_ok y.
Proof.
  unfold set_affinity, ReadFileString. rewrite bind_value by apply _.
  case_bool; [by intros [= _ <-]; left|]. rewrite map_err_run.
  destruct (WriteFile _ _ _ w) as [y w1]. intros [= <- <-]. right. exists y. by destruct y.
Qed.

(** The kernel accepts the CPUs it is given. *)
Definition affinity_keeps : Prop := ∀ irq w,
  attr_keeps (affinityPath r) affinity_set irq (wantStr want irq) w.

Lemma set_affinity_ok irq w w' :
  affinity_keeps → set_affinity r want irq w = (Ok (), w') → settled_at irq w'.
Proof.
  intros Hkeep. unfold set_affinity, ReadFileString. rewrite bind_value by apply _.
  destruct (value (ReadFile (affinityPath r irq)) w) as [c|e] eqn:Hc.
  - destruct (String.eqb (TrimSpace c) (wantStr want irq)) eqn:Hg.
    + intros [= <-] c' Hc'. rewrite Hc in Hc'. by injection Hc' as <-.
    + intros Hrun%map_err_inv. by eapply write_settles.
  - intros Hrun%map_err_inv. by eapply write_settles.
Qed.

Lemma set_affinity_other irq w x w' q :
  set_affinity r want irq w = (x, w') → q ≠ affinityPath r irq → fs w' !! q = fs w !! q.
Proof.
  intros [->|(y & Hy & _)]%set_affinity_any Hq; [done|]. eapply WriteFile_other; [exact Hy|done].
Qed.
End want.

(** The interrupts are numbers. *)
Lemma enaIRQs_numbers irqs w irq :
  value (enaIRQs r) w = Ok irqs → irq ∈ irqs → ∃ z, irq = Itoa z.
Proof.
  unfold enaIRQs. rewrite value_bind_ok, value_map_err by apply _.
  destruct (value (OpenLines _) w) as [[ls [e|]]|e]; [done| |done].
  intros [= <-] (z & -> & _)%list_elem_of_fmap. eauto.
Qed.

Lemma affinityPath_inj irq irq' z z' :
  env_ok (iq_Env r) = true → irq = Itoa z → irq' = Itoa z' →
  affinityPath r irq = affinityPath r irq' → irq = irq'.
Proof.
  intros He -> ->. unfold affinityPath. intros Heq%Path_inj; [by simplify_eq|done|..];
    repeat constructor; apply plain_elem_Itoa.
Qed.

Lemma enaIRQs_same w w' irqs :
  fs w' !! Path (iq_Env r) ["proc"; "interrupts"] = fs w !! Path (iq_Env r) ["proc"; "interrupts"] →
  value (enaIRQs r) w = Ok irqs → value (enaIRQs r) w' = Ok irqs.
Proof.
  intros Heq. unfold enaIRQs. rewrite !value_bind_ok, !value_map_err by apply _.
  unfold value, OpenLines, read_node. simpl. rewrite Heq. by destruct (fs w !! _).
Qed.

Lemma interrupts_path irq z :
  env_ok (iq_Env r) = true → irq = Itoa z →
  Path (iq_Env r) ["proc"; "interrupts"] ≠ affinityPath r irq.
Proof.
  intros He ->. unfold affinityPath. intros Heq%Path_inj; [done|done|by repeat constructor|].
  repeat constructor; apply plain_elem_Itoa.
Qed.

Lemma irqaffinity_apply irqs w w' :
  env_ok (iq_Env r) = true → affinity_keeps (desiredAffinity r irqs) →
  value (enaIRQs r) w = Ok irqs → IRQAffinityResource_Apply r w = (Ok (), w') →
  value (enaIRQs r) w' = Ok irqs ∧
  ∀ irq, irq ∈ irqs → attr_settled (affinityPath r) (affinity_set (desiredAffinity r irqs)) irq w'.
Proof.
  intros He Hkeep Hirqs Hrun. unfold IRQAffinityResource_Apply in Hrun.
  rewrite bind_ok_value, Hirqs in Hrun by apply _. split.
  - eapply enaIRQs_same; [|exact Hirqs].
    eapply (loop_other (affinityPath r) _ irqs); [|exact Hrun|].
    + intros irq s x s' q. apply set_affinity_other.
    + intros irq Hin. destruct (enaIRQs_numbers _ _ _ Hirqs Hin) as [z Hz]. by eapply interrupts_path.
  - eapply (loop_settles (affinityPath r) _ (λ _, True)); [..|exact Hrun]; [| | |done].
    + intros irq s s' _ _ Hs. split; [done|]. by eapply set_affinity_ok.
    + intros irq s x s' q. apply set_affinity_other.
    + intros a b c Ha Hb Heq Hg.
      destruct (enaIRQs_numbers _ _ _ Hirqs Ha) as [za Hza], (enaIRQs_numbers _ _ _ Hirqs Hb) as [zb Hzb].
      by rewrite (affinityPath_inj a b za zb He Hza Hzb Heq).
Qed.

Lemma irq_unchanged irqs w :
  iq_Interface r ≠ EmptyString → (1 < iq_NumCPUs r)%Z →
  value (enaIRQs r) w = Ok irqs → irqs ≠ [] →
  rStatus (value (IRQAffinityResource_Check r) w).1 = StatusUnchanged ↔
  ∀ irq, irq ∈ irqs → attr_settled (affinityPath r) (affinity_set (desiredAffinity r irqs)) irq w.
Proof.
  intros Hi%String.eqb_neq Hn Hp Hne%nonempty_true. unfold IRQAffinityResource_Check. rewrite Hi.
  assert ((iq_NumCPUs r <=? 1)%Z = false) as -> by lia.
  cbn [orb]. rewrite value_bind, Hp by apply _. rewrite Hne. cbn [negb].
  rewrite value_bind, collect_value by apply _.
  setoid_rewrite <-irq_drift_nil. rewrite <-bind_nil_iff.
  destruct (irqs ≫= _); cbn [nonempty negb]; rewrite value_checked; simpl; by split.
Qed.

Lemma irqaffinity_converges :
  env_ok (iq_Env r) = true → (∀ irqs, affinity_keeps (desiredAffinity r irqs)) →
  Converges (λ _, True) (irqaffinity_resource r).
Proof.
  intros He Hkeep. split; [apply _|done|]. intros w w' _ Hrun. simpl in *.
  destruct (value (enaIRQs r) w) as [irqs|err] eqn:Hd.
  2: { unfold IRQAffinityResource_Apply in Hrun. by rewrite bind_ok_value, Hd in Hrun by apply _. }
  edestruct (irqaffinity_apply irqs w w') as (Hd' & Hall); [done..|].
  destruct (String.eqb (iq_Interface r) EmptyString || (iq_NumCPUs r <=? 1)%Z) eqn:Hskip.
  { unfold IRQAffinityResource_Check. rewrite Hskip. check_done. }
  destruct (decide (irqs = [])) as [->|Hds].
  { unfold IRQAffinityResource_Check. rewrite Hskip, value_bind, Hd' by apply _. simpl. check_done. }
  bool_prop. refine (unchanged_settled (irqaffinity_resource r) w' _).
  apply (irq_unchanged irqs); [by apply String.eqb_neq|lia|done..].
Qed.
End irq_facts.

(** ** Properties *)

(** C19: the interrupts are spread evenly. Each is given one CPU of the host, the i-th one the
    CPU i modulo their number; so every CPU serves as many of them as any other, give or
    take one. *)
Theorem desiredAffinity_spread (r : IRQAffinityResource) (irqs : list string) :
  (0 < iq_NumCPUs r)%Z → NoDup irqs →
  (∀ j irq, irqs !! j = Some irq →
     desiredAffinity r irqs !! irq = Some (Z.of_nat j mod iq_NumCPUs r)%Z) ∧
  (∀ irq c, desiredAffinity r irqs !! irq = Some c → 0 ≤ c < iq_NumCPUs r)%Z ∧
  (∀ c, 0 ≤ c < iq_NumCPUs r →
     let served := Z.of_nat (length (filter (λ irq, desiredAffinity r irqs !! irq = Some c) irqs)) in
     let share := Z.of_nat (length irqs) / iq_NumCPUs r in
     share ≤ served ≤ share + 1)%Z.
Proof.
  intros Hn Hnd. split; [intros j irq; by apply want_index|]. split.
  - intros irq c. unfold desiredAffinity.
    assert ((iq_NumCPUs r <=? 0)%Z = false) as -> by lia.
    by apply assign_range.
  - intros c Hc served share. subst served share.
    rewrite (filter_indices _ (λ i : nat, (Z.of_nat i mod iq_NumCPUs r = c)%Z) irqs O).
    + rewrite count_residues by done. split.
      * apply Z.div_le_mono; lia.
      * rewrite <-Z.div_add by lia. apply Z.div_le_mono; lia.
    + intros j irq Hj. rewrite (want_index r irqs j irq) by done. naive_solver.
Qed.

(** The interrupts that are found are the numbers of the lines of /proc/interrupts whose
    last field starts with the interface's name and a dash, in increasing order. *)
Theorem enaIRQs_spec (r : IRQAffinityResource) (w : World) (irqs : list string) :
  value (enaIRQs r) w = Ok irqs →
  ∃ lines zs, value (OpenLines (Path (iq_Env r) ["proc"; "interrupts"])) w = Ok (lines, None) ∧
    irqs = Itoa <$> zs ∧ StronglySorted Z.le zs ∧
    (∀ z, z ∈ zs ↔ ∃ line f0 desc, line ∈ lines ∧ head (Fields line) = Some f0 ∧
       last (Fields line) = Some desc ∧ HasPrefix desc (iq_Interface r +:+ "-") = true ∧
       Atoi (TrimSuffix f0 ":") = Some z).
Proof.
  unfold enaIRQs. rewrite value_bind_ok, value_map_err by apply _.
  destruct (value (OpenLines _) w) as [[ls [e|]]|e]; [done| |done].
  rewrite value_ret. cbn [snd fst]. intros [= <-].
  exists ls, (sort_Ints (ls ≫= queue_irq (iq_Interface r +:+ "-"))).
  split_and!; [done|done|apply sort_Ints_sorted|].
  intros z. rewrite sort_Ints_perm, list_elem_of_bind. unfold queue_irq. split.
  - intros (line & Hz & Hline). exists line. destruct (Fields line) as [|f0 fs] eqn:Hf; [set_solver|].
    exists f0. destruct (last (f0 :: fs)) as [desc|] eqn:Hl; [|by apply last_None in Hl].
    exists desc. cbn [default from_option id] in Hz.
    destruct (HasPrefix desc _) eqn:Hp; simpl in Hz; [|by apply elem_of_nil in Hz].
    destruct (Atoi _) as [z'|] eqn:Ha; [|by apply elem_of_nil in Hz].
    apply list_elem_of_singleton in Hz as ->. auto 10.
  - intros (line & f0 & desc & Hline & Hh & Hl & Hp & Ha). exists line. split; [|done].
    destruct (Fields line) as [|f0' fs]; [done|]. simpl in Hh. injection Hh as ->.
    rewrite Hl. simpl. rewrite Hp, Ha. set_solver.
Qed.

(** Applying the affinities converges: on a kernel that keeps the CPUs it is given, the
    same interrupts are found afterwards, each that can be read is on its CPU, and the check
    is settled. *)
Theorem IRQAffinityResource_Apply_converges {HK : Kernel} (r : IRQAffinityResource)
    (irqs : list string) (w w' : World) :
  env_ok (iq_Env r) = true → (∀ l, affinity_keeps r (desiredAffinity r l)) →
  value (enaIRQs r) w = Ok irqs →
  IRQAffinityResource_Apply r w = (Ok (), w') →
  value (enaIRQs r) w' = Ok irqs ∧
  (∀ irq c, irq ∈ irqs → value (ReadFile (affinityPath r irq)) w' = Ok c →
     TrimSpace c = wantStr (desiredAffinity r irqs) irq) ∧
  settled (value (IRQAffinityResource_Check r) w').
Proof.
  intros He Hkeep Hi Hrun.
  pose proof (irqaffinity_apply r irqs w w' He (Hkeep irqs) Hi Hrun) as [Hi' Hall].
  split; [done|]. split.
  - intros irq c Hin Hc. apply String.eqb_eq. by apply (Hall irq Hin).
  - by apply (cv_settles (Converges := irqaffinity_converges r He Hkeep) w w' I).
Qed.

(** One interrupt that has gone between the listing and the write fails the whole
    resource, although the check skips it: the check reports no error, and Apply fails. *)
Theorem vanished_irq_fails_apply {HK : Kernel} (r : IRQAffinityResource) (irqs : list string)
    (irq : string) (w : World) :
  value (enaIRQs r) w = Ok irqs → irq ∈ irqs →
  fs w !! affinityPath r irq = None → is_dir (fs w) (DirPath (affinityPath r irq)) = false →
  (value (IRQAffinityResource_Check r) w).2 = None ∧
  ∃ e, (IRQAffinityResource_Apply r w).1 = Err e.
Proof.
  intros Hi Hin Hp Hd. split.
  { unfold IRQAffinityResource_Check. case_bool; [done|]. rewrite value_bind, Hi by apply _.
    case_bool; [done|]. rewrite value_bind by apply _. by case_bool. }
  unfold IRQAffinityResource_Apply. rewrite bind_ok_value, Hi by apply _.
  destruct (for_each _ _ w) as [[[]|e] w'] eqn:Hrun; [exfalso|by exists e].
  apply list_elem_of_split in Hin as (pre & post & ->).
  set (want := desiredAffinity r _) in *.
  rewrite for_each_app in Hrun. apply bind_ok_inv in Hrun as ([] & s & Hpre & Hrun).
  assert (fs s !! affinityPath r irq = None ∧ is_dir (fs s) (DirPath (affinityPath r irq)) = false)
    as [Hs Hsd].
  { refine (for_each_inv _ (λ s, fs s !! affinityPath r irq = None ∧
      is_dir (fs s) (DirPath (affinityPath r irq)) = false) _ _ _ _ _ (conj Hp Hd) Hpre).
    intros a t x t' _ [Ht Htd] [->|(y & Hy & _)]%set_affinity_any; [done|].
    split; [|by eapply WriteFile_is_dir].
    destruct (String.eqb_spec (affinityPath r irq) (affinityPath r a)) as [Heq|Hne].
    - rewrite <-Heq in Hy. destruct (WriteFile_gone _ (wantStr want a) 420 t Ht Htd) as [e He].
      rewrite He in Hy. by injection Hy as _ <-.
    - apply WriteFile_other in Hy as [_ ->]; done. }
  apply for_each_cons_inv in Hrun as (s1 & Hone & _). unfold set_affinity, ReadFileString in Hone.
  rewrite bind_value in Hone by apply _.
  assert (∃ e, value (ReadFile (affinityPath r irq)) s = Err e) as [e He].
  { unfold value, ReadFile, read_node. simpl. rewrite Hs. eauto. }
  rewrite He in Hone. apply map_err_inv in Hone.
  destruct (WriteFile_gone _ (wantStr want irq) 420 s Hs Hsd) as [e' He'].
  by rewrite He' in Hone.
Qed.

Definition irq_line (n : string) (queue : string) : string :=
  " " +:+ n +:+ ":  12  0  PCI-MSI " +:+ queue +:+ nls.

Definition irq_world (present : list string) : World :=
  etc_world (("/proc/interrupts",
     NKnob (Ok ("  CPU0 CPU1" +:+ nls +:+ irq_line "30" "eth0-Tx-Rx-1" +:+
       irq_line "27" "eth0-Tx-Rx-0" +:+ irq_line "31" "nvme0q0"))) ::
     ((λ n, ("/proc/irq/" +:+ n +:+ "/smp_affinity_list", NKnob (Ok ("0-1" +:+ nls)))) <$> present)).

Definition eth0_irqs : IRQAffinityResource := mkIRQ New "eth0" 2.

Example desiredAffinity_spread_witness :
  desiredAffinity eth0_irqs ["27"; "30"; "41"] !! "41" = Some 0%Z ∧
  (∀ c, 0 ≤ c < 2 →
     1 ≤ Z.of_nat (length (filter (λ irq, desiredAffinity eth0_irqs ["27"; "30"; "41"] !! irq = Some c)
            ["27"; "30"; "41"])) ≤ 2)%Z.
Proof.
  assert (NoDup ["27"; "30"; "41"]) as Hnd by (apply (bool_decide_unpack _); by vm_compute).
  destruct (desiredAffinity_spread eth0_irqs ["27"; "30"; "41"] ltac:(done) Hnd) as (H1 & _ & H2).
  split; [exact (H1 2%nat "41" eq_refl)|exact H2].
Defined.

Example enaIRQs_spec_witness :
  value (enaIRQs eth0_irqs) (irq_world []) = Ok ["27"; "30"] ∧
  ∃ lines zs, value (OpenLines (Path (iq_Env eth0_irqs) ["proc"; "interrupts"])) (irq_world []) =
      Ok (lines, None) ∧ ["27"; "30"] = Itoa <$> zs ∧ StronglySorted Z.le zs.
Proof.
  assert (value (enaIRQs eth0_irqs) (irq_world []) = Ok ["27"; "30"]) as Hl by by vm_compute.
  split; [exact Hl|].
  destruct (enaIRQs_spec eth0_irqs (irq_world []) ["27"; "30"] Hl) as (lines & zs & ? & ? & ? & _).
  by exists lines, zs.
Defined.

Example IRQAffinityResource_Apply_converges_witness :
  let k := sysfs_kernel in
  let w' := (IRQAffinityResource_Apply eth0_irqs (irq_world ["27"; "30"])).2 in
  rStatus (value (IRQAffinityResource_Check eth0_irqs) (irq_world ["27"; "30"])).1
    = StatusWouldChange ∧
  settled (value (IRQAffinityResource_Check eth0_irqs) w').
Proof.
  intros k w'. split; [by vm_compute|].
  refine (proj2 (proj2 (IRQAffinityResource_Apply_converges eth0_irqs ["27"; "30"]
    (irq_world ["27"; "30"]) w' _ _ _ _))).
  - done.
  - intros l irq w. apply attr_keeps_intro.
    + unfold affinity_set. apply String.eqb_eq.
      apply TrimSpace_id, ascii_word_spacefree, Itoa_word.
    + intros old c [= <-]. unfold affinity_set. apply String.eqb_eq.
      apply TrimSpace_spacefree; [|done]. apply ascii_word_spacefree, Itoa_word.
  - by vm_compute.
  - apply run_ok. by vm_compute.
Defined.

Example vanished_irq_fails_apply_witness :
  let k := sysfs_kernel in
  let w := irq_world ["27"] in
  rStatus (value (IRQAffinityResource_Check eth0_irqs) w).1 = StatusWouldChange ∧
  (value (IRQAffinityResource_Check eth0_irqs) w).2 = None ∧
  ∃ e, (IRQAffinityResource_Apply eth0_irqs w).1 = Err e.
Proof.
  intros k w. split; [by vm_compute|].
  apply (vanished_irq_fails_apply eth0_irqs ["27"; "30"] "30" w).
  - by vm_compute.
  - set_solver.
  - by vm_compute.
  - by vm_compute.
Defined.
