(* ===== verification/CPUMask.v ===== *)
(** * internal/resource/nictuning.go: CPU masks

    The bitmaps of [rps_cpus] and [xps_cpus]: comma-separated 32-bit words in
    hexadecimal, most significant first. What a mask stands for is the number
    [mask_value]; the code's lists of set bits are proved to be its bits. *)

From S2P Require Import Prelude GoStrings.

(** ** The code *)

Definition mask_word (bits : Z) : Z :=
  if (32 <=? bits)%Z then 4294967295%Z
  else if (0 <? bits)%Z then (Z.shiftl 1 bits - 1)%Z else 0%Z.

(** The loop over the words, least significant first. *)
Fixpoint mask_words (numWords : nat) (remaining : Z) : list string :=
  match numWords with
  | O => []
  | S k =>
      let bits := Z.min remaining 32 in
      hex_fixed 8 (mask_word bits) :: mask_words k (remaining - bits)
  end.

Definition cpumaskAll (n : Z) : string :=
  let n := if (n <=? 0)%Z then 1%Z else n in
  let numWords := ((n + 31) / 32)%Z in
  Join "," (reverse (mask_words (Z.to_nat numWords) n)).

(** The bits of one word, whose CPUs start at [32 * wordIdx]. *)
Definition word_bits (wordIdx : Z) (word : string) : list Z :=
  match ParseUint16_32 word with
  | None => []
  | Some v =>
      (λ bit, wordIdx * 32 + bit)%Z <$>
        filter (λ bit, Z.land v (Z.shiftl 1 bit) ≠ 0)%Z (seqZ 0 32)
  end.

(** [wordIdx] is the number of words that follow. *)
Fixpoint words_bits (words : list string) : list Z :=
  match words with
  | [] => []
  | word :: words => word_bits (Z.of_nat (length words)) word ++ words_bits words
  end.

Definition parseCPUMaskBits (s : string) : list Z :=
  sort_Ints (words_bits (Split "," (TrimSpace s))).

Definition cpuMasksEqual (a b : string) : bool :=
  bool_decide (parseCPUMaskBits a = parseCPUMaskBits b).

(** ** What a mask stands for *)

(** A word that is no number counts as 0. *)
Definition word_value (word : string) : Z := default 0%Z (ParseUint16_32 word).

Fixpoint words_value (words : list string) : Z :=
  match words with
  | [] => 0
  | word :: words => word_value word * 2 ^ (32 * Z.of_nat (length words)) + words_value words
  end.

Definition mask_value (s : string) : Z := words_value (Split "," (TrimSpace s)).

Lemma hex_value_bounds c d : hex_value c = Some d → (0 ≤ d < 16)%Z.
Proof. unfold hex_value. repeat case_match; intros [= <-]; bool_prop; lia. Qed.

Lemma hex_go_nonneg acc s n : (0 ≤ acc)%Z → hex_go acc s = Some n → (0 ≤ n)%Z.
Proof.
  revert acc. induction s as [|c s IH]; intros acc Ha; simpl; [by intros [= <-]|].
  destruct (hex_value c) as [d|] eqn:Hd; simpl; [|done].
  apply hex_value_bounds in Hd. apply IH. lia.
Qed.

Lemma word_value_bounds word : (0 ≤ word_value word < 2 ^ 32)%Z.
Proof.
  unfold word_value, ParseUint16_32. destruct word as [|c s]; [simpl; lia|].
  destruct (hex_go 0 (String c s)) as [n|] eqn:Hn; simpl; [|lia].
  apply hex_go_nonneg in Hn; [|done].
  destruct (n <? 2 ^ 32)%Z eqn:Hlt; simpl; [|lia]. bool_prop. lia.
Qed.

Lemma words_value_bounds words :
  (0 ≤ words_value words < 2 ^ (32 * Z.of_nat (length words)))%Z.
Proof.
  induction words as [|w ws IH]; [simpl; lia|]. cbn [words_value length].
  pose proof (word_value_bounds w).
  replace (32 * Z.of_nat (S (length ws)))%Z with (32 + 32 * Z.of_nat (length ws))%Z by lia.
  rewrite Z.pow_add_r by lia. nia.
Qed.

Lemma testbit_high v m k c :
  (0 ≤ m < 2 ^ k → 0 ≤ k → 0 ≤ c →
   Z.testbit (v * 2 ^ k + m) c = if c <? k then Z.testbit m c else Z.testbit v (c - k))%Z.
Proof.
  intros Hm Hk Hc. destruct (c <? k)%Z eqn:Hlt; bool_prop.
  - rewrite <-(Z.mod_pow2_bits_low _ k) by lia.
    rewrite Z.add_comm, Z_mod_plus_full, Z.mod_small by done. done.
  - replace c with ((c - k) + k)%Z at 1 by lia. rewrite <-Z.div_pow2_bits by lia.
    rewrite Z.div_add_l by lia. rewrite Z.div_small by done. by rewrite Z.add_0_r.
Qed.

Lemma land_bit v bit :
  (0 ≤ bit)%Z → (Z.land v (Z.shiftl 1 bit) ≠ 0)%Z ↔ Z.testbit v bit = true.
Proof.
  intros Hb. rewrite Z.shiftl_1_l. split.
  - intros Hne. destruct (Z.testbit v bit) eqn:Hv; [done|]. exfalso. apply Hne.
    apply Z.bits_inj'. intros i Hi. rewrite Z.land_spec, Z.bits_0, Z.pow2_bits_eqb by done.
    destruct (Z.eqb_spec bit i) as [->|]; [by rewrite Hv|by rewrite andb_false_r].
  - intros Hv H0. assert (Z.testbit (Z.land v (2 ^ bit)) bit = true) as Ht.
    { by rewrite Z.land_spec, Hv, Z.pow2_bits_true. }
    by rewrite H0, Z.bits_0 in Ht.
Qed.

Lemma elem_of_word_bits idx word c :
  c ∈ word_bits idx word ↔
  (32 * idx ≤ c < 32 * idx + 32)%Z ∧ Z.testbit (word_value word) (c - 32 * idx) = true.
Proof.
  unfold word_bits, word_value. destruct (ParseUint16_32 word) as [v|]; simpl.
  - rewrite list_elem_of_fmap. split.
    + intros (bit & -> & [Hv Hb]%list_elem_of_filter). apply elem_of_seqZ in Hb.
      apply land_bit in Hv; [|lia]. split; [lia|].
      by replace (idx * 32 + bit - 32 * idx)%Z with bit by lia.
    + intros [Hc Hv]. exists (c - 32 * idx)%Z. split; [lia|].
      apply list_elem_of_filter. rewrite land_bit by lia. split; [done|]. apply elem_of_seqZ. lia.
  - rewrite Z.bits_0. split; [by intros ?%elem_of_nil|by intros []].
Qed.

Lemma elem_of_words_bits words c :
  c ∈ words_bits words ↔ (0 ≤ c)%Z ∧ Z.testbit (words_value words) c = true.
Proof.
  induction words as [|w ws IH]; cbn [words_bits words_value].
  { rewrite Z.bits_0. split; [by intros ?%elem_of_nil|by intros []]. }
  rewrite elem_of_app, IH, elem_of_word_bits. pose proof (words_value_bounds ws) as Hb.
  set (k := (32 * Z.of_nat (length ws))%Z) in *.
  destruct (Z.lt_ge_cases c 0%Z) as [Hneg|Hpos]; [lia|].
  rewrite testbit_high by lia. destruct (c <? k)%Z eqn:Hlt; bool_prop.
  - split; [intros [[? _]|?]; [lia|done]|tauto].
  - assert (Z.testbit (words_value ws) c = false) as ->.
    { destruct (Z.eq_dec (words_value ws) 0%Z) as [->|Hne]; [apply Z.bits_0|].
      apply Z.bits_above_log2; [lia|]. apply Z.log2_lt_pow2; [lia|].
      eapply Z.lt_le_trans; [apply Hb|]. apply Z.pow_le_mono_r; lia. }
    split.
    + intros [[_ ?]|[_ ?]]; done.
    + intros [_ Hv]. left. split; [|done]. split; [lia|].
      destruct (Z.lt_ge_cases c (k + 32)%Z) as [?|Hge]; [done|exfalso].
      pose proof (word_value_bounds w) as Hw.
      destruct (Z.eq_dec (word_value w) 0%Z) as [H0|Hne]; [by rewrite H0, Z.bits_0 in Hv|].
      rewrite Z.bits_above_log2 in Hv; [done|lia|].
      apply (Z.lt_le_trans _ 32); [|lia]. apply Z.log2_lt_pow2; [lia|apply Hw].
Qed.

Lemma NoDup_words_bits words : NoDup (words_bits words).
Proof.
  induction words as [|w ws IH]; cbn [words_bits]; [constructor|].
  apply NoDup_app. split_and!; [| |done].
  - unfold word_bits. destruct (ParseUint16_32 w); [|constructor].
    apply NoDup_fmap_2; [intros x y; lia|]. apply NoDup_filter, NoDup_seqZ.
  - intros c [Hc _]%elem_of_word_bits [_ Hv]%elem_of_words_bits.
    pose proof (words_value_bounds ws) as Hb.
    destruct (Z.eq_dec (words_value ws) 0%Z) as [H0|Hne]; [by rewrite H0, Z.bits_0 in Hv|].
    rewrite Z.bits_above_log2 in Hv; [done|lia|].
    apply Z.log2_lt_pow2; [lia|]. eapply Z.lt_le_trans; [apply Hb|]. apply Z.pow_le_mono_r; lia.
Qed.

Lemma elem_of_parse s c :
  c ∈ parseCPUMaskBits s ↔ (0 ≤ c)%Z ∧ Z.testbit (mask_value s) c = true.
Proof. unfold parseCPUMaskBits. by rewrite sort_Ints_perm, elem_of_words_bits. Qed.

Lemma sorted_unique (l l' : list Z) :
  NoDup l → NoDup l' → StronglySorted Z.le l → StronglySorted Z.le l' →
  (∀ c, c ∈ l ↔ c ∈ l') → l = l'.
Proof.
  intros Hl Hl' Hs Hs' Heq. apply (StronglySorted_unique Z.le); [done..|].
  by apply NoDup_Permutation.
Qed.

Lemma NoDup_parse s : NoDup (parseCPUMaskBits s).
Proof. unfold parseCPUMaskBits. rewrite sort_Ints_perm. apply NoDup_words_bits. Qed.

Lemma parse_sorted s : StronglySorted Z.le (parseCPUMaskBits s).
Proof. apply sort_Ints_sorted. Qed.

Lemma masks_equal_value a b : cpuMasksEqual a b = true ↔ mask_value a = mask_value b.
Proof.
  unfold cpuMasksEqual. rewrite bool_decide_eq_true. split.
  - intros Heq. apply Z.bits_inj'. intros c Hc.
    pose proof (elem_of_parse a c) as Ha. pose proof (elem_of_parse b c) as Hb. rewrite Heq in Ha.
    apply Bool.eq_iff_eq_true. tauto.
  - intros Heq. apply sorted_unique; try apply NoDup_parse; try apply parse_sorted.
    intros c. by rewrite !elem_of_parse, Heq.
Qed.

(** ** Writing a mask *)

Lemma hex_value_digit d : (0 ≤ d < 16)%Z → hex_value (hex_digit d) = Some d.
Proof.
  intros Hd.
  assert (forallb (λ d, bool_decide (hex_value (hex_digit d) = Some d)) (seqZ 0 16) = true)
    as Hall by by vm_compute.
  rewrite forallb_forall in Hall. apply (bool_decide_eq_true_1 _), Hall.
  apply list_elem_of_In, elem_of_seqZ. lia.
Qed.

Lemma hex_go_fixed k n acc s :
  (0 ≤ n)%Z → hex_go acc (hex_fixed k n +:+ s) = hex_go (acc * 16 ^ Z.of_nat k + n mod 16 ^ Z.of_nat k) s.
Proof.
  revert n acc s. induction k as [|k IH]; intros n acc s Hn.
  - simpl hex_fixed. rewrite str_nil_app. f_equal. rewrite Z.mod_1_r. lia.
  - simpl hex_fixed. rewrite str_app_assoc, IH by (by apply Z.shiftr_nonneg).
    rewrite str_cons_app, str_nil_app. cbn [hex_go].
    rewrite Z.shiftr_div_pow2 by lia. change (2 ^ 4)%Z with 16%Z.
    change 15%Z with (Z.ones 4). rewrite Z.land_ones by lia. change (2 ^ 4)%Z with 16%Z.
    rewrite hex_value_digit by (apply Z.mod_pos_bound; lia). simpl. f_equal.
    rewrite Nat2Z.inj_succ, Z.pow_succ_r by lia.
    rewrite (Z.mul_comm 16 (16 ^ _)), (Z.mul_comm (16 ^ _) 16), Z.rem_mul_r by lia. lia.
Qed.

Lemma word_value_fixed v : (0 ≤ v < 2 ^ 32)%Z → word_value (hex_fixed 8 v) = v.
Proof.
  intros Hv. unfold word_value, ParseUint16_32.
  pose proof (hex_go_fixed 8 v 0 EmptyString ltac:(lia)) as Hgo.
  rewrite str_app_nil_r in Hgo. change (16 ^ Z.of_nat 8)%Z with (2 ^ 32)%Z in Hgo.
  rewrite Z.mod_small in Hgo by done. simpl hex_go in Hgo at 2.
  destruct (hex_fixed 8 v) as [|c s] eqn:Hs; [|rewrite Hgo].
  - exfalso. simpl in Hs. apply str_app_eq_nil in Hs as [_ Hs]. done.
  - simpl. case_bool; simpl; [lia|]. bool_prop. lia.
Qed.

Lemma words_value_app ws w :
  words_value (ws ++ [w]) = (words_value ws * 2 ^ 32 + word_value w)%Z.
Proof.
  induction ws as [|x ws IH]; cbn [words_value app length]; [lia|].
  rewrite IH, length_app. cbn [length].
  replace (32 * Z.of_nat (length ws + 1))%Z with (32 * Z.of_nat (length ws) + 32)%Z by lia.
  rewrite Z.pow_add_r by lia. ring.
Qed.

Lemma mask_word_value bits :
  (0 ≤ bits ≤ 32)%Z → mask_word bits = (2 ^ bits - 1)%Z ∧ (0 ≤ mask_word bits < 2 ^ 32)%Z.
Proof.
  intros Hb. assert (mask_word bits = (2 ^ bits - 1)%Z) as Heq.
  { unfold mask_word. destruct (32 <=? bits)%Z eqn:H32; bool_prop.
    - by replace bits with 32%Z by lia.
    - destruct (0 <? bits)%Z eqn:H0; bool_prop; [by rewrite Z.shiftl_1_l|].
      by replace bits with 0%Z by lia. }
  rewrite Heq. split; [done|].
  pose proof (Z.pow_pos_nonneg 2 bits ltac:(lia) ltac:(lia)).
  pose proof (Z.pow_le_mono_r 2 bits 32 ltac:(lia) ltac:(lia)). lia.
Qed.

Lemma mask_words_value k n :
  (0 ≤ n)%Z →
  words_value (reverse (mask_words k n)) = (2 ^ Z.min n (32 * Z.of_nat k) - 1)%Z.
Proof.
  revert n. induction k as [|k IH]; intros n Hn.
  { rewrite Z.min_r by lia. done. }
  cbn [mask_words]. rewrite reverse_cons, words_value_app.
  destruct (mask_word_value (Z.min n 32) ltac:(lia)) as [Hw Hb].
  rewrite word_value_fixed, Hw, IH by lia.
  destruct (Z.le_gt_cases 32 n) as [Hge|Hlt].
  - rewrite (Z.min_r n 32) by lia.
    replace (Z.min n (32 * Z.of_nat (S k))) with (Z.min (n - 32) (32 * Z.of_nat k) + 32)%Z by lia.
    rewrite Z.pow_add_r by lia. ring.
  - rewrite (Z.min_l n 32) by lia. replace (n - n)%Z with 0%Z by lia.
    rewrite (Z.min_l n) by lia. rewrite (Z.min_l 0) by lia. rewrite Z.pow_0_r. ring.
Qed.

(** Every word is eight hexadecimal digits. *)
Lemma hex_fixed_forallb p k n :
  (∀ d, 0 ≤ d < 16 → p (hex_digit d) = true)%Z →
  forallb p (String.list_ascii_of_string (hex_fixed k n)) = true.
Proof.
  intros Hp. revert n. induction k as [|k IH]; intros n; [done|]. cbn [hex_fixed].
  rewrite bytes_app, forallb_app, IH. simpl. rewrite andb_true_r. apply Hp.
  change 15%Z with (Z.ones 4). rewrite Z.land_ones by lia. apply Z.mod_pos_bound. lia.
Qed.

Lemma hex_digit_all p d :
  (0 ≤ d < 16)%Z → forallb (λ d, p (hex_digit d)) (seqZ 0 16) = true → p (hex_digit d) = true.
Proof.
  intros Hd Hp. rewrite forallb_forall in Hp. apply Hp.
  apply list_elem_of_In, elem_of_seqZ. lia.
Qed.

Lemma hex_fixed_word k n : ascii_word (hex_fixed k n) = true.
Proof.
  apply hex_fixed_forallb. intros d Hd.
  by apply (hex_digit_all (λ c, (N_of_ascii c <? 128)%N && negb (is_ascii_space c)) d Hd).
Qed.

Lemma hex_fixed_no_comma k n : sep_free "," (hex_fixed k n) = true.
Proof.
  rewrite sep_free_forallb. apply hex_fixed_forallb. intros d Hd.
  by apply (hex_digit_all (λ c, negb (Ascii.eqb c ",")) d Hd).
Qed.

(** A mask made of words, between white space. *)
Lemma mask_value_words ws sp :
  ws ≠ [] → Forall (λ w, ascii_word w = true ∧ sep_free "," w = true) ws → all_spaces sp = true →
  mask_value (Join "," ws +:+ sp) = words_value ws.
Proof.
  intros Hne Hws Hsp. unfold mask_value. rewrite TrimSpace_spacefree; [|..|done].
  - by rewrite Split_Join; [|done|eapply Forall_impl; [exact Hws|by intros w []]].
  - apply ascii_word_spacefree. clear Hne.
    induction Hws as [|w ws [Hw _] Hws IH]; [done|].
    destruct ws as [|w' ws]; [done|]. rewrite Join_cons by done.
    by rewrite !ascii_word_app, Hw, IH.
Qed.

Lemma mask_words_ok k n :
  Forall (λ w, ascii_word w = true ∧ sep_free "," w = true) (reverse (mask_words k n)).
Proof.
  apply Forall_reverse. revert n. induction k as [|k IH]; intros n; cbn [mask_words]; constructor.
  - split; [apply hex_fixed_word|apply hex_fixed_no_comma].
  - apply IH.
Qed.

(** Words of zeros in front, as a kernel built for more CPUs shows them. *)
Definition padded (k : nat) (n : Z) : string :=
  Join "," (replicate k "00000000" ++ reverse (mask_words (Z.to_nat ((n + 31) / 32)) n)).

Lemma words_value_zeros k ws : words_value (replicate k "00000000" ++ ws) = words_value ws.
Proof.
  induction k as [|k IH]; [done|]. cbn [replicate app words_value]. rewrite IH.
  change (word_value "00000000") with 0%Z. lia.
Qed.

Lemma padded_value k n sp :
  (1 ≤ n)%Z → all_spaces sp = true → mask_value (padded k n +:+ sp) = (2 ^ n - 1)%Z.
Proof.
  intros Hn Hsp.
  assert (0 < (n + 31) / 32)%Z as Hpos by (apply Z.div_str_pos; lia).
  pose proof (Z.div_mod (n + 31) 32 ltac:(lia)) as Hdm.
  pose proof (Z.mod_pos_bound (n + 31) 32 ltac:(lia)) as Hm.
  unfold padded. rewrite mask_value_words; [|..|done].
  - rewrite words_value_zeros, mask_words_value by lia. rewrite Z.min_l by lia. done.
  - intros [_ Hnil]%app_nil. apply (f_equal length) in Hnil. rewrite length_reverse in Hnil.
    destruct (Z.to_nat ((n + 31) / 32)) eqn:He; [lia|]. simpl in Hnil. lia.
  - apply Forall_app. split; [|apply mask_words_ok].
    apply Forall_replicate. by vm_compute.
Qed.

Lemma cpumaskAll_padded n : (1 ≤ n)%Z → cpumaskAll n = padded 0 n.
Proof. intros Hn. unfold cpumaskAll. by replace (n <=? 0)%Z with false by lia. Qed.

(** ** Properties *)

(** C30: masks are compared as sets of CPUs: two masks are equal for the code exactly when
    they stand for the same number, however many words they have, whatever white space is
    around them and however their digits are written. *)
Theorem cpuMasksEqual_semantic (a b : string) :
  cpuMasksEqual a b = true ↔ mask_value a = mask_value b.
Proof. apply masks_equal_value. Qed.

(** C18: the mask that is written has exactly one bit for each of the CPUs 0 to n-1, and
    reads back as those CPUs, also from a kernel that shows it on a line of its own with any
    number of zero words in front; such an echo counts as equal to what was written. *)
Theorem cpumaskAll_roundtrip (n : Z) (k : nat) (sp : string) :
  (1 ≤ n)%Z → all_spaces sp = true →
  mask_value (cpumaskAll n) = (2 ^ n - 1)%Z ∧
  parseCPUMaskBits (padded k n +:+ sp) = seqZ 0 n ∧
  cpuMasksEqual (padded k n +:+ sp) (cpumaskAll n) = true.
Proof.
  intros Hn Hsp.
  assert (mask_value (cpumaskAll n) = (2 ^ n - 1)%Z) as Hv.
  { rewrite cpumaskAll_padded, <-(str_app_nil_r (padded 0 n)) by done. by apply padded_value. }
  split; [done|]. split.
  - apply sorted_unique; [apply NoDup_parse|apply NoDup_seqZ|apply parse_sorted| |].
    + apply Sorted_StronglySorted; [intros ???; lia|].
      unfold seqZ. generalize (Z.to_nat n). intros m. generalize O.
      induction m as [|m IH]; intros s; simpl; constructor; [apply IH|].
      destruct m; simpl; constructor. lia.
    + intros c. rewrite elem_of_parse, padded_value, elem_of_seqZ by done.
      assert (2 ^ n - 1 = Z.ones n)%Z as -> by (rewrite Z.ones_equiv; lia).
      rewrite Z.testbit_ones by lia.
      split; [intros [? Hb]|intros ?; split; [lia|]].
      * apply andb_true_iff in Hb as [_ ?]. bool_prop. lia.
      * apply andb_true_iff. split; [apply Z.leb_le; lia|apply Z.ltb_lt; lia].
  - apply masks_equal_value. by rewrite Hv, padded_value.
Qed.

Example cpumaskAll_roundtrip_witness :
  cpumaskAll 36 = "0000000f,ffffffff" ∧
  padded 2 4 +:+ nls = "00000000,00000000,0000000f" +:+ nls ∧
  parseCPUMaskBits (padded 2 4 +:+ nls) = [0; 1; 2; 3]%Z ∧
  cpuMasksEqual (padded 2 4 +:+ nls) (cpumaskAll 4) = true.
Proof.
  split; [by vm_compute|]. split; [by vm_compute|].
  exact (proj2 (cpumaskAll_roundtrip 4 2 nls ltac:(done) ltac:(done))).
Defined.
