(* ===== verification/NIC.v ===== *)
(** * internal/resource/nictuning.go

    [NICResource]: ring buffers at their maximum through [ethtool], and packet steering
    over all CPUs through the masks of the interface's queues. *)

From Stdlib Require DecimalString.
From S2P Require Import Prelude GoStrings GoPath GoOS Sysutil Resource Attr CPUMask.

Record NICResource : Set := mkNIC {
  nc_Env : Env;
  nc_Interface : string;
  nc_NumCPUs : Z;
  nc_RingBufferMax : bool;
  nc_RPS : bool;
  nc_XPS : bool
}.

(** ** ethtool -g *)

Record ringParams : Set := mkRing { maxRX : Z; maxTX : Z; curRX : Z; curTX : Z }.

(** [\s] of [regexp]. *)
Definition re_space (c : ascii) : bool :=
  let n := N_of_ascii c in
  (n =? 9)%N || (n =? 10)%N || (n =? 12)%N || (n =? 13)%N || (n =? 32)%N.

(** [^(RX|TX):\s+(\d+|n/a)]: the two submatches. *)
Definition ethtoolRingLineRe (s : string) : option (string * string) :=
  '(dir, rest) ← (match drop_prefix "RX:" s with
                  | Some rest => Some ("RX", rest)
                  | None => pair "TX" <$> drop_prefix "TX:" s
                  end);
  match rest with
  | String c rest =>
      if re_space c then
        let rest := TrimLeftFunc re_space rest in
        let d := take_digits rest in
        if negb (String.eqb d EmptyString) then Some (dir, d)
        else if HasPrefix rest "n/a" then Some (dir, "n/a") else None
      else None
  | EmptyString => None
  end.

(** One line, after [section]. *)
Definition ring_line (st : string * ringParams) (line : string) : string * ringParams :=
  let '(section, rp) := st in
  let trimmed := TrimSpace line in
  if HasPrefix trimmed "Pre-set maximums" then ("max", rp)
  else if HasPrefix trimmed "Current hardware settings" then ("current", rp)
  else
    match ethtoolRingLineRe trimmed with
    | None => (section, rp)
    | Some (dir, value) =>
        match Atoi value with
        | None => (section, rp)
        | Some v =>
            (section,
             if String.eqb section "max" && String.eqb dir "RX"
             then mkRing v (maxTX rp) (curRX rp) (curTX rp)
             else if String.eqb section "max" && String.eqb dir "TX"
             then mkRing (maxRX rp) v (curRX rp) (curTX rp)
             else if String.eqb section "current" && String.eqb dir "RX"
             then mkRing (maxRX rp) (maxTX rp) v (curTX rp)
             else if String.eqb section "current" && String.eqb dir "TX"
             then mkRing (maxRX rp) (maxTX rp) (curRX rp) v
             else rp)
        end
    end.

Definition parseEthtoolRingParams (output : string) : ringParams :=
  (fold_left ring_line (Split nl output) (EmptyString, mkRing 0 0 0 0)).2.

(** The directions that are below their maximum. *)
Definition rx_low (rp : ringParams) : bool := (0 <? maxRX rp)%Z && (curRX rp <? maxRX rp)%Z.
Definition tx_low (rp : ringParams) : bool := (0 <? maxTX rp)%Z && (curTX rp <? maxTX rp)%Z.

Definition ring_drift (rp : ringParams) : string :=
  let drift :=
    (if rx_low rp then ["rx " +:+ Itoa (curRX rp) +:+ " -> " +:+ Itoa (maxRX rp)] else []) ++
    (if tx_low rp then ["tx " +:+ Itoa (curTX rp) +:+ " -> " +:+ Itoa (maxTX rp)] else []) in
  if negb (nonempty drift) then EmptyString else "ring buffers: " +:+ Join ", " drift.

Definition ring_args (rp : ringParams) : list string :=
  (if rx_low rp then ["rx"; Itoa (maxRX rp)] else []) ++
  (if tx_low rp then ["tx"; Itoa (maxTX rp)] else []).

(** ** The resource *)

Definition queueDirs (r : NICResource) (direction : string) : IO (list string) :=
  Glob (Path (nc_Env r)
    ["sys"; "class"; "net"; nc_Interface r; "queues"; direction +:+ "-*"]).

Definition queue_drift (want path : string) : M World (list string) :=
  cur <- ReadFileString path;;
  ret (match cur with
       | Err _ => []
       | Ok c => if negb (cpuMasksEqual c want) then [path] else []
       end).

Definition queueMaskDrift (r : NICResource) (direction attr : string) : IO (list string) :=
  dirs <-? queueDirs r direction;;
  let want := cpumaskAll (nc_NumCPUs r) in
  drifted <- collect dirs (λ dir, queue_drift want (JoinPath [dir; attr]));;
  ret (Ok drifted).

Section nic.
Context {HK : Kernel} {HR : Runner}.

Definition ringBufferDrift (r : NICResource) : IO string :=
  out <-? map_err (Wrap ("ethtool -g " +:+ nc_Interface r))
            (run_cmd "ethtool" ["-g"; nc_Interface r]);;
  ret (Ok (ring_drift (parseEthtoolRingParams out))).

Definition applyRingBufferMax (r : NICResource) : IO () :=
  out <- run_cmd "ethtool" ["-g"; nc_Interface r];;
  match out with
  | Err _ => ret (Ok ())
  | Ok out =>
      let args := ring_args (parseEthtoolRingParams out) in
      if negb (nonempty args) then ret (Ok ())
      else
        _ <-? map_err (Wrap ("ethtool -G " +:+ nc_Interface r))
                (run_cmd "ethtool" (["-G"; nc_Interface r] ++ args));;
        ret (Ok ())
  end.

Definition set_queue (want path : string) : IO () :=
  cur <- ReadFileString path;;
  if (match cur with Ok c => cpuMasksEqual c want | Err _ => false end) then ret (Ok ())
  else
    res <- WriteFile path want 420;;
    ret (match res with
         | Ok _ => Ok ()
         | Err err => if IsNotExist err then Ok () else Err (Wrap ("writing " +:+ path) err)
         end).

Definition applyQueueMask (r : NICResource) (direction attr : string) : IO () :=
  dirs <-? queueDirs r direction;;
  let want := cpumaskAll (nc_NumCPUs r) in
  for_each ((λ dir, JoinPath [dir; attr]) <$> dirs) (set_queue want).

(** The drift of one kind of mask, as a fragment of the report. *)
Definition mask_drift (r : NICResource) (direction attr : string) : M World (list string) :=
  q <- queueMaskDrift r direction attr;;
  ret (match q with
       | Ok (p :: ps) =>
           [attr +:+ " out of date on " +:+ Itoa (Z.of_nat (length (p :: ps))) +:+ " queue(s)"]
       | _ => []
       end).

(** The same for the ring buffers, where a failing [ethtool] reports nothing. *)
Definition ring_report (r : NICResource) : M World (list string) :=
  d <- ringBufferDrift r;;
  ret (match d with
       | Ok s => if negb (String.eqb s EmptyString) then [s] else []
       | Err _ => []
       end).

Definition NICResource_Check (r : NICResource) : Checked :=
  if String.eqb (nc_Interface r) EmptyString
  then checked (mkResult "nic-tuning" StatusSkipped "no interface detected")
  else
    ring <- (if nc_RingBufferMax r then ring_report r else ret []);;
    rps <- (if nc_RPS r && (1 <? nc_NumCPUs r)%Z then mask_drift r "rx" "rps_cpus" else ret []);;
    xps <- (if nc_XPS r && (1 <? nc_NumCPUs r)%Z then mask_drift r "tx" "xps_cpus" else ret []);;
    let drift := ring ++ rps ++ xps in
    if negb (nonempty drift) then checked (mkResult "nic-tuning" StatusUnchanged EmptyString)
    else checked (mkResult "nic-tuning" StatusWouldChange (Join "; " drift)).

Definition NICResource_Apply (r : NICResource) : IO () :=
  if String.eqb (nc_Interface r) EmptyString then ret (Ok ())
  else
    _ <-? (if nc_RingBufferMax r then applyRingBufferMax r else ret (Ok ()));;
    _ <-? (if nc_RPS r && (1 <? nc_NumCPUs r)%Z then applyQueueMask r "rx" "rps_cpus"
           else ret (Ok ()));;
    if nc_XPS r && (1 <? nc_NumCPUs r)%Z then applyQueueMask r "tx" "xps_cpus" else ret (Ok ()).

Definition nic_resource (r : NICResource) : Resource :=
  mkResource "nic-tuning" (NICResource_Check r) (NICResource_Apply r).
End nic.

(** ** Ring parameters *)

Lemma ring_settled_iff rp : ring_drift rp = EmptyString ↔ ring_args rp = [].
Proof. unfold ring_drift, ring_args. destruct (rx_low rp), (tx_low rp); simpl; split; done. Qed.

(** ** The contract *)

Section nic_facts.
Context {HK : Kernel} {HR : Runner} (r : NICResource).

(** Querying the ring parameters is a query. *)
Context {Hquery : ReadOnly (Run "ethtool" ["-g"; nc_Interface r])}.

#[export] Instance ringBufferDrift_read_only : ReadOnly (ringBufferDrift r).
Proof. unfold ringBufferDrift. apply _. Qed.
#[export] Instance queueDirs_read_only d : ReadOnly (queueDirs r d).
Proof. unfold queueDirs. apply _. Qed.
#[export] Instance queue_drift_read_only want p : ReadOnly (queue_drift want p).
Proof. unfold queue_drift. apply _. Qed.
#[export] Instance queueMaskDrift_read_only d a : ReadOnly (queueMaskDrift r d a).
Proof. unfold queueMaskDrift. apply _. Qed.
#[export] Instance mask_drift_read_only d a : ReadOnly (mask_drift r d a).
Proof. unfold mask_drift. apply _. Qed.

#[export] Instance ring_report_read_only : ReadOnly (ring_report r).
Proof. unfold ring_report. apply _. Qed.

#[export] Instance nic_behaved : WellBehaved (nic_resource r).
Proof.
  split; simpl; unfold NICResource_Check; [apply _|].
  intros w. case_bool; [check_done|]. rewrite !value_bind by apply _. case_bool; check_done.
Qed.

(** The resource's parts, settled. *)
Definition ring_settled (w : World) : Prop :=
  nc_RingBufferMax r = true →
  ∀ s, value (ringBufferDrift r) w = Ok s → s = EmptyString.

Abbreviation want := (cpumaskAll (nc_NumCPUs r)).
Definition queue_settled (p : string) (w : World) : Prop :=
  attr_settled (λ p, p) (λ _ c, cpuMasksEqual c want) p w.

Definition mask_settled (on : bool) (direction attr : string) (w : World) : Prop :=
  on && (1 <? nc_NumCPUs r)%Z = true →
  ∀ dirs dir, value (queueDirs r direction) w = Ok dirs → dir ∈ dirs →
    queue_settled (JoinPath [dir; attr]) w.

Lemma queue_drift_nil p w : value (queue_drift want p) w = [] ↔ queue_settled p w.
Proof.
  unfold queue_drift, ReadFileString, queue_settled, attr_settled.
  rewrite value_bind, value_ret by apply _.
  destruct (value (ReadFile p) w) as [c|]; [|naive_solver].
  destruct (cpuMasksEqual c want) eqn:Hg; simpl; split; try done; [by intros _ c' [= <-]|].
  intros H. specialize (H c eq_refl). congruence.
Qed.

Lemma mask_drift_nil on d a w :
  value (if on && (1 <? nc_NumCPUs r)%Z then mask_drift r d a else ret []) w = [] ↔
  mask_settled on d a w.
Proof.
  unfold mask_settled. destruct (on && _); [|naive_solver].
  unfold mask_drift, queueMaskDrift. rewrite value_bind, value_ret, value_bind_ok by apply _.
  destruct (value (queueDirs r d) w) as [dirs|e]; [|naive_solver].
  rewrite value_bind, value_ret, collect_value by apply _.
  assert ((dirs ≫= λ dir, value (queue_drift want (JoinPath [dir; a])) w) = [] ↔
    ∀ dir, dir ∈ dirs → queue_settled (JoinPath [dir; a]) w) as Hiff.
  { rewrite bind_nil_iff. by setoid_rewrite queue_drift_nil. }
  destruct (dirs ≫= _); (split; [intros Hnil _ ? dir [= <-]|]); try done.
  - by apply Hiff.
  - intros H. exfalso. assert (s :: l = []) as Hnil; [|done].
    apply Hiff. intros dir Hin. by eapply H.
Qed.

Lemma ring_report_nil w :
  value (if nc_RingBufferMax r then ring_report r else ret []) w = [] ↔ ring_settled w.
Proof.
  unfold ring_settled. destruct (nc_RingBufferMax r); [|naive_solver].
  unfold ring_report. rewrite value_bind, value_ret by apply _.
  destruct (value (ringBufferDrift r) w) as [s|e]; [|naive_solver].
  destruct (String.eqb_spec s EmptyString); simpl; naive_solver.
Qed.

Lemma nic_unchanged w :
  nc_Interface r ≠ EmptyString →
  rStatus (value (NICResource_Check r) w).1 = StatusUnchanged ↔
  ring_settled w ∧ mask_settled (nc_RPS r) "rx" "rps_cpus" w ∧
  mask_settled (nc_XPS r) "tx" "xps_cpus" w.
Proof.
  intros Hi%String.eqb_neq. unfold NICResource_Check. rewrite Hi.
  rewrite <-ring_report_nil, <-!mask_drift_nil. rewrite !value_bind by apply _.
  case_bool; rewrite value_checked; simpl.
  - match goal with H : negb _ = true |- _ => apply negb_true_iff, nonempty_false in H;
      apply app_nil in H as [-> [-> ->]%app_nil] end. done.
  - split; [done|]. intros (H1 & H2 & H3).
    match goal with H : negb _ = false |- _ => by rewrite H1, H2, H3 in H end.
Qed.

(** A queue's mask: its directory takes no files; a mask that is accepted is read back, up
    to padding; only a missing file is reported as missing. *)
Record queue_ok (p : string) : Prop := {
  no_create : fault OpCreate p ≠ None;
  no_enoent : fault OpWrite p ≠ Some ENOENT;
  knob_no_enoent : ∀ old data, knob_write p old data ≠ Err ENOENT;
  keeps_mask : ∀ w, attr_keeps (λ p, p) (λ _ c, cpuMasksEqual c want) p want w
}.

(** The two kinds of masks. *)
Definition mask_kinds : list (string * string) := [("rx", "rps_cpus"); ("tx", "xps_cpus")].

(** What the host must offer: masks of this kind for the queues that are found; ethtool's
    answers do not depend on files; and a -G that succeeds has set what it was told to. *)
Record nic_ok : Prop := {
  no_queues : ∀ d a w dirs dir, (d, a) ∈ mask_kinds →
    value (queueDirs r d) w = Ok dirs → dir ∈ dirs → queue_ok (JoinPath [dir; a]);
  query_host : ∀ w w', host w = host w' →
    (Run "ethtool" ["-g"; nc_Interface r] w).1 = (Run "ethtool" ["-g"; nc_Interface r] w').1;
  set_rings : ∀ w w' out out' args,
    value (run_cmd "ethtool" ["-g"; nc_Interface r]) w = Ok out →
    args = ring_args (parseEthtoolRingParams out) →
    Run "ethtool" (["-G"; nc_Interface r] ++ args) w = ((out', None), w') → ring_settled w'
}.

Lemma WriteFile_missing p data w e w' :
  queue_ok p → WriteFile p data 420 w = (Err e, w') → IsNotExist e = true →
  fs w' = fs w ∧ fs w !! p = None.
Proof.
  intros Hok Hrun He. unfold WriteFile in Hrun. rewrite bind_run in Hrun. simpl in Hrun.
  pose proof (no_enoent p Hok) as Hw. pose proof (no_create p Hok) as Hc.
  destruct (fs w !! p) as [[|mode c|old]|] eqn:Hp.
  - injection Hrun as <- <-. done.
  - unfold write_regular in Hrun. destruct (fault OpWrite p) as [[]|]; unfold bind, put in Hrun;
      simpl in Hrun; simplify_eq; done.
  - pose proof (knob_no_enoent p Hok old data) as Hk.
    destruct (knob_write p old data) as [|[]]; unfold bind, put in Hrun; simpl in Hrun;
      simplify_eq; done.
  - rewrite bind_ok_run in Hrun. unfold creatable in Hrun. simpl in Hrun.
    destruct (is_dir _ _); simpl in Hrun; [|by injection Hrun as _ <-].
    destruct (fault OpCreate p); simpl in Hrun; [by injection Hrun as _ <-|done].
Qed.

Lemma set_queue_any p w x w' :
  queue_ok p → set_queue want p w = (x, w') →
  same_shape (fs w') (fs w) ∧ host w' = host w ∧ (∀ q, q ≠ p → fs w' !! q = fs w !! q).
Proof.
  intros Hok. unfold set_queue, ReadFileString. rewrite bind_value by apply _.
  case_bool; [by intros [= _ <-]|]. rewrite bind_run.
  destruct (WriteFile p want 420 w) as [y w1] eqn:Hw. simpl. intros [= _ <-].
  split; [eapply WriteFile_shape; [apply (no_create p Hok)|exact Hw]|].
  by apply WriteFile_other in Hw.
Qed.

Lemma set_queue_ok p w w' :
  queue_ok p → set_queue want p w = (Ok (), w') → queue_settled p w'.
Proof.
  intros Hok. unfold set_queue, ReadFileString. rewrite bind_value by apply _.
  destruct (value (ReadFile p) w) as [c|e] eqn:Hc;
    [destruct (cpuMasksEqual c want) eqn:Hm|].
  - intros [= <-] c' Hc'. rewrite Hc in Hc'. by injection Hc' as <-.
  - rewrite bind_run. destruct (WriteFile p want 420 w) as [[[]|err] w1] eqn:Hw; simpl.
    + intros [= <-]. eapply (write_settles (λ p, p)); [apply (keeps_mask p Hok)|exact Hw].
    + destruct (IsNotExist err) eqn:Hne; [|done]. intros [= <-].
      destruct (WriteFile_missing p want w err w1 Hok Hw Hne) as [_ Hp].
      apply ReadFile_ok_node in Hc as [[? Hc]|Hc]; congruence.
  - rewrite bind_run. destruct (WriteFile p want 420 w) as [[[]|err] w1] eqn:Hw; simpl.
    + intros [= <-]. eapply (write_settles (λ p, p)); [apply (keeps_mask p Hok)|exact Hw].
    + destruct (IsNotExist err) eqn:Hne; [|done]. intros [= <-].
      destruct (WriteFile_missing p want w err w1 Hok Hw Hne) as [Heq Hp].
      intros c' Hc'. apply ReadFile_ok_node in Hc'. rewrite Heq, Hp in Hc'. naive_solver.
Qed.

(** What a step of the masks keeps: the shape of the host, what the commands know, and
    every mask that is settled already. *)
Definition keeps_settled (w w' : World) : Prop :=
  same_shape (fs w') (fs w) ∧ host w' = host w ∧ ∀ q, queue_settled q w → queue_settled q w'.

Lemma queue_loop ps w w' :
  (∀ p, p ∈ ps → queue_ok p) → for_each ps (set_queue want) w = (Ok (), w') →
  keeps_settled w w' ∧ ∀ p, p ∈ ps → queue_settled p w'.
Proof.
  intros Hok Hrun. refine (for_each_establishes (set_queue want) (keeps_settled w)
    queue_settled ps w w' _ _ _ Hrun).
  - intros p s s' Hin (Hshape & Hhost & Hset) Hs.
    pose proof (set_queue_ok p s s' (Hok p Hin) Hs) as Hp.
    destruct (set_queue_any p s _ s' (Hok p Hin) Hs) as (Hshape' & Hhost' & Hother).
    split; [|done]. split_and!; [by etrans|by etrans|].
    intros q Hq. destruct (decide (q = p)) as [->|Hne]; [done|].
    eapply (attr_settled_same (λ p, p)); [by apply Hother|by apply Hset].
  - intros q p s s' _ Hin _ Hq Hs. destruct (decide (q = p)) as [->|Hne].
    { eapply set_queue_ok; [by apply Hok|exact Hs]. }
    destruct (set_queue_any p s _ s' (Hok p Hin) Hs) as (_ & _ & Hother).
    eapply (attr_settled_same (λ p, p)); [by apply Hother|done].
  - by split_and!.
Qed.

Lemma mask_settled_keeps on d a w w' :
  keeps_settled w w' → mask_settled on d a w → mask_settled on d a w'.
Proof.
  intros (Hshape & _ & Hset) Hm Hon dirs dir Hd Hin. apply Hset. apply (Hm Hon dirs dir); [|done].
  rewrite <-Hd. symmetry. by apply Glob_shape.
Qed.

Lemma ring_settled_keeps w w' :
  nic_ok → keeps_settled w w' → ring_settled w → ring_settled w'.
Proof.
  intros Hok (_ & Hhost & _) Hs Hon s Hv. apply (Hs Hon s). rewrite <-Hv.
  unfold ringBufferDrift. rewrite !value_bind_ok, !value_map_err by apply _.
  unfold value, run_cmd. rewrite !bind_run.
  by rewrite (query_host Hok w w' (eq_sym Hhost)).
Qed.

Lemma applyQueueMask_ok on d a w w' :
  nic_ok → (d, a) ∈ mask_kinds →
  (if on && (1 <? nc_NumCPUs r)%Z then applyQueueMask r d a else ret (Ok ())) w = (Ok (), w') →
  keeps_settled w w' ∧ mask_settled on d a w'.
Proof.
  intros Hok Hkind. unfold mask_settled. destruct (on && _).
  2: { intros [= <-]. split; [by split_and!|done]. }
  unfold applyQueueMask. rewrite bind_ok_value by apply _.
  destruct (value (queueDirs r d) w) as [dirs|e] eqn:Hd; [|done].
  intros [Hkeep Hall]%queue_loop.
  2: { intros p (dir & -> & Hin)%list_elem_of_fmap. by eapply (no_queues Hok). }
  split; [done|].
  intros _ dirs' dir Hd' Hin. apply Hall, list_elem_of_fmap. exists dir. split; [done|].
  assert (Ok (E:=error) dirs' = Ok dirs) as [= <-]; [|done].
  rewrite <-Hd, <-Hd'. by apply Glob_shape, Hkeep.
Qed.

Lemma applyRing_ok w w' :
  nic_ok → (if nc_RingBufferMax r then applyRingBufferMax r else ret (Ok ())) w = (Ok (), w') →
  ring_settled w'.
Proof.
  intros Hok Hrun Hon s Hs. rewrite Hon in Hrun. unfold applyRingBufferMax in Hrun.
  rewrite bind_value in Hrun by apply _.
  destruct (value (run_cmd _ _) w) as [out|e] eqn:Hq.
  - destruct (nonempty (ring_args _)) eqn:Hargs; simpl in Hrun.
    + run_inv. match goal with H : run_cmd _ _ _ = _ |- _ => apply run_cmd_ok in H;
        by eapply (set_rings Hok w w' out _ _ Hq eq_refl H Hon) end.
    + simplify_eq. apply nonempty_false, ring_settled_iff in Hargs.
      unfold ringBufferDrift in Hs. rewrite value_bind_ok, value_map_err, Hq in Hs by apply _.
      rewrite value_ret in Hs. by injection Hs as <-.
  - injection Hrun as <-. unfold ringBufferDrift in Hs.
    by rewrite value_bind_ok, value_map_err, Hq in Hs by apply _.
Qed.

Lemma nic_apply_settled w w' :
  nic_ok → nc_Interface r ≠ EmptyString → NICResource_Apply r w = (Ok (), w') →
  ring_settled w' ∧ mask_settled (nc_RPS r) "rx" "rps_cpus" w' ∧
  mask_settled (nc_XPS r) "tx" "xps_cpus" w'.
Proof.
  intros Hok Hi%String.eqb_neq Hrun. unfold NICResource_Apply in Hrun. rewrite Hi in Hrun.
  apply bind_ok_inv in Hrun as ([] & w1 & Hring & Hrun).
  apply bind_ok_inv in Hrun as ([] & w2 & Hrps & Hrun).
  apply applyRing_ok in Hring; [|done].
  apply applyQueueMask_ok in Hrps as [Hk1 Hrps]; [|done|by left].
  apply applyQueueMask_ok in Hrun as [Hk2 Hxps]; [|done|by right; left].
  split_and!; [by eauto using ring_settled_keeps|by eapply mask_settled_keeps|done].
Qed.

Lemma nic_converges : nic_ok → Converges (λ _, True) (nic_resource r).
Proof.
  intros Hok. split; [apply _|done|]. intros w w' _ Hrun. simpl in *.
  destruct (String.eqb_spec (nc_Interface r) EmptyString) as [Hnil|Hne].
  { unfold NICResource_Check. rewrite Hnil. simpl. check_done. }
  refine (unchanged_settled (nic_resource r) w' _).
  by apply nic_unchanged, (nic_apply_settled w w').
Qed.
End nic_facts.

(** ** Properties *)

(** C24: applying the NIC tuning converges on hosts that keep what they accept: afterwards
    ethtool reports no ring below its maximum, every mask of a receive queue and of a
    transmit queue that can be read stands for all the CPUs of the host, each for the
    features that are on, and the check is settled. *)
Theorem NICResource_Apply_converges {HK : Kernel} {HR : Runner} (r : NICResource) (w w' : World) :
  ReadOnly (Run "ethtool" ["-g"; nc_Interface r]) →
  nic_ok r → nc_Interface r ≠ EmptyString →
  NICResource_Apply r w = (Ok (), w') →
  (nc_RingBufferMax r = true → ∀ out, value (run_cmd "ethtool" ["-g"; nc_Interface r]) w' = Ok out →
     ring_args (parseEthtoolRingParams out) = []) ∧
  (nc_RPS r && (1 <? nc_NumCPUs r)%Z = true → ∀ dirs dir c,
     value (queueDirs r "rx") w' = Ok dirs → dir ∈ dirs →
     value (ReadFile (JoinPath [dir; "rps_cpus"])) w' = Ok c →
     mask_value c = mask_value (cpumaskAll (nc_NumCPUs r))) ∧
  (nc_XPS r && (1 <? nc_NumCPUs r)%Z = true → ∀ dirs dir c,
     value (queueDirs r "tx") w' = Ok dirs → dir ∈ dirs →
     value (ReadFile (JoinPath [dir; "xps_cpus"])) w' = Ok c →
     mask_value c = mask_value (cpumaskAll (nc_NumCPUs r))) ∧
  settled (value (NICResource_Check r) w').
Proof.
  intros Hq Hok Hi Hrun. destruct (nic_apply_settled r w w' Hok Hi Hrun) as (Hring & Hrps & Hxps).
  split_and!.
  - intros Hon out Hout. apply ring_settled_iff. apply (Hring Hon). unfold ringBufferDrift.
    by rewrite value_bind_ok, value_map_err, Hout by apply _.
  - intros Hon dirs dir c Hd Hin Hc. apply masks_equal_value.
    exact (Hrps Hon dirs dir Hd Hin c Hc).
  - intros Hon dirs dir c Hd Hin Hc. apply masks_equal_value.
    exact (Hxps Hon dirs dir Hd Hin c Hc).
  - by apply (cv_settles (Converges := nic_converges r Hok) w w').
Qed.

(** ** Reading [ethtool -g]

    Its output for a driver without the mini and jumbo rings. *)

Definition tabs : string := String "009" (String "009" EmptyString).

Definition ring_section (rx tx : Z) : list string :=
  ["RX:" +:+ tabs +:+ Itoa rx; "RX Mini:" +:+ tabs +:+ "n/a"; "RX Jumbo:" +:+ tabs +:+ "n/a";
   "TX:" +:+ tabs +:+ Itoa tx].

Definition ethtool_g (iface : string) (rp : ringParams) : string :=
  Join nls (["Ring parameters for " +:+ iface +:+ ":"; "Pre-set maximums:"]
    ++ ring_section (maxRX rp) (maxTX rp)
    ++ ["Current hardware settings:"]
    ++ ring_section (curRX rp) (curTX rp) ++ [EmptyString; EmptyString]).

Lemma take_digits_all s :
  forallb is_digit (String.list_ascii_of_string s) = true → take_digits s = s.
Proof.
  induction s as [|c s IH]; simpl; [done|]. intros [Hc Hs]%andb_true_iff.
  by rewrite Hc, IH.
Qed.

Lemma Itoa_digits z :
  (0 ≤ z)%Z → ∃ c s, Itoa z = String c s ∧
    forallb is_digit (String.list_ascii_of_string (String c s)) = true.
Proof.
  intros Hz. assert (Itoa z = digits_of_N (Z.to_N z)) as Heq.
  { unfold Itoa. by replace (z <? 0)%Z with false by lia. }
  pose proof (Itoa_nonempty z) as Hne. rewrite Heq in *.
  assert (forallb is_digit (String.list_ascii_of_string (digits_of_N (Z.to_N z))) = true) as Hd.
  { unfold digits_of_N, DecimalString.NilZero.string_of_uint. generalize (N.to_uint (Z.to_N z)).
    assert (∀ d, forallb is_digit (String.list_ascii_of_string (DecimalString.NilEmpty.string_of_uint d)) = true)
      as Hu by (induction d; simpl; done).
    intros d. destruct d; [done|apply Hu..]. }
  destruct (digits_of_N (Z.to_N z)) as [|c s]; [done|]. eauto.
Qed.

Lemma ring_value_line dir z :
  (dir = "RX" ∨ dir = "TX") → (0 ≤ z)%Z →
  TrimSpace (dir +:+ ":" +:+ tabs +:+ Itoa z) = dir +:+ ":" +:+ tabs +:+ Itoa z ∧
  ethtoolRingLineRe (dir +:+ ":" +:+ tabs +:+ Itoa z) = Some (dir, Itoa z).
Proof.
  intros Hdir Hz. split.
  - replace (dir +:+ ":" +:+ tabs +:+ Itoa z) with ((dir +:+ ":") +:+ tabs +:+ Itoa z)
      by by str_simpl.
    assert (ends_plain ((dir +:+ ":") +:+ tabs +:+ Itoa z)) as Hends.
    { apply spaced_ends; [by destruct Hdir as [->| ->]|done|done|apply field_ends, Itoa_field]. }
    destruct Hdir as [->| ->]; by apply TrimSpace_ends.
  - destruct (Itoa_digits z Hz) as (c & s & -> & Hd).
    simpl in Hd. apply andb_true_iff in Hd as [Hc Hd].
    assert (re_space c = false) as Hsp.
    { unfold re_space. unfold is_digit in Hc. bool_prop.
      repeat (apply orb_false_iff; split); apply N.eqb_neq; lia. }
    unfold tabs. destruct Hdir as [->| ->]; rewrite !str_cons_app, !str_nil_app;
      unfold ethtoolRingLineRe; simpl;
      rewrite Hsp; (rewrite take_digits_all by (simpl; by rewrite Hc)); done.
Qed.

Definition ring_set (section dir : string) (v : Z) (rp : ringParams) : ringParams :=
  if String.eqb section "max"
  then if String.eqb dir "RX" then mkRing v (maxTX rp) (curRX rp) (curTX rp)
       else mkRing (maxRX rp) v (curRX rp) (curTX rp)
  else if String.eqb dir "RX" then mkRing (maxRX rp) (maxTX rp) v (curTX rp)
       else mkRing (maxRX rp) (maxTX rp) (curRX rp) v.

Lemma ring_line_value section dir z rp :
  (section = "max" ∨ section = "current") → (dir = "RX" ∨ dir = "TX") →
  (0 ≤ z)%Z → in_int64 z = true →
  ring_line (section, rp) (dir +:+ ":" +:+ tabs +:+ Itoa z) = (section, ring_set section dir z rp).
Proof.
  intros Hs Hdir Hz Hr. destruct (ring_value_line dir z Hdir Hz) as [Htrim Hre].
  unfold ring_line. rewrite Htrim, Hre, Atoi_Itoa by done.
  destruct Hdir as [->| ->], Hs as [->| ->]; done.
Qed.

Lemma ring_section_fold section rx tx rp :
  (section = "max" ∨ section = "current") →
  (0 ≤ rx)%Z → in_int64 rx = true → (0 ≤ tx)%Z → in_int64 tx = true →
  fold_left ring_line (ring_section rx tx) (section, rp) =
  (section, ring_set section "TX" tx (ring_set section "RX" rx rp)).
Proof.
  intros Hs Hrx Hrx' Htx Htx'. unfold ring_section. cbn [fold_left].
  change ("RX:" +:+ tabs +:+ Itoa rx) with ("RX" +:+ ":" +:+ tabs +:+ Itoa rx).
  change ("TX:" +:+ tabs +:+ Itoa tx) with ("TX" +:+ ":" +:+ tabs +:+ Itoa tx).
  rewrite (ring_line_value section "RX") by auto.
  assert (∀ rp, ring_line (section, rp) ("RX Mini:" +:+ tabs +:+ "n/a") = (section, rp)) as ->
    by by destruct Hs as [->| ->].
  assert (∀ rp, ring_line (section, rp) ("RX Jumbo:" +:+ tabs +:+ "n/a") = (section, rp)) as ->
    by by destruct Hs as [->| ->].
  by rewrite (ring_line_value section "TX") by auto.
Qed.

(** ** Properties of the ring buffers *)

Definition ring_values_ok (rp : ringParams) : Prop :=
  Forall (λ v, 0 ≤ v ∧ in_int64 v = true)%Z [maxRX rp; maxTX rp; curRX rp; curTX rp].

Lemma ring_header iface st :
  ascii_word iface = true → ring_line st ("Ring parameters for " +:+ iface +:+ ":") = st.
Proof.
  intros Hf. destruct st as [section rp].
  assert (TrimSpace ("Ring parameters for " +:+ iface +:+ ":") =
    "Ring parameters for " +:+ iface +:+ ":") as Htrim.
  { assert (field (iface +:+ ":") = true) as Hf'.
    { apply ascii_word_field; [by rewrite ascii_word_app, Hf|by destruct iface]. }
    apply (TrimSpace_ends "R" ("ing parameters for " +:+ iface +:+ ":")); [done|].
    exact (spaced_ends "Ring" " " ("parameters for " +:+ iface +:+ ":") eq_refl eq_refl ltac:(done)
      (spaced_ends "parameters" " " ("for " +:+ iface +:+ ":") eq_refl eq_refl ltac:(done)
        (spaced_ends "for" " " (iface +:+ ":") eq_refl eq_refl ltac:(done) (field_ends _ Hf')))). }
  unfold ring_line. by rewrite Htrim.
Qed.

(** C31: what ethtool reports is what is read: for every combination of ring sizes, the
    parameters parsed from the output of ethtool -g are the ones it shows, with mini and
    jumbo rings that are not available in between. *)
Theorem parseEthtoolRingParams_reads (iface : string) (rp : ringParams) :
  ascii_word iface = true → ring_values_ok rp →
  parseEthtoolRingParams (ethtool_g iface rp) = rp.
Proof.
  intros Hi Hv. unfold ring_values_ok in Hv. rewrite !Forall_cons in Hv.
  destruct Hv as ([H1 H1'] & [H2 H2'] & [H3 H3'] & [H4 H4'] & _).
  assert (∀ z, sep_free nl (Itoa z) = true) as Hnl by (intros z; by apply Itoa_sep_free).
  unfold parseEthtoolRingParams, ethtool_g. unfold nls.
  rewrite Split_Join.
  - rewrite !fold_left_app. cbn [fold_left]. rewrite ring_header by done.
    assert (∀ st, ring_line st "Pre-set maximums:" = ("max", st.2)) as -> by by intros [].
    rewrite ring_section_fold by auto.
    assert (∀ st, ring_line st "Current hardware settings:" = ("current", st.2)) as -> by by intros [].
    rewrite ring_section_fold by auto.
    assert (∀ st, ring_line st EmptyString = st) as Hnil by by intros [].
    rewrite !Hnil. by destruct rp.
  - done.
  - unfold ring_section. rewrite !Forall_app, !Forall_cons, !sep_free_app, !Hnl.
    assert (sep_free nl iface = true) as ->; [|by repeat constructor].
    rewrite sep_free_forallb. unfold ascii_word in Hi. rewrite forallb_forall in Hi |- *.
    intros c Hc. apply Hi in Hc. bool_prop. apply negb_true_iff.
    destruct (Ascii.eqb_spec c nl) as [->|]; done.
Qed.

Definition ena_low : ringParams := mkRing 8192 1024 512 1024.
Definition ena_max : ringParams := mkRing 8192 1024 8192 1024.

(** An ethtool that knows whether the rings have been raised. *)
Definition ena_runner : Runner := λ name args w,
  if bool_decide (args = ["-g"; "eth0"]) then
    ((ethtool_g "eth0" (if bool_decide (host w !! "rings" = Some "max") then ena_max else ena_low),
      None), w)
  else if bool_decide (args = ["-G"; "eth0"; "rx"; "8192"]) then
    ((EmptyString, None), mkWorld (fs w) (<["rings" := "max"]> (host w)))
  else ((EmptyString, Some (TextError "exit status 1")), w).

Definition queue_path (q a : string) : string := "/sys/class/net/eth0/queues/" +:+ q +:+ "/" +:+ a.

Definition ena_world : World :=
  etc_world [("/sys/class/net/eth0/queues", NDir);
             ("/sys/class/net/eth0/queues/rx-0", NDir); ("/sys/class/net/eth0/queues/tx-0", NDir);
             (queue_path "rx-0" "rps_cpus", NKnob (Ok ("0" +:+ nls)));
             (queue_path "tx-0" "xps_cpus", NKnob (Ok ("00000000,0000000f" +:+ nls)))].

Definition eth0_nic : NICResource := mkNIC New "eth0" 4 true true true.

Lemma ena_query_read_only : ReadOnly (ena_runner "ethtool" ["-g"; "eth0"]).
Proof. by intros w. Qed.

Lemma ena_nic_ok : nic_ok (HK := sysfs_kernel) (HR := ena_runner) eth0_nic.
Proof.
  split.
  - intros d a w dirs dir _ _ _. split; try done.
    intros s. apply attr_keeps_intro; [by vm_compute|]. intros old c [= <-]. by vm_compute.
  - intros w w' Hw. unfold Run, ena_runner. simpl. by rewrite Hw.
  - intros w w' out out' args _ _. unfold Run, ena_runner.
    case_bool_decide; [done|]. case_bool_decide; [|done]. intros [= _ <-] _ s.
    unfold ringBufferDrift. unfold value. rewrite bind_ok_run, map_err_run. unfold run_cmd.
    rewrite bind_run. unfold Run. simpl. rewrite lookup_insert_eq. vm_compute. by intros [= <-].
Qed.

Example NICResource_Apply_converges_witness :
  let k := sysfs_kernel in let rn := ena_runner in
  let w' := (NICResource_Apply eth0_nic ena_world).2 in
  rDetail (value (NICResource_Check eth0_nic) ena_world).1 =
    "ring buffers: rx 512 -> 8192; rps_cpus out of date on 1 queue(s)" ∧
  settled (value (NICResource_Check eth0_nic) w').
Proof.
  intros k rn w'. split; [by vm_compute|].
  refine (proj2 (proj2 (proj2 (NICResource_Apply_converges eth0_nic ena_world w' _ _ _ _)))).
  - exact ena_query_read_only.
  - exact ena_nic_ok.
  - done.
  - apply run_ok. by vm_compute.
Defined.

Example parseEthtoolRingParams_reads_witness :
  parseEthtoolRingParams (ethtool_g "eth0" ena_low) = ena_low.
Proof.
  apply (parseEthtoolRingParams_reads "eth0" ena_low); [by vm_compute|].
  by repeat constructor.
Defined.
