(* ===== verification/Applies.v ===== *)
(** * What an apply is made of

    An [Apply] moves the host along a preorder if each of its writes and commands does. These
    lemmas follow the structure of the resources' applies once, whatever is to be shown of
    them: that a zone stays as it is, that the file system stays a tree. *)

From S2P Require Import Prelude GoStrings GoPath GoOS Sysutil Frame GoFmt.
From S2P Require Import Resource DropIn Sysctl Kmod Swap Mount Attr CPUGovernor IOScheduler.
From S2P Require Import IRQAffinity CPUMask NIC.

Section applies.
Context {HK : Kernel} {HR : Runner} {HU : Unicode} (R : relation World) `{!PreOrder R}.

Lemma run_cmd_respects name args :
  Respects R (Sysutil.Run name args) → Respects R (run_cmd name args).
Proof. intros H. unfold run_cmd. respects_bind; [done|]. apply _. Qed.

Lemma persist_respects msg file content :
  Respects R (WriteFileIfChanged file content 420) → Respects R (persist msg file content).
Proof.
  intros H. unfold persist. apply if_respects; [apply _|].
  respects_bind; [by apply map_err_respects|]. apply _.
Qed.

(** The table is backed up, then replaced. *)
Definition fstab_respects (e : Env) : Prop :=
  Respects R (BackupFile (fstabPath e)) ∧
  ∀ content, Respects R (WriteFileIfChanged (fstabPath e) content 420).

Lemma rewrite_fstab_respects e content :
  fstab_respects e → Respects R (rewrite_fstab e content).
Proof.
  intros [Hb Hw]. unfold rewrite_fstab. respects_bind; [by apply map_err_respects|]. intros _.
  respects_bind; [by apply map_err_respects|]. apply _.
Qed.

Lemma sysctl_respects r :
  (∀ k v, Respects R (WriteFile (SysctlPath (sc_Env r) k) v 420)) →
  (∀ content, Respects R (WriteFileIfChanged (sc_PersistFile r) content 420)) →
  Respects R (Apply (sysctl_resource r)).
Proof.
  intros Hw Hp. simpl. unfold SysctlResource_Apply. respects_bind.
  - apply for_each_respects; [apply _|]. intros k. unfold apply_key.
    respects_bind. intros ex. apply if_respects; [apply _|].
    respects_bind. intros cur. apply if_respects; [apply _|]. apply map_err_respects.
    unfold WriteSysctl. by respects_bind.
  - intros _. by apply persist_respects.
Qed.

Lemma kmod_respects r :
  (∀ m, m ∈ km_Modules r → Respects R (Sysutil.Run "modprobe" [m])) →
  (∀ content, Respects R (WriteFileIfChanged (km_PersistFile r) content 420)) →
  Respects R (Apply (kmod_resource r)).
Proof.
  intros Hmod Hp. simpl. unfold KernelModuleResource_Apply. respects_bind. intros loaded.
  respects_bind; [|intros _; by apply persist_respects].
  apply for_each_respects_in; [apply _|]. intros m Hin%elem_of_wantModules. unfold load_module.
  apply if_respects; [apply _|]. respects_bind; [|apply _].
  by apply map_err_respects, run_cmd_respects, Hmod.
Qed.

Lemma swap_respects `{!ReadOnly (Sysutil.Run "systemctl" list_units_args)} e :
  Respects R (Sysutil.Run "swapoff" ["-a"]) →
  (∀ unit, Respects R (Sysutil.Run "systemctl" ["mask"; unit])) →
  fstab_respects e → Respects R (Apply (swap_resource e)).
Proof.
  intros Hoff Hmask Htab. simpl. unfold SwapResource_Apply. respects_bind.
  - unfold swap_off. respects_bind. intros active. respects_bind.
    + apply if_respects; [|apply _]. respects_bind; [|apply _].
      by apply map_err_respects, run_cmd_respects.
    + intros _. unfold commentFstabSwapLines. respects_bind. intros [c|err]; [|apply _].
      apply if_respects; [apply _|]. by apply rewrite_fstab_respects.
  - intros _. respects_bind. intros units. apply for_each_respects; [apply _|]. intros u.
    unfold mask_unit. respects_bind; [|apply _]. by apply map_err_respects, run_cmd_respects.
Qed.

Lemma persistFstab_respects r : fstab_respects (mt_Env r) → Respects R (persistFstab r).
Proof.
  intros Htab. unfold persistFstab. respects_bind.
  intros [c|err]; repeat (apply if_respects; [apply _|]); by apply rewrite_fstab_respects.
Qed.

Lemma mount_respects r :
  Respects R (MkdirAll (mt_Path r)) → Respects R (Sysutil.Run "mount" (mount_args r)) →
  Respects R (persistFstab r) → Respects R (Apply (mount_resource r)).
Proof.
  intros Hd Hm Hf. simpl. unfold MountResource_Apply. respects_bind. intros mounted.
  respects_bind; [|intros _; apply if_respects; [done|apply _]].
  apply if_respects; [|apply _]. unfold do_mount.
  respects_bind; [by apply map_err_respects|]. intros _.
  respects_bind; [|apply _]. by apply map_err_respects, run_cmd_respects.
Qed.

Lemma dropin_respects d :
  (∀ mode, Respects R (WriteFileIfChanged (df_Path d) (df_Content d) mode)) →
  Respects R (Apply (dropin_resource d)).
Proof.
  intros Hw. simpl. unfold DropInFileResource_Apply. respects_bind; [|apply _].
  by apply map_err_respects.
Qed.

Lemma irq_respects r :
  (∀ n v, Respects R (WriteFile (affinityPath r (Itoa n)) v 420)) →
  Respects R (Apply (irqaffinity_resource r)).
Proof.
  intros Hw. simpl. unfold IRQAffinityResource_Apply. intros w.
  rewrite bind_ok_value by apply _.
  destruct (value (enaIRQs _) w) as [irqs|] eqn:Hi; [|reflexivity].
  apply for_each_respects_in; [apply _|]. intros irq Hin.
  destruct (enaIRQs_numbers _ _ _ _ Hi Hin) as [i ->].
  unfold set_affinity. respects_bind. intros cur. apply if_respects; [apply _|].
  by apply map_err_respects.
Qed.

Lemma governor_respects r :
  (∀ w ps p, value (governorPaths r) w = Ok ps → p ∈ ps →
     Respects R (WriteFile p (cg_Governor r) 420)) →
  Respects R (Apply (cpugovernor_resource r)).
Proof.
  intros Hw. simpl. unfold CPUGovernorResource_Apply. apply if_respects; [apply _|].
  intros w. rewrite bind_ok_value by apply _.
  destruct (value (governorPaths _) w) as [ps|] eqn:Hp; [|reflexivity].
  apply for_each_respects_in; [apply _|]. intros p Hin. unfold set_governor.
  respects_bind. intros cur. apply if_respects; [apply _|].
  by eapply map_err_respects, Hw.
Qed.

Lemma scheduler_respects r :
  (∀ dev, plain_elem dev = true →
     Respects R (WriteFile (schedulerPath r dev) (io_Scheduler r) 420)) →
  Respects R (Apply (ioscheduler_resource r)).
Proof.
  intros Hw. simpl. unfold IOSchedulerResource_Apply. apply if_respects; [apply _|].
  intros w. rewrite bind_ok_value by apply _.
  destruct (value (nvmeDevices _) w) as [devices|] eqn:Hd; [|reflexivity].
  apply for_each_respects_in; [apply _|]. intros dev Hin. unfold set_scheduler.
  respects_bind. intros cur. apply if_respects; [apply _|].
  apply map_err_respects, Hw. by eapply nvmeDevices_plain.
Qed.

(** The masks of the queues that are found. *)
Lemma applyQueueMask_respects r d a :
  (∀ w dirs dir, value (queueDirs r d) w = Ok dirs → dir ∈ dirs →
     Respects R (WriteFile (JoinPath [dir; a]) (cpumaskAll (nc_NumCPUs r)) 420)) →
  Respects R (applyQueueMask r d a).
Proof.
  intros Hw. unfold applyQueueMask. intros w. rewrite bind_ok_value by apply _.
  destruct (value (queueDirs _ _) w) as [dirs|] eqn:Hd; [|reflexivity].
  apply for_each_respects_in; [apply _|]. intros p (dir & -> & Hin)%list_elem_of_fmap.
  unfold set_queue. respects_bind. intros cur. apply if_respects; [apply _|].
  respects_bind; [by eapply Hw|]. apply _.
Qed.

Lemma nic_respects `{!∀ iface, ReadOnly (Sysutil.Run "ethtool" ["-g"; iface])} r :
  (nc_Interface r ≠ EmptyString → ∀ args,
     Respects R (Sysutil.Run "ethtool" (["-G"; nc_Interface r] ++ args))) →
  (nc_Interface r ≠ EmptyString → ∀ d a w dirs dir, (d, a) ∈ mask_kinds →
     value (queueDirs r d) w = Ok dirs → dir ∈ dirs →
     Respects R (WriteFile (JoinPath [dir; a]) (cpumaskAll (nc_NumCPUs r)) 420)) →
  Respects R (Apply (nic_resource r)).
Proof.
  intros Hset Hmask. simpl. unfold NICResource_Apply.
  destruct (String.eqb_spec (nc_Interface r) EmptyString) as [|Hne]; [apply _|].
  specialize (Hset Hne). specialize (Hmask Hne). respects_bind.
  - apply if_respects; [|apply _]. unfold applyRingBufferMax. respects_bind.
    intros [out|e]; [|apply _]. apply if_respects; [apply _|]. respects_bind; [|apply _].
    by apply map_err_respects, run_cmd_respects, Hset.
  - intros _. respects_bind.
    + apply if_respects; [|apply _]. apply applyQueueMask_respects.
      intros w dirs dir. apply Hmask. by left.
    + intros _. apply if_respects; [|apply _]. apply applyQueueMask_respects.
      intros w dirs dir. apply Hmask. by right; left.
Qed.

End applies.
