(* ===== verification/Zones.v ===== *)
(** * What the resources look at and what they change

    The parts of the host that the resources look at are [zone]s. Every resource's check
    depends on its own zones only (the [_looks] lemmas), and its [Apply], whatever its
    outcome, changes no other (the [_touches] lemmas). *)

From S2P Require Import Prelude GoStrings GoPath GoOS Sysutil Frame GoFmt.
From S2P Require Import Resource DropIn Sysctl Kmod Swap Mount Attr CPUGovernor IOScheduler.
From S2P Require Import IRQAffinity CPUMask NIC Applies.

(** ** The zones of the host *)

Inductive zone : Set :=
| ZSysctl | ZModules | ZSwaps | ZMounts | ZFstab | ZInterrupts | ZIrq | ZNet | ZCpu | ZBlock
| ZManaged (file : string)
| ZRing.

#[export] Instance zone_eq_dec : EqDecision zone.
Proof. solve_decision. Defined.

(** The files the program writes as a whole. *)
Definition managed_files : list string := [
  "/etc/sysctl.d/99-node-configurator.conf";
  "/etc/modules-load.d/99-node-configurator.conf";
  "/etc/security/limits.d/99-node-configurator.conf";
  "/etc/systemd/system/containerd.service.d/99-node-configurator.conf";
  "/etc/systemd/system/kubelet.service.d/99-node-configurator.conf";
  "/etc/systemd/system/cilium.service.d/99-node-configurator.conf"
].

(** The zone a path belongs to; most paths belong to none. *)
Definition zone_of (q : string) : option zone :=
  if existsb (String.eqb q) managed_files then Some (ZManaged q)
  else if String.eqb q "/etc/fstab" then Some ZFstab
  else if String.eqb q "/proc/modules" then Some ZModules
  else if String.eqb q "/proc/swaps" then Some ZSwaps
  else if String.eqb q "/proc/mounts" then Some ZMounts
  else if String.eqb q "/proc/interrupts" then Some ZInterrupts
  else if HasPrefix q "/proc/sys" then Some ZSysctl
  else if HasPrefix q "/proc/irq" then Some ZIrq
  else if HasPrefix q "/sys/class/net" then Some ZNet
  else if HasPrefix q "/sys/devices/system/cpu" then Some ZCpu
  else if HasPrefix q "/sys/block" then Some ZBlock
  else None.

Lemma Path_New es : plain_elems es → Path New es = rooted_path es.
Proof. intros Hes. by rewrite Path_plain. Qed.

(** The zone is decided by the literal start of a path. *)
Ltac zone_literal := let s := fresh "s" in intros s; by destruct s.

(** What is below a directory that a zone covers is in the zone. *)
Lemma zone_of_below base z q :
  base ≠ [] → (∀ s, zone_of (rooted_path base +:+ s) = Some z) → below base q →
  zone_of q = Some z.
Proof. intros Hne Hz Hq. destruct (below_text base q Hne Hq) as [s ->]. apply Hz. Qed.

Lemma zone_of_Path base es z :
  base ≠ [] → plain_elems base → plain_elems es →
  (∀ s, zone_of (rooted_path base +:+ s) = Some z) → zone_of (Path New (base ++ es)) = Some z.
Proof.
  intros Hne Hb Hes Hz. apply (zone_of_below base); [done..|]. exists es. split; [done|].
  apply Path_New. by apply plain_elems_app.
Qed.

Lemma zone_of_sysctl k : zone_of (SysctlPath New k) = Some ZSysctl.
Proof.
  rewrite SysctlPath_elems by done. apply (zone_of_below ["proc"; "sys"]); [done|zone_literal|].
  exists (sysctl_elems k). split; [apply sysctl_elems_plain|done].
Qed.

Lemma zone_of_affinity iface n z :
  zone_of (affinityPath (mkIRQ New iface n) (Itoa z)) = Some ZIrq.
Proof.
  apply (zone_of_Path ["proc"; "irq"] [Itoa z; "smp_affinity_list"]); [done|by repeat constructor| |zone_literal].
  repeat constructor. apply plain_elem_Itoa.
Qed.

Lemma zone_of_scheduler s dev :
  plain_elem dev = true → zone_of (schedulerPath (mkIOScheduler New s) dev) = Some ZBlock.
Proof.
  intros Hd. apply (zone_of_Path ["sys"; "block"] [dev; "queue"; "scheduler"]);
    [done|by repeat constructor|by repeat constructor|zone_literal].
Qed.

(** ** Hosts that agree on a zone *)

Section zones.
Context {HK : Kernel} {HR : Runner} {HU : Unicode}.

(** The settings of the profile: of /proc/sys, they are what the program looks at. *)
Context (settings : gmap string string).

Definition region (z : zone) (q : string) : Prop :=
  zone_of q = Some z ∧ (z = ZSysctl → ∃ k, k ∈ sortedKeys settings ∧ q = SysctlPath New k).

(** Two hosts agree on a zone if it holds the same; on the rings, if ethtool says so. *)
Definition same (z : zone) (w w' : World) : Prop :=
  match z with
  | ZRing => ∀ iface,
      (Sysutil.Run "ethtool" ["-g"; iface] w').1 = (Sysutil.Run "ethtool" ["-g"; iface] w).1
  | _ => ∀ q, region z q → fs w' !! q = fs w !! q
  end.

#[export] Instance same_preorder z : PreOrder (same z).
Proof.
  split; [by destruct z|]. intros w1 w2 w3. destruct z; simpl; intros H H' q; intros;
    by rewrite H', H.
Qed.

Lemma same_zone z q w w' :
  zone_of q = Some z → z ≠ ZSysctl → same z w w' → fs w' !! q = fs w !! q.
Proof.
  intros Hz Hne Hs. assert (region z q) as Hr by (split; [done|by intros ->]).
  destruct z; try by apply Hs. exfalso. unfold zone_of in Hz. repeat case_match; done.
Qed.

Lemma same_setting k w w' :
  k ∈ sortedKeys settings → same ZSysctl w w' →
  fs w' !! SysctlPath New k = fs w !! SysctlPath New k.
Proof. intros Hk Hs. apply Hs. split; [apply zone_of_sysctl|eauto]. Qed.

(** What ethtool answers does not depend on files. *)
Context (Hring : ∀ iface w w', host w' = host w →
  (Sysutil.Run "ethtool" ["-g"; iface] w').1 = (Sysutil.Run "ethtool" ["-g"; iface] w).1).

Lemma files_same z w w' : files_only (region z) w w' → same z w w'.
Proof using Hring. intros [Hh Hf]. destruct z; try exact Hf. intros iface. by apply Hring. Qed.

Lemma respects_files {A} z (c : M World A) :
  Respects (files_only (region z)) c → Respects (same z) c.
Proof using Hring. apply respects_sub, files_same. Qed.

Lemma not_region z q : zone_of q ≠ Some z → ¬ region z q.
Proof. by intros Hz [? _]. Qed.

Lemma WriteFile_same z p data perm :
  zone_of p ≠ Some z → Respects (same z) (WriteFile p data perm).
Proof using Hring. intros Hz. by apply respects_files, WriteFile_frame, not_region. Qed.

(** The files the program writes whole: their directories and temporary files are in no zone. *)
Definition outside_zones (path : string) : Prop :=
  Forall (λ d, zone_of d = None) (ancestors (DirPath path) ++ [DirPath path]) ∧
  ∀ r, zone_of (child (DirPath path) (("." +:+ BasePath path +:+ ".tmp-") +:+ r)) = None.

Lemma outside_unwatched z path :
  outside_zones path → zone_of path ≠ Some z → unwatched_write (region z) path.
Proof.
  intros [Hd Ht] Hz. split.
  - by apply not_region.
  - eapply Forall_impl; [exact Hd|]. intros d Hn. apply not_region. by rewrite Hn.
  - intros r. apply not_region. by rewrite Ht.
Qed.

Lemma managed_outside path : path ∈ managed_files → outside_zones path.
Proof.
  assert (Forall outside_zones managed_files) as H; [|by apply (proj1 (Forall_forall _ _) H)].
  repeat constructor.
Qed.

Lemma fstab_outside : outside_zones "/etc/fstab".
Proof. repeat constructor. Qed.

Lemma zone_of_managed path : path ∈ managed_files → zone_of path = Some (ZManaged path).
Proof.
  assert (Forall (λ path, zone_of path = Some (ZManaged path)) managed_files) as H;
    [|by apply (proj1 (Forall_forall _ _) H)].
  repeat constructor.
Qed.

Lemma write_managed_same z path content mode :
  path ∈ managed_files → z ≠ ZManaged path →
  Respects (same z) (WriteFileIfChanged path content mode).
Proof using Hring.
  intros Hp Hz. apply respects_files, WriteFileIfChanged_frame, outside_unwatched.
  - by apply managed_outside.
  - rewrite zone_of_managed by done. congruence.
Qed.

Lemma ReadFile_same_zone z p w w' c :
  zone_of p = Some z → z ≠ ZSysctl → same z w w' →
  value (ReadFile p) w = Ok c → value (ReadFile p) w' = Ok c.
Proof. intros Hz Hne Hs. apply ReadFile_same. symmetry. by eapply same_zone. Qed.
End zones.

(** ** What a check looks at

    Each resource stays settled on a host that agrees on what it looks at. *)

Lemma converged_unchanged r `{!WellBehaved r} w :
  rStatus (value (Checking r) w).1 ≠ StatusSkipped →
  rStatus (value (Checking r) w).1 ≠ StatusRebootRequired →
  converged r w ↔ rStatus (value (Checking r) w).1 = StatusUnchanged.
Proof.
  intros Hs Hr. split; [|by apply unchanged_settled].
  intros [_ H]. rewrite !elem_of_cons, elem_of_nil in H. naive_solver.
Qed.

Section looks.
Context {HK : Kernel} {HR : Runner} {HU : Unicode} (settings : gmap string string).
Context {Hlist : ReadOnly (Sysutil.Run "systemctl" list_units_args)}.
Context {Hask : ∀ iface, ReadOnly (Sysutil.Run "ethtool" ["-g"; iface])}.

Lemma sysctl_converged_iff file w :
  converged (sysctl_resource (mkSysctl New settings file)) w ↔
  (∀ k, k ∈ sortedKeys settings → key_settled (mkSysctl New settings file) k w) ∧
  (file = EmptyString ∨ value (ReadFile file) w = Ok (renderSysctlFile settings)).
Proof.
  rewrite converged_unchanged, <-(persist_needed_false file).
  - apply (sysctl_unchanged (mkSysctl New settings file)).
  - apply _.
  - simpl. unfold SysctlResource_Check. rewrite value_bind by apply _.
    destruct (value (SysctlResource_diffLive _) w) as [[]|]; simpl; [|done].
    rewrite value_bind by apply _. by case_bool.
  - simpl. unfold SysctlResource_Check. rewrite value_bind by apply _.
    destruct (value (SysctlResource_diffLive _) w) as [[]|]; simpl; [|done].
    rewrite value_bind by apply _. by case_bool.
Qed.

Lemma sysctl_looks file w w' :
  file ∈ managed_files →
  same settings ZSysctl w w' → same settings (ZManaged file) w w' →
  converged (sysctl_resource (mkSysctl New settings file)) w →
  converged (sysctl_resource (mkSysctl New settings file)) w'.
Proof.
  intros Hf Hs Hm. rewrite !sysctl_converged_iff. intros [Hk Hp]. split.
  - intros k Hin. eapply key_settled_same; [|by apply Hk]. by eapply same_setting.
  - destruct Hp as [?|Hp]; [by left|right].
    eapply ReadFile_same_zone; [by apply zone_of_managed|done|exact Hm|done].
Qed.

Lemma kmod_looks modules file w w' :
  file ∈ managed_files →
  same settings ZModules w w' → same settings (ZManaged file) w w' →
  converged (kmod_resource (mkKmod New modules file)) w →
  converged (kmod_resource (mkKmod New modules file)) w'.
Proof.
  intros Hf Hs Hm. destruct (decide (modules = [])) as [->|Hne]; [done|].
  assert (∀ w, converged (kmod_resource (mkKmod New modules file)) w ↔
    (∃ loaded, value (loadedModules (mkKmod New modules file)) w = Ok loaded ∧
      ∀ m, m ∈ modules → m ∈ loaded) ∧
    (file = EmptyString ∨ value (ReadFile file) w =
       Ok (renderModulesFile (wantModules (mkKmod New modules file))))) as Hiff.
  { intros s. rewrite converged_unchanged, <-(persist_needed_false file).
    - by apply (kmod_unchanged (mkKmod New modules file)).
    - apply _.
    - simpl. unfold KernelModuleResource_Check. simpl. apply nonempty_true in Hne as ->. simpl.
      rewrite value_bind by apply _. destruct (value (loadedModules _) s); [|done].
      rewrite value_bind by apply _. by case_bool.
    - simpl. unfold KernelModuleResource_Check. simpl. apply nonempty_true in Hne as ->. simpl.
      rewrite value_bind by apply _. destruct (value (loadedModules _) s); [|done].
      rewrite value_bind by apply _. by case_bool. }
  rewrite !Hiff. intros [(loaded & Hl & Hall) Hp]. split.
  - exists loaded. split; [|done]. rewrite <-Hl. apply loadedModules_same.
    + by apply (same_zone settings ZModules).
    + by eapply loadedModules_there.
  - destruct Hp as [?|Hp]; [by left|right].
    eapply ReadFile_same_zone; [by apply zone_of_managed|done|exact Hm|done].
Qed.

Lemma fstab_content_same w w' :
  same settings ZFstab w w' → fstab_content New w' = fstab_content New w.
Proof.
  intros Hs. unfold fstab_content, ReadFileString. change (fstabPath New) with "/etc/fstab".
  assert (fs w' !! "/etc/fstab" = fs w !! "/etc/fstab") as Heq by by apply (same_zone settings ZFstab).
  unfold value, ReadFile, read_node. simpl. rewrite Heq.
  by destruct (fs w !! "/etc/fstab") as [[| |[]]|].
Qed.

Lemma swap_converged_iff w :
  converged (swap_resource New) w ↔
  value (activeSwapDevices New) w = Ok [] ∧
  fstabHasActiveSwapLines (fstab_content New w) = false ∧ value activeSwapUnits w = [].
Proof using Hlist.
  rewrite converged_unchanged; [by apply swap_unchanged|apply _|..]; simpl; unfold SwapResource_Check;
    (rewrite value_bind by apply _; destruct (value (activeSwapDevices New) w); [|done];
     rewrite !value_bind by apply _; by case_bool).
Qed.

Lemma swap_looks w w' :
  units_follow_devices New →
  same settings ZSwaps w w' → fstabHasActiveSwapLines (fstab_content New w') = false →
  converged (swap_resource New) w → converged (swap_resource New) w'.
Proof using Hlist.
  intros Hunits Hs Hf. rewrite !swap_converged_iff. intros (Hd & _ & _).
  assert (value (activeSwapDevices New) w' = Ok []) as Hd'.
  { eapply activeSwapDevices_same; [|exact Hd]. by apply (same_zone settings ZSwaps). }
  split_and!; [done|done|by apply Hunits].
Qed.

Lemma mount_converged_iff r w :
  converged (mount_resource r) w ↔
  value (isMounted r) w = Ok true ∧
  (mt_FstabPersist r = true →
   fstabLineExists (fstab_content (mt_Env r) w) (mt_Path r) = true).
Proof.
  rewrite converged_unchanged; [by apply mount_unchanged|apply _|..]; simpl; unfold MountResource_Check;
    (rewrite value_bind by apply _; destruct (value (isMounted r) w); [|done];
     rewrite value_bind by apply _; by case_bool).
Qed.

Lemma mount_looks r w w' :
  mt_Env r = New →
  same settings ZMounts w w' → same settings ZFstab w w' →
  converged (mount_resource r) w → converged (mount_resource r) w'.
Proof.
  intros He Hs Hf. rewrite !mount_converged_iff, He. intros [Hm Hl].
  rewrite (fstab_content_same w w') by done. split; [|done].
  eapply isMounted_same; [|exact Hm]. rewrite He. by apply (same_zone settings ZMounts).
Qed.

Lemma dropin_looks d w w' :
  df_Path d ∈ managed_files → same settings (ZManaged (df_Path d)) w w' →
  converged (dropin_resource d) w → converged (dropin_resource d) w'.
Proof.
  intros Hp Hs. rewrite !dropin_converged.
  by eapply ReadFile_same_zone; [apply zone_of_managed|..].
Qed.

Lemma irq_looks iface n w w' :
  same settings ZInterrupts w w' → same settings ZIrq w w' →
  converged (irqaffinity_resource (mkIRQ New iface n)) w →
  converged (irqaffinity_resource (mkIRQ New iface n)) w'.
Proof.
  set (r := mkIRQ New iface n). intros Hi Hq Hc.
  destruct (String.eqb iface EmptyString || (n <=? 1)%Z) eqn:Hskip.
  { unfold converged. simpl. unfold IRQAffinityResource_Check. simpl. rewrite Hskip. check_done. }
  unfold converged in Hc. simpl in Hc.
  destruct (value (enaIRQs r) w) as [irqs|e] eqn:Hv.
  2: { unfold IRQAffinityResource_Check in Hc. simpl in Hc. rewrite Hskip, value_bind, Hv in Hc by apply _.
       apply settled_not_changed in Hc as [_ Hc]. by rewrite value_check_failed in Hc. }
  assert (value (enaIRQs r) w' = Ok irqs) as Hv'.
  { eapply enaIRQs_same; [|exact Hv]. by apply (same_zone settings ZInterrupts). }
  destruct (decide (irqs = [])) as [->|Hne].
  { unfold converged. simpl. unfold IRQAffinityResource_Check. simpl.
    rewrite Hskip, value_bind, Hv' by apply _. simpl. check_done. }
  apply orb_false_iff in Hskip as [Hif Hn]. apply String.eqb_neq in Hif.
  assert ((1 < n)%Z) as Hn1 by lia.
  apply (unchanged_settled (irqaffinity_resource r)). simpl.
  apply (irq_unchanged r irqs w' Hif Hn1 Hv' Hne).
  assert (rStatus (value (IRQAffinityResource_Check r) w).1 = StatusUnchanged) as Hu.
  { apply (converged_unchanged (irqaffinity_resource r)); [..|exact Hc]; simpl;
      unfold IRQAffinityResource_Check; simpl;
      rewrite (proj2 (String.eqb_neq _ _) Hif), (proj2 (Z.leb_gt _ _) Hn1); cbn [orb];
      rewrite value_bind, Hv by apply _; rewrite (proj2 (nonempty_true irqs) Hne); cbn [negb];
      rewrite value_bind by apply _; by case_bool. }
  intros irq Hin. eapply attr_settled_same; [|by apply (irq_unchanged r irqs w Hif Hn1 Hv Hne)].
  destruct (enaIRQs_numbers r irqs w irq Hv Hin) as [z ->].
  apply (same_zone settings ZIrq); [apply zone_of_affinity|done|done].
Qed.

(** The paths of the interface's queues. *)
Definition net_base : list string := ["sys"; "class"; "net"].

Lemma queueDirs_pattern r d :
  nc_Env r = New → plain_elem (nc_Interface r) = true → (d = "rx" ∨ d = "tx") →
  queueDirs r d = Glob (rooted_path (net_base ++ [nc_Interface r; "queues"; d +:+ "-*"])).
Proof.
  intros He Hi Hd. unfold queueDirs. rewrite He. f_equal. apply Path_New.
  repeat constructor; [done|]. by destruct Hd as [->| ->].
Qed.

Lemma limit_large n : n ≤ 100 → n < pathSeparatorsLimit.
Proof.
  intros Hn. with_strategy transparent [pathSeparatorsLimit] unfold pathSeparatorsLimit. lia.
Qed.
Lemma same_alike base z w w' :
  base ≠ [] → (∀ s, zone_of (rooted_path base +:+ s) = Some z) → z ≠ ZSysctl →
  same settings z w w' → alike_below base (fs w) (fs w').
Proof.
  intros Hne Hz Hs Hw q Hq. f_equal. symmetry. apply (same_zone settings z); [|done..].
  by apply (zone_of_below base).
Qed.

(** The directories of the queues are found below /sys/class/net. *)
Lemma queueDirs_alike r d w w' :
  nc_Env r = New → plain_elem (nc_Interface r) = true → (d = "rx" ∨ d = "tx") →
  alike_below net_base (fs w) (fs w') →
  value (queueDirs r d) w = value (queueDirs r d) w' ∧
  ∀ dirs, value (queueDirs r d) w = Ok dirs → Forall (below net_base) dirs.
Proof.
  intros He Hi Hd Ha. rewrite (queueDirs_pattern r d He Hi Hd).
  apply Glob_below; [by repeat constructor|done|done| |apply limit_large; simpl; lia|done].
  repeat constructor; [done|]. by destruct Hd as [->| ->].
Qed.

Lemma zone_of_net q : below net_base q → zone_of q = Some ZNet.
Proof. apply zone_of_below; [done|zone_literal]. Qed.

Lemma queue_path_below dir a :
  below net_base dir → plain_elem a = true → below net_base (JoinPath [dir; a]).
Proof.
  intros (es & Hes & ->) Ha.
  assert (plain_elems (net_base ++ es)) as Hp.
  { apply plain_elems_app. split; [by repeat constructor|done]. }
  rewrite JoinPath_rooted by done. exists (es ++ [a]). rewrite app_assoc. split; [|done].
  apply plain_elems_app. split; [done|]. by repeat constructor.
Qed.

Lemma mask_settled_same r on d a w w' :
  nc_Env r = New → plain_elem (nc_Interface r) = true → (d, a) ∈ mask_kinds →
  same settings ZNet w w' → mask_settled r on d a w → mask_settled r on d a w'.
Proof.
  intros He Hi Hk Hs Hm Hon dirs dir Hd Hin.
  assert ((d = "rx" ∨ d = "tx") ∧ plain_elem a = true) as [Hd' Ha].
  { unfold mask_kinds in Hk. rewrite !elem_of_cons, elem_of_nil in Hk.
    destruct Hk as [[= -> ->]|[[= -> ->]|[]]]; auto. }
  destruct (queueDirs_alike r d w w' He Hi Hd') as [Heq Hall].
  { eapply (same_alike _ ZNet); [done|zone_literal|done|done]. }
  rewrite <-Heq in Hd. eapply (attr_settled_same (λ p, p)); [|by eapply Hm].
  apply (same_zone settings ZNet); [|done..]. apply zone_of_net, queue_path_below; [|done].
  pose proof (Hall dirs Hd) as Hf. rewrite Forall_forall in Hf. by apply Hf.
Qed.

Lemma nic_converged_iff r w :
  nc_Interface r ≠ EmptyString →
  converged (nic_resource r) w ↔
  ring_settled r w ∧ mask_settled r (nc_RPS r) "rx" "rps_cpus" w ∧
  mask_settled r (nc_XPS r) "tx" "xps_cpus" w.
Proof using Hask.
  intros Hi. rewrite converged_unchanged; [by apply nic_unchanged|apply _|..]; simpl;
    unfold NICResource_Check; rewrite (proj2 (String.eqb_neq _ _) Hi);
    rewrite !value_bind by apply _; by case_bool.
Qed.

Lemma nic_looks r w w' :
  nc_Env r = New → (nc_Interface r = EmptyString ∨ plain_elem (nc_Interface r) = true) →
  same settings ZNet w w' → same settings ZRing w w' →
  converged (nic_resource r) w → converged (nic_resource r) w'.
Proof using Hask.
  intros He Hi Hn Hr. destruct (decide (nc_Interface r = EmptyString)) as [Hnil|Hne].
  { unfold converged. simpl. unfold NICResource_Check. rewrite Hnil. simpl. intros _. check_done. }
  destruct Hi as [?|Hi]; [done|]. rewrite !nic_converged_iff by done. intros (H1 & H2 & H3).
  split_and!.
  - intros Hon s Hv. apply (H1 Hon s). rewrite <-Hv.
    unfold ringBufferDrift. rewrite !value_bind_ok, !value_map_err by apply _.
    unfold value, run_cmd. rewrite !bind_run. by rewrite (Hr (nc_Interface r)).
  - eapply mask_settled_same; [done|done|by left|exact Hn|done].
  - eapply mask_settled_same; [done|done|by right; left|exact Hn|done].
Qed.

Definition cpu_base : list string := ["sys"; "devices"; "system"; "cpu"].

Lemma governorPaths_alike g w w' :
  alike_below cpu_base (fs w) (fs w') →
  value (governorPaths (mkCPUGovernor New g)) w = value (governorPaths (mkCPUGovernor New g)) w' ∧
  ∀ ps, value (governorPaths (mkCPUGovernor New g)) w = Ok ps → Forall (below cpu_base) ps.
Proof.
  intros Ha.
  assert (governorPaths (mkCPUGovernor New g) =
    Glob (rooted_path (cpu_base ++ ["cpu[0-9]*"; "cpufreq"; "scaling_governor"]))) as ->.
  { unfold governorPaths. f_equal. }
  apply Glob_below; [by repeat constructor|done|done|by repeat constructor|
    apply limit_large; simpl; lia|done].
Qed.

Lemma governor_looks g w w' :
  same settings ZCpu w w' →
  converged (cpugovernor_resource (mkCPUGovernor New g)) w →
  converged (cpugovernor_resource (mkCPUGovernor New g)) w'.
Proof.
  set (r := mkCPUGovernor New g). intros Hs Hc.
  destruct (decide (g = EmptyString)) as [->|Hg]; [done|].
  assert (alike_below cpu_base (fs w) (fs w')) as Ha
    by (by eapply (same_alike _ ZCpu); [|zone_literal|..]).
  destruct (governorPaths_alike g w w' Ha) as [Heq Hall]. fold r in Heq, Hall.
  unfold converged in *. simpl in *.
  assert (String.eqb (cg_Governor r) EmptyString = false) as Hg' by by apply String.eqb_neq.
  destruct (value (governorPaths r) w) as [ps|e] eqn:Hv.
  2: { unfold CPUGovernorResource_Check in Hc. rewrite Hg' in Hc.
       rewrite value_bind, Hv in Hc by apply _.
       apply settled_not_changed in Hc as [_ Hc]. by rewrite value_check_failed in Hc. }
  destruct (decide (ps = [])) as [->|Hne].
  { unfold CPUGovernorResource_Check. rewrite Hg'.
    rewrite value_bind, <-Heq by apply _. simpl. check_done. }
  apply (unchanged_settled (cpugovernor_resource r)). simpl.
  apply (governor_unchanged r ps w' Hg (eq_sym Heq) Hne).
  assert (rStatus (value (CPUGovernorResource_Check r) w).1 = StatusUnchanged) as Hu.
  { apply (converged_unchanged (cpugovernor_resource r)); [..|exact Hc]; simpl;
      unfold CPUGovernorResource_Check; rewrite Hg';
      rewrite value_bind, Hv by apply _; rewrite (proj2 (nonempty_true ps) Hne); cbn [negb];
      rewrite value_bind by apply _; by case_bool. }
  intros p Hin. eapply (attr_settled_same (λ p, p));
    [|by apply (governor_unchanged r ps w Hg Hv Hne)].
  apply (same_zone settings ZCpu); [|done..].
  pose proof (Hall ps eq_refl) as Hf. rewrite Forall_forall in Hf.
  eapply (zone_of_below cpu_base); [done|zone_literal|by apply Hf].
Qed.

(** The disks are listed as long as /sys/block is a directory. *)
Definition block_dir (w : World) : Prop := fs w !! "/sys/block" = Some NDir.

Lemma scheduler_looks s w w' :
  block_dir w → same settings ZBlock w w' →
  converged (ioscheduler_resource (mkIOScheduler New s)) w →
  converged (ioscheduler_resource (mkIOScheduler New s)) w'.
Proof.
  set (r := mkIOScheduler New s). intros Hb Hs Hc.
  destruct (decide (s = EmptyString)) as [->|Hg]; [done|].
  assert (alike_below ["sys"; "block"] (fs w) (fs w')) as Ha
    by (by eapply (same_alike _ ZBlock); [|zone_literal|..]).
  unfold converged in *. simpl in *.
  assert (String.eqb (io_Scheduler r) EmptyString = false) as Hg' by by apply String.eqb_neq.
  destruct (value (nvmeDevices r) w) as [devices|e] eqn:Hv.
  2: { unfold IOSchedulerResource_Check in Hc. rewrite Hg' in Hc.
       rewrite value_bind, Hv in Hc by apply _.
       apply settled_not_changed in Hc as [_ Hc]. by rewrite value_check_failed in Hc. }
  assert (value (nvmeDevices r) w' = Ok devices) as Hv'.
  { unfold nvmeDevices in Hv |- *. rewrite value_bind, value_ret in Hv |- * by apply _.
    change (Path (io_Env r) ["sys"; "block"]) with "/sys/block" in *.
    destruct (value (ReadDir "/sys/block") w) as [names|e] eqn:Hr.
    - by rewrite (ReadDir_local ["sys"; "block"] ltac:(by repeat constructor) w w' "/sys/block" Ha
        (below_self _) names Hr).
    - unfold value, ReadDir in Hr. simpl in Hr. by rewrite Hb in Hr. }
  destruct (decide (devices = [])) as [->|Hne].
  { unfold IOSchedulerResource_Check. rewrite Hg'.
    rewrite value_bind, Hv' by apply _. simpl. check_done. }
  apply (unchanged_settled (ioscheduler_resource r)). simpl.
  apply (iosched_unchanged r devices w' Hg Hv' Hne).
  assert (rStatus (value (IOSchedulerResource_Check r) w).1 = StatusUnchanged) as Hu.
  { apply (converged_unchanged (ioscheduler_resource r)); [..|exact Hc]; simpl;
      unfold IOSchedulerResource_Check; rewrite Hg';
      rewrite value_bind, Hv by apply _; rewrite (proj2 (nonempty_true devices) Hne); cbn [negb];
      rewrite value_bind by apply _; by case_bool. }
  intros dev Hin. eapply attr_settled_same;
    [|by apply (iosched_unchanged r devices w Hg Hv Hne)].
  apply (same_zone settings ZBlock); [|done..].
  apply zone_of_scheduler. by eapply nvmeDevices_plain.
Qed.
End looks.

(** ** What an apply touches

    Whatever its outcome, an [Apply] changes no zone but its own. *)

Section touches.
Context {HK : Kernel} {HR : Runner} {HU : Unicode} (settings : gmap string string).
Context {Hlist : ReadOnly (Sysutil.Run "systemctl" list_units_args)}.
Context {Hask : ∀ iface, ReadOnly (Sysutil.Run "ethtool" ["-g"; iface])}.
Context (Hring : ∀ iface w w', host w' = host w →
  (Sysutil.Run "ethtool" ["-g"; iface] w').1 = (Sysutil.Run "ethtool" ["-g"; iface] w).1).

Lemma fstab_same z : z ≠ ZFstab → fstab_respects (same settings z) New.
Proof using Hring.
  intros Hz. change (fstabPath New) with "/etc/fstab". split.
  - apply (respects_files settings Hring), BackupFile_frame, not_region. done.
  - intros content. apply (respects_files settings Hring), WriteFileIfChanged_frame,
      outside_unwatched; [exact fstab_outside|]. intros H. apply Hz. by injection H.
Qed.

#[local] Hint Resolve same_preorder : core.

Lemma sysctl_touches z r file :
  file ∈ managed_files → z ≠ ZSysctl → z ≠ ZManaged file →
  Respects (same settings z) (Apply (sysctl_resource (mkSysctl New r file))).
Proof using Hring.
  intros Hf Hz Hm. apply sysctl_respects; [done|..].
  - intros k v. apply WriteFile_same; [done|]. rewrite zone_of_sysctl. congruence.
  - intros content. by apply write_managed_same.
Qed.

Lemma kmod_touches z modules file :
  (∀ m, m ∈ modules → Respects (same settings z) (Sysutil.Run "modprobe" [m])) →
  file ∈ managed_files → z ≠ ZManaged file →
  Respects (same settings z) (Apply (kmod_resource (mkKmod New modules file))).
Proof using Hring.
  intros Hmod Hf Hm. apply kmod_respects; [done..|]. intros content. by apply write_managed_same.
Qed.

Lemma swap_touches z :
  Respects (same settings z) (Sysutil.Run "swapoff" ["-a"]) →
  (∀ unit, Respects (same settings z) (Sysutil.Run "systemctl" ["mask"; unit])) →
  z ≠ ZFstab → Respects (same settings z) (Apply (swap_resource New)).
Proof using Hring Hlist. intros. apply swap_respects; auto using fstab_same. Qed.

Lemma mount_point_same z path :
  Forall (λ d, zone_of d = None) (ancestors path ++ [path]) →
  Respects (same settings z) (MkdirAll path).
Proof using Hring.
  intros Hd. apply (respects_files settings Hring), MkdirAll_frame.
  eapply Forall_impl; [exact Hd|]. intros d Hn. apply not_region. by rewrite Hn.
Qed.

Lemma mount_touches z r :
  mt_Env r = New → Forall (λ d, zone_of d = None) (ancestors (mt_Path r) ++ [mt_Path r]) →
  Respects (same settings z) (Sysutil.Run "mount" (mount_args r)) →
  z ≠ ZFstab → Respects (same settings z) (Apply (mount_resource r)).
Proof using Hring.
  intros He Hd Hm Hz. apply mount_respects; [done|by apply mount_point_same|done|].
  apply persistFstab_respects; [done|]. rewrite He. by apply fstab_same.
Qed.

Lemma dropin_touches z d :
  df_Path d ∈ managed_files → z ≠ ZManaged (df_Path d) →
  Respects (same settings z) (Apply (dropin_resource d)).
Proof using Hring.
  intros Hp Hz. apply dropin_respects; [done|]. intros mode. by apply write_managed_same.
Qed.

Lemma irq_touches z iface n :
  z ≠ ZIrq → Respects (same settings z) (Apply (irqaffinity_resource (mkIRQ New iface n))).
Proof using Hring.
  intros Hz. apply irq_respects; [done|]. intros i v.
  apply WriteFile_same; [done|]. rewrite zone_of_affinity. congruence.
Qed.

Lemma governor_touches z g :
  z ≠ ZCpu → Respects (same settings z) (Apply (cpugovernor_resource (mkCPUGovernor New g))).
Proof using Hring.
  intros Hz. apply governor_respects; [done|]. intros w ps p Hp Hin.
  apply WriteFile_same; [done|].
  destruct (governorPaths_alike g w w ltac:(done)) as [_ Hall].
  specialize (Hall ps Hp). rewrite Forall_forall in Hall.
  rewrite (zone_of_below cpu_base ZCpu p); [congruence|done|zone_literal|by apply Hall].
Qed.

Lemma scheduler_touches z s :
  z ≠ ZBlock → Respects (same settings z) (Apply (ioscheduler_resource (mkIOScheduler New s))).
Proof using Hring.
  intros Hz. apply scheduler_respects; [done|]. intros dev Hdev.
  apply WriteFile_same; [done|]. rewrite zone_of_scheduler by done. congruence.
Qed.

(** A queue's mask is below /sys/class/net. *)
Lemma queue_mask_below r d a w dirs dir :
  nc_Env r = New → plain_elem (nc_Interface r) = true → (d, a) ∈ mask_kinds →
  value (queueDirs r d) w = Ok dirs → dir ∈ dirs → below net_base (JoinPath [dir; a]).
Proof.
  intros He Hi Hk Hd Hin. unfold mask_kinds in Hk. rewrite !elem_of_cons, elem_of_nil in Hk.
  assert ((d = "rx" ∨ d = "tx") ∧ plain_elem a = true) as [Hd' Ha]
    by (destruct Hk as [[= -> ->]|[[= -> ->]|[]]]; auto).
  apply queue_path_below; [|done].
  destruct (queueDirs_alike r d w w He Hi Hd' ltac:(done)) as [_ Hall].
  specialize (Hall dirs Hd). rewrite Forall_forall in Hall. by apply Hall.
Qed.

Lemma nic_touches z r :
  nc_Env r = New → (nc_Interface r = EmptyString ∨ plain_elem (nc_Interface r) = true) →
  (∀ args, Respects (same settings z) (Sysutil.Run "ethtool" (["-G"; nc_Interface r] ++ args))) →
  z ≠ ZNet → Respects (same settings z) (Apply (nic_resource r)).
Proof using Hring Hask.
  intros He Hi Hset Hz. apply nic_respects; [done|apply _|done|].
  intros Hne d a w dirs dir Hk Hd Hin. destruct Hi as [?|Hi]; [done|].
  apply WriteFile_same; [done|]. rewrite (zone_of_net (JoinPath [dir; a])); [congruence|].
  by eapply queue_mask_below.
Qed.
End touches.

(** *** The table stays free of swap *)

Definition no_swap (w : World) : Prop :=
  fstabHasActiveSwapLines (fstab_content New w) = false.

Definition keeps_no_swap (w w' : World) : Prop := no_swap w → no_swap w'.

#[export] Instance keeps_no_swap_preorder : PreOrder keeps_no_swap.
Proof. split; [by intros w Hw|]. intros w1 w2 w3 H H' Hw. by apply H', H. Qed.

(** A rewrite of the table leaves the old one or the new one, whatever its outcome. *)
Lemma rewrite_fstab_any {HK : Kernel} content w r w' :
  rewrite_fstab New content w = (r, w') →
  fstab_content New w' = fstab_content New w ∨ fstab_content New w' = content.
Proof.
  unfold rewrite_fstab. rewrite bind_ok_run, map_err_run.
  destruct (BackupFile (fstabPath New) w) as [rb w1] eqn:Hb.
  apply BackupFile_other in Hb as (_ & Hb & _).
  assert (fs w1 !! fstabPath New = fs w !! fstabPath New) as Hn.
  { apply Hb. rewrite fstab_backup_path by done. by vm_compute. }
  assert (∀ s, fs s !! fstabPath New = fs w !! fstabPath New →
    fstab_content New s = fstab_content New w) as Hsame.
  { intros s Hs. unfold fstab_content, ReadFileString, value, ReadFile, read_node. simpl.
    rewrite Hs. by destruct (fs w !! fstabPath New) as [[| |[]]|]. }
  destruct rb as [[]|e]; simpl; [|intros [= _ <-]; left; by apply Hsame].
  rewrite bind_ok_run, map_err_run.
  destruct (WriteFileIfChanged (fstabPath New) content 420 w1) as [rw w2] eqn:Hw.
  assert (fs w2 !! fstabPath New = fs w1 !! fstabPath New ∨
    fs w2 !! fstabPath New = Some (NFile 420 content)) as Hor.
  { rewrite fstabPath_file in Hw |- * by done.
    apply (WriteFileIfChanged_spec _ _ (fstab_plain New eq_refl)) in Hw
      as [(_ & -> & _)|[(_ & -> & _)|(err & _ & _ & Hp & _)]]; [by left|right|by left].
    apply lookup_insert_eq. }
  assert (fstab_content New w2 = fstab_content New w ∨ fstab_content New w2 = content) as H.
  { destruct Hor as [Heq|Heq]; [left; apply Hsame; congruence|right].
    unfold fstab_content, ReadFileString, value, ReadFile, read_node. simpl. by rewrite Heq. }
  destruct rw; simpl; by intros [= _ <-].
Qed.

Section no_swap.
Context {HK : Kernel} {HR : Runner} (r : MountResource).
Context (He : mt_Env r = New) (Hentry : entry_ok r = true) (Ht : mt_FSType r ≠ "swap").

Lemma persistFstab_no_swap : Respects keeps_no_swap (persistFstab r).
Proof using He Hentry Ht.
  intros w Hw. rewrite persistFstab_run, He. unfold no_swap in *.
  assert (∀ c, fstab_content New w = c →
    no_swap (rewrite_fstab New (with_entry r c) w).2) as Hc.
  { intros c Hc. destruct (rewrite_fstab New (with_entry r c) w) as [x w'] eqn:Hrun.
    unfold no_swap. simpl.
    apply rewrite_fstab_any in Hrun as [->| ->]; [done|]. rewrite with_entry_swap by done. by rewrite <-Hc. }
  destruct (value (ReadFileString (fstabPath New)) w) as [c|err] eqn:Hr.
  - case_bool; [done|]. apply Hc. unfold fstab_content. by rewrite Hr.
  - case_bool; [done|]. apply Hc. unfold fstab_content. by rewrite Hr.
Qed.

Lemma mount_no_swap (settings : gmap string string)
    (Hring : ∀ iface w w', host w' = host w →
      (Sysutil.Run "ethtool" ["-g"; iface] w').1 = (Sysutil.Run "ethtool" ["-g"; iface] w).1) :
  Forall (λ d, zone_of d = None) (ancestors (mt_Path r) ++ [mt_Path r]) →
  Respects (same settings ZFstab) (Sysutil.Run "mount" (mount_args r)) →
  Respects keeps_no_swap (Apply (mount_resource r)).
Proof using He Hentry Ht.
  intros Hd Hm.
  assert (∀ A (c : M World A), Respects (same settings ZFstab) c → Respects keeps_no_swap c) as Hsub.
  { intros A c. apply respects_sub. intros w w' Hs Hw. unfold no_swap.
    by rewrite (fstab_content_same settings w w'). }
  apply mount_respects; [apply _|..|apply persistFstab_no_swap].
  - by apply Hsub, mount_point_same.
  - by apply Hsub.
Qed.
End no_swap.
