(* ===== verification/GoFloat.v ===== *)
(** * float64

    IEEE 754 binary64 as the Standard Library specifies it ([SpecFloat], 53 bits of
    precision, exponents below 1024), and the conversions the program uses. *)

From Stdlib Require Import SpecFloat DecimalString DecimalN DecimalPos.
From S2P Require Import Prelude GoStrings.

Definition float64 : Set := spec_float.

#[export] Instance float64_eq_dec : EqDecision float64.
Proof. unfold float64. solve_decision. Defined.

(** [float64(n)] for an integer. *)
Definition float_of_Z (n : Z) : float64 := binary_normalize 53 1024 n 0 false.

Definition fmul (x y : float64) : float64 := SFmul 53 1024 x y.
Definition fdiv (x y : float64) : float64 := SFdiv 53 1024 x y.

(** The integer a finite float truncates to. *)
Definition float_trunc (x : float64) : option Z :=
  match x with
  | S754_zero _ => Some 0%Z
  | S754_finite s m e =>
      let n := if (0 <=? e)%Z then Z.shiftl (Zpos m) e else Z.shiftr (Zpos m) (- e) in
      Some (if s then (- n)%Z else n)
  | S754_infinity _ | S754_nan => None
  end.

(** What the language leaves to the platform: its size and architecture, and the result of
    converting a float that no [int64] represents. *)
Class Platform : Type := {
  NumCPU : Z;
  GOARCH : string;
  int64_overflow : float64 → Z
}.

(** [int64(x)]. *)
Definition int64_of_float `{Platform} (x : float64) : Z :=
  match float_trunc x with
  | Some n => if in_int64 n then n else wrap64 (int64_overflow x)
  | None => wrap64 (int64_overflow x)
  end.

(** [strconv.ParseFloat(s, 64)] of a string of digits and dots: correctly rounded, an error
    for more than one dot, no digit, or a number too large. *)
Fixpoint decimal_digits (s : string) (dot : bool) (n : Z) (frac : Z) (any : bool) :
    option (Z * Z) :=
  match s with
  | EmptyString => if any then Some (n, frac) else None
  | String c s =>
      if Ascii.eqb c "." then
        if dot then None else decimal_digits s true n frac any
      else
        if is_digit c then
          decimal_digits s dot (n * 10 + (Z.of_N (N_of_ascii c) - 48)) (if dot then frac + 1 else frac)
            true
        else None
  end%Z.

(** A decimal [q] times ten to the [k] without zeros at the end of [q]. *)
Fixpoint strip (fuel : nat) (q k : Z) : Z * Z :=
  match fuel with
  | O => (q, k)
  | S fuel => if (q mod 10 =? 0)%Z then strip fuel (q / 10) (k + 1) else (q, k)
  end.

Definition strip_fuel (q : Z) : nat := S (Z.to_nat (Z.log2 q)).

(** The float nearest to [q] times ten to the [k], for [q] from 0 on; what has its point
    more than 310 digits to the right is infinite, more than 330 to the left zero. *)
Definition of_decimal (q k : Z) : float64 :=
  let '(q, k) := strip (strip_fuel q) q k in
  match q with
  | Zpos m =>
      let dp := (Z.of_nat (String.length (digits_of_N (Npos m))) + k)%Z in
      if (310 <? dp)%Z then S754_infinity false
      else if (dp <? -330)%Z then S754_zero false
      else if (0 <=? k)%Z then binary_normalize 53 1024 (Zpos m * 10 ^ k) 0 false
      else match (10 ^ (- k))%Z with
           | Zpos d => fdiv (S754_finite false m 0) (S754_finite false d 0)
           | _ => S754_nan
           end
  | _ => S754_zero false
  end.

(** A number that is too large is an error. *)
Definition finite (x : float64) : option float64 :=
  match x with S754_infinity _ => None | x => Some x end.

Definition ParseDecimal (s : string) : option float64 :=
  '(n, frac) ← decimal_digits s false 0 0 false;
  finite (of_decimal n (- frac)).

Example half_parses : ParseDecimal "12.5" = Some (fdiv (float_of_Z 25) (float_of_Z 2)).
Proof. by vm_compute. Qed.

(** ** [strconv.AppendFloat] with the shortest precision

    The shortest decimal that reads back as the number, the closest one if there are
    several, as its digits [d1 ... dn] and the position [dp] of its point: the number is
    0.d1...dn times ten to the [dp]. *)

Section shortest.
(** The number is [num / den]. *)
Context (num den : Z).

(** The largest [p] with [10 ^ p <= num / den]; [fuel] bounds the search below 1. *)
Fixpoint below_one (fuel : nat) (j : Z) : Z :=
  match fuel with
  | O => (- j)%Z
  | S fuel => if (den <=? num * 10 ^ j)%Z then (- j)%Z else below_one fuel (j + 1)
  end.

Definition magnitude : Z :=
  if (den <=? num)%Z
  then (Z.of_nat (String.length (digits_of_N (Z.to_N (num / den)))) - 1)%Z
  else below_one 400 1.

(** The decimals around the number, in units of ten to the [k]. *)
Definition scaled_down (k : Z) : Z :=
  if (0 <=? k)%Z then (num / (den * 10 ^ k))%Z else (num * 10 ^ (- k) / den)%Z.

(** Is [q + 1] closer to the number than [q]? *)
Definition upper_closer (q k : Z) : bool :=
  if (0 <=? k)%Z then (den * (2 * q + 1) * 10 ^ k <? 2 * num)%Z
  else (den * (2 * q + 1) <? 2 * num * 10 ^ (- k))%Z.

Definition reads_back (x : float64) (q k : Z) : bool :=
  (0 <? q)%Z && bool_decide (of_decimal q k = x).

Fixpoint shortest (tries : nat) (n : Z) (x : float64) : Z * Z :=
  let k := (magnitude - (n - 1))%Z in
  let q := scaled_down k in
  match tries with
  | O => (q, k)
  | S tries =>
      let lo := reads_back x q k in
      let hi := reads_back x (q + 1) k in
      if lo && (negb hi || negb (upper_closer q k)) then (q, k)
      else if hi then (q + 1, k)%Z
      else shortest tries (n + 1) x
  end.
End shortest.

Definition trim_zeros (s : string) : string := TrimRightFunc (Ascii.eqb "0") s.

(** Is the decimal of the number among those with up to 17 digits, as it should be? *)
Definition decimal_found (m : positive) (e : Z) : bool :=
  let num := if (0 <=? e)%Z then (Zpos m * 2 ^ e)%Z else Zpos m in
  let den := if (0 <=? e)%Z then 1%Z else (2 ^ (- e))%Z in
  let '(q, k) := shortest num den 17 1 (S754_finite false m e) in
  reads_back (S754_finite false m e) q k.

Definition float_digits (m : positive) (e : Z) : string * Z :=
  let num := if (0 <=? e)%Z then (Zpos m * 2 ^ e)%Z else Zpos m in
  let den := if (0 <=? e)%Z then 1%Z else (2 ^ (- e))%Z in
  let '(q, k) := shortest num den 17 1 (S754_finite false m e) in
  let all := digits_of_N (Z.to_N q) in
  (trim_zeros all, Z.of_nat (String.length all) + k)%Z.

Fixpoint zeros (n : nat) : string :=
  match n with O => EmptyString | S n => String "0" (zeros n) end.

(** [%e]: at least two digits of exponent, unless [pad] is off. *)
Definition format_e (pad : bool) (ds : string) (dp : Z) : string :=
  let x := (dp - 1)%Z in
  let digits := Itoa (Z.abs x) in
  (match ds with
   | String d r =>
       String d (if String.eqb r EmptyString then EmptyString else "." +:+ r)
   | EmptyString => EmptyString
   end) +:+ "e" +:+ (if (x <? 0)%Z then "-" else "+")
    +:+ (if pad && (Z.abs x <? 10)%Z then "0" else EmptyString) +:+ digits.

(** [%f]. *)
Definition format_f (ds : string) (dp : Z) : string :=
  let n := Z.of_nat (String.length ds) in
  if (dp <=? 0)%Z then "0." +:+ zeros (Z.to_nat (- dp)) +:+ ds
  else if (n <=? dp)%Z then ds +:+ zeros (Z.to_nat (dp - n))
  else String.substring 0 (Z.to_nat dp) ds +:+ "."
         +:+ String.substring (Z.to_nat dp) (Z.to_nat (n - dp)) ds.

Definition signed (s : bool) (text : string) : string := if s then "-" +:+ text else text.

(** [%v] of a [float64] is [%g]: [%e] from exponent 6 on and below -4. *)
Definition fmt_float (x : float64) : string :=
  match x with
  | S754_zero s => signed s "0"
  | S754_infinity s => if s then "-Inf" else "+Inf"
  | S754_nan => "NaN"
  | S754_finite s m e =>
      let '(ds, dp) := float_digits m e in
      signed s (if (dp - 1 <? -4)%Z || (6 <=? dp - 1)%Z then format_e true ds dp
                else format_f ds dp)
  end.

Example fmt_float_samples :
  fmt_float <$> [float_of_Z 0; fdiv (float_of_Z 25) (float_of_Z 2); float_of_Z 10;
                 fdiv (float_of_Z 1) (float_of_Z 10); fdiv (float_of_Z 781) (float_of_Z 1000);
                 float_of_Z 1048576; fdiv (float_of_Z 1) (float_of_Z 3)] =
  ["0"; "12.5"; "10"; "0.1"; "0.781"; "1.048576e+06"; "0.3333333333333333"].
Proof. by vm_compute. Qed.

(** ** Decimals read back *)

(** The number that digits are. *)
Fixpoint dec_go (acc : Z) (s : string) : Z :=
  match s with
  | EmptyString => acc
  | String c s => dec_go (acc * 10 + (Z.of_N (N_of_ascii c) - 48)) s
  end%Z.

Lemma dec_go_app acc a b : dec_go acc (a +:+ b) = dec_go (dec_go acc a) b.
Proof. revert acc. induction a as [|c a IH]; intros acc; [done|]. apply IH. Qed.

Lemma dec_go_zeros acc j : dec_go acc (zeros j) = (acc * 10 ^ Z.of_nat j)%Z.
Proof.
  revert acc. induction j as [|j IH]; intros acc; [simpl; lia|].
  rewrite Nat2Z.inj_succ, Z.pow_succ_r by lia. cbn [zeros dec_go]. rewrite IH. simpl. lia.
Qed.

Lemma dec_go_uint d acc :
  dec_go (Zpos acc) (NilEmpty.string_of_uint d) = Zpos (Pos.of_uint_acc d acc).
Proof.
  revert acc. induction d as [|d IH|d IH|d IH|d IH|d IH|d IH|d IH|d IH|d IH|d IH]; intros acc;
    [done|..]; cbn [NilEmpty.string_of_uint dec_go Pos.of_uint_acc];
    (etransitivity; [|apply IH]); f_equal; simpl; lia.
Qed.

Lemma dec_go_digits n : dec_go 0 (digits_of_N n) = Z.of_N n.
Proof.
  assert (∀ d, dec_go 0 (NilEmpty.string_of_uint d) = Z.of_N (Pos.of_uint d)) as Hd.
  { induction d as [|d IH|d IH|d IH|d IH|d IH|d IH|d IH|d IH|d IH|d IH]; [done|done|..];
      apply dec_go_uint. }
  unfold digits_of_N, NilZero.string_of_uint.
  destruct (N.to_uint n) eqn:Hn;
    [by apply to_uint_nonnil in Hn|..]; rewrite <-Hn, Hd;
    change (Pos.of_uint (N.to_uint n)) with (N.of_uint (N.to_uint n));
    by rewrite DecimalN.Unsigned.of_to.
Qed.

Lemma strip_enough f f' q k :
  (0 < q)%Z → (Z.to_nat (Z.log2 q) < f)%nat → (Z.to_nat (Z.log2 q) < f')%nat →
  strip f q k = strip f' q k.
Proof.
  revert f' q k. induction f as [|f IH]; intros f' q k Hq Hf Hf'; [lia|].
  destruct f' as [|f']; [lia|]. simpl. destruct (Z.eqb_spec (q mod 10) 0) as [Hm|]; [|done].
  assert (q = 10 * (q / 10))%Z as Hq10 by (pose proof (Z.div_mod q 10); lia).
  assert (0 < q / 10)%Z as Hpos by lia.
  assert (Z.log2 (q / 10) < Z.log2 q)%Z as Hlog.
  { pose proof (Z.log2_double (q / 10) Hpos) as Hd.
    pose proof (Z.log2_le_mono (2 * (q / 10)) q ltac:(lia)). lia. }
  pose proof (Z.log2_nonneg (q / 10)).
  apply IH; lia.
Qed.

Lemma of_decimal_10 q k : (0 < q)%Z → of_decimal (10 * q) k = of_decimal q (k + 1).
Proof.
  intros Hq. unfold of_decimal.
  assert (strip (strip_fuel (10 * q)) (10 * q) k = strip (strip_fuel q) q (k + 1)) as ->; [|done].
  rewrite (strip_enough _ (S (strip_fuel (10 * q)))) by (unfold strip_fuel; lia).
  cbn [strip]. rewrite (Z.mul_comm 10 q), Z_mod_mult, Z.div_mul by done. simpl Z.eqb. cbv iota.
  apply strip_enough; [done| |unfold strip_fuel; lia].
  pose proof (Z.log2_le_mono q (q * 10) ltac:(lia)). pose proof (Z.log2_nonneg q).
  unfold strip_fuel. lia.
Qed.

Lemma of_decimal_scale j q k :
  (0 < q)%Z → of_decimal (q * 10 ^ Z.of_nat j) k = of_decimal q (k + Z.of_nat j).
Proof.
  intros Hq. revert k. induction j as [|j IH]; intros k; [f_equal; simpl; lia|].
  rewrite Nat2Z.inj_succ, Z.pow_succ_r by lia.
  replace (q * (10 * 10 ^ Z.of_nat j))%Z with (10 * (q * 10 ^ Z.of_nat j))%Z by lia.
  rewrite of_decimal_10, IH by nia. f_equal. lia.
Qed.

Lemma zeros_all t : forallb (Ascii.eqb "0") (String.list_ascii_of_string t) = true →
  ∃ j, t = zeros j.
Proof.
  induction t as [|c t IH]; simpl; [by exists O|].
  intros [Hc%Ascii.eqb_eq Ht]%andb_true_iff. destruct (IH Ht) as [j ->]. subst c. by exists (S j).
Qed.

(** A text is what is left of it without its zeros at the end, and zeros. *)
Lemma trim_zeros_spec s : ∃ j, s = trim_zeros s +:+ zeros j.
Proof.
  destruct (TrimRightFunc_prefix (Ascii.eqb "0") s) as (t & Hs & Ht).
  destruct (zeros_all t Ht) as [j ->]. by exists j.
Qed.

Lemma zeros_length j : String.length (zeros j) = j.
Proof. induction j; simpl; congruence. Qed.

Lemma digits_leading n : (0 < n)%N → ∃ c r, digits_of_N n = String c r ∧ c ≠ "0"%char.
Proof.
  intros Hn. pose proof (DecimalN.Unsigned.to_of (N.to_uint n)) as H.
  rewrite DecimalN.Unsigned.of_to in H. unfold digits_of_N, NilZero.string_of_uint.
  destruct (N.to_uint n) as [|d|d|d|d|d|d|d|d|d|d] eqn:Hu;
    [by apply to_uint_nonnil in Hu| |by do 2 eexists..].
  exfalso. assert (Decimal.unorm (Decimal.D0 d) = Decimal.D0 Decimal.Nil) as Hz.
  { unfold Decimal.unorm. simpl. pose proof (DecimalFacts.nzhead_nonzero d) as Hnz.
    rewrite H in Hu. unfold Decimal.unorm in H. simpl in H.
    destruct (Decimal.nzhead d) as [|d'|d'|d'|d'|d'|d'|d'|d'|d'|d'] eqn:Hh; try done.
    by destruct (Hnz d'). }
  rewrite Hz in H. rewrite H in Hu. apply (f_equal N.of_uint) in Hu.
  rewrite DecimalN.Unsigned.of_to in Hu. simpl in Hu. lia.
Qed.

(** The digits of a float, as a whole number, read back as the float. *)
Lemma float_digits_read m e :
  decimal_found m e = true →
  let '(ds, dp) := float_digits m e in
  of_decimal (dec_go 0 ds) (dp - Z.of_nat (String.length ds)) = S754_finite false m e ∧
  all_digits ds = true ∧ (0 < dec_go 0 ds)%Z ∧ ∃ c r, ds = String c r ∧ c ≠ "0"%char.
Proof.
  unfold decimal_found, float_digits.
  destruct (shortest _ _ _ _ _) as [q k]. unfold reads_back.
  intros [Hq%Z.ltb_lt Hr%bool_decide_eq_true]%andb_true_iff.
  destruct (trim_zeros_spec (digits_of_N (Z.to_N q))) as [j Hs].
  set (ds := trim_zeros _) in *.
  pose proof (dec_go_digits (Z.to_N q)) as Hv. pose proof (digits_all_digits (Z.to_N q)) as Hall.
  rewrite Hs in Hv, Hall |- *. rewrite dec_go_app, dec_go_zeros, Z2N.id in Hv by lia.
  rewrite all_digits_app in Hall. apply andb_true_iff in Hall as [Hall _].
  assert (0 < dec_go 0 ds)%Z as Hpos by nia.
  split_and!; [|done|done|].
  2:{ destruct (digits_leading (Z.to_N q)) as (c & r & Hd & Hc); [lia|].
      rewrite Hs in Hd. destruct ds as [|c' r']; [simpl in Hpos; lia|].
      rewrite str_cons_app in Hd. injection Hd as -> _. eauto. }
  rewrite <-Hr, <-Hv, of_decimal_scale by done. f_equal.
  rewrite str_length_app, zeros_length. lia.
Qed.

Lemma wrap64_range z : in_int64 (wrap64 z) = true.
Proof.
  unfold wrap64, in_int64, min_int64, max_int64.
  pose proof (Z.mod_pos_bound (z + 2 ^ 63) (2 ^ 64) ltac:(lia)). apply andb_true_iff.
  split; bool_prop; lia.
Qed.

Lemma int64_of_float_range `{Platform} x : in_int64 (int64_of_float x) = true.
Proof.
  unfold int64_of_float. destruct (float_trunc x) as [n|]; [|apply wrap64_range].
  destruct (in_int64 n) eqn:Hn; [done|apply wrap64_range].
Qed.

(** ** Signs *)

(** Zero or above, or not a number. *)
Definition unsigned (x : float64) : bool :=
  match x with
  | S754_zero s | S754_infinity s | S754_finite s _ _ => negb s
  | S754_nan => true
  end.

Lemma round_unsigned p emax m e l : unsigned (binary_round_aux p emax false m e l) = true.
Proof. unfold binary_round_aux. by repeat case_match. Qed.

Lemma float_of_Z_unsigned n : (0 ≤ n)%Z → unsigned (float_of_Z n) = true.
Proof.
  intros Hn. unfold float_of_Z, binary_normalize. destruct n as [|m|m]; [done| |lia].
  unfold binary_round. case_match. apply round_unsigned.
Qed.

Lemma fmul_unsigned x y : unsigned x = true → unsigned y = true → unsigned (fmul x y) = true.
Proof.
  destruct x as [[]|[]| |[]], y as [[]|[]| |[]]; try done. intros _ _. apply round_unsigned.
Qed.

Lemma fdiv_unsigned x y : unsigned x = true → unsigned y = true → unsigned (fdiv x y) = true.
Proof.
  destruct x as [[]|[]| |[]], y as [[]|[]| |[]]; try done. intros _ _.
  unfold fdiv, SFdiv. case_match. case_match. apply round_unsigned.
Qed.

Lemma float_trunc_unsigned x n : unsigned x = true → float_trunc x = Some n → (0 ≤ n)%Z.
Proof.
  destruct x as [s|s| |s m e]; try done; simpl; [by intros _ [= <-]|].
  intros Hs%negb_true_iff [= <-]. subst s.
  case_match; [by apply Z.shiftl_nonneg|by apply Z.shiftr_nonneg].
Qed.
