(* ===== verification/FloatExact.v ===== *)
(** * Where float64 is exact

    A binary64 holds every [m] times two to the [e] with at most 53 bits in [m] and an
    exponent that is not extreme ([fl]). Conversion, multiplication, division by a power of
    two and truncation are exact among them: what the program computes in floating point from
    integers of that size is what integer arithmetic gives. *)

From Stdlib Require Import SpecFloat.
From S2P Require Import Prelude GoStrings GoFloat.

#[local] Open Scope Z_scope.

(** ** Bits *)

Definition bits (m : positive) : Z := Zpos (digits2_pos m).

Lemma bits_log2 m : bits m = Z.log2 (Zpos m) + 1.
Proof.
  unfold bits. induction m as [m IH|m IH|]; [..|done]; cbn [digits2_pos];
    rewrite Pos2Z.inj_succ, IH.
  - change (Zpos m~1) with (2 * Zpos m + 1). by rewrite Z.log2_succ_double.
  - change (Zpos m~0) with (2 * Zpos m). by rewrite Z.log2_double.
Qed.

Lemma bits_shift m n k : 0 ≤ k → Zpos n = Zpos m * 2 ^ k → bits n = bits m + k.
Proof. intros Hk Hn. rewrite !bits_log2, Hn, Z.log2_mul_pow2 by lia. lia. Qed.

(** The bound on the bits that a bound on the number gives. *)
Lemma bits_bound m k : 0 ≤ k → Zpos m < 2 ^ k → bits m ≤ k.
Proof. intros Hk Hm. rewrite bits_log2. apply Z.log2_lt_pow2 in Hm; lia. Qed.

(** *** Shifting out zeros *)

Lemma iter_pos_nat {A} (f : A → A) (p : positive) x :
  SpecFloat.iter_pos f p x = Nat.iter (Pos.to_nat p) f x.
Proof.
  revert x. induction p as [p IH|p IH|]; intros x; cbn [SpecFloat.iter_pos]; rewrite ?IH; [..|done].
  - rewrite Pos2Nat.inj_xI. replace (S (2 * Pos.to_nat p))%nat
      with (Pos.to_nat p + Pos.to_nat p + 1)%nat by lia. by rewrite !Nat.iter_add.
  - rewrite Pos2Nat.inj_xO. replace (2 * Pos.to_nat p)%nat
      with (Pos.to_nat p + Pos.to_nat p)%nat by lia. by rewrite Nat.iter_add.
Qed.

Lemma shr_zeros n m :
  0 < m → Nat.iter n shr_1 (Build_shr_record (m * 2 ^ Z.of_nat n) false false)
          = Build_shr_record m false false.
Proof.
  intros Hm. induction n as [|n IH]; [by rewrite Z.mul_1_r|].
  rewrite Nat.iter_succ_r, Nat2Z.inj_succ, Z.pow_succ_r by lia.
  replace (m * (2 * 2 ^ Z.of_nat n)) with (2 * (m * 2 ^ Z.of_nat n)) by lia.
  assert (0 < m * 2 ^ Z.of_nat n) as Hpos by (apply Z.mul_pos_pos; lia).
  destruct (m * 2 ^ Z.of_nat n) as [|p|p] eqn:Hp; [lia| |lia]. exact IH.
Qed.

Lemma shr_exact m e k :
  0 < m → 0 ≤ k →
  shr (Build_shr_record (m * 2 ^ k) false false) e k = (Build_shr_record m false false, e + k).
Proof.
  intros Hm Hk. destruct k as [|p|p]; [|simpl|lia].
  - simpl. by rewrite Z.mul_1_r, Z.add_0_r.
  - rewrite iter_pos_nat. f_equal. rewrite <-(positive_nat_Z p) at 1. by apply shr_zeros.
Qed.

(** ** The numbers held exactly *)

(** [m] with as many zeros as fill 53 bits. *)
Definition norm (m : positive) : positive := Z.to_pos (Zpos m * 2 ^ (53 - bits m)).

Definition fl (m : positive) (e : Z) : float64 :=
  S754_finite false (norm m) (e - (53 - bits m)).

Lemma norm_Z m : bits m ≤ 53 → Zpos (norm m) = Zpos m * 2 ^ (53 - bits m).
Proof. intros Hm. unfold norm. rewrite Z2Pos.id; [done|]. apply Z.mul_pos_pos; lia. Qed.

Lemma bits_norm m : bits m ≤ 53 → bits (norm m) = 53.
Proof. intros Hm. rewrite (bits_shift m _ (53 - bits m)); [lia|lia|by apply norm_Z]. Qed.

(** An exponent far from the extremes. *)
Definition moderate (e : Z) : Prop := -900 ≤ e ≤ 900.

Lemma fexp_moderate e : -1000 ≤ e ≤ 1000 → fexp 53 1024 e = e - 53.
Proof. unfold fexp, emin. lia. Qed.

(** Rounding a number that is held exactly is shifting it. *)
Lemma round_exact m n e k :
  bits m ≤ 53 → moderate e → 53 - bits m ≤ k → Zpos n = Zpos m * 2 ^ k →
  binary_round_aux 53 1024 false (Zpos n) (e - k) loc_Exact = fl m e.
Proof.
  intros Hm He Hk Hn. unfold moderate in He. assert (1 ≤ bits m) as H1 by (unfold bits; lia).
  assert (bits n = bits m + k) as Hbits by (apply bits_shift; [lia|done]).
  unfold binary_round_aux, shr_fexp. cbn [shr_record_of_loc].
  change (Zdigits2 (Zpos n)) with (bits n). rewrite Hbits.
  replace (bits m + k + (e - k)) with (bits m + e) by lia. rewrite fexp_moderate by lia.
  replace (bits m + e - 53 - (e - k)) with (k - (53 - bits m)) by lia.
  replace (Zpos n) with (Zpos (norm m) * 2 ^ (k - (53 - bits m))).
  2: { rewrite Hn, norm_Z, <-Z.mul_assoc, <-Z.pow_add_r by lia. do 2 f_equal. lia. }
  rewrite shr_exact by lia. cbn [shr_m loc_of_shr_record round_nearest_even].
  change (Zdigits2 (Zpos (norm m))) with (bits (norm m)). rewrite bits_norm by done.
  rewrite fexp_moderate by lia.
  replace (53 + (e - k + (k - (53 - bits m))) - 53 - (e - k + (k - (53 - bits m)))) with 0 by lia.
  cbn [shr shr_m]. rewrite (proj2 (Z.leb_le _ _)) by lia. unfold fl. f_equal. lia.
Qed.

(** ** The operations *)

Lemma iter_xO m d : Zpos (Pos.iter xO m d) = Zpos m * 2 ^ Zpos d.
Proof.
  induction d as [|d IH] using Pos.peano_ind; [simpl; lia|].
  rewrite Pos.iter_succ, Pos2Z.inj_succ, Z.pow_succ_r by lia.
  change (Zpos (Pos.iter xO m d)~0) with (2 * Zpos (Pos.iter xO m d)). lia.
Qed.

Lemma shl_align_Z m e e' :
  e' ≤ e → ∃ n, shl_align m e e' = (n, e') ∧ Zpos n = Zpos m * 2 ^ (e - e').
Proof.
  intros He. unfold shl_align. destruct (e' - e) as [|d|d] eqn:Hd; [|lia|].
  - exists m. replace (e - e') with 0 by lia. rewrite Z.mul_1_r. split; [f_equal; lia|done].
  - exists (Pos.iter xO m d). split; [done|]. rewrite iter_xO. do 2 f_equal. lia.
Qed.

Lemma float_of_Z_exact m : bits m ≤ 53 → float_of_Z (Zpos m) = fl m 0.
Proof.
  intros Hm. assert (1 ≤ bits m) as H1 by (unfold bits; lia).
  unfold float_of_Z, binary_normalize, binary_round. fold (bits m).
  rewrite fexp_moderate by lia.
  destruct (shl_align_Z m 0 (bits m + 0 - 53)) as (n & -> & Hn); [lia|].
  replace (bits m + 0 - 53) with (0 - (53 - bits m)) by lia.
  apply round_exact; [done|by unfold moderate|lia|]. rewrite Hn. do 2 f_equal. lia.
Qed.

Lemma fmul_exact m1 e1 m2 e2 :
  bits m1 ≤ 53 → bits m2 ≤ 53 → bits (m1 * m2) ≤ 53 → moderate (e1 + e2) →
  fmul (fl m1 e1) (fl m2 e2) = fl (m1 * m2) (e1 + e2).
Proof.
  intros H1 H2 H12 He. unfold fmul, fl, SFmul. cbn [xorb].
  replace (e1 - (53 - bits m1) + (e2 - (53 - bits m2)))
    with ((e1 + e2) - ((53 - bits m1) + (53 - bits m2))) by lia.
  apply round_exact; [done..| |].
  - assert (bits (m1 * m2) ≤ 53 ∧ bits m1 + bits m2 ≤ 53 + bits (m1 * m2)) as [? ?]; [|lia].
    split; [done|]. rewrite !bits_log2, Pos2Z.inj_mul.
    pose proof (Z.log2_mul_below (Zpos m1) (Zpos m2)). lia.
  - rewrite Pos2Z.inj_mul, !norm_Z, Pos2Z.inj_mul, Z.pow_add_r by lia. lia.
Qed.

(** Dividing by a power of two. *)
Lemma fdiv_exact m e k :
  bits m ≤ 53 → moderate (e - k) → 0 ≤ k → fdiv (fl m e) (fl 1 k) = fl m (e - k).
Proof.
  intros Hm He Hk. assert (1 ≤ bits m) as H1 by (unfold bits; lia). unfold moderate in He.
  unfold fdiv, fl at 1 2, SFdiv. cbn [xorb]. unfold SFdiv_core_binary.
  change (Zdigits2 (Zpos (norm m))) with (bits (norm m)).
  change (Zdigits2 (Zpos (norm 1))) with 53. rewrite bits_norm by done.
  change (bits 1) with 1. change (Zpos (norm 1)) with (2 ^ 52).
  set (d := e - k + bits m - 1).
  replace (53 + (e - (53 - bits m)) - (53 + (k - (53 - 1)))) with d by (unfold d; lia).
  rewrite fexp_moderate by (unfold d; lia).
  replace (e - (53 - bits m) - (k - (53 - 1))) with d by (unfold d; lia).
  rewrite Z.min_l by lia. replace (d - (d - 53)) with 53 by lia.
  rewrite Z.shiftl_mul_pow2 by lia.
  replace (Zpos (norm m) * 2 ^ 53) with (Zpos (norm m)~0 * 2 ^ 52) by lia.
  pose proof (Z.div_mul (Zpos (norm m)~0) (2 ^ 52) ltac:(lia)) as Hq.
  pose proof (Z.mod_mul (Zpos (norm m)~0) (2 ^ 52) ltac:(lia)) as Hr.
  unfold Z.div, Z.modulo in Hq, Hr. destruct (Z.div_eucl _ _) as [q r]. subst q r.
  change (new_location (2 ^ 52) 0) with loc_Exact.
  replace (d - 53) with (e - k - (54 - bits m)) by (unfold d; lia).
  apply round_exact; [done|done|lia|]. rewrite Pos2Z.inj_xO, norm_Z by done.
  replace (54 - bits m) with (Z.succ (53 - bits m)) by lia. rewrite Z.pow_succ_r; lia.
Qed.

(** What is truncated is rounded down. *)
Lemma float_trunc_exact m e :
  bits m ≤ 53 →
  float_trunc (fl m e) = Some (if 0 <=? e then Zpos m * 2 ^ e else Zpos m / 2 ^ (- e)).
Proof.
  intros Hm. unfold float_trunc, fl. rewrite norm_Z by done. f_equal.
  set (j := 53 - bits m). assert (0 ≤ j) as Hj by (unfold j; lia).
  destruct (0 <=? e - j) eqn:H1, (0 <=? e) eqn:H2; bool_prop; try lia.
  - rewrite Z.shiftl_mul_pow2, <-Z.mul_assoc, <-Z.pow_add_r by lia. do 2 f_equal. lia.
  - rewrite Z.shiftr_div_pow2 by lia. replace j with (e + - (e - j)) at 1 by lia.
    rewrite Z.pow_add_r, Z.mul_assoc, Z.div_mul by lia. done.
  - rewrite Z.shiftr_div_pow2 by lia. replace (- (e - j)) with (- e + j) by lia.
    rewrite Z.pow_add_r by lia. by rewrite Z.div_mul_cancel_r by lia.
Qed.
