(* ===== verification/FloatRound.v ===== *)
(** * Rounding to float64

    The rounding of [SpecFloat] followed with a number as a quotient and a remainder: what is
    rounded is a number of binary64 again, and rounding keeps the order. *)

From Stdlib Require Import SpecFloat.
From S2P Require Import Prelude GoStrings GoFloat FloatExact.

#[local] Open Scope Z_scope.

(** ** Rounding as division

    The number [(D * q + r) / D], as what is left of it when it is cut off at its units:
    the quotient, and where the remainder is within the divisor. *)

Definition cut (q r D : Z) : shr_record :=
  Build_shr_record q (D <=? 2 * r) (negb (r =? 0) && negb (2 * r =? D)).

Lemma shr_1_cut q r D :
  0 ≤ q → 0 ≤ r < D → shr_1 (cut q r D) = cut (q / 2) (r + D * (q mod 2)) (2 * D).
Proof.
  intros Hq Hr. unfold cut, shr_1.
  assert (q / 2 = Z.div2 q ∧ q mod 2 = if Z.odd q then 1 else 0) as [-> ->]
    by (by rewrite Z.div2_div, Zmod_odd).
  destruct q as [|[p|p|]|]; simpl; try lia; f_equal;
    apply eq_true_iff_eq; rewrite ?orb_true_iff, ?andb_true_iff, ?negb_true_iff, ?Z.eqb_neq,
      ?Z.leb_le; lia.
Qed.

Lemma shr_cut n q r D :
  0 ≤ q → 0 ≤ r < D →
  Nat.iter n shr_1 (cut q r D) =
  cut (q / 2 ^ Z.of_nat n) (r + D * (q mod 2 ^ Z.of_nat n)) (2 ^ Z.of_nat n * D).
Proof.
  intros Hq Hr. induction n as [|n IH].
  - cbn [Nat.iter nat_rect]. rewrite Z.div_1_r, Z.mod_1_r. f_equal; lia.
  - simpl Nat.iter. rewrite IH, Nat2Z.inj_succ, Z.pow_succ_r by lia.
    set (T := 2 ^ Z.of_nat n). assert (0 < T) by (by apply Z.pow_pos_nonneg; lia).
    pose proof (Z.mod_pos_bound q T ltac:(lia)) as Hm.
    pose proof (Z.div_pos q T Hq ltac:(lia)) as Hd.
    rewrite shr_1_cut; [|done|nia]. rewrite (Z.mul_comm 2 T).
    rewrite (Z.rem_mul_r q T 2), Z.div_div by lia. f_equal; ring.
Qed.

Lemma new_location_cut q r D :
  0 ≤ r < D → shr_record_of_loc q (new_location D r) = cut q r D.
Proof.
  intros Hr. unfold new_location, cut.
  destruct (Z.even D) eqn:HD; unfold new_location_even, new_location_odd.
  - destruct (Z.eqb_spec r 0), (Z.compare_spec (2 * r) D), (Z.leb_spec D (2 * r)),
      (Z.eqb_spec (2 * r) D); try lia; done.
  - assert (2 * r ≠ D) by (intros <-; by rewrite Z.even_mul in HD).
    destruct (Z.eqb_spec r 0), (Z.compare_spec (2 * r + 1) D), (Z.leb_spec D (2 * r)),
      (Z.eqb_spec (2 * r) D); try lia; done.
Qed.

(** Rounding to nearest, away from the tie. *)
Lemma round_cut q r D :
  0 ≤ r < D → 2 * r ≠ D →
  round_nearest_even q (loc_of_shr_record (cut q r D)) = if D <? 2 * r then q + 1 else q.
Proof.
  intros Hr Htie. unfold cut.
  destruct (Z.eqb_spec r 0), (Z.leb_spec D (2 * r)), (Z.eqb_spec (2 * r) D),
    (Z.ltb_spec D (2 * r)); try lia; done.
Qed.

(** ** Digits *)

Abbreviation exponent := (fexp 53 1024).

Lemma exponent_spec e : exponent e = Z.max (e - 53) (-1074).
Proof. reflexivity. Qed.

Lemma digits_low q k : 0 ≤ k → 2 ^ k ≤ q → k + 1 ≤ Zdigits2 q.
Proof.
  intros Hk Hq. pose proof (Z.pow_pos_nonneg 2 k ltac:(lia) Hk).
  destruct q as [|m|m]; [lia| |lia]. change (Zdigits2 (Zpos m)) with (bits m).
  rewrite bits_log2. apply Z.log2_le_pow2 in Hq; lia.
Qed.

Lemma digits_high q k : 0 ≤ k → 0 ≤ q < 2 ^ k → Zdigits2 q ≤ k.
Proof.
  intros Hk Hq. destruct q as [|m|m]; [done| |lia]. apply bits_bound; [done|lia].
Qed.

Lemma bits_range m : 2 ^ (bits m - 1) ≤ Zpos m < 2 ^ bits m.
Proof.
  rewrite bits_log2. replace (Z.log2 (Zpos m) + 1 - 1) with (Z.log2 (Zpos m)) by lia.
  pose proof (Z.log2_spec (Zpos m) ltac:(lia)). by rewrite Z.add_1_r.
Qed.

(** ** Rounding a quotient

    [N / D] times two to the [ex] is rounded, where [N = D * q + r]. *)

Section rounding.
Context (q r D ex : Z) (lx : location).
Context (Hq : 0 ≤ q) (Hr : 0 ≤ r < D) (Hlx : shr_record_of_loc q lx = cut q r D).
Context (Hex : ex ≤ exponent (Zdigits2 q + ex)).

Abbreviation e1 := (exponent (Zdigits2 q + ex)).
Abbreviation T := (2 ^ (e1 - ex)).

(** The first shift leaves the number cut off at the units of [e1]. *)
Lemma first_shift :
  shr_fexp 53 1024 q ex lx = (cut (q / T) (r + D * (q mod T)) (T * D), e1).
Proof using Hq Hr Hlx Hex.
  unfold shr_fexp. rewrite Hlx. destruct (e1 - ex) as [|p|p] eqn:Hp; [|simpl|lia].
  - rewrite Z.div_1_r, Z.mod_1_r. simpl shr. f_equal; [f_equal; lia|lia].
  - rewrite iter_pos_nat, shr_cut, positive_nat_Z by done. f_equal. lia.
Qed.

(** The number rounds to the integer less than half a unit away. *)
Lemma first_rounding M :
  2 * Z.abs (D * q + r - M * (T * D)) < T * D →
  round_nearest_even (q / T) (loc_of_shr_record (cut (q / T) (r + D * (q mod T)) (T * D))) = M.
Proof using Hq Hr Hex.
  intros HM. assert (0 < T) as HT by (apply Z.pow_pos_nonneg; lia).
  pose proof (Z.mod_pos_bound q T HT) as Hm. pose proof (Z.div_mod q T ltac:(lia)) as Hdm.
  set (q1 := q / T) in *. set (b := q mod T) in *.
  apply (f_equal (Z.mul D)) in Hdm.
  assert (0 ≤ r + D * b < T * D) as Hr1 by nia.
  replace (D * q + r - M * (T * D)) with ((q1 - M) * (T * D) + (r + D * b)) in HM
    by (rewrite Hdm; ring).
  set (r1 := r + D * b) in *. set (D1 := T * D) in *. clearbody q1 r1 D1.
  assert (q1 - M = 0 ∨ q1 - M = -1) as [H|H] by nia; rewrite H in HM.
  - rewrite round_cut by lia. rewrite (proj2 (Z.ltb_ge _ _)); lia.
  - rewrite round_cut by lia. rewrite (proj2 (Z.ltb_lt _ _)); lia.
Qed.

(** What is left after the first shift has at most 53 bits, and that many unless the exponent
    is the least. *)
Lemma first_bits : 0 ≤ q / T < 2 ^ 53 ∧ -1074 ≤ e1 ∧ (e1 = -1074 ∨ 2 ^ 52 ≤ q / T).
Proof using Hq Hr Hlx Hex.
  assert (0 < T) as HT by (apply Z.pow_pos_nonneg; lia).
  assert (0 ≤ Zdigits2 q ∧ q < 2 ^ Zdigits2 q) as [Hd Hup].
  { destruct q as [|p|p]; [done| |lia]. pose proof (bits_range p) as [_ H].
    split; [|exact H]. unfold Zdigits2. lia. }
  split_and!; [by apply Z.div_pos| |rewrite exponent_spec; lia|].
  - apply Z.div_lt_upper_bound; [done|]. rewrite <-Z.pow_add_r by lia.
    eapply Z.lt_le_trans; [exact Hup|]. apply Z.pow_le_mono_r; [lia|]. rewrite exponent_spec. lia.
  - destruct (Z.eq_dec e1 (-1074)) as [|Hne]; [by left|right].
    apply Z.div_le_lower_bound; [done|]. rewrite <-Z.pow_add_r by lia.
    rewrite exponent_spec in *. destruct q as [|p|p]; [simpl in *; lia| |lia].
    pose proof (bits_range p) as [H _]. unfold bits, Zdigits2 in *.
    etrans; [|exact H]. apply Z.pow_le_mono_r; lia.
Qed.

(** Numbers of at most 53 bits are at their exponent. *)
Lemma exponent_stays M f :
  0 ≤ M < 2 ^ 53 → -1074 ≤ f → (f = -1074 ∨ 2 ^ 52 ≤ M) → exponent (Zdigits2 M + f) = f.
Proof.
  intros HM Hf Hcase. pose proof (digits_high M 53 ltac:(lia) HM). rewrite exponent_spec.
  destruct Hcase as [|Hlow]; [lia|]. pose proof (digits_low M 52 ltac:(lia) Hlow). lia.
Qed.

(** What is rounded is a number of binary64. *)
Lemma round_valid : valid_binary 53 1024 (binary_round_aux 53 1024 false q ex lx) = true.
Proof using Hq Hr Hlx Hex.
  destruct first_bits as (Hq1 & Hmin & Hcase).
  unfold binary_round_aux. rewrite first_shift. cbv beta iota.
  set (mrs := cut (q / T) _ _).
  assert (∃ M, round_nearest_even (shr_m mrs) (loc_of_shr_record mrs) = M ∧
    (q / T ≤ M ≤ q / T + 1)) as (M & -> & HM).
  { eexists. split; [done|]. change (shr_m mrs) with (q / T). unfold round_nearest_even.
    repeat case_match; lia. }
  set (f := e1) in *. clearbody f mrs.
  unfold shr_fexp. destruct (Z.eq_dec M (2 ^ 53)) as [->|Hne].
  - change (Zdigits2 (2 ^ 53)) with 54. rewrite exponent_spec.
    replace (Z.max _ _ - _) with 1 by lia. simpl shr. cbn [shr_m]. case_bool; [|done].
    simpl. unfold bounded, canonical_mantissa. apply andb_true_iff. split; [|done].
    apply Z.eqb_eq. change (digits2_pos _) with 53%positive. rewrite exponent_spec. lia.
  - rewrite exponent_stays, Z.sub_diag by lia. cbn [shr shr_m shr_record_of_loc].
    destruct M as [|p|p]; [done| |lia]. case_bool; [|done].
    simpl. unfold bounded, canonical_mantissa. apply andb_true_iff. split; [|done].
    apply Z.eqb_eq. by apply (exponent_stays (Zpos p)); lia.
Qed.

Context (m : positive) (e : Z) (Hb : bounded 53 1024 m e = true).

Lemma bounded_spec : exponent (bits m + e) = e ∧ e ≤ 971.
Proof using Hb.
  unfold bounded, canonical_mantissa in Hb. apply andb_true_iff in Hb as [H1 H2].
  apply Z.eqb_eq in H1. apply Z.leb_le in H2. split; [exact H1|lia].
Qed.

Lemma bounded_bits : bits m ≤ 53 ∧ -1074 ≤ e ∧ (e = -1074 ∨ bits m = 53).
Proof using Hb. destruct bounded_spec as [H _]. rewrite exponent_spec in H. lia. Qed.

Lemma bounded_max : Zpos m < 2 ^ 53.
Proof using Hb.
  pose proof bounded_bits as [H _]. pose proof (bits_range m) as [_ Hm].
  pose proof (Z.pow_le_mono_r 2 (bits m) 53). lia.
Qed.
End rounding.

(** ** What is rounded

    [x] is [n / d] rounded, for integers [n] and [d] above 0. *)

Definition rounds (n d : Z) (x : float64) : Prop :=
  ∃ ex q r lx, ex ≤ 0 ∧ 0 ≤ q ∧ 0 ≤ r < d ∧ n * 2 ^ (- ex) = d * q + r ∧
    shr_record_of_loc q lx = cut q r d ∧ ex ≤ exponent (Zdigits2 q + ex) ∧
    x = binary_round_aux 53 1024 false q ex lx.

Lemma normalize_rounds n : rounds (Zpos n) 1 (binary_normalize 53 1024 (Zpos n) 0 false).
Proof.
  unfold binary_normalize, binary_round. fold (bits n). rewrite Z.add_0_r.
  destruct (Z.le_gt_cases (exponent (bits n)) 0) as [Hf|Hf].
  - destruct (shl_align_Z n 0 (exponent (bits n))) as (p & -> & Hp); [done|].
    exists (exponent (bits n)), (Zpos p), 0, loc_Exact. split_and!; try lia.
    + rewrite Z.mul_1_l, Z.add_0_r. by symmetry.
    + done.
    + change (Zdigits2 (Zpos p)) with (bits p).
      rewrite (bits_shift n p (0 - exponent (bits n))) by (done || lia).
      replace (bits n + (0 - exponent (bits n)) + exponent (bits n)) with (bits n); lia.
    + done.
  - assert (shl_align n 0 (exponent (bits n)) = (n, 0)) as ->.
    { unfold shl_align. rewrite Z.sub_0_r. by destruct (exponent (bits n)). }
    exists 0, (Zpos n), 0, loc_Exact. split_and!; try lia; try done.
    change (Zdigits2 (Zpos n)) with (bits n). rewrite Z.add_0_r. lia.
Qed.

(** A quotient has as many digits as the lengths of its terms give, or one more. *)
Lemma quotient_digits n d s q r :
  0 ≤ s → Zpos n * 2 ^ s = Zpos d * q + r → 0 ≤ q → 0 ≤ r < Zpos d →
  bits n - bits d + s ≤ Zdigits2 q.
Proof.
  intros Hs Hdm Hq Hr. destruct (Z.le_gt_cases (bits n - bits d + s) 0) as [H0|H0].
  { assert (0 ≤ Zdigits2 q); [|lia]. destruct q; simpl; lia. }
  assert (bits n - bits d + s - 1 + 1 ≤ Zdigits2 q); [|lia].
  apply digits_low; [lia|]. pose proof (bits_range n) as [Hn1 _].
  pose proof (bits_range d) as [_ Hd1]. set (A := 2 ^ (bits n - bits d + s - 1)).
  assert (2 ^ (bits n - 1) * 2 ^ s = A * 2 ^ bits d) as Hpow.
  { assert (1 ≤ bits n ∧ 1 ≤ bits d) by (unfold bits; lia). unfold A.
    rewrite <-!Z.pow_add_r by lia. f_equal. lia. }
  assert (0 < 2 ^ s) by (apply Z.pow_pos_nonneg; lia).
  assert (0 < A) by (apply Z.pow_pos_nonneg; lia).
  apply Z.lt_succ_r, (Z.mul_lt_mono_pos_r (Zpos d)); [lia|]. nia.
Qed.

(** Dividing is dividing the first term, shifted as far as the result needs. *)
Lemma div_core n e1 d e2 :
  ∃ ex q r, SFdiv_core_binary 53 1024 (Zpos n) e1 (Zpos d) e2 = (q, ex, new_location (Zpos d) r) ∧
    ex ≤ e1 - e2 ∧ 0 ≤ q ∧ 0 ≤ r < Zpos d ∧ Zpos n * 2 ^ (e1 - e2 - ex) = Zpos d * q + r ∧
    ex ≤ exponent (Zdigits2 q + ex).
Proof.
  unfold SFdiv_core_binary.
  change (Zdigits2 (Zpos n)) with (bits n). change (Zdigits2 (Zpos d)) with (bits d).
  set (f := exponent (bits n + e1 - (bits d + e2))). set (ex := Z.min f (e1 - e2)).
  set (s := e1 - e2 - ex). assert (0 ≤ s) as Hs by lia.
  assert (match s with Z0 => Zpos n | Zpos _ => Z.shiftl (Zpos n) s | Zneg _ => 0 end
    = Zpos n * 2 ^ s) as ->.
  { rewrite <-Z.shiftl_mul_pow2 by lia. destruct s; [done|done|lia]. }
  pose proof (Z_div_mod_eq_full (Zpos n * 2 ^ s) (Zpos d)) as Hdm.
  pose proof (Z.mod_pos_bound (Zpos n * 2 ^ s) (Zpos d) ltac:(lia)) as Hr.
  assert (0 ≤ Zpos n * 2 ^ s) as Hn by (apply Z.mul_nonneg_nonneg; lia).
  pose proof (Z.div_pos _ (Zpos d) Hn ltac:(lia)) as Hq.
  unfold Z.div, Z.modulo in Hdm, Hr, Hq. destruct (Z.div_eucl _ _) as [q r].
  pose proof (quotient_digits n d s q r Hs Hdm Hq Hr) as Hd.
  exists ex, q, r. split_and!; try done; [lia..|].
  apply Z.le_trans with f; [lia|]. unfold f. rewrite !exponent_spec. lia.
Qed.

Lemma fdiv_rounds n d :
  rounds (Zpos n) (Zpos d) (fdiv (S754_finite false n 0) (S754_finite false d 0)).
Proof.
  unfold fdiv, SFdiv. destruct (div_core n 0 d 0) as (ex & q & r & -> & H0 & Hq & Hr & Hdm & Hex).
  rewrite Z.sub_0_r, Z.sub_0_l in Hdm. exists ex, q, r, (new_location (Zpos d) r).
  split_and!; try done; try lia. by apply new_location_cut.
Qed.

(** ** What the program computes is binary64 *)

Abbreviation is_float := (valid_binary 53 1024).

Lemma rounds_valid n d x : rounds n d x → is_float x = true.
Proof.
  intros (ex & q & r & lx & _ & Hq & Hr & _ & Hlx & Hex & ->).
  by apply (round_valid q r d ex lx).
Qed.

Lemma fdiv_valid x y :
  unsigned x = true → unsigned y = true → is_float (fdiv x y) = true.
Proof.
  destruct x as [[]|[]| |[] n e1], y as [[]|[]| |[] d e2]; try done. intros _ _.
  unfold fdiv, SFdiv. destruct (div_core n e1 d e2) as (ex & q & r & -> & H0 & Hq & Hr & Hdm & Hex).
  apply (round_valid q r (Zpos d) ex); [done..| |done]. by apply new_location_cut.
Qed.

(** ** Rounding keeps the order

    [q] times two to the [ex] rounds to [rman q ex] times two to the [rexp q ex]. *)

Definition rexp (q ex : Z) : Z := exponent (Zdigits2 q + ex).

Definition rman (q ex : Z) : Z :=
  let T := 2 ^ (rexp q ex - ex) in
  round_nearest_even (q / T) (loc_of_shr_record (cut (q / T) (q mod T) T)).

(** Precise enough to be rounded without a shift to the left. *)
Definition fine (q ex : Z) : Prop := 0 ≤ q ∧ ex ≤ rexp q ex.

Lemma step_pos q ex : fine q ex → 0 < 2 ^ (rexp q ex - ex).
Proof. intros [_ Hex]. apply Z.pow_pos_nonneg; lia. Qed.

Lemma rman_range q ex :
  let T := 2 ^ (rexp q ex - ex) in q / T ≤ rman q ex ≤ q / T + 1.
Proof. cbv zeta. unfold rman, round_nearest_even. repeat case_match; lia. Qed.

Lemma fine_bits q ex :
  fine q ex →
  0 ≤ q / 2 ^ (rexp q ex - ex) < 2 ^ 53 ∧ -1074 ≤ rexp q ex ∧
  (rexp q ex = -1074 ∨ 2 ^ 52 ≤ q / 2 ^ (rexp q ex - ex)).
Proof.
  intros [Hq Hex]. apply (first_bits q 0 1 ex loc_Exact); [done|lia|done|done].
Qed.

Lemma rman_0 ex : fine 0 ex → rman 0 ex = 0.
Proof.
  intros Hf. pose proof (step_pos 0 ex Hf). unfold rman.
  rewrite Z.div_0_l, Z.mod_0_l, round_cut by lia. by rewrite (proj2 (Z.ltb_ge _ _)) by lia.
Qed.

(** The integer a rounded number truncates to. *)
Lemma rounded_trunc q ex :
  fine q ex → rexp q ex ≤ 970 →
  float_trunc (binary_round_aux 53 1024 false q ex loc_Exact) =
  Some (Z.shiftl (rman q ex) (rexp q ex)).
Proof.
  intros Hf Hmax. pose proof (rman_range q ex) as HM. destruct (fine_bits q ex Hf) as (Hq1 & Hmin & Hcase).
  destruct Hf as [Hq Hex]. unfold binary_round_aux.
  rewrite (first_shift q 0 1 ex loc_Exact) by (done || lia). cbv beta iota.
  change (shr_m (cut ?a ?b ?c)) with a. rewrite Z.add_0_l, Z.mul_1_l, Z.mul_1_r.
  change (round_nearest_even _ _) with (rman q ex). change (exponent (Zdigits2 q + ex)) with (rexp q ex).
  cbv zeta in HM. set (M := rman q ex) in *. set (f := rexp q ex) in *. clearbody M f.
  unfold shr_fexp. destruct (Z.eq_dec M (2 ^ 53)) as [->|Hne].
  - change (Zdigits2 (2 ^ 53)) with 54. rewrite exponent_spec.
    replace (Z.max _ _ - _) with 1 by lia. simpl shr. cbn [shr_m].
    rewrite (proj2 (Z.leb_le _ _)) by lia. unfold float_trunc.
    change (2 ^ 53) with (Z.shiftl (2 ^ 52) 1). rewrite Z.shiftl_shiftl, (Z.add_comm 1) by lia.
    case_bool; [done|]. rewrite <-Z.shiftl_opp_r, Z.opp_involutive. done.
  - rewrite exponent_stays, Z.sub_diag by lia. cbn [shr shr_m shr_record_of_loc].
    destruct M as [|p|p]; [by rewrite Z.shiftl_0_l| |lia].
    rewrite (proj2 (Z.leb_le _ _)) by lia. unfold float_trunc.
    case_bool; [done|]. by rewrite <-Z.shiftl_opp_r, Z.opp_involutive.
Qed.

Lemma shiftl_neg a e : e ≤ 0 → Z.shiftl a e = a / 2 ^ (- e).
Proof. intros He. by rewrite <-Z.shiftr_div_pow2, <-Z.shiftl_opp_r, Z.opp_involutive by lia. Qed.

(** Below 2 ^ 53, no integer is jumped over. *)
Lemma rounded_floor q ex :
  fine q ex → rexp q ex ≤ 0 →
  Z.shiftl q ex ≤ Z.shiftl (rman q ex) (rexp q ex) ≤ Z.shiftl q ex + 1.
Proof.
  intros Hf H0. pose proof (rman_range q ex) as HM. pose proof (step_pos q ex Hf) as HT.
  destruct Hf as [Hq Hex]. cbv zeta in HM.
  rewrite !shiftl_neg by lia.
  assert (q / 2 ^ (- ex) = q / 2 ^ (rexp q ex - ex) / 2 ^ (- rexp q ex)) as ->.
  { rewrite Z.div_div by lia. rewrite <-Z.pow_add_r by lia. do 2 f_equal. lia. }
  set (Q := q / 2 ^ (rexp q ex - ex)) in *. set (P := 2 ^ (- rexp q ex)).
  assert (1 ≤ P) as HP by (apply (Z.pow_le_mono_r 2 0); lia).
  split; [apply Z.div_le_mono; lia|].
  etrans; [apply (Z.div_le_mono _ (Q + P) P); lia|].
  replace (Q + P) with (Q + 1 * P) by lia. rewrite Z.div_add by lia. done.
Qed.

Lemma rounded_exact q ex :
  fine q ex → q mod 2 ^ (rexp q ex - ex) = 0 → rexp q ex ≤ 0 →
  Z.shiftl (rman q ex) (rexp q ex) = Z.shiftl q ex.
Proof.
  intros Hf Hm H0. pose proof (step_pos q ex Hf) as HT. destruct Hf as [Hq Hex].
  unfold rman. rewrite Hm, round_cut by lia. rewrite (proj2 (Z.ltb_ge _ _)) by lia.
  rewrite !shiftl_neg by lia. rewrite Z.div_div by lia. rewrite <-Z.pow_add_r by lia. do 2 f_equal. lia.
Qed.

Lemma shiftl_mono a b e : a ≤ b → Z.shiftl a e ≤ Z.shiftl b e.
Proof.
  intros Hab. destruct (Z.le_gt_cases 0 e).
  - rewrite !Z.shiftl_mul_pow2 by done. apply Z.mul_le_mono_nonneg_r; [|done].
    by apply Z.pow_nonneg.
  - rewrite !shiftl_neg by lia. apply Z.div_le_mono; [|done]. apply Z.pow_pos_nonneg; lia.
Qed.

Lemma round_cut_cases q r D :
  0 ≤ r < D →
  round_nearest_even q (loc_of_shr_record (cut q r D)) =
  if D <? 2 * r then q + 1 else if D =? 2 * r then (if Z.even q then q else q + 1) else q.
Proof.
  intros Hr. unfold cut.
  destruct (Z.eqb_spec r 0), (Z.leb_spec D (2 * r)), (Z.eqb_spec (2 * r) D),
    (Z.ltb_spec D (2 * r)), (Z.eqb_spec D (2 * r)); try lia; done.
Qed.

(** At one exponent the larger number rounds to the larger one. *)
Lemma round_cut_mono q T q' T' :
  0 < T → 0 < T' → q * T' ≤ q' * T →
  round_nearest_even (q / T) (loc_of_shr_record (cut (q / T) (q mod T) T)) ≤
  round_nearest_even (q' / T') (loc_of_shr_record (cut (q' / T') (q' mod T') T')).
Proof.
  intros HT HT' Hle. pose proof (Z.div_mod q T ltac:(lia)) as Hd.
  pose proof (Z.div_mod q' T' ltac:(lia)) as Hd'.
  pose proof (Z.mod_pos_bound q T HT) as Hr. pose proof (Z.mod_pos_bound q' T' HT') as Hr'.
  rewrite !round_cut_cases by done.
  set (Q := q / T) in *. set (r := q mod T) in *. set (Q' := q' / T') in *. set (r' := q' mod T') in *.
  clearbody Q r Q' r'. subst q q'.
  assert (Q < Q' + 1) as HQ.
  { apply (Z.mul_lt_mono_pos_r (T * T')); [by apply Z.mul_pos_pos|].
    assert (0 ≤ r * T' ∧ r' * T < T' * T) by (split; [apply Z.mul_nonneg_nonneg; lia|];
      apply Z.mul_lt_mono_pos_r; lia). lia. }
  destruct (Z.eq_dec Q Q') as [<-|]; [|repeat case_match; lia].
  assert (r * T' ≤ r' * T) as Hrr by lia.
  assert (T < 2 * r → T' < 2 * r') as Hgt.
  { intros H. apply (Z.mul_lt_mono_pos_r T); [done|].
    assert (T * T' < 2 * r * T') by (by apply Z.mul_lt_mono_pos_r). lia. }
  assert (T = 2 * r → T' ≤ 2 * r') as Hge.
  { intros H. apply (Z.mul_le_mono_pos_r _ _ T); [done|].
    assert (T * T' = 2 * r * T') by (by rewrite H at 1). lia. }
  repeat case_match; bool_prop; lia.
Qed.

(** [q] times two to the [ex] is no larger than [q'] times two to the [ex']. *)
Definition no_larger (q ex q' ex' : Z) : Prop :=
  q * 2 ^ (ex - Z.min ex ex') ≤ q' * 2 ^ (ex' - Z.min ex ex').

Lemma no_larger_digits q ex q' ex' :
  0 < q → no_larger q ex q' ex' → Zdigits2 q + ex ≤ Zdigits2 q' + ex'.
Proof.
  unfold no_larger. intros Hq Hle. set (lo := Z.min ex ex') in *.
  assert (0 < 2 ^ (ex - lo) ∧ 0 < 2 ^ (ex' - lo)) as [H H'] by (split; apply Z.pow_pos_nonneg; lia).
  destruct q as [|m|m]; [lia| |lia]. destruct q' as [|m'|m']; [nia| |nia].
  change (Zdigits2 (Zpos ?m)) with (bits m).
  pose proof (bits_range m) as [Hm _]. pose proof (bits_range m') as [_ Hm'].
  assert (1 ≤ bits m ∧ 1 ≤ bits m') by (unfold bits; lia).
  assert (2 ^ (bits m - 1) * 2 ^ (ex - lo) < 2 ^ bits m' * 2 ^ (ex' - lo)) as Hlt.
  { eapply Z.le_lt_trans; [apply Z.mul_le_mono_pos_r; eassumption|].
    eapply Z.le_lt_trans; [exact Hle|]. by apply Z.mul_lt_mono_pos_r. }
  rewrite <-!Z.pow_add_r in Hlt by lia. apply Z.pow_lt_mono_r_iff in Hlt; lia.
Qed.

Lemma rounded_mono q ex q' ex' :
  fine q ex → fine q' ex' → no_larger q ex q' ex' →
  Z.shiftl (rman q ex) (rexp q ex) ≤ Z.shiftl (rman q' ex') (rexp q' ex').
Proof.
  intros Hf Hf' Hle. pose proof (rman_range q ex) as HM. pose proof (rman_range q' ex') as HM'.
  destruct (fine_bits q ex Hf) as (Hb & Hmin & _). destruct (fine_bits q' ex' Hf') as (Hb' & _ & Hcase').
  pose proof (step_pos q ex Hf) as HT. pose proof (step_pos q' ex' Hf') as HT'. cbv zeta in *.
  destruct (Z.eq_dec q 0) as [->|Hq].
  { rewrite rman_0, Z.shiftl_0_l by done. apply Z.shiftl_nonneg. lia. }
  destruct Hf as [Hq0 Hex], Hf' as [Hq0' Hex'].
  assert (rexp q ex ≤ rexp q' ex') as Hee.
  { pose proof (no_larger_digits q ex q' ex' ltac:(lia) Hle). unfold rexp. rewrite !exponent_spec. lia. }
  destruct (Z.eq_dec (rexp q ex) (rexp q' ex')) as [Heq|Hne].
  - rewrite <-Heq. apply shiftl_mono. apply round_cut_mono; [done..|]. rewrite <-Heq in *.
    set (f := rexp q ex) in *. unfold no_larger in Hle. set (lo := Z.min ex ex') in *.
    apply (Z.mul_le_mono_nonneg_r _ _ (2 ^ (f - Z.max ex ex'))) in Hle; [|apply Z.pow_nonneg; lia].
    rewrite <-!Z.mul_assoc, <-!Z.pow_add_r in Hle by lia.
    replace (f - ex') with (ex - lo + (f - Z.max ex ex')) by lia.
    by replace (f - ex) with (ex' - lo + (f - Z.max ex ex')) by lia.
  - set (f := rexp q ex) in *. set (f' := rexp q' ex') in *.
    etrans; [apply (shiftl_mono _ (Z.shiftl (2 ^ 52) 1)); change (Z.shiftl (2 ^ 52) 1) with (2 ^ 53); lia|].
    etrans; [|apply (shiftl_mono (2 ^ 52)); lia].
    replace f' with (f' - f - 1 + (1 + f)) by lia. rewrite <-!Z.shiftl_shiftl by lia.
    do 2 apply shiftl_mono. rewrite Z.shiftl_mul_pow2 by lia.
    assert (1 ≤ 2 ^ (f' - f - 1)) by (apply (Z.pow_le_mono_r 2 0); lia). lia.
Qed.
