(* ===== verification/FloatDecimal.v ===== *)
(** * The decimals of float64

    Seventeen digits tell any two binary64 numbers apart: the decimal that the shortest
    formatting settles on, after at most 17 tries, always reads back as the number. A decimal
    within a relative error of half a unit of the 17th digit rounds to the number. *)

From Stdlib Require Import SpecFloat.
From S2P Require Import Prelude GoStrings GoFloat FloatExact FloatRound.

#[local] Open Scope Z_scope.

(** ** Rounding to a number that is near

    [N / D] times two to the [ex] is rounded, where [N = D * q + r]; [m] times two to the
    [e] is a number of binary64 whose distance is at most one in [2 * 10 ^ 16]. *)

Definition near (N M : Z) : Prop := 2 * 10 ^ 16 * Z.abs (N - M) ≤ M.

Lemma near_scale N M c : 0 < c → near (c * N) (c * M) ↔ near N M.
Proof.
  intros Hc. unfold near. rewrite <-Z.mul_sub_distr_l, Z.abs_mul, (Z.abs_eq c) by lia.
  rewrite Z.mul_assoc, (Z.mul_comm _ c), <-Z.mul_assoc. split; [apply Z.mul_le_mono_pos_l|nia].
  done.
Qed.

Section rounding.
Context (q r D ex : Z) (lx : location).
Context (Hq : 0 ≤ q) (Hr : 0 ≤ r < D) (Hlx : shr_record_of_loc q lx = cut q r D).
Context (Hex : ex ≤ exponent (Zdigits2 q + ex)).

Abbreviation e1 := (exponent (Zdigits2 q + ex)).
Abbreviation T := (2 ^ (e1 - ex)).

Context (m : positive) (e : Z) (Hb : bounded 53 1024 m e = true).

Context (HN : near (D * q + r) (Zpos m * (D * 2 ^ (e - ex)))) (Hee : ex ≤ e).

Abbreviation S := (2 ^ (e - ex)).

Lemma unit_pos : 0 < D * S.
Proof using Hr Hee. apply Z.mul_pos_pos; [lia|]. apply Z.pow_pos_nonneg; lia. Qed.

(** The exponent the number is rounded at is that of the result, or one less just below a
    power of two. *)
Lemma rounding_exponent : e1 = e ∨ (e1 = e - 1 ∧ Zpos m = 2 ^ 52 ∧ -1074 < e).
Proof using Hq Hr Hex Hb HN Hee.
  pose proof (bounded_max m e Hb) as Hmax. pose proof (bounded_bits m e Hb) as (Hb53 & Hmin & Hcase).
  destruct (bounded_spec m e Hb) as [Hcan _]. pose proof (bits_range m) as [Hlo Hhi].
  pose proof unit_pos as HS. assert (0 < S) as HS0 by (apply Z.pow_pos_nonneg; lia).
  unfold near in HN. assert (1 ≤ bits m) as H1 by (unfold bits; lia).
  assert (Zdigits2 q ≤ bits m + (e - ex)) as Hup.
  { apply digits_high; [lia|]. rewrite Z.pow_add_r by lia. split; [done|]. nia. }
  assert (e1 ≤ e) as Hle by (rewrite exponent_spec in *; lia).
  destruct (Z.eq_dec e (-1074)) as [->|Hne]; [left; rewrite exponent_spec in *; lia|].
  destruct Hcase as [|H53]; [done|]. rewrite H53 in *. change (53 - 1) with 52 in Hlo.
  destruct (Z.eq_dec (Zpos m) (2 ^ 52)) as [Heq|Hgt].
  - assert (51 + (e - ex) + 1 ≤ Zdigits2 q) as Hlow.
    { apply digits_low; [lia|]. rewrite Z.pow_add_r by lia. rewrite Heq in HN. nia. }
    rewrite exponent_spec in *. destruct (Z.eq_dec (Zdigits2 q + ex) (53 + e)); [left|right]; lia.
  - assert (52 + (e - ex) + 1 ≤ Zdigits2 q) as Hlow.
    { apply digits_low; [lia|]. rewrite Z.pow_add_r by lia. nia. }
    left. rewrite exponent_spec in *. lia.
Qed.

Lemma round_near : binary_round_aux 53 1024 false q ex lx = S754_finite false m e.
Proof using Hq Hr Hlx Hex Hb HN Hee.
  pose proof (bounded_max m e Hb) as Hmax. pose proof unit_pos as HS. unfold near in HN.
  destruct (bounded_spec m e Hb) as [Hcan Hfin]. unfold binary_round_aux. rewrite (first_shift q r D ex lx Hq Hr Hlx Hex). cbv beta iota.
  change (shr_m (cut ?a ?b ?c)) with a.
  destruct rounding_exponent as [He|(He & Hm & Hmin)].
  - rewrite (first_rounding q r D ex Hq Hr Hex (Zpos m)) by (rewrite He; nia). rewrite He.
    unfold shr_fexp. change (Zdigits2 (Zpos m)) with (bits m). rewrite Hcan, Z.sub_diag. simpl.
    by rewrite (proj2 (Z.leb_le _ _)) by lia.
  - assert (S = 2 * T) as HT by (rewrite He, <-Z.pow_succ_r by lia; f_equal; lia).
    rewrite (first_rounding q r D ex Hq Hr Hex (2 ^ 53)) by (rewrite HT, Hm in *; nia). rewrite He.
    unfold shr_fexp. change (Zdigits2 (2 ^ 53)) with 54. rewrite exponent_spec.
    replace (Z.max _ _ - _) with 1 by lia. simpl shr. cbn [shr_m].
    replace (e - 1 + 1) with e by lia. rewrite (proj2 (Z.leb_le _ _)) by lia.
    f_equal. lia.
Qed.
End rounding.

(** The number [m] times two to the [e] as a quotient. *)
Definition num_of (m : positive) (e : Z) : Z := Zpos m * 2 ^ Z.max e 0.
Definition den_of (e : Z) : Z := 2 ^ Z.max (- e) 0.

Lemma den_of_pos e : 0 < den_of e.
Proof. apply Z.pow_pos_nonneg; lia. Qed.

Lemma num_of_pos m e : 0 < num_of m e.
Proof. apply Z.mul_pos_pos; [lia|]. apply Z.pow_pos_nonneg; lia. Qed.

Lemma num_den_shift m e ex :
  ex ≤ 0 → ex ≤ e → num_of m e * 2 ^ (- ex) = Zpos m * 2 ^ (e - ex) * den_of e.
Proof.
  intros H0 He. unfold num_of, den_of. rewrite <-!Z.mul_assoc, <-!Z.pow_add_r by lia.
  do 2 f_equal. lia.
Qed.

Lemma rounds_exponent n d m e ex q r :
  bounded 53 1024 m e = true → near (n * den_of e) (num_of m e * d) →
  ex ≤ 0 → 0 ≤ q → 0 ≤ r < d → n * 2 ^ (- ex) = d * q + r →
  ex ≤ exponent (Zdigits2 q + ex) → ex ≤ e.
Proof.
  intros Hb Hn H0 Hq Hr Hv Hex. destruct (Z.le_gt_cases ex e) as [|Hlt]; [done|exfalso].
  pose proof (bounded_max m e Hb) as Hmax. destruct (bounded_bits m e Hb) as (_ & Hmin & _).
  assert (2 ^ 52 ≤ q) as Hq52.
  { destruct (Z.le_gt_cases (2 ^ 52) q) as [|Hsmall]; [done|].
    assert (Zdigits2 q ≤ 52) by (apply digits_high; lia). rewrite exponent_spec in Hex. lia. }
  unfold num_of, den_of, near in Hn. rewrite !Z.max_l, !Z.max_r in Hn by lia.
  rewrite Z.mul_1_r in Hn.
  assert (n * 2 ^ (- e) = (d * q + r) * 2 ^ (ex - e)) as Hne.
  { rewrite <-Hv, <-Z.mul_assoc, <-Z.pow_add_r by lia. do 2 f_equal. lia. }
  rewrite Hne in Hn. assert (2 ≤ 2 ^ (ex - e)) as H2.
  { change 2 with (2 ^ 1) at 1. apply Z.pow_le_mono_r; lia. }
  assert (d * 2 ^ 52 ≤ d * q) by (apply Z.mul_le_mono_nonneg_l; lia).
  assert ((d * q + r) * 2 ≤ (d * q + r) * 2 ^ (ex - e)) by (apply Z.mul_le_mono_nonneg_l; lia).
  assert (Zpos m * d ≤ (2 ^ 53 - 1) * d) by (apply Z.mul_le_mono_nonneg_r; lia). lia.
Qed.

Lemma rounds_near n d x m e :
  rounds n d x → bounded 53 1024 m e = true → near (n * den_of e) (num_of m e * d) →
  x = S754_finite false m e.
Proof.
  intros (ex & q & r & lx & H0 & Hq & Hr & Hv & Hlx & Hex & ->) Hb Hn.
  assert (ex ≤ e) as He by (by eapply rounds_exponent).
  apply (round_near q r d ex lx); try done.
  apply (near_scale _ _ (den_of e * 1)); [pose proof (den_of_pos e); lia|].
  apply (near_scale _ _ (2 ^ (- ex))) in Hn; [|apply Z.pow_pos_nonneg; lia].
  replace (den_of e * 1 * (d * q + r)) with (2 ^ (- ex) * (n * den_of e)) by (rewrite <-Hv; ring).
  replace (den_of e * 1 * (Zpos m * (d * 2 ^ (e - ex))))
    with (2 ^ (- ex) * (num_of m e * d)); [done|].
  rewrite (Z.mul_comm (2 ^ (- ex))), <-Z.mul_assoc, (Z.mul_comm d), Z.mul_assoc, num_den_shift
    by done. ring.
Qed.

(** ** Decimals near a number *)

(** The decimal [q] times ten to the [k] as a quotient. *)
Definition dec_num (q k : Z) : Z := q * 10 ^ Z.max k 0.
Definition dec_den (k : Z) : Z := 10 ^ Z.max (- k) 0.

Lemma dec_den_pos k : 0 < dec_den k.
Proof. apply Z.pow_pos_nonneg; lia. Qed.

Lemma dec_shift q k j : 0 ≤ j → dec_num (q * 10 ^ j) k * dec_den (k + j) = dec_num q (k + j) * dec_den k.
Proof.
  intros Hj. unfold dec_num, dec_den. rewrite <-!Z.mul_assoc, <-!Z.pow_add_r by lia.
  do 2 f_equal. lia.
Qed.

Lemma dec_go_bounds acc s :
  0 ≤ acc → all_digits s = true →
  acc * 10 ^ slen s ≤ dec_go acc s < (acc + 1) * 10 ^ slen s.
Proof.
  unfold slen. revert acc. induction s as [|c s IH]; intros acc Ha Hs; [simpl; lia|].
  unfold all_digits in Hs. simpl in Hs. apply andb_true_iff in Hs as [Hc Hs].
  unfold is_digit in Hc. apply andb_true_iff in Hc as [H1%N.leb_le H2%N.leb_le].
  cbn [dec_go String.length]. rewrite Nat2Z.inj_succ, Z.pow_succ_r by lia.
  specialize (IH (acc * 10 + (Z.of_N (N_of_ascii c) - 48)) ltac:(lia) Hs).
  pose proof (Z.pow_pos_nonneg 10 (Z.of_nat (String.length s))). nia.
Qed.

(** How many digits a number has. *)
Lemma digits_length p :
  let n := slen (digits_of_N (Npos p)) in 0 < n ∧ 10 ^ (n - 1) ≤ Zpos p < 10 ^ n.
Proof.
  cbv zeta. pose proof (dec_go_digits (Npos p)) as Hv. pose proof (digits_all_digits (Npos p)) as Ha.
  pose proof (dec_go_bounds 0 _ ltac:(lia) Ha) as Hb. rewrite Hv in Hb.
  destruct (digits_leading (Npos p)) as (c & s & Hd & Hc); [lia|]. rewrite Hd in *.
  unfold all_digits in Ha. simpl in Ha. apply andb_true_iff in Ha as [Hcd Hs].
  unfold is_digit in Hcd. apply andb_true_iff in Hcd as [H1%N.leb_le H2%N.leb_le].
  assert (N_of_ascii c ≠ 48%N) as Hne.
  { intros Heq. apply Hc. rewrite <-(ascii_N_embedding c), Heq. done. }
  unfold slen in *. cbn [String.length dec_go] in *. rewrite Nat2Z.inj_succ in *.
  split; [lia|]. split; [|lia]. rewrite Z.sub_1_r, Z.pred_succ.
  pose proof (dec_go_bounds (0 * 10 + (Z.of_N (N_of_ascii c) - 48)) s ltac:(lia) Hs) as Hb'.
  unfold slen in Hb'. rewrite Hv in Hb'.
  pose proof (Z.pow_pos_nonneg 10 (Z.of_nat (String.length s))). nia.
Qed.

Lemma strip_spec f q k q' k' :
  strip f q k = (q', k') → 0 < q → ∃ j, 0 ≤ j ∧ q = q' * 10 ^ j ∧ k' = k + j ∧ 0 < q'.
Proof.
  revert q k. induction f as [|f IH]; intros q k; simpl; [intros [= -> ->]; exists 0; lia|].
  destruct (Z.eqb_spec (q mod 10) 0) as [Hm|]; [|intros [= -> ->]; exists 0; lia].
  intros Hs Hq. pose proof (Z.div_mod q 10). destruct (IH _ _ Hs) as (j & Hj & Hd & -> & Hq');
    [lia|].
  exists (j + 1). rewrite Z.pow_add_r by lia. split_and!; lia.
Qed.

Lemma near_twice A B : near A B → A ≤ 2 * B ∧ B ≤ 2 * A.
Proof. unfold near. lia. Qed.

Section decimal.
Context (m : positive) (e : Z) (Hb : bounded 53 1024 m e = true).

Lemma magnitude_bounds : num_of m e < 2 ^ 1024 * den_of e ∧ den_of e ≤ 2 ^ 1074 * num_of m e.
Proof using Hb.
  pose proof (bounded_max m e Hb) as Hm. destruct (bounded_bits m e Hb) as (_ & Hmin & _).
  destruct (bounded_spec m e Hb) as [_ Hmax]. unfold num_of, den_of.
  assert (0 < 2 ^ Z.max e 0) as H1 by (apply Z.pow_pos_nonneg; lia).
  assert (2 ^ Z.max e 0 ≤ 2 ^ 971) as H2 by (apply Z.pow_le_mono_r; lia).
  assert (0 < 2 ^ Z.max (- e) 0) as H3 by (apply Z.pow_pos_nonneg; lia).
  assert (2 ^ Z.max (- e) 0 ≤ 2 ^ 1074) as H4 by (apply Z.pow_le_mono_r; lia).
  change (2 ^ 1024) with (2 ^ 53 * 2 ^ 971). split; [|nia].
  apply Z.lt_le_trans with (2 ^ 53 * 2 ^ 971); [nia|].
  set (X := 2 ^ 53 * 2 ^ 971). assert (0 < X) by done. clearbody X. nia.
Qed.

Definition decimal_near (q k : Z) : Prop :=
  near (dec_num q k * den_of e) (num_of m e * dec_den k).

Lemma decimal_near_shift q k j :
  0 ≤ j → decimal_near (q * 10 ^ j) k → decimal_near q (k + j).
Proof.
  intros Hj Hn. unfold decimal_near in *.
  apply (near_scale _ _ (dec_den (k + j))) in Hn; [|apply dec_den_pos].
  apply (near_scale _ _ (dec_den k)); [apply dec_den_pos|].
  rewrite Z.mul_assoc, (Z.mul_comm (dec_den (k + j))), dec_shift in Hn by done.
  replace (dec_den k * (dec_num q (k + j) * den_of e))
    with (dec_num q (k + j) * dec_den k * den_of e) by ring.
  by replace (dec_den k * (num_of m e * dec_den (k + j)))
    with (dec_den (k + j) * (num_of m e * dec_den k)) by ring.
Qed.

(** A decimal that is near is not cut off as too large or too small. *)
Lemma decimal_near_point p k :
  decimal_near (Zpos p) k → -330 ≤ slen (digits_of_N (Npos p)) + k ≤ 310.
Proof using Hb.
  intros [Hup Hlo]%near_twice. destruct magnitude_bounds as [Hmax Hmin].
  destruct (digits_length p) as (Hlen & Hp1 & Hp2). set (n := slen _) in *.
  pose proof (dec_den_pos k) as Hd. pose proof (den_of_pos e) as Hden.
  pose proof (num_of_pos m e) as Hnum. unfold dec_num in *.
  set (P := 10 ^ Z.max k 0) in *. assert (0 < P) as HP by (apply Z.pow_pos_nonneg; lia).
  split; apply Z.le_ngt; intros Hdp.
  - assert (10 ^ n * P * 10 ^ 331 ≤ dec_den k) as H331.
    { unfold dec_den, P. rewrite <-!Z.pow_add_r by lia. apply Z.pow_le_mono_r; lia. }
    assert (10 ^ 331 * num_of m e ≤ 2 * den_of e); [|lia].
    assert (Zpos p * P < 10 ^ n * P) as Hpp by nia.
    set (a := Zpos p * P) in *. set (A := 10 ^ n * P) in *. set (b := dec_den k) in *.
    set (E := 10 ^ 331) in *. assert (0 < E) by done. clearbody a A b E.
    apply (Z.mul_le_mono_pos_r _ _ b); [done|].
    assert (a * E ≤ A * E) by (apply Z.mul_le_mono_nonneg_r; lia).
    assert (E * (num_of m e * b) ≤ E * (2 * (a * den_of e)))
      by (apply Z.mul_le_mono_nonneg_l; lia).
    assert (den_of e * (a * E) ≤ den_of e * b) by (apply Z.mul_le_mono_nonneg_l; lia). lia.
  - assert (10 ^ 310 * dec_den k ≤ 10 ^ (n - 1) * P) as H310.
    { unfold dec_den, P. rewrite <-!Z.pow_add_r by lia. apply Z.pow_le_mono_r; lia. }
    assert (10 ^ 310 * den_of e ≤ 2 * num_of m e); [|lia].
    assert (10 ^ (n - 1) * P ≤ Zpos p * P) as Hpp by nia.
    set (a := Zpos p * P) in *. set (A := 10 ^ (n - 1) * P) in *. set (b := dec_den k) in *.
    set (E := 10 ^ 310) in *. assert (0 < E) by done. clearbody a A b E.
    apply (Z.mul_le_mono_pos_r _ _ b); [done|].
    assert (den_of e * (E * b) ≤ den_of e * a) by (apply Z.mul_le_mono_nonneg_l; lia). lia.
Qed.

(** Such a decimal reads back as the number. *)
Lemma of_decimal_near q k :
  0 < q → decimal_near q k → of_decimal q k = S754_finite false m e.
Proof using Hb.
  intros Hq Hn. unfold of_decimal. destruct (strip (strip_fuel q) q k) as [q' k'] eqn:Hs.
  destruct (strip_spec _ _ _ _ _ Hs Hq) as (j & Hj & -> & -> & Hq').
  apply decimal_near_shift in Hn; [|done]. set (k' := k + j) in *. clearbody k'.
  destruct q' as [|p|p]; [lia| |lia]. pose proof (decimal_near_point p k' Hn) as Hdp.
  unfold slen in Hdp. rewrite (proj2 (Z.ltb_ge _ _)), (proj2 (Z.ltb_ge _ _)) by lia.
  unfold decimal_near, dec_num, dec_den in Hn. destruct (Z.leb_spec 0 k') as [Hk|Hk].
  - rewrite Z.max_l, Z.max_r in Hn by lia.
    destruct (Zpos p * 10 ^ k') as [|p'|p'] eqn:Hp;
      [|eapply rounds_near; [apply normalize_rounds|exact Hb|exact Hn]|];
      pose proof (Z.pow_pos_nonneg 10 k'); nia.
  - rewrite (Z.max_r k'), Z.max_l in Hn by lia. rewrite Z.mul_1_r in Hn.
    destruct (10 ^ (- k')) as [|d|d] eqn:Hd;
      [|eapply rounds_near; [apply fdiv_rounds|exact Hb|exact Hn]|];
      pose proof (Z.pow_pos_nonneg 10 (- k')); lia.
Qed.
End decimal.

(** ** Seventeen digits are enough *)

Lemma below_one_spec num den f j :
  let p := below_one num den f j in
  - (j + Z.of_nat f) ≤ p ≤ - j ∧ (den ≤ num * 10 ^ (- p) ∨ p = - (j + Z.of_nat f)).
Proof.
  cbv zeta. revert j. induction f as [|f IH]; intros j; simpl; [lia|].
  destruct (Z.leb_spec den (num * 10 ^ j)).
  - split; [lia|]. left. by rewrite Z.opp_involutive.
  - specialize (IH (j + 1)). lia.
Qed.

(** What is returned reads back, if one of the numbers of digits that are tried has it. *)
Lemma shortest_reads num den x tries n n' :
  let k := magnitude num den - (n' - 1) in
  n ≤ n' < n + Z.of_nat tries →
  reads_back x (scaled_down num den k) k || reads_back x (scaled_down num den k + 1) k = true →
  let r := shortest num den tries n x in reads_back x r.1 r.2 = true.
Proof.
  cbv zeta. revert n. induction tries as [|tries IH]; intros n Hn Hr; [lia|]. cbn [shortest].
  set (k := magnitude num den - (n - 1)). set (q := scaled_down num den k).
  destruct (reads_back x q k && _) eqn:Hlo; [by apply andb_true_iff in Hlo as [Hlo _]|].
  destruct (reads_back x (q + 1) k) eqn:Hhi; [done|].
  rewrite andb_true_r in Hlo. apply IH; [|done].
  destruct (Z.eq_dec n n') as [<-|]; [|lia].
  fold k q in Hr. by rewrite Hlo, Hhi in Hr.
Qed.

Section seventeen.
Context (m : positive) (e : Z) (Hb : bounded 53 1024 m e = true).

Abbreviation num := (num_of m e).
Abbreviation den := (den_of e).
Abbreviation mag := (magnitude num den).

Lemma magnitude_low : den * 10 ^ Z.max mag 0 ≤ num * 10 ^ Z.max (- mag) 0.
Proof using Hb.
  pose proof (den_of_pos e) as Hd. pose proof (num_of_pos m e) as Hn.
  pose proof (magnitude_bounds m e Hb) as [_ Hlow]. unfold magnitude.
  destruct (Z.leb_spec den num) as [Hle|Hlt].
  - assert (0 < num / den) as Hpos by (by apply Z.div_str_pos).
    destruct (num / den) as [|p|p] eqn:Hp; [lia| |lia].
    destruct (digits_length p) as (Hlen & Hp1 & _). unfold slen in *. simpl Z.to_N.
    rewrite Z.max_l, Z.max_r, Z.mul_1_r by lia.
    etrans; [apply Z.mul_le_mono_nonneg_l; [lia|exact Hp1]|]. rewrite <-Hp.
    apply Z.mul_div_le. done.
  - pose proof (below_one_spec num den 400 1) as [Hr Hp]. cbv zeta in *.
    set (p := below_one num den 400 1) in *. rewrite Z.max_r, Z.max_l, Z.mul_1_r by lia.
    destruct Hp as [Hp| ->]; [done|].
    etrans; [exact Hlow|]. rewrite Z.mul_comm. apply Z.mul_le_mono_nonneg_l; [lia|].
    apply Z.leb_le. by vm_compute.
Qed.

Lemma seventeen_digits :
  let k := mag - 16 in
  let q := scaled_down num den k in
  0 < q ∧ (decimal_near m e q k ∨ decimal_near m e (q + 1) k).
Proof using Hb.
  cbv zeta. set (k := mag - 16).
  pose proof (den_of_pos e) as Hd. pose proof (dec_den_pos k) as Hdd.
  assert (0 < 10 ^ Z.max k 0) as HP by (apply Z.pow_pos_nonneg; lia).
  set (A := num * dec_den k). set (B := den * 10 ^ Z.max k 0).
  assert (scaled_down num den k = A / B) as ->.
  { unfold scaled_down, A, B, dec_den. destruct (Z.leb_spec 0 k).
    - by rewrite (Z.max_l k), (Z.max_r (- k)), Z.mul_1_r by lia.
    - by rewrite (Z.max_r k), (Z.max_l (- k)), Z.mul_1_r by lia. }
  assert (B * 10 ^ 16 ≤ A) as HAB.
  { set (t := Z.max k 0 + 16 - Z.max mag 0).
    assert (0 < 10 ^ t) as Ht by (apply Z.pow_pos_nonneg; lia).
    pose proof (Z.mul_le_mono_nonneg_r _ _ (10 ^ t) ltac:(lia) magnitude_low) as H.
    rewrite <-!Z.mul_assoc, <-!Z.pow_add_r in H by lia.
    unfold A, B, dec_den. rewrite <-Z.mul_assoc, <-Z.pow_add_r by lia.
    replace (Z.max k 0 + 16) with (Z.max mag 0 + t) by lia.
    by replace (Z.max (- k) 0) with (Z.max (- mag) 0 + t) by lia. }
  assert (0 < B) as HB by (by apply Z.mul_pos_pos).
  pose proof (Z.div_mod A B ltac:(lia)) as Hdm. pose proof (Z.mod_pos_bound A B HB) as Hr.
  split; [apply Z.div_str_pos; lia|].
  assert (∀ q, decimal_near m e q k ↔ near (q * B) A) as Hnear.
  { intros q. unfold decimal_near, dec_num, B. fold A.
    by replace (q * 10 ^ Z.max k 0 * den) with (q * (den * 10 ^ Z.max k 0)) by ring. }
  rewrite !Hnear. unfold near.
  replace (A / B * B - A) with (- (A mod B)) by lia.
  replace ((A / B + 1) * B - A) with (B - A mod B) by lia. lia.
Qed.

(** The search finds the decimal of every number. *)
Lemma decimal_is_found : decimal_found m e = true.
Proof using Hb.
  unfold decimal_found.
  assert ((if 0 <=? e then Zpos m * 2 ^ e else Zpos m) = num) as ->.
  { unfold num_of. destruct (Z.leb_spec 0 e).
    - by rewrite Z.max_l.
    - by rewrite Z.max_r, Z.mul_1_r by lia. }
  assert ((if 0 <=? e then 1 else 2 ^ (- e)) = den) as ->.
  { unfold den_of. destruct (Z.leb_spec 0 e).
    - by rewrite Z.max_r by lia.
    - by rewrite Z.max_l by lia. }
  rewrite (surjective_pairing (shortest _ _ _ _ _)).
  apply (shortest_reads _ _ _ _ _ 17); [lia|].
  change (17 - 1) with 16. destruct seventeen_digits as [Hq Hn]. unfold reads_back.
  rewrite !(proj2 (Z.ltb_lt 0 _)) by lia. apply orb_true_iff.
  destruct Hn as [Hn|Hn]; [left|right];
    (apply bool_decide_eq_true; apply of_decimal_near; [done|lia|done]).
Qed.
End seventeen.

(** ** What is read is binary64 *)

Lemma of_decimal_valid q k : is_float (of_decimal q k) = true.
Proof.
  unfold of_decimal. destruct (strip _ q k) as [[|p|p] k']; [done| |done].
  repeat case_bool; [done|done| |].
  - destruct (Zpos p * 10 ^ k') as [|n|n] eqn:Hn; [done|by eapply rounds_valid, normalize_rounds|].
    pose proof (Z.pow_pos_nonneg 10 k'). bool_prop. nia.
  - destruct (10 ^ (- k')) as [|d|d]; [done|by eapply rounds_valid, fdiv_rounds|done].
Qed.

Lemma finite_valid x y : finite x = Some y → is_float x = true → is_float y = true.
Proof. by destruct x; intros [= <-]. Qed.

Lemma ParseDecimal_valid s x : ParseDecimal s = Some x → is_float x = true.
Proof.
  unfold ParseDecimal. destruct (decimal_digits _ _ _ _ _) as [[n frac]|]; [|done]. simpl.
  intros Hf. eapply finite_valid; [exact Hf|]. apply of_decimal_valid.
Qed.
