(* ===== verification/GoTime.v ===== *)
(** * [time]: the calendar and RFC 3339

    An instant is its number of nanoseconds since 1970 in UTC. Its text is the one of
    [Time.MarshalJSON], with the offset of the local time zone, and [parse_rfc3339] is what
    [Time.UnmarshalJSON] accepts. *)

From S2P Require Import Prelude GoStrings GoOS GoFloat.

Local Open Scope Z_scope.

(** ** The calendar *)

Definition leap (y : Z) : bool :=
  (y mod 4 =? 0) && (negb (y mod 100 =? 0) || (y mod 400 =? 0)).

Definition month_lengths (y : Z) : list Z :=
  [31; if leap y then 29 else 28; 31; 30; 31; 30; 31; 31; 30; 31; 30; 31].

Definition daysIn (y m : Z) : Z := nth (Z.to_nat (m - 1)) (month_lengths y) 0.

(** The month and the day of a day of the year, counted from 0. *)
Fixpoint month_of (lens : list Z) (m yday : Z) : Z * Z :=
  match lens with
  | n :: lens => if yday <? n then (m, yday + 1) else month_of lens (m + 1) (yday - n)
  | [] => (m, yday + 1)
  end.

Definition days_before (y m : Z) : Z :=
  foldr Z.add 0 (take (Z.to_nat (m - 1)) (month_lengths y)).

(** Days are counted from the first of the year 1. *)
Definition year_of (days : Z) : Z * Z :=
  let d := days mod 146097 in
  let n100 := Z.min 3 (d / 36524) in
  let d := d - 36524 * n100 in
  let n4 := d / 1461 in
  let d := d - 1461 * n4 in
  let n1 := Z.min 3 (d / 365) in
  (400 * (days / 146097) + 100 * n100 + 4 * n4 + n1 + 1, d - 365 * n1).

Definition date_of (days : Z) : Z * Z * Z :=
  let '(y, yday) := year_of days in
  let '(m, d) := month_of (month_lengths y) 1 yday in (y, m, d).

Definition year_start (y : Z) : Z :=
  365 * (y - 1) + (y - 1) / 4 - (y - 1) / 100 + (y - 1) / 400.

Definition days_of (y m d : Z) : Z := year_start y + days_before y m + d - 1.

Lemma year_of_spec days :
  let '(y, yday) := year_of days in
  year_start y + yday = days ∧ 0 ≤ yday < 365 + (if leap y then 1 else 0).
Proof.
  unfold year_of.
  set (d0 := days mod 146097). set (c := days / 146097).
  assert (days = 146097 * c + d0 ∧ 0 ≤ d0 < 146097) as [Hdays Hd0]
    by (pose proof (Z.div_mod days 146097 ltac:(lia));
        pose proof (Z.mod_pos_bound days 146097 ltac:(lia)); lia).
  set (n100 := Z.min 3 (d0 / 36524)). set (d1 := d0 - 36524 * n100).
  assert (0 ≤ n100 ≤ 3 ∧ 0 ≤ d1 < 36525 ∧ (n100 < 3 → d1 < 36524)) as (Hn100 & Hd1 & Hd1')
    by (subst d1 n100; Z.to_euclidean_division_equations; lia).
  set (n4 := d1 / 1461). set (d2 := d1 - 1461 * n4).
  assert (0 ≤ n4 ≤ 24 ∧ 0 ≤ d2 < 1461 ∧ (n4 = 24 → n100 ≠ 3 → d2 < 1460)) as (Hn4 & Hd2 & Hlast)
    by (subst d2 n4; Z.to_euclidean_division_equations; lia).
  set (n1 := Z.min 3 (d2 / 365)). set (d3 := d2 - 365 * n1).
  assert (0 ≤ n1 ≤ 3 ∧ 0 ≤ d3 < 366 ∧ (n1 < 3 → d3 < 365))
    as (Hn1 & Hd3 & Hd3') by (subst d3 n1; Z.to_euclidean_division_equations; lia).
  set (y' := 400 * c + 100 * n100 + 4 * n4 + n1).
  assert (y' / 4 = 100 * c + 25 * n100 + n4 ∧ y' / 100 = 4 * c + n100 ∧ y' / 400 = c)
    as (H4 & H100 & H400) by (subst y'; Z.to_euclidean_division_equations; lia).
  assert (leap (y' + 1) = (n1 =? 3) && (negb (n4 =? 24) || (n100 =? 3))) as Hleap.
  { unfold leap. apply eq_true_iff_eq. rewrite !andb_true_iff, !orb_true_iff, !negb_true_iff.
    rewrite !Z.eqb_eq, !Z.eqb_neq. subst y'. Z.to_euclidean_division_equations. lia. }
  replace (400 * c + 100 * n100 + 4 * n4 + n1 + 1) with (y' + 1) by done.
  unfold year_start. replace (y' + 1 - 1) with y' by lia. rewrite H4, H100, H400, Hleap.
  destruct (Z.eqb_spec n1 3), (Z.eqb_spec n4 24), (Z.eqb_spec n100 3); simpl; lia.
Qed.

Lemma month_of_spec y yday :
  0 ≤ yday < 365 + (if leap y then 1 else 0) →
  let '(m, d) := month_of (month_lengths y) 1 yday in
  1 ≤ m ≤ 12 ∧ 1 ≤ d ≤ daysIn y m ∧ days_before y m + d - 1 = yday.
Proof.
  intros Hy. unfold month_lengths. cbn [month_of].
  repeat match goal with |- context [?a <? ?b] => destruct (Z.ltb_spec a b) end;
    unfold daysIn, days_before, month_lengths; simpl; destruct (leap y); lia.
Qed.

Lemma daysIn_max y m : daysIn y m ≤ 31.
Proof.
  unfold daysIn. generalize (Z.to_nat (m - 1)). intros n.
  assert (Forall (λ x, x ≤ 31) (month_lengths y)) as Hall.
  { unfold month_lengths. destruct (leap y); repeat (constructor; [lia|]); constructor. }
  revert n. induction Hall as [|x l Hx _ IH]; intros [|n]; simpl; try lia. apply IH.
Qed.

(** Every day has one date, and the date is one of the calendar. *)
Lemma date_of_spec days :
  let '(y, m, d) := date_of days in
  days_of y m d = days ∧ 1 ≤ m ≤ 12 ∧ 1 ≤ d ≤ daysIn y m.
Proof.
  unfold date_of, days_of. pose proof (year_of_spec days) as Hy.
  destruct (year_of days) as [y yday]. destruct Hy as [Hs Hr].
  pose proof (month_of_spec y yday Hr) as Hm.
  destruct (month_of (month_lengths y) 1 yday) as [m d]. destruct Hm as (? & ? & ?).
  split_and!; lia.
Qed.

(** ** Numbers of a fixed width *)

Definition digit (n : Z) : ascii := byte_of (Z.to_N (48 + n)).
Definition digit_value (c : ascii) : Z := Z.of_N (N_of_ascii c) - 48.

(** The last [k] digits of [n]. *)
Fixpoint pad (k : nat) (n : Z) : string :=
  match k with
  | O => EmptyString
  | S k => pad k (n / 10) +:+ String (digit (n mod 10)) EmptyString
  end.

(** The number that the first [k] digits are, and what follows them. *)
Fixpoint num (k : nat) (acc : Z) (s : string) : option (Z * string) :=
  match k, s with
  | O, _ => Some (acc, s)
  | S k, String c s => if is_digit c then num k (acc * 10 + digit_value c) s else None
  | S _, EmptyString => None
  end.

Lemma digit_ok n : 0 ≤ n < 10 → is_digit (digit n) = true ∧ digit_value (digit n) = n.
Proof.
  intros Hn. unfold is_digit, digit_value, digit, byte_of.
  rewrite N_ascii_embedding by lia. split; [apply andb_true_iff; split; apply N.leb_le; lia|lia].
Qed.

Lemma num_app j k acc s :
  num (j + k) acc s = '(a, r) ← num j acc s; num k a r.
Proof.
  revert acc s. induction j as [|j IH]; intros acc s; [done|]. simpl.
  destruct s as [|c s]; [done|]. destruct (is_digit c); [apply IH|done].
Qed.

Lemma num_pad k n acc s :
  0 ≤ n < 10 ^ Z.of_nat k → num k acc (pad k n +:+ s) = Some (acc * 10 ^ Z.of_nat k + n, s).
Proof.
  revert n s. induction k as [|k IH]; intros n s Hn.
  - simpl in *. do 2 f_equal. lia.
  - rewrite Nat2Z.inj_succ, Z.pow_succ_r in * by lia.
    replace (S k) with (k + 1)%nat by lia. rewrite num_app.
    replace (k + 1)%nat with (S k) by lia. cbn [pad].
    rewrite str_app_assoc, IH by (Z.to_euclidean_division_equations; lia). simpl.
    destruct (digit_ok (n mod 10)) as [-> ->]; [apply Z.mod_pos_bound; lia|].
    rewrite str_nil_app. do 2 f_equal. pose proof (Z.div_mod n 10). lia.
Qed.

(** ** Fractions of a second: nine digits, without the zeros at the end *)

Definition fraction (nsec : Z) : string :=
  if nsec =? 0 then EmptyString else "." +:+ trim_zeros (pad 9 nsec).

(** The first [k] digits, and zeros where there are no more. *)
Fixpoint scaled (k : nat) (acc : Z) (s : string) : Z :=
  match k with
  | O => acc
  | S k => match s with
           | String c s => scaled k (acc * 10 + digit_value c) s
           | EmptyString => scaled k (acc * 10) EmptyString
           end
  end.

(** A point and at least one digit; digits after the ninth are ignored. *)
Definition parse_fraction (s : string) : Z * string :=
  match s with
  | String c s' =>
      if Ascii.eqb c "." && digit_head s'
      then (scaled 9 0 (take_digits s'), TrimLeftFunc is_digit s') else (0, s)
  | EmptyString => (0, s)
  end.

Lemma scaled_zeros j k acc s : scaled k acc (s +:+ zeros j) = scaled k acc s.
Proof.
  revert j acc s. induction k as [|k IH]; intros j acc s; [done|].
  destruct s as [|c s]; [|rewrite str_cons_app; simpl; by rewrite IH].
  rewrite str_nil_app. destruct j as [|j]; [done|]. simpl.
  replace (acc * 10 + digit_value "0") with (acc * 10) by (change (digit_value "0") with 0; lia).
  by rewrite <-(IH j _ EmptyString).
Qed.

Lemma scaled_num k acc s n : num k acc s = Some (n, EmptyString) → scaled k acc s = n.
Proof.
  revert acc s. induction k as [|k IH]; intros acc s; simpl; [congruence|].
  destruct s as [|c s]; [done|]. case_bool; [|done]. apply IH.
Qed.

Lemma pad_digits k n : 0 ≤ n → all_digits (pad k n) = true.
Proof.
  revert n. induction k as [|k IH]; intros n Hn; [done|]. cbn [pad].
  rewrite all_digits_app, IH by (Z.to_euclidean_division_equations; lia). unfold all_digits. simpl.
  by rewrite (proj1 (digit_ok (n mod 10) ltac:(apply Z.mod_pos_bound; lia))).
Qed.

Lemma parse_fraction_ok nsec s :
  0 ≤ nsec < 10 ^ 9 → digit_head s = false → HasPrefix s "." = false →
  parse_fraction (fraction nsec +:+ s) = (nsec, s).
Proof.
  intros Hn Hd Hp. unfold fraction. destruct (Z.eqb_spec nsec 0) as [->|Hne].
  - rewrite str_nil_app. unfold parse_fraction. destruct s as [|c s]; [done|].
    change "." with (String "." EmptyString) in Hp. unfold HasPrefix in Hp. simpl in Hp.
    destruct (ascii_dec "." c) as [<-|Hc].
    + by destruct s.
    + destruct (Ascii.eqb_spec c "."); [congruence|done].
  - destruct (trim_zeros_spec (pad 9 nsec)) as [j Hj].
    assert (num 9 0 (pad 9 nsec) = Some (nsec, EmptyString)) as Hnum.
    { rewrite <-(str_app_nil_r (pad 9 nsec)), num_pad by done. done. }
    assert (all_digits (trim_zeros (pad 9 nsec)) = true) as Hall.
    { pose proof (pad_digits 9 nsec ltac:(lia)) as H. rewrite Hj, all_digits_app in H.
      by apply andb_true_iff in H as [? _]. }
    apply scaled_num in Hnum. rewrite Hj, scaled_zeros in Hnum.
    destruct (take_digits_app _ s Hall Hd) as [Htake Hdrop].
    rewrite str_app_assoc, str_cons_app, str_nil_app. unfold parse_fraction.
    rewrite Htake, Hdrop, Hnum. destruct (trim_zeros (pad 9 nsec)) as [|c r] eqn:Hr.
    + change (scaled 9 0 EmptyString) with 0 in Hnum. lia.
    + unfold all_digits in Hall. simpl in Hall |- *.
      by apply andb_true_iff in Hall as [-> _].
Qed.

#[local] Opaque pad num.

(** ** RFC 3339 *)

(** A character of the layout. *)
Definition lit (c : ascii) (s : string) : option string :=
  match s with String d s => if Ascii.eqb c d then Some s else None | EmptyString => None end.

(** A number of [k] digits in a range. *)
Definition num_in (k : nat) (lo hi : Z) (s : string) : option (Z * string) :=
  '(n, s) ← num k 0 s; if (lo <=? n) && (n <=? hi) then Some (n, s) else None.

Definition unix_epoch : Z := 719162.
Definition nanos : Z := 1000000000.

(** The offset of a zone in whole minutes, rounded to zero; an hour has two digits. *)
Definition zone_text (offset : Z) : result error string :=
  if offset =? 0 then Ok "Z"
  else
    let zone := Z.quot offset 60 in
    let sign := if zone <? 0 then "-" else "+" in
    if 24 <=? Z.abs zone / 60
    then Err (TextError "timezone hour outside of range [0,23]")
    else Ok (sign +:+ pad 2 (Z.abs zone / 60) +:+ ":" +:+ pad 2 (Z.abs zone mod 60)).

(** [Time.appendStrictRFC3339] of an instant shown with an offset in seconds. *)
Definition rfc3339 (ns offset : Z) : result error string :=
  let t := ns / nanos + offset in
  let '(y, m, d) := date_of (t / 86400 + unix_epoch) in
  let tod := t mod 86400 in
  if negb ((0 <=? y) && (y <=? 9999)) then Err (TextError "year outside of range [0,9999]")
  else
    match zone_text offset with
    | Err err => Err err
    | Ok zone =>
        Ok (pad 4 y +:+ "-" +:+ pad 2 m +:+ "-" +:+ pad 2 d +:+ "T" +:+ pad 2 (tod / 3600)
            +:+ ":" +:+ pad 2 (tod / 60 mod 60) +:+ ":" +:+ pad 2 (tod mod 60)
            +:+ fraction (ns mod nanos) +:+ zone)
    end.

(** [Time.MarshalJSON] without the quotes, and with the error of [json.Marshal]. *)
Definition time_text (ns offset : Z) : result error string :=
  match rfc3339 ns offset with
  | Ok text => Ok text
  | Err err => Err (Wrap ("json: error calling MarshalJSON for type time.Time: "
                          +:+ "Time.MarshalJSON") err)
  end.

(** The zone at the end of a text, in seconds. *)
Definition parse_zone (s : string) : option Z :=
  if String.eqb s "Z" then Some 0
  else
    match s with
    | String sign s =>
        '(h, s) ← num_in 2 0 23 s;
        s ← lit ":" s;
        '(m, s) ← num_in 2 0 59 s;
        if negb (String.eqb s EmptyString) then None
        else if Ascii.eqb sign "+" then Some ((h * 60 + m) * 60)
        else if Ascii.eqb sign "-" then Some (- ((h * 60 + m) * 60))
        else None
    | EmptyString => None
    end.

(** [parseStrictRFC3339]: its fallback, [Parse], accepts nothing that the checks after it
    let through. *)
Definition parse_rfc3339 (s : string) : option Z :=
  '(y, s) ← num_in 4 0 9999 s;
  s ← lit "-" s;
  '(m, s) ← num_in 2 1 12 s;
  s ← lit "-" s;
  '(d, s) ← num_in 2 1 (daysIn y m) s;
  s ← lit "T" s;
  '(hh, s) ← num_in 2 0 23 s;
  s ← lit ":" s;
  '(mm, s) ← num_in 2 0 59 s;
  s ← lit ":" s;
  '(ss, s) ← num_in 2 0 59 s;
  let '(nsec, s) := parse_fraction s in
  offset ← parse_zone s;
  Some (((days_of y m d - unix_epoch) * 86400 + hh * 3600 + mm * 60 + ss - offset) * nanos + nsec).

Lemma lit_app c s : lit c (String c s) = Some s.
Proof. simpl. by rewrite Ascii.eqb_refl. Qed.

Lemma num_in_pad k lo hi n s :
  0 ≤ n < 10 ^ Z.of_nat k → lo ≤ n ≤ hi → num_in k lo hi (pad k n +:+ s) = Some (n, s).
Proof.
  intros Hn Hr. unfold num_in. rewrite num_pad, Z.mul_0_l, Z.add_0_l by done. cbn [mbind option_bind].
  by rewrite (proj2 (Z.leb_le lo n)), (proj2 (Z.leb_le n hi)) by lia.
Qed.

Lemma zone_head offset text : zone_text offset = Ok text →
  digit_head text = false ∧ HasPrefix text "." = false.
Proof.
  unfold zone_text. case_bool; [by intros [= <-]|]. case_bool; [done|]. intros [= <-].
  by case_bool.
Qed.

Lemma parse_zone_ok offset text :
  zone_text offset = Ok text → offset mod 60 = 0 → parse_zone text = Some offset.
Proof.
  unfold zone_text. intros H Hmin. destruct (Z.eqb_spec offset 0) as [->|Hne].
  { by injection H as <-. }
  destruct (Z.leb_spec 24 (Z.abs (offset ÷ 60) / 60)) as [|Hh]; [done|]. injection H as <-.
  assert (offset = 60 * (offset ÷ 60)) as Hq.
  { apply Z.quot_exact; [lia|]. Z.to_euclidean_division_equations. lia. }
  set (zone := offset ÷ 60) in *.
  assert (0 ≤ Z.abs zone / 60 < 24 ∧ 0 ≤ Z.abs zone mod 60 < 60 ∧
    Z.abs zone = Z.abs zone / 60 * 60 + Z.abs zone mod 60) as (Hh' & Hm & Hz).
  { Z.to_euclidean_division_equations. lia. }
  unfold parse_zone. destruct (zone <? 0) eqn:Hneg; bool_prop;
    rewrite !str_cons_app, !str_nil_app; cbn [String.eqb Ascii.eqb Bool.eqb];
    rewrite num_in_pad by (simpl; lia); cbn [option_bind mbind];
    rewrite lit_app; cbn [option_bind mbind];
    rewrite <-(str_app_nil_r (pad 2 (Z.abs zone mod 60))), num_in_pad by (simpl; lia);
    simpl; f_equal; lia.
Qed.

Lemma time_text_inv ns offset text :
  time_text ns offset = Ok text → rfc3339 ns offset = Ok text.
Proof. unfold time_text. by destruct (rfc3339 ns offset). Qed.

(** An instant is read back exactly, unless its zone is off by a fraction of a minute. *)
Lemma parse_time_text ns offset text :
  time_text ns offset = Ok text → offset mod 60 = 0 → parse_rfc3339 text = Some ns.
Proof.
  intros H%time_text_inv Hmin. unfold rfc3339 in H. set (t := ns / nanos + offset) in *.
  pose proof (date_of_spec (t / 86400 + unix_epoch)) as Hdate.
  destruct (date_of (t / 86400 + unix_epoch)) as [[y m] d]. destruct Hdate as (Hdays & Hm & Hd).
  pose proof (daysIn_max y m) as Hdm.
  destruct (negb _) eqn:Hy; [done|]. apply negb_false_iff in Hy. bool_prop.
  destruct (zone_text offset) as [zone|] eqn:Hzone; [|done]. injection H as <-.
  destruct (zone_head _ _ Hzone) as [Hz1 Hz2]. pose proof (parse_zone_ok _ _ Hzone Hmin) as Hz.
  set (tod := t mod 86400). assert (0 ≤ tod < 86400) as Htod by (apply Z.mod_pos_bound; lia).
  assert (0 ≤ ns mod nanos < 10 ^ 9) as Hns by (apply Z.mod_pos_bound; lia).
  assert (0 ≤ tod / 3600 < 24 ∧ 0 ≤ tod / 60 mod 60 < 60 ∧ 0 ≤ tod mod 60 < 60 ∧
    tod = tod / 3600 * 3600 + tod / 60 mod 60 * 60 + tod mod 60) as (Hh & Hmi & Hs & Hsum)
    by (Z.to_euclidean_division_equations; lia).
  unfold parse_rfc3339.
  repeat (rewrite ?str_cons_app, ?str_nil_app;
    first [rewrite num_in_pad by (simpl; lia) | rewrite lit_app]; cbn [mbind option_bind]).
  rewrite parse_fraction_ok by done. rewrite Hz. cbn [mbind option_bind]. f_equal.
  rewrite Hdays. pose proof (Z.div_mod ns nanos ltac:(done)) as Hn.
  pose proof (Z.div_mod t 86400 ltac:(lia)) as Ht. fold tod in Ht.
  assert (t = ns / nanos + offset) as Htd by done. clearbody t tod.
  match goal with |- ?x * nanos + _ = _ => replace x with (ns / nanos) by lia end. lia.
Qed.

Example time_samples :
  (λ '(ns, off), time_text ns off) <$>
    [(1767225600000000000, 0); (1767225600123400000, 3600); (951782399999999999, -34200);
     (-62167219200000000000, 0); (253402300800000000000, 0)] =
  [Ok "2026-01-01T00:00:00Z"; Ok "2026-01-01T01:00:00.1234+01:00";
   Ok "2000-02-28T14:29:59.999999999-09:30"; Ok "0000-01-01T00:00:00Z";
   Err (Wrap "json: error calling MarshalJSON for type time.Time: Time.MarshalJSON"
          (TextError "year outside of range [0,9999]"))].
Proof. by vm_compute. Qed.

Example parse_rfc3339_samples :
  parse_rfc3339 <$> ["2024-02-29T12:00:00+05:30"; "2023-02-29T12:00:00Z"; "2024-02-29 12:00:00Z";
    "2024-02-29T12:00:00.5Z"; "2024-02-29T12:00:00,5Z"; "2024-02-29T12:00:00"] =
  [Some 1709188200000000000; None; None; Some 1709208000500000000; None; None].
Proof. by vm_compute. Qed.
