(* ===== verification/GoJSON.v ===== *)
(** * [encoding/json]: what the program writes

    A JSON value, its text with two spaces of indentation ([MarshalIndent],
    [Encoder.SetIndent]), and the encoding of strings and numbers. *)

From Stdlib Require Import SpecFloat.
From S2P Require Import Prelude GoStrings GoOS GoFmt GoFloat.

Inductive json : Set :=
| JNull
| JBool (b : bool)
| JNum (text : string)
| JStr (s : string)
| JArr (l : list json)
| JObj (l : list (string * json)).

(** The rune a string starts with: HTML's special characters, control characters, invalid
    bytes and the two line separators are escaped. *)
Definition json_rune (s : string) : string * nat :=
  let '(r, width) := decode_rune s in
  let esc c := String backslash (String c EmptyString) in
  (if bad_byte s then esc "u"%char +:+ "fffd"
   else if (r =? 34)%N then String backslash (String quote_char EmptyString)
   else if (r =? 92)%N then esc backslash
   else if (r =? 8)%N then esc "b"%char
   else if (r =? 12)%N then esc "f"%char
   else if (r =? 10)%N then esc "n"%char
   else if (r =? 13)%N then esc "r"%char
   else if (r =? 9)%N then esc "t"%char
   else if ((r <? 32) || (r =? 60) || (r =? 62) || (r =? 38) || (r =? 8232) || (r =? 8233))%N
        then esc "u"%char +:+ hex_fixed 4 (Z.of_N r)
   else String.substring 0 width s, width).

(** What is between the quotes. *)
Definition json_text (s : string) : string := walk json_rune O s.

Definition json_string (s : string) : string :=
  String quote_char (json_text s +:+ String quote_char EmptyString).

(** A [float64]: [%e] below 1e-6 and from 1e21 on; what is not finite is an error. *)
Definition json_float (x : float64) : result error json :=
  match x with
  | S754_zero s => Ok (JNum (signed s "0"))
  | S754_finite s m e =>
      let '(ds, dp) := float_digits m e in
      Ok (JNum (signed s (if (dp - 1 <? -6)%Z || (21 <=? dp - 1)%Z
                          then format_e (0 <=? dp - 1)%Z ds dp else format_f ds dp)))
  | _ => Err (TextError ("json: unsupported value: " +:+ fmt_float x))
  end.

Definition json_int (z : Z) : json := JNum (Itoa z).

(** The members or elements of a value, one to a line. *)
Definition block (opening closing ind : string) (items : list string) : string :=
  match items with
  | [] => opening +:+ closing
  | _ => opening +:+ nls +:+ ind +:+ "  " +:+ Join ("," +:+ nls +:+ ind +:+ "  ") items
           +:+ nls +:+ ind +:+ closing
  end.

Fixpoint indented (ind : string) (j : json) : string :=
  let deeper := ind +:+ "  " in
  match j with
  | JNull => "null"
  | JBool b => fmt_bool b
  | JNum text => text
  | JStr s => json_string s
  | JArr l => block "[" "]" ind (map (indented deeper) l)
  | JObj l =>
      block "{" "}" ind
        (map (λ kv, match kv with (k, v) => json_string k +:+ ": " +:+ indented deeper v end) l)
  end.

(** [json.MarshalIndent(v, "", "  ")]. *)
Definition MarshalIndent (j : json) : string := indented EmptyString j.

(** [Encoder.Encode] ends with a newline. *)
Definition Encode (j : json) : string := MarshalIndent j +:+ nls.

Example json_sample :
  Encode (JObj [("a", JArr [JNum "1"; JStr "<x>"]); ("b", JObj []); ("c", JArr [])]) =
  Join nls ["{"; "  " +:+ json_string "a" +:+ ": ["; "    1,";
            "    " +:+ String quote_char ("\u003cx\u003e" +:+ String quote_char EmptyString);
            "  ],"; "  " +:+ json_string "b" +:+ ": {},"; "  " +:+ json_string "c" +:+ ": []";
            "}"; EmptyString].
Proof. by vm_compute. Qed.
