(* ===== verification/GoJSONRead.v ===== *)
(** * [encoding/json]: what the program reads

    The grammar of a document, the text of strings and numbers, and what struct fields take
    from it. A document that was written by [MarshalIndent] is read back as it is. *)

From Stdlib Require Import SpecFloat.
From S2P Require Import Prelude GoStrings GoOS GoFmt GoFloat GoJSON.

(** ** Strings *)

Definition nibbles (s : string) : option Z :=
  match s with
  | String a (String b (String c (String d _))) =>
      hex_go 0 (String a (String b (String c (String d EmptyString))))
  | _ => None
  end.

(** [getu4]: the rune of a [\uXXXX] at the start of a text. *)
Definition getu4 (s : string) : option Z :=
  match s with
  | String b (String u s) =>
      if Ascii.eqb b backslash && Ascii.eqb u "u" then nibbles s else None
  | _ => None
  end.

Definition high_surrogate (r : Z) : bool := (55296 <=? r)%Z && (r <? 56320)%Z.
Definition low_surrogate (r : Z) : bool := (56320 <=? r)%Z && (r <? 57344)%Z.

(** The character after a backslash. *)
Definition unescape (c : ascii) : ascii :=
  if Ascii.eqb c "b" then byte_of 8
  else if Ascii.eqb c "f" then byte_of 12
  else if Ascii.eqb c "n" then nl
  else if Ascii.eqb c "r" then cr
  else if Ascii.eqb c "t" then byte_of 9
  else c.

(** What a piece of a string stands for, and its length; a surrogate that has no partner
    and an invalid byte are U+FFFD. *)
Definition unquote_rune (s : string) : string * nat :=
  match s with
  | String b (String e rest) =>
      if Ascii.eqb b backslash then
        if Ascii.eqb e "u" then
          match getu4 s with
          | None => (EmptyString, 1%nat)
          | Some r =>
              if high_surrogate r || low_surrogate r then
                match getu4 (String.substring 6 6 s) with
                | Some r' =>
                    if high_surrogate r && low_surrogate r'
                    then (encode_rune (65536 + (r - 55296) * 1024 + (r' - 56320)), 12%nat)
                    else (replacement, 6%nat)
                | None => (replacement, 6%nat)
                end
              else (encode_rune r, 6%nat)
          end
        else (String (unescape e) EmptyString, 2%nat)
      else clean_rune s
  | _ => clean_rune s
  end.

(** The value of the text between two quotes. *)
Definition unquote (s : string) : string := walk unquote_rune O s.

Definition is_hex (c : ascii) : bool := bool_decide (is_Some (hex_value c)).

(** A string's text up to its closing quote, as it is written, and what follows. *)
Fixpoint string_token (s : string) : option (string * string) :=
  match s with
  | EmptyString => None
  | String c s =>
      if Ascii.eqb c quote_char then Some (EmptyString, s)
      else if Ascii.eqb c backslash then
        match s with
        | String e s =>
            if Ascii.eqb e "u" then
              match s with
              | String h1 (String h2 (String h3 (String h4 s))) =>
                  if is_hex h1 && is_hex h2 && is_hex h3 && is_hex h4 then
                    '(t, r) ← string_token s;
                    Some (String c (String e (String h1 (String h2 (String h3 (String h4 t))))), r)
                  else None
              | _ => None
              end
            else if bool_decide (e ∈ [quote_char; backslash; "/"; "b"; "f"; "n"; "r"; "t"]%char)
            then '(t, r) ← string_token s; Some (String c (String e t), r)
            else None
        | EmptyString => None
        end
      else if (N_of_ascii c <? 32)%N then None
      else '(t, r) ← string_token s; Some (String c t, r)
  end.

(** ** Numbers *)

Definition number_char (c : ascii) : bool :=
  is_digit c || bool_decide (c ∈ ["-"; "+"; "."; "e"; "E"]%char).

Fixpoint number_token (s : string) : string * string :=
  match s with
  | String c s' =>
      if number_char c then let '(t, r) := number_token s' in (String c t, r)
      else (EmptyString, s)
  | EmptyString => (EmptyString, EmptyString)
  end.

(** The parts of a number: its sign, the digits before the point and after it, and its
    exponent. *)
Definition exponent (s : string) : option Z :=
  match s with
  | EmptyString => Some 0%Z
  | String c s =>
      if Ascii.eqb c "e" || Ascii.eqb c "E" then
        let '(neg, ds) := match s with
                          | String d r => if Ascii.eqb d "-" then (true, r)
                                          else if Ascii.eqb d "+" then (false, r) else (false, s)
                          | EmptyString => (false, s)
                          end in
        if digit_head ds && all_digits ds
        then Some (if (neg : bool) then (- dec_go 0 ds)%Z else dec_go 0 ds) else None
      else None
  end.

Definition fraction_part (s : string) : option (string * string) :=
  match s with
  | String c r =>
      if Ascii.eqb c "." then
        if digit_head r then Some (take_digits r, TrimLeftFunc is_digit r) else None
      else Some (EmptyString, s)
  | EmptyString => Some (EmptyString, s)
  end.

(** No digits before the point, or a zero with more of them, is not a number. *)
Definition int_part (s : string) : option (string * string) :=
  let ip := take_digits s in
  match ip with
  | EmptyString => None
  | String c r =>
      if Ascii.eqb c "0" && negb (String.eqb r EmptyString) then None
      else Some (ip, TrimLeftFunc is_digit s)
  end.

Definition unsigned_parts (s : string) : option (string * string * Z) :=
  '(ip, s) ← int_part s;
  '(fp, s) ← fraction_part s;
  e ← exponent s;
  Some (ip, fp, e).

Definition number_parts (s : string) : option (bool * string * string * Z) :=
  let '(neg, s) := match s with
                   | String c r => if Ascii.eqb c "-" then (true, r) else (false, s)
                   | EmptyString => (false, s)
                   end in
  '(ip, fp, e) ← unsigned_parts s; Some (neg, ip, fp, e).

(** [strconv.ParseFloat(s, 64)] of a number of the grammar. *)
Definition ParseFloat (s : string) : option float64 :=
  '(neg, ip, fp, e) ← number_parts s;
  x ← finite (of_decimal (dec_go 0 (ip +:+ fp)) (e - slen fp));
  Some (if (neg : bool) then SFopp x else x).

(** ** Documents

    In a value that was read, a string, also the name of a member, is its text between the
    quotes. [fuel] bounds the number of steps, [depth] the nesting. *)

Definition json_space (c : ascii) : bool :=
  bool_decide (c ∈ [" "; byte_of 9; nl; cr]%char).

Definition skip_space (s : string) : string := TrimLeftFunc json_space s.

Definition literal (text : string) (j : json) (s : string) : option (json * string) :=
  (λ r, (j, r)) <$> drop_prefix text s.

(** The next character that is no space, and the text after it. *)
Definition next_char (s : string) : option (ascii * string) :=
  match skip_space s with String c r => Some (c, r) | EmptyString => None end.

Definition scalar (c : ascii) (s : string) : option (json * string) :=
  if Ascii.eqb c "t" then literal "rue" (JBool true) s
  else if Ascii.eqb c "f" then literal "alse" (JBool false) s
  else if Ascii.eqb c "n" then literal "ull" JNull s
  else
    let '(t, r) := number_token (String c s) in
    _ ← number_parts t; Some (JNum t, r).

Fixpoint json_value (fuel : nat) (depth : N) (s : string) : option (json * string) :=
  match fuel with
  | O => None
  | S fuel =>
      '(c, s) ← next_char s;
      if Ascii.eqb c "{" then
        if (depth =? 0)%N then None
        else
          '(c', s') ← next_char s;
          if Ascii.eqb c' "}" then Some (JObj [], s')
          else '(l, r) ← json_members fuel (N.pred depth) s; Some (JObj l, r)
      else if Ascii.eqb c "[" then
        if (depth =? 0)%N then None
        else
          '(c', s') ← next_char s;
          if Ascii.eqb c' "]" then Some (JArr [], s')
          else '(l, r) ← json_elements fuel (N.pred depth) s; Some (JArr l, r)
      else if Ascii.eqb c quote_char then '(t, r) ← string_token s; Some (JStr t, r)
      else scalar c s
  end
with json_members (fuel : nat) (depth : N) (s : string) : option (list (string * json) * string) :=
  match fuel with
  | O => None
  | S fuel =>
      '(c, s) ← next_char s;
      if negb (Ascii.eqb c quote_char) then None
      else
        '(k, s) ← string_token s;
        '(c, s) ← next_char s;
        if negb (Ascii.eqb c ":") then None
        else
          '(v, s) ← json_value fuel depth s;
          '(c, s) ← next_char s;
          if Ascii.eqb c "," then '(l, r) ← json_members fuel depth s; Some ((k, v) :: l, r)
          else if Ascii.eqb c "}" then Some ([(k, v)], s) else None
  end
with json_elements (fuel : nat) (depth : N) (s : string) : option (list json * string) :=
  match fuel with
  | O => None
  | S fuel =>
      '(v, s) ← json_value fuel depth s;
      '(c, s) ← next_char s;
      if Ascii.eqb c "," then '(l, r) ← json_elements fuel depth s; Some (v :: l, r)
      else if Ascii.eqb c "]" then Some ([v], s) else None
  end.

(** Enough fuel for a text. *)
Definition steps (s : string) : nat := S (2 * String.length s).

Definition max_nesting : N := 10000.

(** A whole document: nothing but space follows the value. *)
Definition ParseJSON (s : string) : option json :=
  '(j, r) ← json_value (steps s) max_nesting s;
  if String.eqb (skip_space r) EmptyString then Some j else None.

Example json_reads :
  ParseJSON <$> ["{"; " [1, -2.50e+3 ,null]"; "[1,]"; "01"; "[true] x"; "{} "] =
  [None; Some (JArr [JNum "1"; JNum "-2.50e+3"; JNull]); None; None; None; Some (JObj [])].
Proof. by vm_compute. Qed.

(** ** Reading always ends

    Every step reads at least one character, so that more fuel than the text has
    characters changes nothing. *)

Lemma skip_space_length s : (String.length (skip_space s) ≤ String.length s)%nat.
Proof. unfold skip_space. induction s as [|c s IH]; simpl; [lia|]. case_match; simpl; lia. Qed.

Lemma next_length s c r : next_char s = Some (c, r) → (String.length r < String.length s)%nat.
Proof.
  unfold next_char. pose proof (skip_space_length s) as H.
  destruct (skip_space s); [done|]. intros [= <- <-]. simpl in H. lia.
Qed.

Lemma string_token_length s t r :
  string_token s = Some (t, r) → (String.length r < String.length s)%nat.
Proof.
  revert t r. induction (Wf_nat.well_founded_ltof _ String.length s) as [s _ IH].
  unfold Wf_nat.ltof in IH. intros t r H. destruct s as [|c s]; [done|].
  cbn [string_token] in H. cbn [String.length].
  repeat (case_match; simplify_eq; try lia);
    apply bind_Some in H as ([t' r'] & H & Heq); simplify_eq;
    apply IH in H; simpl in *; lia.
Qed.

Lemma number_token_length s : (String.length (number_token s).2 ≤ String.length s)%nat.
Proof.
  induction s as [|c s IH]; simpl; [lia|]. case_match; [|simpl; lia].
  destruct (number_token s). simpl in *. lia.
Qed.

Lemma drop_prefix_length p s r :
  drop_prefix p s = Some r → (String.length r ≤ String.length s)%nat.
Proof.
  intros H. apply drop_prefix_Some in H as ->. rewrite str_length_app. lia.
Qed.

Lemma scalar_length c s j r : scalar c s = Some (j, r) → (String.length r ≤ String.length s)%nat.
Proof.
  unfold scalar, literal. intros H. repeat case_bool.
  1-3: apply fmap_Some in H as (r' & H & Heq); simplify_eq; by eapply drop_prefix_length.
  destruct (number_token (String c s)) as [t r'] eqn:Ht.
  apply bind_Some in H as (p & Hp & Heq). injection Heq as _ <-.
  cbn [number_token] in Ht. destruct (number_char c).
  - pose proof (number_token_length s). destruct (number_token s). simplify_eq. simpl in *. lia.
  - by simplify_eq.
Qed.

Lemma reads_shorten n :
  (∀ d s j r, json_value n d s = Some (j, r) → (String.length r < String.length s)%nat) ∧
  (∀ d s l r, json_members n d s = Some (l, r) → (String.length r < String.length s)%nat) ∧
  (∀ d s l r, json_elements n d s = Some (l, r) → (String.length r < String.length s)%nat).
Proof.
  induction n as [|n (IHv & IHm & IHe)]; [by split_and!|].
  split_and!; intros d s j r H; simpl in H;
    repeat first
      [ apply bind_Some in H as ([? ?] & ? & H)
      | match type of H with context [if ?b then _ else _] => destruct b end; [done|]
      | match type of H with context [if ?b then _ else _] => destruct b end ];
    repeat match goal with
    | H : next_char _ = Some _ |- _ => apply next_length in H
    | H : string_token _ = Some _ |- _ => apply string_token_length in H
    | H : scalar _ _ = Some _ |- _ => apply scalar_length in H
    | H : json_value n _ _ = Some _ |- _ => apply IHv in H
    | H : json_members n _ _ = Some _ |- _ => apply IHm in H
    | H : json_elements n _ _ = Some _ |- _ => apply IHe in H
    end; simplify_eq; try lia.
Qed.
Lemma value_length n d s j r :
  json_value n d s = Some (j, r) → (String.length r < String.length s)%nat.
Proof. apply (reads_shorten n). Qed.

Lemma option_bind_agree {A B} (f g : A → option B) (x y : option A) :
  x = y → (∀ a, y = Some a → f a = g a) → x ≫= f = y ≫= g.
Proof. intros -> Hfg. destruct y; [by apply Hfg|done]. Qed.

(** From [steps] on, the fuel does not matter. *)
Lemma fuel_enough n m :
  (∀ d s, (2 * String.length s < n)%nat → (2 * String.length s < m)%nat →
     json_value n d s = json_value m d s) ∧
  (∀ d s, (2 * String.length s < n)%nat → (2 * String.length s < m)%nat →
     json_members n d s = json_members m d s) ∧
  (∀ d s, (2 * String.length s + 1 < n)%nat → (2 * String.length s + 1 < m)%nat →
     json_elements n d s = json_elements m d s).
Proof.
  revert m. induction n as [|n IH]; intros m; [split_and!; intros; lia|].
  destruct m as [|m]; [split_and!; intros; lia|]. destruct (IH m) as (IHv & IHm & IHe).
  split_and!; intros d s Hn Hm; simpl;
    repeat first
      [ done
      | match goal with |- (if ?b then _ else _) = _ => destruct b end
      | apply option_bind_agree; [first [done | apply IHv | apply IHm | apply IHe]|intros [? ?] ?];
        repeat match goal with
        | H : next_char _ = Some _ |- _ => apply next_length in H
        | H : string_token _ = Some _ |- _ => apply string_token_length in H
        | H : json_value m _ _ = Some _ |- _ => apply value_length in H
        end; try lia ].
Qed.

(** Running out of fuel is no way for reading to fail: any amount gives the same. *)
Lemma ParseJSON_fuel n s :
  (steps s ≤ n)%nat →
  ParseJSON s =
  '(j, r) ← json_value n max_nesting s;
  if String.eqb (skip_space r) EmptyString then Some j else None.
Proof.
  intros Hn. unfold ParseJSON.
  by rewrite (proj1 (fuel_enough (steps s) n)) by (unfold steps in *; lia).
Qed.

(** What is read with some fuel is read with more. *)
Lemma fuel_more n m :
  (n ≤ m)%nat →
  (∀ d s x, json_value n d s = Some x → json_value m d s = Some x) ∧
  (∀ d s x, json_members n d s = Some x → json_members m d s = Some x) ∧
  (∀ d s x, json_elements n d s = Some x → json_elements m d s = Some x).
Proof.
  revert m. induction n as [|n IH]; intros m Hnm; [by split_and!|].
  destruct m as [|m]; [lia|]. destruct (IH m ltac:(lia)) as (IHv & IHm & IHe).
  split_and!; intros d s x H; simpl in H |- *;
    repeat first
      [ done
      | match type of H with (if ?b then _ else _) = _ => destruct b end
      | let Hx := fresh "Hx" in
        apply bind_Some in H as ([? ?] & Hx & H);
        first [rewrite Hx | rewrite (IHv _ _ _ Hx) | rewrite (IHm _ _ _ Hx)
              | rewrite (IHe _ _ _ Hx)]; cbn [mbind option_bind] ].
Qed.

Lemma ParseJSON_some n s j r :
  json_value n max_nesting s = Some (j, r) → skip_space r = EmptyString → ParseJSON s = Some j.
Proof.
  intros Hv Hr. rewrite (ParseJSON_fuel (n + steps s)) by lia.
  rewrite (proj1 (fuel_more n (n + steps s) ltac:(lia)) _ _ _ Hv).
  simpl. by rewrite Hr.
Qed.

(** ** Strings read back

    What is written for a string reads back as the string, with every invalid byte
    replaced. *)

(** What may stand between two quotes. *)
Definition inside (p : string) : Prop := ∀ u t r,
  string_token u = Some (t, r) → string_token (p +:+ u) = Some (p +:+ t, r).

Lemma inside_app p q : inside p → inside q → inside (p +:+ q).
Proof. intros Hp Hq u t r Hu. rewrite !str_app_assoc. by apply Hp, Hq. Qed.

Lemma inside_char c :
  c ≠ quote_char → c ≠ backslash → (32 <= N_of_ascii c)%N → inside (String c EmptyString).
Proof.
  intros Hq Hb Hc u t r Hu. rewrite !str_cons_app, !str_nil_app. cbn [string_token].
  rewrite (proj2 (Ascii.eqb_neq _ _) Hq), (proj2 (Ascii.eqb_neq _ _) Hb),
    (proj2 (N.ltb_ge _ _) Hc), Hu. done.
Qed.

Lemma inside_high x : high_bytes x = true → inside x.
Proof.
  unfold high_bytes. induction x as [|c x IH]; simpl; [by intros _ u t r|].
  intros [Hc%N.leb_le Hx]%andb_true_iff.
  apply (inside_app (String c EmptyString)); [|by apply IH].
  apply inside_char; [intros ->; vm_compute in Hc; by destruct Hc..|lia].
Qed.

(** The text [p] may be written for [out]: it stays between the quotes and reads back as
    [out], whatever follows it. *)
Record piece (p out : string) : Prop := {
  piece_nonempty : p ≠ EmptyString;
  piece_reads : ∀ t, unquote_rune (p +:+ t) = (out, String.length p);
  piece_inside : inside p
}.

Lemma piece_hex r :
  r ∈ seqZ 0 32 ++ [60; 62; 38; 8232; 8233]%Z →
  piece (String backslash (String "u" (hex_fixed 4 r))) (encode_rune r).
Proof.
  intros Hr.
  assert (Forall (λ r, ∀ t,
    unquote_rune (String backslash (String "u" (hex_fixed 4 r +:+ t))) =
      (encode_rune r, 6%nat) ∧
    string_token (String backslash (String "u" (hex_fixed 4 r +:+ t))) =
      '(t, r') ← string_token t; Some (String backslash (String "u" (hex_fixed 4 r +:+ t)), r'))
    (seqZ 0 32 ++ [60; 62; 38; 8232; 8233]%Z)) as H.
  { repeat (constructor; [intros t; split; reflexivity|]). constructor. }
  rewrite Forall_forall in H. specialize (H r Hr). split; [done| |].
  - intros t. exact (proj1 (H t)).
  - intros u t r' Hu. rewrite !str_cons_app. rewrite (proj2 (H u)), Hu. done.
Qed.

Lemma piece_escape c :
  c ∈ [quote_char; backslash; "b"; "f"; "n"; "r"; "t"]%char →
  piece (String backslash (String c EmptyString)) (String (unescape c) EmptyString).
Proof.
  intros Hc. split; [done| |].
  - intros t. repeat (apply elem_of_cons in Hc as [->|Hc]; [by destruct t|]).
    by apply not_elem_of_nil in Hc.
  - intros u t r Hu. rewrite !str_cons_app, !str_nil_app.
    repeat (apply elem_of_cons in Hc as [->|Hc]; [cbn; by rewrite Hu|]).
    by apply not_elem_of_nil in Hc.
Qed.

Lemma clean_rune_plain x t :
  (decode_rune (x +:+ t)).2 = String.length x → bad_byte (x +:+ t) = false →
  clean_rune (x +:+ t) = (x, String.length x).
Proof. intros Hd Hb. unfold clean_rune. by rewrite Hb, Hd, substring_take. Qed.

Lemma piece_plain c r :
  let x := String c r in
  c ≠ backslash → (∀ t, (decode_rune (x +:+ t)).2 = String.length x ∧ bad_byte (x +:+ t) = false) →
  inside x → piece x x.
Proof.
  intros x Hc Hd Hi. split; [done| |done]. intros t. destruct (Hd t) as [Hw Hb].
  pose proof (clean_rune_plain x t Hw Hb) as Hclean. subst x.
  rewrite str_cons_app in *. unfold unquote_rune. destruct (r +:+ t); [done|].
  by rewrite (proj2 (Ascii.eqb_neq c backslash)).
Qed.

(** One rune of a text: what is written for it may be written for what is left of it when
    the text is cleaned. *)
Lemma json_rune_piece s :
  s ≠ EmptyString →
  ∃ x t p out, s = x +:+ t ∧ x ≠ EmptyString ∧ json_rune s = (p, String.length x) ∧
    clean_rune s = (out, String.length x) ∧ piece p out.
Proof.
  intros Hs. destruct (rune_cases s Hs) as (x & t & Hxt & Hne & [(c & -> & _ & Hb & Hd)|Hgood]).
  { exists (String c EmptyString), t. do 2 eexists. split_and!; [done..| | |].
    - unfold json_rune. by rewrite Hb, Hd.
    - unfold clean_rune. by rewrite Hb.
    - split; [done|by intros t'|]. intros u t' r Hu.
      match goal with |- string_token (?p +:+ u) = _ =>
        transitivity ('(t, r) ← string_token u; Some (p +:+ t, r)); [reflexivity|by rewrite Hu]
      end. }
  destruct Hgood as (Hb & Henc & Hbytes & Hx). exists x, t. subst s.
  assert ((decode_rune (x +:+ t)).2 = String.length x) as Hn by (by rewrite (proj1 (Hx t))).
  destruct (decode_rune (x +:+ t)) as [r n] eqn:Hdec. simpl in Hn. subst n. simpl in Henc, Hx.
  do 2 eexists. split_and!; [done..| | |].
  - unfold json_rune. rewrite Hdec, Hb. done.
  - apply clean_rune_plain; [by rewrite Hdec|done].
  - assert (∀ z, (r =? z)%N = true → x = encode_rune (Z.of_N z)) as Hr
      by (intros z Hz%N.eqb_eq; by rewrite <-Henc, Hz).
    repeat match goal with
    | |- context [if (r =? ?z)%N then _ else _] =>
        destruct (r =? z)%N eqn:?Hz;
          [rewrite (Hr z ltac:(done)); apply piece_escape; set_solver|]
    end.
    destruct (_ || _) eqn:Hesc.
    + rewrite <-Henc. apply piece_hex. apply elem_of_app.
      assert (r < 32 ∨ r = 60 ∨ r = 62 ∨ r = 38 ∨ r = 8232 ∨ r = 8233)%N as Hcases.
      { rewrite !orb_true_iff, N.ltb_lt, !N.eqb_eq in Hesc. tauto. }
      destruct Hcases as [?|Hcases]; [left; apply elem_of_seqZ; lia|right].
      destruct Hcases as [->|[->|[->|[->| ->]]]]; set_solver.
    + rewrite substring_take. destruct x as [|c x]; [done|]. pose proof (Hx EmptyString) as Hx0.
      assert (∀ d, N_of_ascii d < 128 → c = d → r = N_of_ascii d)%N as Hcr.
      { intros d Hd <-. destruct Hx0 as [Hx0 _]. rewrite str_cons_app in Hx0.
        unfold decode_rune in Hx0. rewrite (proj2 (N.ltb_lt _ _) Hd) in Hx0.
        by injection Hx0 as <- _. }
      assert (c ≠ backslash) as Hbs.
      { intros Hc. by rewrite (Hcr backslash ltac:(done) Hc) in *. }
      apply piece_plain; [done|intros t'; by destruct (Hx t') as [-> ->]|].
      destruct Hbytes as [[d Hd]|]; [|by apply inside_high]. injection Hd as -> ->.
      apply inside_char; [|done|].
      * intros Hc. by rewrite (Hcr quote_char ltac:(done) Hc) in *.
      * apply N.nlt_ge. intros Hlt. rewrite (Hcr d ltac:(lia) eq_refl) in Hesc.
        by rewrite (proj2 (N.ltb_lt _ _) Hlt) in Hesc.
Qed.

Lemma unquote_json_text s : unquote (json_text s) = clean s.
Proof.
  induction (Wf_nat.well_founded_ltof _ String.length s) as [s _ IH].
  destruct (decide (s = EmptyString)) as [->|Hs]; [done|].
  destruct (json_rune_piece s Hs) as (x & t & p & out & -> & Hne & Hj & Hc & Hp).
  unfold json_text, clean. rewrite (walk_rune _ _ _ _ Hne Hj), (walk_rune _ _ _ _ Hne Hc).
  unfold unquote.
  rewrite (walk_rune _ _ _ _ (piece_nonempty _ _ Hp) (piece_reads _ _ Hp _)). f_equal. apply IH. unfold Wf_nat.ltof.
  rewrite str_length_app. destruct x; [done|]. simpl. lia.
Qed.

Lemma json_text_inside s : inside (json_text s).
Proof.
  induction (Wf_nat.well_founded_ltof _ String.length s) as [s _ IH].
  destruct (decide (s = EmptyString)) as [->|Hs]; [by intros u t r|].
  destruct (json_rune_piece s Hs) as (x & t & p & out & -> & Hne & Hj & Hc & Hp).
  unfold json_text. rewrite (walk_rune _ _ _ _ Hne Hj). apply inside_app; [by apply piece_inside in Hp|].
  apply IH. unfold Wf_nat.ltof. rewrite str_length_app. destruct x; [done|]. simpl. lia.
Qed.

Lemma string_token_json s rest :
  string_token (json_text s +:+ String quote_char rest) = Some (json_text s, rest).
Proof.
  rewrite <-(str_app_nil_r (json_text s)) at 2. by apply json_text_inside.
Qed.

(** ** Documents read back *)

(** A value as it is read: its strings as they are written. *)
Fixpoint raw (j : json) : json :=
  match j with
  | JStr s => JStr (json_text s)
  | JArr l => JArr (map raw l)
  | JObj l => JObj (map (λ kv, match kv with (k, v) => (json_text k, raw v) end) l)
  | j => j
  end.

Definition all_chars (p : ascii → bool) (s : string) : bool :=
  forallb p (String.list_ascii_of_string s).

Definition number_text (t : string) : bool :=
  all_chars number_char t && bool_decide (is_Some (number_parts t)).

(** The numbers of a value are numbers, and it nests no deeper than [d]. *)
Fixpoint readable (d : N) (j : json) : bool :=
  match j with
  | JNum t => number_text t
  | JArr l => (0 <? d)%N && forallb (readable (N.pred d)) l
  | JObj l => (0 <? d)%N && forallb (λ kv, match kv with (_, v) => readable (N.pred d) v end) l
  | _ => true
  end.

Section json_induction.
Context (P : json → Prop).
Context (Hnull : P JNull) (Hbool : ∀ b, P (JBool b)) (Hnum : ∀ t, P (JNum t)).
Context (Hstr : ∀ s, P (JStr s)) (Harr : ∀ l, Forall P l → P (JArr l)).
Context (Hobj : ∀ l, Forall (λ kv, P kv.2) l → P (JObj l)).

Fixpoint json_induction (j : json) : P j :=
  match j with
  | JNull => Hnull
  | JBool b => Hbool b
  | JNum t => Hnum t
  | JStr s => Hstr s
  | JArr l => Harr l ((fix go l : Forall P l := match l with
                                   | [] => Forall_nil_2 _
                                   | x :: l => Forall_cons_2 _ _ _ (json_induction x) (go l)
                                   end) l)
  | JObj l => Hobj l ((fix go l : Forall (λ kv, P kv.2) l := match l with
                                   | [] => Forall_nil_2 _
                                   | kv :: l => Forall_cons_2 _ _ _ (json_induction kv.2) (go l)
                                   end) l)
  end.
End json_induction.

Lemma all_chars_app p a b : all_chars p (a +:+ b) = all_chars p a && all_chars p b.
Proof. unfold all_chars. by rewrite bytes_app, forallb_app. Qed.

Definition blank (s : string) : bool := all_chars json_space s.

Lemma skip_space_blank ws s : blank ws = true → skip_space (ws +:+ s) = skip_space s.
Proof.
  unfold blank, all_chars, skip_space. induction ws as [|c ws IH]; simpl; [done|].
  intros [Hc Hw]%andb_true_iff. rewrite Hc. by apply IH.
Qed.

Lemma next_blank ws s : blank ws = true → next_char (ws +:+ s) = next_char s.
Proof. intros Hw. unfold next_char. by rewrite skip_space_blank. Qed.

Lemma next_char_app ws c s :
  blank ws = true → json_space c = false → next_char (ws +:+ String c s) = Some (c, s).
Proof.
  intros Hw Hc. rewrite next_blank by done. unfold next_char, skip_space. simpl. by rewrite Hc.
Qed.

Lemma value_blank ws n d s : blank ws = true → json_value n d (ws +:+ s) = json_value n d s.
Proof. intros Hw. destruct n; [done|]. simpl. by rewrite next_blank. Qed.

(** What may follow a number. *)
Definition ends_number (s : string) : bool :=
  match s with String c _ => negb (number_char c) | EmptyString => true end.

Lemma number_token_app t rest :
  all_chars number_char t = true → ends_number rest = true → number_token (t +:+ rest) = (t, rest).
Proof.
  unfold all_chars. induction t as [|c t IH]; simpl; intros Ht Hr.
  - destruct rest as [|c rest]; [done|]. simpl in Hr |- *. by destruct (number_char c).
  - apply andb_true_iff in Ht as [Hc Ht]. by rewrite Hc, IH.
Qed.

Lemma value_number t rest d :
  number_text t = true → ends_number rest = true → json_value 1 d (t +:+ rest) = Some (JNum t, rest).
Proof.
  intros [Hall [p Hp]%bool_decide_eq_true]%andb_true_iff Hr.
  destruct t as [|c t]; [done|]. unfold all_chars in Hall. simpl in Hall.
  pose proof (number_token_app (String c t) rest Hall Hr) as Htok.
  apply andb_true_iff in Hall as [Hc _].
  assert (∀ c', number_char c' = false → Ascii.eqb c c' = false) as Hne.
  { intros c' Hc'. apply Ascii.eqb_neq. by intros ->; rewrite Hc in Hc'. }
  rewrite str_cons_app in *. cbn [json_value].
  rewrite <-(str_nil_app (String c (t +:+ rest))), next_char_app; [|done|].
  2:{ unfold json_space. apply bool_decide_eq_false. intros Hin.
      repeat (apply elem_of_cons in Hin as [->|Hin]; [done|]). by apply not_elem_of_nil in Hin. }
  cbn [mbind option_bind]. rewrite !Hne by done. unfold scalar. rewrite !Hne by done.
  by rewrite Htok, Hp.
Qed.

Lemma literal_app text j rest : literal text j (text +:+ rest) = Some (j, rest).
Proof. unfold literal. by rewrite (proj2 (drop_prefix_Some _ _ _) eq_refl). Qed.

Lemma value_bool b rest d : json_value 1 d (fmt_bool b +:+ rest) = Some (JBool b, rest).
Proof.
  destruct b; simpl; rewrite !str_cons_app; [apply (literal_app "rue")|apply (literal_app "alse")].
Qed.

Lemma value_string s rest d : json_value 1 d (json_string s +:+ rest) = Some (JStr (json_text s), rest).
Proof.
  unfold json_string. rewrite str_cons_app, str_app_assoc. cbn [json_value].
  rewrite <-(str_nil_app (String quote_char _)), next_char_app by done. simpl.
  rewrite str_cons_app, str_nil_app, string_token_json. done.
Qed.

Lemma ends_number_blank ws s :
  blank ws = true → ends_number s = true → ends_number (ws +:+ s) = true.
Proof.
  intros Hw Hs. destruct ws as [|c ws]; [done|]. apply andb_true_iff in Hw as [Hc _].
  simpl. apply bool_decide_eq_true in Hc.
  repeat (apply elem_of_cons in Hc as [->|Hc]; [done|]). by apply not_elem_of_nil in Hc.
Qed.

(** The text [t] reads as the value [j], whatever follows it. *)
Definition reads_as (d : N) (t : string) (j : json) : Prop := ∀ rest,
  ends_number rest = true → ∃ n, json_value n d (t +:+ rest) = Some (j, rest).

Lemma value_more n m d s x : json_value n d s = Some x → (n ≤ m)%nat → json_value m d s = Some x.
Proof. intros H Hnm. by apply (fuel_more n m Hnm). Qed.

(** Elements, or members, up to the closing bracket. *)
Lemma elements_read d sep post rest x l :
  blank sep = true → blank post = true → Forall (λ p, reads_as d p.1 p.2) (x :: l) →
  ∃ n, ∀ ws, blank ws = true →
    json_elements n d (ws +:+ Join ("," +:+ sep) (x :: l).*1 +:+ post +:+ String "]" rest) =
    Some ((x :: l).*2, rest).
Proof.
  intros Hsep Hpost. revert x. induction l as [|y l IH]; intros x [Hx Hl]%Forall_cons.
  - destruct (Hx (post +:+ String "]" rest)) as [n Hn]; [by apply ends_number_blank|].
    exists (S n). intros ws Hws. cbn [fmap list_fmap Join json_elements].
    rewrite value_blank, Hn by done. cbn [mbind option_bind]. by rewrite next_char_app.
  - destruct (IH y Hl) as [m Hm].
    set (tail := Join ("," +:+ sep) (y :: l).*1 +:+ post +:+ String "]" rest) in *.
    destruct (Hx (String "," (sep +:+ tail))) as [n Hn]; [done|].
    exists (S (n `max` m)). intros ws Hws.
    replace (Join ("," +:+ sep) (x :: y :: l).*1 +:+ post +:+ String "]" rest)
      with (x.1 +:+ String "," (sep +:+ tail)) by (by subst tail; simpl; rewrite !str_app_assoc).
    cbn [json_elements]. rewrite value_blank by done.
    rewrite (value_more n (n `max` m) _ _ _ Hn) by lia. cbn [mbind option_bind].
    rewrite <-(str_nil_app (String "," _)), next_char_app by done. cbn [mbind option_bind]. simpl Ascii.eqb.
    cbv iota. specialize (Hm sep Hsep). apply (proj2 (proj2 (fuel_more m (n `max` m) ltac:(lia)))) in Hm.
    by rewrite Hm.
Qed.

(** A member as it is written. *)
Definition member_text (p : string * (string * json)) : string :=
  json_string p.1 +:+ ": " +:+ p.2.1.

Lemma members_head p n d ws rest :
  blank ws = true →
  json_members (S n) d (ws +:+ member_text p +:+ rest) =
  '(v, s) ← json_value n d (p.2.1 +:+ rest);
  '(c, s) ← next_char s;
  if Ascii.eqb c "," then '(l, r) ← json_members n d s; Some ((json_text p.1, v) :: l, r)
  else if Ascii.eqb c "}" then Some ([(json_text p.1, v)], s) else None.
Proof.
  intros Hws. unfold member_text, json_string.
  rewrite !str_app_assoc, !str_cons_app, !str_app_assoc, !str_cons_app, !str_nil_app.
  cbn [json_members]. rewrite next_char_app by done. cbn [mbind option_bind]. simpl Ascii.eqb. cbv iota.
  cbn [negb]. rewrite string_token_json. cbn [mbind option_bind].
  rewrite <-(str_nil_app (String ":" _)), next_char_app by done. cbn [mbind option_bind].
  simpl Ascii.eqb. cbn [negb]. cbv iota.
  by rewrite <-(value_blank (String " " EmptyString) n d (p.2.1 +:+ rest)).
Qed.

Lemma members_read d sep post rest x l :
  blank sep = true → blank post = true → Forall (λ p, reads_as d p.2.1 p.2.2) (x :: l) →
  ∃ n, ∀ ws, blank ws = true →
    json_members n d (ws +:+ Join ("," +:+ sep) (map member_text (x :: l)) +:+ post +:+ String "}" rest) =
    Some (map (λ p, (json_text p.1, p.2.2)) (x :: l), rest).
Proof.
  intros Hsep Hpost. revert x. induction l as [|y l IH]; intros x [Hx Hl]%Forall_cons.
  - destruct (Hx (post +:+ String "}" rest)) as [n Hn]; [by apply ends_number_blank|].
    exists (S n). intros ws Hws. cbn [map Join].
    rewrite members_head, Hn by done. cbn [mbind option_bind]. by rewrite next_char_app.
  - destruct (IH y Hl) as [m Hm].
    set (tail := Join ("," +:+ sep) (map member_text (y :: l)) +:+ post +:+ String "}" rest) in *.
    destruct (Hx (String "," (sep +:+ tail))) as [n Hn]; [done|].
    exists (S (n `max` m)). intros ws Hws.
    replace (Join ("," +:+ sep) (map member_text (x :: y :: l)) +:+ post +:+ String "}" rest)
      with (member_text x +:+ String "," (sep +:+ tail))
      by (by subst tail; cbn [map Join]; rewrite !str_app_assoc).
    rewrite members_head by done.
    rewrite (value_more n (n `max` m) _ _ _ Hn) by lia. cbn [mbind option_bind].
    rewrite <-(str_nil_app (String "," _)), next_char_app by done. cbn [mbind option_bind]. simpl Ascii.eqb.
    cbv iota. specialize (Hm sep Hsep).
    apply (proj1 (proj2 (fuel_more m (n `max` m) ltac:(lia)))) in Hm. by rewrite Hm.
Qed.

Lemma blank_app a b : blank (a +:+ b) = blank a && blank b.
Proof. apply all_chars_app. Qed.

Lemma value_array n d s l rest :
  (0 < d)%N → json_elements n (N.pred d) s = Some (l, rest) →
  json_value (S n) d (String "[" s) = Some (JArr l, rest).
Proof.
  intros Hd He. assert (∃ c r, next_char s = Some (c, r) ∧ c ≠ "]"%char) as (c & r & Hnext & Hc).
  { destruct n as [|n]; [done|]. cbn [json_elements] in He.
    apply bind_Some in He as ([v s'] & Hv & _). destruct n as [|n]; [done|].
    cbn [json_value] in Hv. apply bind_Some in Hv as ([c r] & Hnext & Hv).
    exists c, r. split; [done|]. by intros ->. }
  change (json_value (S n) d (String "[" s)) with
    (if (d =? 0)%N then None
     else '(c', s') ← next_char s;
          if Ascii.eqb c' "]" then Some (JArr [], s')
          else '(l, r) ← json_elements n (N.pred d) s; Some (JArr l, r)).
  rewrite (proj2 (N.eqb_neq d 0)), Hnext by lia. cbn [mbind option_bind].
  by rewrite (proj2 (Ascii.eqb_neq _ _) Hc), He.
Qed.

Lemma value_object n d s l rest :
  (0 < d)%N → json_members n (N.pred d) s = Some (l, rest) →
  json_value (S n) d (String "{" s) = Some (JObj l, rest).
Proof.
  intros Hd Hm. assert (∃ c r, next_char s = Some (c, r) ∧ c ≠ "}"%char) as (c & r & Hnext & Hc).
  { destruct n as [|n]; [done|]. cbn [json_members] in Hm.
    apply bind_Some in Hm as ([c r] & Hnext & Hm). exists c, r. split; [done|]. by intros ->. }
  change (json_value (S n) d (String "{" s)) with
    (if (d =? 0)%N then None
     else '(c', s') ← next_char s;
          if Ascii.eqb c' "}" then Some (JObj [], s')
          else '(l, r) ← json_members n (N.pred d) s; Some (JObj l, r)).
  rewrite (proj2 (N.eqb_neq d 0)), Hnext by lia. cbn [mbind option_bind].
  by rewrite (proj2 (Ascii.eqb_neq _ _) Hc), Hm.
Qed.

Lemma array_read d ind (text : json → string) x l :
  blank ind = true → (0 < d)%N →
  Forall (λ j, reads_as (N.pred d) (text j) (raw j)) (x :: l) →
  reads_as d (block "[" "]" ind (map text (x :: l))) (JArr (map raw (x :: l))).
Proof.
  intros Hind Hd Hall rest _. set (f := λ j, (text j, raw j)).
  assert (blank (nls +:+ ind +:+ "  ") = true) as Hsep by (by rewrite !blank_app, Hind).
  assert (blank (nls +:+ ind) = true) as Hpost by (by rewrite !blank_app, Hind).
  destruct (elements_read (N.pred d) _ _ rest (f x) (map f l) Hsep Hpost) as [n Hn].
  { change (f x :: map f l) with (f <$> x :: l). by apply Forall_fmap. }
  specialize (Hn _ Hsep). exists (S n).
  change (f x :: map f l) with (f <$> x :: l) in Hn. rewrite <-!list_fmap_compose in Hn.
  etransitivity; [|exact (value_array n d _ _ _ Hd Hn)]. f_equal.
  unfold block. cbn [map fmap list_fmap]. by rewrite !str_app_assoc.
Qed.

Lemma object_read d ind (text : json → string) x l :
  blank ind = true → (0 < d)%N →
  Forall (λ kv : string * json, reads_as (N.pred d) (text kv.2) (raw kv.2)) (x :: l) →
  reads_as d
    (block "{" "}" ind (map (λ kv, match kv with (k, v) => json_string k +:+ ": " +:+ text v end)
       (x :: l)))
    (JObj (map (λ kv, match kv with (k, v) => (json_text k, raw v) end) (x :: l))).
Proof.
  intros Hind Hd Hall rest _. set (f := λ kv : string * json, (kv.1, (text kv.2, raw kv.2))).
  assert (blank (nls +:+ ind +:+ "  ") = true) as Hsep by (by rewrite !blank_app, Hind).
  assert (blank (nls +:+ ind) = true) as Hpost by (by rewrite !blank_app, Hind).
  destruct (members_read (N.pred d) _ _ rest (f x) (map f l) Hsep Hpost) as [n Hn].
  { change (f x :: map f l) with (f <$> x :: l). by apply Forall_fmap. }
  specialize (Hn _ Hsep). exists (S n).
  change (f x :: map f l) with (map f (x :: l)) in Hn. rewrite !map_map in Hn.
  rewrite (map_ext _ (λ p, member_text (f p))), (map_ext _ (λ p, (json_text (f p).1, (f p).2.2)))
    by (by intros []).
  etransitivity; [|exact (value_object n d _ _ _ Hd Hn)]. f_equal.
  unfold block. cbn [map]. by rewrite !str_app_assoc.
Qed.

(** Every readable value is read back from its indented text. *)
Lemma indented_reads j : ∀ d ind,
  readable d j = true → blank ind = true → reads_as d (indented ind j) (raw j).
Proof.
  induction j as [|b|t|s|l IH|l IH] using json_induction; intros d ind Hj Hind;
    [intros rest Hrest; exists 1%nat; cbn [indented raw]..| |].
  - apply (literal_app "ull").
  - apply value_bool.
  - by apply value_number.
  - apply value_string.
  - apply andb_true_iff in Hj as [Hd%N.ltb_lt Hl].
    destruct l as [|x l].
    + intros rest _. exists 1%nat. cbn. by rewrite (proj2 (N.eqb_neq d 0)) by lia.
    + apply array_read; [done..|]. rewrite forallb_forall in Hl. rewrite Forall_forall in IH |- *.
      intros y Hy. apply IH; [done|apply Hl, list_elem_of_In, Hy|by rewrite blank_app, Hind].
  - apply andb_true_iff in Hj as [Hd%N.ltb_lt Hl].
    destruct l as [|x l].
    + intros rest _. exists 1%nat. cbn. by rewrite (proj2 (N.eqb_neq d 0)) by lia.
    + apply object_read; [done..|]. rewrite forallb_forall in Hl. rewrite Forall_forall in IH |- *.
      intros [k y] Hy. apply (IH (k, y)); [done| |by rewrite blank_app, Hind].
      exact (Hl (k, y) (proj1 (list_elem_of_In _ _) Hy)).
Qed.

(** A document that [MarshalIndent] wrote is read back. *)
Lemma ParseJSON_MarshalIndent j :
  readable max_nesting j = true → ParseJSON (MarshalIndent j) = Some (raw j).
Proof.
  intros Hj. destruct (indented_reads j max_nesting EmptyString Hj eq_refl EmptyString eq_refl) as [n Hn].
  rewrite str_app_nil_r in Hn. by apply (ParseJSON_some _ _ _ _ Hn).
Qed.

(** ** Numbers read back *)

Lemma int_part_app c r rest :
  all_digits (String c r) = true → (c ≠ "0"%char ∨ r = EmptyString) → digit_head rest = false →
  int_part (String c r +:+ rest) = Some (String c r, rest).
Proof.
  intros Hall Hz Hrest. unfold int_part.
  destruct (take_digits_app _ rest Hall Hrest) as [-> ->].
  destruct Hz as [Hz| ->]; [by rewrite (proj2 (Ascii.eqb_neq _ _) Hz)|].
  by destruct (Ascii.eqb c "0").
Qed.

Lemma fraction_part_app c r rest :
  all_digits (String c r) = true → digit_head rest = false →
  fraction_part ("." +:+ String c r +:+ rest) = Some (String c r, rest).
Proof.
  intros Hall Hrest. rewrite str_cons_app, str_nil_app. unfold fraction_part.
  destruct (take_digits_app _ rest Hall Hrest) as [-> ->].
  unfold all_digits in Hall. simpl in Hall |- *. by apply andb_true_iff in Hall as [-> _].
Qed.

Lemma substring_split k s :
  (k ≤ String.length s)%nat →
  s = String.substring 0 k s +:+ String.substring k (String.length s - k) s ∧
  String.length (String.substring 0 k s) = k.
Proof.
  revert k. induction s as [|c s IH]; intros k Hk; simpl in Hk.
  - by replace k with O by lia.
  - destruct k as [|k].
    + simpl. rewrite str_nil_app. split; [|done]. f_equal. clear.
      induction s as [|c s IH]; [done|]. simpl. by f_equal.
    + destruct (IH k ltac:(lia)) as [Hs Hl]. simpl. rewrite str_cons_app, <-Hs, Hl. done.
Qed.

(** A number is read as [v] times ten to the [k]. *)
Definition denotes (t : string) (v k : Z) : Prop :=
  number_text t = true ∧
  ∃ c r ip fp e j, t = String c r ∧ is_digit c = true ∧ unsigned_parts t = Some (ip, fp, e) ∧
    dec_go 0 (ip +:+ fp) = (v * 10 ^ Z.of_nat j)%Z ∧ (e - slen fp + Z.of_nat j = k)%Z.

Lemma denotes_intro c r ip fp e j v k :
  is_digit c = true → all_chars number_char (String c r) = true →
  unsigned_parts (String c r) = Some (ip, fp, e) →
  dec_go 0 (ip +:+ fp) = (v * 10 ^ Z.of_nat j)%Z → (e - slen fp + Z.of_nat j = k)%Z →
  denotes (String c r) v k.
Proof.
  intros Hc Hall Hu Hv Hk. split; [|by repeat eexists]. unfold number_text. rewrite Hall.
  apply bool_decide_eq_true. unfold number_parts.
  assert (c ≠ "-"%char) as Hm by (by intros ->).
  rewrite (proj2 (Ascii.eqb_neq _ _) Hm), Hu. by eexists.
Qed.

Lemma digits_number_chars ds : all_digits ds = true → all_chars number_char ds = true.
Proof.
  unfold all_digits, all_chars. rewrite !forallb_forall. intros H c Hc.
  unfold number_char. by rewrite (H c Hc).
Qed.

Lemma zeros_digits j : all_digits (zeros j) = true.
Proof. by induction j. Qed.

Lemma digits_first c r : all_digits (String c r) = true → is_digit c = true.
Proof. unfold all_digits. simpl. by intros [? _]%andb_true_iff. Qed.

(** Digits, a point and digits. *)
Lemma point_denotes c r fp :
  all_digits (String c r) = true → (c ≠ "0"%char ∨ r = EmptyString) →
  all_digits fp = true → fp ≠ EmptyString →
  denotes (String c r +:+ "." +:+ fp) (dec_go 0 (String c r +:+ fp)) (- slen fp).
Proof.
  intros Hip Hc Hfp Hne. destruct fp as [|d s]; [done|].
  rewrite str_cons_app. apply (denotes_intro _ _ (String c r) (String d s) 0 0).
  - by eapply digits_first.
  - by rewrite <-str_cons_app, !all_chars_app, (digits_number_chars _ Hip), (digits_number_chars _ Hfp).
  - rewrite <-str_cons_app. unfold unsigned_parts.
    rewrite int_part_app by (by auto). cbn [mbind option_bind].
    pose proof (fraction_part_app d s EmptyString) as Hp. rewrite str_app_nil_r in Hp.
    by rewrite Hp.
  - by rewrite Z.mul_1_r.
  - unfold slen. lia.
Qed.

(** Digits with zeros after them. *)
Lemma zeros_denotes c r j :
  c ≠ "0"%char → all_digits (String c r) = true →
  denotes (String c r +:+ zeros j) (dec_go 0 (String c r)) (Z.of_nat j).
Proof.
  intros Hc Hall.
  assert (all_digits (String c (r +:+ zeros j)) = true) as Hip
    by (by rewrite <-str_cons_app, all_digits_app, Hall, zeros_digits).
  rewrite str_cons_app. apply (denotes_intro _ _ (String c (r +:+ zeros j)) EmptyString 0 j).
  - by eapply digits_first.
  - by apply digits_number_chars.
  - unfold unsigned_parts.
    pose proof (int_part_app c (r +:+ zeros j) EmptyString Hip (or_introl Hc) eq_refl) as Hi.
    rewrite str_app_nil_r in Hi. by rewrite Hi.
  - by rewrite str_app_nil_r, <-str_cons_app, dec_go_app, dec_go_zeros.
  - unfold slen. simpl. lia.
Qed.

Lemma format_f_denotes ds dp c r :
  ds = String c r → c ≠ "0"%char → all_digits ds = true →
  denotes (format_f ds dp) (dec_go 0 ds) (dp - slen ds).
Proof.
  intros Hds Hc Hall. unfold format_f. destruct (Z.leb_spec dp 0) as [Hdp|Hdp].
  { set (fp := zeros (Z.to_nat (- dp)) +:+ ds).
    replace (dec_go 0 ds) with (dec_go 0 ("0" +:+ fp)).
    2: { unfold fp. rewrite !dec_go_app, dec_go_zeros. change (dec_go 0 "0") with 0%Z.
         by rewrite Z.mul_0_l. }
    replace (dp - slen ds)%Z with (- slen fp)%Z
      by (unfold fp, slen; rewrite str_length_app, zeros_length; lia).
    apply (point_denotes "0" EmptyString fp); [done|by right| |].
    - unfold fp. by rewrite all_digits_app, zeros_digits.
    - unfold fp. intros [_ Hnil]%str_app_eq_nil. congruence. }
  destruct (Z.leb_spec (Z.of_nat (String.length ds)) dp) as [Hn|Hn].
  { subst ds. replace (dp - slen (String c r))%Z
      with (Z.of_nat (Z.to_nat (dp - Z.of_nat (String.length (String c r)))))
      by (unfold slen; lia). by apply zeros_denotes. }
  destruct (substring_split (Z.to_nat dp) ds) as [Hs Hl]; [lia|].
  replace (Z.to_nat (Z.of_nat (String.length ds) - dp)) with (String.length ds - Z.to_nat dp)%nat by lia.
  set (ip := String.substring 0 (Z.to_nat dp) ds) in *.
  set (fp := String.substring (Z.to_nat dp) _ ds) in *. clearbody ip fp.
  assert (String.length ds = String.length ip + String.length fp)%nat as Hlen
    by (by rewrite <-str_length_app, <-Hs).
  replace (dp - slen ds)%Z with (- slen fp)%Z by (unfold slen; lia).
  destruct ip as [|c' r']; [simpl in Hl; lia|]. rewrite Hs in Hds, Hall |- *.
  rewrite str_cons_app in Hds. injection Hds as -> _.
  rewrite all_digits_app in Hall. apply andb_true_iff in Hall as [Hi Hf].
  apply point_denotes; [done|by left|done|]. intros ->. simpl in *. lia.
Qed.

Lemma exponent_read neg ds :
  all_digits ds = true → digit_head ds = true →
  exponent ("e" +:+ (if neg : bool then "-" else "+") +:+ ds) =
  Some (if neg then - dec_go 0 ds else dec_go 0 ds)%Z.
Proof.
  intros Hall Hh. destruct neg; rewrite !str_cons_app, !str_nil_app; unfold exponent; simpl;
    by rewrite Hh, Hall.
Qed.

Lemma format_e_denotes pad ds dp c r :
  ds = String c r → c ≠ "0"%char → all_digits ds = true →
  denotes (format_e pad ds dp) (dec_go 0 ds) (dp - slen ds).
Proof.
  intros Hds Hc Hall. subst ds. unfold format_e. set (x := (dp - 1)%Z).
  assert (is_digit c = true ∧ all_digits r = true) as [Hdc Hr].
  { unfold all_digits in *. simpl in Hall. by apply andb_true_iff in Hall. }
  set (e := Itoa (Z.abs x)).
  assert (all_digits e = true ∧ digit_head e = true ∧ dec_go 0 e = Z.abs x) as (He & Heh & Hev).
  { unfold e, Itoa. rewrite (proj2 (Z.ltb_ge _ 0)) by lia.
    split_and!; [apply digits_all_digits| |rewrite dec_go_digits; lia].
    pose proof (digits_all_digits (Z.to_N (Z.abs x))) as Hd.
    destruct (digits_head (Z.to_N (Z.abs x))) as (c' & s' & Hs & _). rewrite Hs in *.
    unfold all_digits in Hd. simpl in Hd |- *. by apply andb_true_iff in Hd as [? _]. }
  set (pre := if pad && (Z.abs x <? 10)%Z then "0" else EmptyString).
  assert (all_digits (pre +:+ e) = true ∧ digit_head (pre +:+ e) = true ∧
    dec_go 0 (pre +:+ e) = Z.abs x) as (Hpe & Hpeh & Hpev).
  { unfold pre. case_bool; [|by rewrite str_nil_app]. rewrite all_digits_app, He, dec_go_app.
    by split_and!. }
  set (sign := if (x <? 0)%Z then "-" else "+").
  assert (exponent ("e" +:+ sign +:+ pre +:+ e) = Some x) as Hexp.
  { unfold sign. rewrite exponent_read, Hpev by done. case_bool; bool_prop; f_equal; lia. }
  set (tail := "e" +:+ sign +:+ pre +:+ e) in *.
  assert (all_chars number_char tail = true) as Htail.
  { unfold tail. rewrite all_chars_app, (all_chars_app _ sign), (digits_number_chars _ Hpe).
    unfold sign. by case_bool. }
  rewrite str_cons_app.
  set (frac := if String.eqb r EmptyString then EmptyString else "." +:+ r).
  assert (fraction_part (frac +:+ tail) = Some (r, tail)) as Hfrac.
  { unfold frac. destruct r as [|c' r']; [by rewrite str_nil_app|]. simpl String.eqb. cbv iota.
    rewrite str_app_assoc. by apply fraction_part_app. }
  eapply (denotes_intro _ _ (String c EmptyString) r x 0); [done| | | |].
  - assert (all_chars number_char frac = true) as Hf.
    { unfold frac. case_bool; [done|]. rewrite all_chars_app. by rewrite (digits_number_chars _ Hr). }
    unfold all_chars. simpl. unfold all_chars in Htail, Hf.
    rewrite bytes_app, forallb_app, Hf, Htail. unfold number_char. by rewrite Hdc.
  - unfold unsigned_parts.
    change (String c (frac +:+ tail)) with (String c EmptyString +:+ (frac +:+ tail)).
    rewrite int_part_app; [|unfold all_digits; simpl; by rewrite Hdc|by auto|unfold frac; by case_bool].
    cbn [mbind option_bind]. rewrite Hfrac. cbn [mbind option_bind]. by rewrite Hexp.
  - rewrite Z.mul_1_r. done.
  - unfold slen, x. simpl. lia.
Qed.

(** A float is read back from its text, if its digits were found. *)
Lemma json_float_reads x t :
  json_float x = Ok (JNum t) →
  match x with S754_finite _ m e => decimal_found m e = true | _ => True end →
  number_text t = true ∧ ParseFloat t = Some x.
Proof.
  destruct x as [s|s| |s m e]; simpl; [|done..|].
  { intros [= <-] _. by destruct s. }
  destruct (float_digits m e) as [ds dp] eqn:Hfd. intros H Hfound.
  pose proof (float_digits_read m e Hfound) as Hread. rewrite Hfd in Hread.
  destruct Hread as (Hval & Hall & Hpos & c & r & Hds & Hc).
  set (u := if _ : bool then format_e _ _ _ else _) in H.
  assert (denotes u (dec_go 0 ds) (dp - slen ds)) as Hu.
  { unfold u. case_bool; [by eapply format_e_denotes|by eapply format_f_denotes]. }
  clearbody u. injection H as <-.
  destruct Hu as (Hnum & c' & r' & ip & fp & e' & j & -> & Hd & Hparts & Hv & Hk).
  assert (of_decimal (dec_go 0 (ip +:+ fp)) (e' - slen fp) = S754_finite false m e) as Hdec.
  { rewrite Hv, of_decimal_scale by done. by rewrite Hk. }
  assert (Ascii.eqb c' "-" = false) as Hm by (apply Ascii.eqb_neq; by intros ->).
  unfold ParseFloat, number_text, number_parts in *.
  destruct s; unfold signed; rewrite ?str_cons_app, ?str_nil_app.
  - rewrite Ascii.eqb_refl, Hparts. cbn [mbind option_bind]. rewrite Hdec.
    split; [|done]. apply andb_true_iff in Hnum as [Hchars _]. apply andb_true_iff. split; [|done].
    unfold all_chars in *. simpl in *. by rewrite Hchars.
  - rewrite Hm, Hparts in *. cbn [mbind option_bind] in *. by rewrite Hdec.
Qed.

Lemma Itoa_number z : number_text (Itoa z) = true.
Proof.
  assert (∀ n, ∃ c r, digits_of_N n = String c r ∧ is_digit c = true ∧
    int_part (digits_of_N n) = Some (digits_of_N n, EmptyString)) as Hd.
  { intros n. pose proof (digits_all_digits n) as Hall.
    destruct (decide (n = 0%N)) as [->|Hn]; [by exists "0"%char, EmptyString|].
    destruct (digits_leading n) as (c & r & Hs & Hc); [lia|]. exists c, r. rewrite Hs in *.
    split_and!; [done| |].
    - unfold all_digits in Hall. simpl in Hall. by apply andb_true_iff in Hall as [? _].
    - rewrite <-(str_app_nil_r (String c r)) at 1. apply int_part_app; auto. }
  unfold number_text. apply andb_true_iff. split.
  - apply Itoa_forallb. done.
  - apply bool_decide_eq_true. unfold Itoa, number_parts. case_bool.
    + rewrite Ascii.eqb_refl. destruct (Hd (Z.to_N (- z))) as (c & r & Hs & Hc & Hi).
      unfold unsigned_parts. rewrite Hi. by eexists.
    + destruct (Hd (Z.to_N z)) as (c & r & Hs & Hc & Hi). rewrite Hs in *.
      assert (Ascii.eqb c "-" = false) as -> by (apply Ascii.eqb_neq; by intros ->).
      unfold unsigned_parts. rewrite Hi. by eexists.
Qed.

(** ** Torn documents

    What reads a value goes on to do so when more text follows, unless the value is a number
    at the very end. So no proper part of a document from its start is a document. *)

Definition closed (j : json) : bool := match j with JNum _ => false | _ => true end.

Lemma next_char_more s t c r : next_char s = Some (c, r) → next_char (s +:+ t) = Some (c, r +:+ t).
Proof.
  unfold next_char, skip_space. induction s as [|a s IH]; [done|]. rewrite str_cons_app. simpl.
  destruct (json_space a); [apply IH|]. by intros [= <- <-].
Qed.

Lemma string_token_more s t x r :
  string_token s = Some (x, r) → string_token (s +:+ t) = Some (x, r +:+ t).
Proof.
  revert x r. induction (Wf_nat.well_founded_ltof _ String.length s) as [s _ IH].
  unfold Wf_nat.ltof in IH. intros x r H. destruct s as [|c s]; [done|].
  assert (∀ s', (String.length s' ≤ String.length s)%nat → ∀ (f : string → string),
    ('(t', r') ← string_token s'; Some (f t', r')) = Some (x, r) →
    ('(t', r') ← string_token (s' +:+ t); Some (f t', r')) = Some (x, r +:+ t)) as Hrest.
  { intros s' Hs' f Hf. apply bind_Some in Hf as ([t' r'] & Hf & Heq). injection Heq as <- <-.
    apply IH in Hf as ->; [done|simpl; lia]. }
  rewrite str_cons_app. cbn [string_token] in H |- *.
  destruct (Ascii.eqb c quote_char); [by injection H as <- <-|].
  destruct (Ascii.eqb c backslash).
  - destruct s as [|e s]; [done|]. rewrite str_cons_app. simpl in Hrest.
    destruct (Ascii.eqb e "u").
    + destruct s as [|h1 [|h2 [|h3 [|h4 s]]]]; [done..|]. rewrite !str_cons_app.
      destruct (_ && _); [|done]. apply Hrest; [simpl; lia|done].
    + destruct (bool_decide _); [|done]. apply Hrest; [lia|done].
  - destruct (N_of_ascii c <? 32)%N; [done|]. apply Hrest; [lia|done].
Qed.

Lemma number_token_more s t :
  (number_token s).2 ≠ EmptyString →
  number_token (s +:+ t) = ((number_token s).1, (number_token s).2 +:+ t).
Proof.
  induction s as [|c s IH]; [done|]. rewrite str_cons_app. simpl.
  destruct (number_char c); [|done]. destruct (number_token s) as [x r]. simpl in *.
  intros Hr. by rewrite IH.
Qed.

Lemma literal_more text j0 s t j r :
  literal text j0 s = Some (j, r) → literal text j0 (s +:+ t) = Some (j, r +:+ t) ∧ j = j0.
Proof.
  unfold literal. intros H. apply fmap_Some in H as (r' & Hd & Heq). injection Heq as -> ->.
  apply drop_prefix_Some in Hd as ->. rewrite str_app_assoc.
  by rewrite (proj2 (drop_prefix_Some _ _ _) eq_refl).
Qed.

Lemma scalar_more c s t j r :
  scalar c s = Some (j, r) → closed j = true ∨ r ≠ EmptyString →
  scalar c (s +:+ t) = Some (j, r +:+ t).
Proof.
  unfold scalar. intros H Hj. repeat case_bool.
  1-3: by apply (literal_more _ _ _ t) in H as [-> ->].
  destruct (number_token (String c s)) as [tok r'] eqn:Htok.
  apply bind_Some in H as (p & Hp & Heq). injection Heq as <- <-.
  destruct Hj as [|Hr]; [done|].
  pose proof (number_token_more (String c s) t) as Hm. rewrite Htok, str_cons_app in Hm.
  rewrite Hm by done. simpl. by rewrite Hp.
Qed.

Lemma reads_more n t :
  (∀ d s j r, json_value n d s = Some (j, r) → closed j = true ∨ r ≠ EmptyString →
     json_value n d (s +:+ t) = Some (j, r +:+ t)) ∧
  (∀ d s l r, json_members n d s = Some (l, r) → json_members n d (s +:+ t) = Some (l, r +:+ t)) ∧
  (∀ d s l r, json_elements n d s = Some (l, r) → json_elements n d (s +:+ t) = Some (l, r +:+ t)).
Proof.
  induction n as [|n (IHv & IHm & IHe)]; [by split_and!|].
  assert (∀ s c r, next_char s = Some (c, r) → s ≠ EmptyString) as Hnext
    by (by intros s c r H ->).
  split_and!; intros d s j r H; simpl in H |- *.
  - intros Hj. apply bind_Some in H as ([c s1] & H1 & H). rewrite (next_char_more _ t _ _ H1). simpl.
    repeat case_bool; try done.
    + apply bind_Some in H as ([c' s2] & H2 & H). rewrite (next_char_more _ t _ _ H2). simpl.
      case_bool; [by injection H as <- <-|]. apply bind_Some in H as ([l s3] & H3 & H).
      rewrite (IHm _ _ _ _ H3). by injection H as <- <-.
    + apply bind_Some in H as ([c' s2] & H2 & H). rewrite (next_char_more _ t _ _ H2). simpl.
      case_bool; [by injection H as <- <-|]. apply bind_Some in H as ([l s3] & H3 & H).
      rewrite (IHe _ _ _ _ H3). by injection H as <- <-.
    + apply bind_Some in H as ([x s2] & H2 & H). rewrite (string_token_more _ t _ _ H2).
      by injection H as <- <-.
    + by apply scalar_more.
  - apply bind_Some in H as ([c s1] & H1 & H). rewrite (next_char_more _ t _ _ H1). simpl.
    case_bool; [done|]. apply bind_Some in H as ([k s2] & H2 & H).
    rewrite (string_token_more _ t _ _ H2). simpl.
    apply bind_Some in H as ([c' s3] & H3 & H). rewrite (next_char_more _ t _ _ H3). simpl.
    case_bool; [done|]. apply bind_Some in H as ([v s4] & H4 & H).
    apply bind_Some in H as ([c'' s5] & H5 & H). rewrite (IHv _ _ _ _ H4) by (right; by eapply Hnext).
    simpl. rewrite (next_char_more _ t _ _ H5). simpl.
    case_bool; [|case_bool; [by injection H as <- <-|done]].
    apply bind_Some in H as ([l s6] & H6 & H). rewrite (IHm _ _ _ _ H6). by injection H as <- <-.
  - apply bind_Some in H as ([v s4] & H4 & H).
    apply bind_Some in H as ([c'' s5] & H5 & H). rewrite (IHv _ _ _ _ H4) by (right; by eapply Hnext).
    simpl. rewrite (next_char_more _ t _ _ H5). simpl.
    case_bool; [|case_bool; [by injection H as <- <-|done]].
    apply bind_Some in H as ([l s6] & H6 & H). rewrite (IHe _ _ _ _ H6). by injection H as <- <-.
Qed.

(** The start of the document of an object, without its end, is no document. *)
Lemma ParseJSON_torn l part rest :
  readable max_nesting (JObj l) = true → MarshalIndent (JObj l) = part +:+ rest →
  rest ≠ EmptyString → ParseJSON part = None.
Proof.
  intros Hl Hdoc Hrest.
  destruct (indented_reads _ max_nesting EmptyString Hl eq_refl EmptyString eq_refl) as [n Hn].
  rewrite str_app_nil_r in Hn. fold (MarshalIndent (JObj l)) in Hn. rewrite Hdoc in Hn.
  unfold ParseJSON. destruct (json_value (steps part) max_nesting part) as [[j r]|] eqn:Hp; [|done].
  exfalso. assert (closed j = true) as Hj.
  { destruct part as [|c part]; [by vm_compute in Hp|].
    assert (c = "{"%char) as ->.
    { unfold MarshalIndent in Hdoc. cbn [indented] in Hdoc. unfold block in Hdoc.
      rewrite str_cons_app in Hdoc. destruct (map _ l); by injection Hdoc as <- _. }
    cbn [json_value] in Hp. simpl in Hp.
    apply bind_Some in Hp as ([c' s'] & _ & Hp). case_bool; [by injection Hp as <- _|].
    apply bind_Some in Hp as ([l' r'] & _ & Hp). by injection Hp as <- _. }
  pose proof (proj1 (reads_more (steps part) rest) _ _ _ _ Hp (or_introl Hj)) as Hmore.
  pose proof (value_more _ (n + steps part) _ _ _ Hn ltac:(lia)) as H1.
  pose proof (value_more _ (n + steps part) _ _ _ Hmore ltac:(lia)) as H2.
  rewrite H1 in H2. injection H2 as _ Hnil. symmetry in Hnil.
  by apply str_app_eq_nil in Hnil as [_ ->].
Qed.
