(* ===== verification/GoJSONDecode.v ===== *)
(** * [encoding/json]: what a struct takes from a document

    [Unmarshal] of a value that was read: a decoder takes a value and what a field holds,
    and yields what it holds afterwards; an error, also one that decoding goes on after, is
    [None], since nothing is used of a struct whose decoding failed. *)

From Stdlib Require Import SpecFloat.
From S2P Require Import Prelude GoStrings GoOS GoFmt GoFloat FloatRound FloatDecimal GoTime GoJSON GoJSONRead.

Definition decoder (A : Type) : Type := json → A → option A.

(** ** Scalars: [null] leaves a field as it is *)

Definition decode_string : decoder string := λ j old,
  match j with JNull => Some old | JStr s => Some (unquote s) | _ => None end.

Definition decode_int : decoder Z := λ j old,
  match j with JNull => Some old | JNum t => Atoi t | _ => None end.

Definition decode_float : decoder float64 := λ j old,
  match j with JNull => Some old | JNum t => ParseFloat t | _ => None end.

Definition decode_bool : decoder bool := λ j old,
  match j with JNull => Some old | JBool b => Some b | _ => None end.

(** [Time.UnmarshalJSON] reads the text between the quotes as it is written. *)
Definition decode_time : decoder Z := λ j old,
  match j with JNull => Some old | JStr s => parse_rfc3339 s | _ => None end.

(** A slice of strings, with what is left of it behind its end: an array is decoded into
    the elements that are there, and [null] or an empty array is a new slice. *)
Fixpoint decode_elements (l : list json) (old : list string) :
    option (list string * list string) :=
  match l with
  | [] => Some ([], old)
  | j :: l =>
      x ← decode_string j (default EmptyString (head old));
      '(xs, spare) ← decode_elements l (tail old);
      Some (x :: xs, spare)
  end.

Definition decode_strings : decoder (list string * list string) := λ j old,
  match j with
  | JNull | JArr [] => Some ([], [])
  | JArr l => decode_elements l (old.1 ++ old.2)
  | _ => None
  end.

(** ** Structs *)

(** Names are compared in upper case; the Kelvin sign and the long s are letters of ASCII
    then. *)
Definition upper (c : ascii) : ascii :=
  let n := N_of_ascii c in
  if (97 <=? n)%N && (n <=? 122)%N then ascii_of_N (n - 32) else c.

Fixpoint fold_name (s : string) : string :=
  match s with
  | EmptyString => EmptyString
  | String c s' =>
      match s' with
      | String d s'' =>
          if (N_of_ascii c =? 197)%N && (N_of_ascii d =? 191)%N then String "S" (fold_name s'')
          else
            match s'' with
            | String e s3 =>
                if (N_of_ascii c =? 226)%N && (N_of_ascii d =? 132)%N && (N_of_ascii e =? 170)%N
                then String "K" (fold_name s3) else String (upper c) (fold_name s')
            | EmptyString => String (upper c) (fold_name s')
            end
      | EmptyString => String (upper c) (fold_name s')
      end
  end.

(** The field a member is for: the one of its name, or the first one whose name is the same
    up to case. *)
Definition field_for (fields : list string) (name : string) : option string :=
  if in_list name fields then Some name
  else find (λ f, String.eqb (fold_name f) (fold_name name)) fields.

Definition names_field (fields : list string) (field : string) (kv : string * json) : bool :=
  bool_decide (field_for fields (unquote kv.1) = Some field).

(** A field takes its members in the order of the document. *)
Fixpoint read_field {A} (fields : list string) (field : string) (dec : decoder A)
    (l : list (string * json)) (old : A) : option A :=
  match l with
  | [] => Some old
  | kv :: l =>
      if names_field fields field kv
      then x ← dec kv.2 old; read_field fields field dec l x
      else read_field fields field dec l old
  end.

Definition decode_struct {A} (dec : list (string * json) → A → option A) : decoder A := λ j old,
  match j with JNull => Some old | JObj l => dec l old | _ => None end.

Example field_for_samples :
  field_for ["instanceId"; "vcpus"; "maxENIs"] <$>
    ["instanceId"; "INSTANCEID"; "VCpuſ"; "maxEnis"; "max"] =
  [Some "instanceId"; Some "instanceId"; Some "vcpus"; Some "maxENIs"; None].
Proof. by vm_compute. Qed.

Example decode_strings_reuses :
  decode_strings (JArr [JNull; JStr "c"; JNull]) (["a"; "b"], ["x"]) = Some (["a"; "c"; "x"], []).
Proof. done. Qed.

(** A field that one member is for. *)
Lemma read_field_once {A} fields field (dec : decoder A) l old kv :
  filter (λ kv, names_field fields field kv = true) l = [kv] →
  read_field fields field dec l old = dec kv.2 old.
Proof.
  revert old. induction l as [|kv' l IH]; intros old; [done|]. rewrite filter_cons. simpl.
  destruct (names_field fields field kv') eqn:Hf.
  - rewrite decide_True by done. intros [= -> Hl]. destruct (dec kv.2 old) as [x|]; [|done]. simpl.
    clear IH Hf old. revert x. induction l as [|kv' l IH]; intros x; [done|].
    rewrite filter_cons in Hl. simpl. destruct (names_field fields field kv') eqn:Hf.
    + by rewrite decide_True in Hl by done.
    + rewrite decide_False in Hl by done. by apply IH.
  - rewrite decide_False by done. apply IH.
Qed.

(** A field that no member is for. *)
Lemma read_field_none {A} fields field (dec : decoder A) l old :
  filter (λ kv, names_field fields field kv = true) l = [] →
  read_field fields field dec l old = Some old.
Proof.
  induction l as [|kv' l IH]; [done|]. rewrite filter_cons. simpl.
  destruct (names_field fields field kv'); [by rewrite decide_True by done|].
  rewrite decide_False by done. apply IH.
Qed.

(** What holds of a field that was there and of what its decoder yields. *)
Lemma read_field_inv {A} (P : A → Prop) fields field (dec : decoder A) l old x :
  (∀ j y z, P y → dec j y = Some z → P z) → P old → read_field fields field dec l old = Some x → P x.
Proof.
  intros Hdec. revert old. induction l as [|kv l IH]; intros old Ho; simpl; [by intros [= <-]|].
  destruct (names_field _ _ _); [|by apply IH].
  destruct (dec kv.2 old) as [y|] eqn:Hy; [|done]. simpl. apply IH. by eapply Hdec.
Qed.

(** Numbers are of their types. *)
Lemma decode_int_range j old z :
  in_int64 old = true → decode_int j old = Some z → in_int64 z = true.
Proof. intros Ho. destruct j; simpl; try done; [by intros [= <-]|apply Atoi_range]. Qed.

Lemma ParseFloat_valid t x : ParseFloat t = Some x → is_float x = true.
Proof.
  unfold ParseFloat. destruct (number_parts t) as [[[[neg ip] fp] e]|]; [|done]. simpl.
  destruct (finite _) as [y|] eqn:Hy; [|done]. simpl. intros [= <-].
  apply finite_valid in Hy; [|apply of_decimal_valid]. by destruct neg, y.
Qed.

Lemma decode_float_valid j old x :
  is_float old = true → decode_float j old = Some x → is_float x = true.
Proof. intros Ho. destruct j; simpl; try done; [by intros [= <-]|apply ParseFloat_valid]. Qed.

Lemma decode_string_text s old : decode_string (JStr (json_text s)) old = Some (clean s).
Proof. simpl. by rewrite unquote_json_text. Qed.

Lemma decode_elements_texts l old :
  decode_elements (map (λ s, JStr (json_text s)) l) old = Some (map clean l, drop (length l) old).
Proof.
  revert old. induction l as [|s l IH]; intros old; [done|]. cbn [map decode_elements].
  rewrite decode_string_text. cbn [mbind option_bind]. rewrite IH.
  destruct old; simpl; by rewrite ?drop_nil.
Qed.

Lemma decode_strings_texts l :
  l ≠ [] → decode_strings (JArr (map (λ s, JStr (json_text s)) l)) ([], []) = Some (map clean l, []).
Proof.
  intros Hl. destruct l as [|s l]; [done|]. unfold decode_strings. cbn [map].
  change (JStr (json_text s) :: map (λ s, JStr (json_text s)) l)
    with (map (λ s, JStr (json_text s)) (s :: l)).
  rewrite decode_elements_texts. done.
Qed.

Lemma decode_int_text z old : in_int64 z = true → decode_int (json_int z) old = Some z.
Proof. intros Hz. simpl. by rewrite Atoi_Itoa. Qed.

Lemma decode_float_text x j old :
  json_float x = Ok j →
  match x with S754_finite _ m e => decimal_found m e = true | _ => True end →
  decode_float j old = Some x.
Proof.
  intros Hj Hx. assert (∃ t, j = JNum t) as [t ->].
  { destruct x; simpl in Hj; try done; [by injection Hj as <-; eexists|].
    destruct (float_digits _ _). injection Hj as <-. by eexists. }
  simpl. by apply (json_float_reads x t).
Qed.

(** ** Instants *)

(** The characters that are written as they are. *)
Definition plain_char (c : ascii) : bool :=
  let n := N_of_ascii c in
  (32 <=? n)%N && (n <? 128)%N && negb (bool_decide (n ∈ [34; 92; 60; 62; 38]%N)).

Lemma json_text_plain s : all_chars plain_char s = true → json_text s = s.
Proof.
  unfold all_chars, json_text. induction s as [|c s IH]; [done|]. simpl.
  intros [Hc Hs]%andb_true_iff.
  assert (json_rune (String c s) = (String c EmptyString, 1%nat)) as ->;
    [|by rewrite str_cons_app, str_nil_app; simpl; rewrite IH].
  unfold plain_char in Hc. apply andb_true_iff in Hc as [[H32 H128]%andb_true_iff Hin].
  apply negb_true_iff, bool_decide_eq_false in Hin.
  unfold json_rune, decode_rune, bad_byte, decode_rune. rewrite H128. apply N.leb_le in H32.
  apply N.ltb_lt in H128. rewrite (proj2 (N.leb_gt 128 _)) by done. simpl andb. cbv iota.
  repeat match goal with
  | |- context [(N_of_ascii c =? ?z)%N] => rewrite (proj2 (N.eqb_neq (N_of_ascii c) z))
        by (intros Heq; rewrite Heq in *; first [lia|apply Hin; set_solver])
  end.
  rewrite (proj2 (N.ltb_ge _ 32)) by done. simpl. by destruct s.
Qed.

Lemma plain_digits ds : all_digits ds = true → all_chars plain_char ds = true.
Proof.
  unfold all_digits, all_chars. rewrite !forallb_forall. intros H c Hc. specialize (H c Hc).
  unfold is_digit in H. apply andb_true_iff in H as [H1%N.leb_le H2%N.leb_le].
  unfold plain_char. rewrite (proj2 (N.leb_le 32 _)), (proj2 (N.ltb_lt _ 128)) by lia. simpl.
  apply negb_true_iff, bool_decide_eq_false. intros Hin.
  repeat (apply elem_of_cons in Hin as [Hin|Hin]; [lia|]). by apply not_elem_of_nil in Hin.
Qed.

#[local] Opaque pad num.

Lemma pad_plain k n : (0 ≤ n)%Z → all_chars plain_char (pad k n) = true.
Proof. intros Hn. by apply plain_digits, pad_digits. Qed.

Lemma zone_plain offset text : zone_text offset = Ok text → all_chars plain_char text = true.
Proof.
  unfold zone_text. case_bool; [by intros [= <-]|]. case_bool; [done|]. intros [= <-].
  rewrite !all_chars_app, !pad_plain by (Z.to_euclidean_division_equations; lia). by case_bool.
Qed.

Lemma time_plain ns offset text : time_text ns offset = Ok text → all_chars plain_char text = true.
Proof.
  intros H%time_text_inv. unfold rfc3339 in H.
  pose proof (date_of_spec ((ns / nanos + offset) / 86400 + unix_epoch)) as Hdate.
  destruct (date_of _) as [[y m] d]. destruct Hdate as (_ & Hm & Hd).
  destruct (negb _) eqn:Hy; [done|]. apply negb_false_iff in Hy. bool_prop.
  destruct (zone_text offset) as [zone|] eqn:Hzone; [|done]. injection H as <-.
  assert (all_chars plain_char (fraction (ns mod nanos)) = true) as Hf.
  { unfold fraction. case_bool; [done|]. destruct (trim_zeros_spec (pad 9 (ns mod nanos))) as [j Hj].
    pose proof (pad_digits 9 (ns mod nanos) ltac:(apply Z.mod_pos_bound; done)) as Hp.
    rewrite Hj, all_digits_app in Hp. apply andb_true_iff in Hp as [Hp _].
    by rewrite all_chars_app, (plain_digits _ Hp). }
  rewrite !all_chars_app, Hf, (zone_plain _ _ Hzone), !pad_plain
    by first [lia | Z.to_euclidean_division_equations; lia].
  done.
Qed.

Lemma decode_time_text ns offset text old :
  time_text ns offset = Ok text → (offset mod 60 = 0)%Z →
  decode_time (JStr (json_text text)) old = Some ns.
Proof.
  intros Ht Hz. simpl. rewrite (json_text_plain _ (time_plain _ _ _ Ht)).
  by apply (parse_time_text ns offset).
Qed.
