(* ===== verification/Facts.v ===== *)
(** * internal/facts

    What is known of the instance and the host ([facts.go]), the local observations
    ([local.go]), the EC2 description of the instance type ([ec2meta.go]) and the identity
    document ([imds.go]). The AWS SDK is the parameter [Cloud]. *)

From S2P Require Import Prelude GoStrings GoPath GoOS Sysutil GoFloat GoJSON.

(** ** facts.go *)

Record Facts : Set := mkFacts {
  InstanceID : string;
  InstanceType : string;
  Family : string;
  Region : string;
  AvailabilityZone : string;
  Arch : string;
  VCPUs : Z;
  MemMiB : Z;
  NetworkBandwidthGbps : float64;
  EnaSupport : bool;
  MaxENIs : Z;
  Ipv4AddressesPerENI : Z;
  NvmeInstanceStore : bool;
  BareMetal : bool;
  Hypervisor : string;
  fDistro : Distro;
  fKernelVersion : string;
  Source : string;
  Warnings : list string
}.

#[export] Instance Facts_eq_dec : EqDecision Facts.
Proof. solve_decision. Defined.

(** [Facts{}]. *)
Definition no_facts : Facts := {|
  InstanceID := EmptyString; InstanceType := EmptyString; Family := EmptyString;
  Region := EmptyString; AvailabilityZone := EmptyString; Arch := EmptyString;
  VCPUs := 0; MemMiB := 0; NetworkBandwidthGbps := float_of_Z 0; EnaSupport := false;
  MaxENIs := 0; Ipv4AddressesPerENI := 0; NvmeInstanceStore := false; BareMetal := false;
  Hypervisor := EmptyString; fDistro := mkDistro EmptyString EmptyString;
  fKernelVersion := EmptyString; Source := EmptyString; Warnings := []
|}%Z.

(** The assignments to some of the fields. *)
Definition with_host (f : Facts) (d : Distro) (k : string) : Facts :=
  mkFacts (InstanceID f) (InstanceType f) (Family f) (Region f) (AvailabilityZone f) (Arch f)
    (VCPUs f) (MemMiB f) (NetworkBandwidthGbps f) (EnaSupport f) (MaxENIs f)
    (Ipv4AddressesPerENI f) (NvmeInstanceStore f) (BareMetal f) (Hypervisor f) d k (Source f)
    (Warnings f).

Definition with_warning (f : Facts) (msg : string) : Facts :=
  mkFacts (InstanceID f) (InstanceType f) (Family f) (Region f) (AvailabilityZone f) (Arch f)
    (VCPUs f) (MemMiB f) (NetworkBandwidthGbps f) (EnaSupport f) (MaxENIs f)
    (Ipv4AddressesPerENI f) (NvmeInstanceStore f) (BareMetal f) (Hypervisor f) (fDistro f)
    (fKernelVersion f) (Source f) (Warnings f ++ [msg]).

Definition with_family (f : Facts) (family : string) : Facts :=
  mkFacts (InstanceID f) (InstanceType f) family (Region f) (AvailabilityZone f) (Arch f)
    (VCPUs f) (MemMiB f) (NetworkBandwidthGbps f) (EnaSupport f) (MaxENIs f)
    (Ipv4AddressesPerENI f) (NvmeInstanceStore f) (BareMetal f) (Hypervisor f) (fDistro f)
    (fKernelVersion f) (Source f) (Warnings f).

(** The sizing fields a local observation fills in for a failed API call. *)
Definition with_local (f local : Facts) : Facts :=
  mkFacts (InstanceID f) (InstanceType f) (Family f) (Region f) (AvailabilityZone f) (Arch f)
    (VCPUs local) (MemMiB local) (NetworkBandwidthGbps local) (EnaSupport f) (MaxENIs f)
    (Ipv4AddressesPerENI f) (NvmeInstanceStore local) (BareMetal f) (Hypervisor f) (fDistro f)
    (fKernelVersion f) "local-fallback" (Warnings f).

(** The sizing fields of the EC2 API. *)
Definition with_enrichment (f e : Facts) : Facts :=
  mkFacts (InstanceID f) (InstanceType f) (Family f) (Region f) (AvailabilityZone f) (Arch f)
    (VCPUs e) (MemMiB e) (NetworkBandwidthGbps e) (EnaSupport e) (MaxENIs e)
    (Ipv4AddressesPerENI e) (NvmeInstanceStore e) (BareMetal e) (Hypervisor e) (fDistro f)
    (fKernelVersion f) "ec2-api" (Warnings f).

(** An [int] product, which wraps around. *)
Definition MaxNeighborEntries (f : Facts) : Z :=
  let enis := if (MaxENIs f <=? 0)%Z then 1%Z else MaxENIs f in
  let ips := if (Ipv4AddressesPerENI f <=? 0)%Z then 1%Z else Ipv4AddressesPerENI f in
  wrap64 (enis * ips).

Definition familyFromInstanceType (instanceType : string) : string :=
  (Cut "." instanceType).1.1.

(** ** local.go *)

Definition normalizeArch (goarch : string) : string :=
  if String.eqb goarch "amd64" then "x86_64" else goarch.

Definition primaryLinkSpeedGbps (e : Env) : M World float64 :=
  iface <- PrimaryInterface e;;
  if String.eqb iface EmptyString then ret (float_of_Z 0)
  else
    data <- ReadFile (Path e ["sys"; "class"; "net"; iface; "speed"]);;
    ret (match data with
         | Err _ => float_of_Z 0
         | Ok data =>
             match Atoi (TrimSpace data) with
             | None => float_of_Z 0
             | Some mbps =>
                 if (mbps <=? 0)%Z then float_of_Z 0
                 else fdiv (float_of_Z mbps) (float_of_Z 1000)
             end
         end).

Definition to_lower (c : ascii) : ascii :=
  let n := N_of_ascii c in
  if (65 <=? n)%N && (n <=? 90)%N then ascii_of_N (n + 32) else c.

(** A case-insensitive match of lower-case letters at the start of a text: an [s] also
    matches the long [s], U+017F. *)
Fixpoint fold_prefix (lit s : string) : bool :=
  match lit, s with
  | EmptyString, _ => true
  | String c lit, String d s =>
      if Ascii.eqb (to_lower d) c then fold_prefix lit s
      else if Ascii.eqb c "s" && Ascii.eqb d "197" then
        match s with
        | String d2 s => Ascii.eqb d2 "191" && fold_prefix lit s
        | EmptyString => false
        end
      else false
  | String _ _, EmptyString => false
  end.

Fixpoint match_fold (lit s : string) : bool :=
  fold_prefix lit s || match s with String _ s => match_fold lit s | EmptyString => false end.

(** [(?i)instance storage]. *)
Definition nvmeInstanceStoreModelRe (model : string) : bool :=
  match_fold "instance storage" model.

Fixpoint any_instance_store (e : Env) (controllers : list string) : M World bool :=
  match controllers with
  | [] => ret false
  | c :: controllers =>
      model <- ReadFile (Path e ["sys"; "class"; "nvme"; c; "model"]);;
      match model with
      | Err _ => any_instance_store e controllers
      | Ok m => if nvmeInstanceStoreModelRe m then ret true
                else any_instance_store e controllers
      end
  end.

Definition detectNvmeInstanceStore (e : Env) : M World bool :=
  controllers <- ReadDir (Path e ["sys"; "class"; "nvme"]);;
  match controllers with
  | Err _ => ret false
  | Ok controllers => any_instance_store e controllers
  end.

Definition LocalFallback `{Platform} (e : Env) : M World Facts :=
  kib <- ParseMemInfoTotalKiB e;;
  gbps <- primaryLinkSpeedGbps e;;
  nvme <- detectNvmeInstanceStore e;;
  ret {|
    InstanceID := EmptyString; InstanceType := EmptyString; Family := EmptyString;
    Region := EmptyString; AvailabilityZone := EmptyString;
    Arch := normalizeArch GOARCH; VCPUs := NumCPU;
    MemMiB := match kib with Ok kib => Z.quot kib 1024 | Err _ => 0%Z end;
    NetworkBandwidthGbps := gbps; EnaSupport := false; MaxENIs := 0%Z;
    Ipv4AddressesPerENI := 0%Z; NvmeInstanceStore := nvme; BareMetal := false;
    Hypervisor := EmptyString; fDistro := mkDistro EmptyString EmptyString;
    fKernelVersion := EmptyString; Source := "local-fallback"; Warnings := []
  |}.

(** ** The AWS SDK

    The identity document and the description of an instance type, with the fields the
    program reads; a pointer that may be [nil] is an [option]. *)

Record InstanceIdentityDocument : Set := mkDoc {
  docInstanceID : string;
  docInstanceType : string;
  docRegion : string;
  docAvailabilityZone : string;
  docArchitecture : string
}.

Record NetworkInfo : Set := mkNetworkInfo {
  niEnaSupport : string;
  MaximumNetworkInterfaces : option Z;
  Ipv4AddressesPerInterface : option Z;
  NetworkCards : list (option float64);
  NetworkPerformance : option string
}.

Record InstanceTypeInfo : Set := mkInfo {
  VCpuInfo : option (option Z);
  MemoryInfo : option (option Z);
  infoBareMetal : option bool;
  infoHypervisor : string;
  InstanceStorageInfo : option string;
  infoNetworkInfo : option NetworkInfo
}.

(** The SDK's calls: they may look at the host and do not change it. *)
Class Cloud : Type := {
  AwsConfig : Type;
  GetInstanceIdentityDocument : World → result error InstanceIdentityDocument;
  LoadDefaultConfig : string → World → result error AwsConfig;
  DescribeInstanceTypes : AwsConfig → string → World → result error (list InstanceTypeInfo)
}.

(** ** imds.go *)

Section cloud.
Context {HC : Cloud}.

Definition fetchIdentityDocument : IO InstanceIdentityDocument :=
  map_err (Wrap "IMDS GetInstanceIdentityDocument") (gets GetInstanceIdentityDocument).

Definition gatherIdentity : IO Facts :=
  doc <-? fetchIdentityDocument;;
  ret (Ok {|
    InstanceID := docInstanceID doc; InstanceType := docInstanceType doc;
    Family := EmptyString; Region := docRegion doc;
    AvailabilityZone := docAvailabilityZone doc; Arch := docArchitecture doc;
    VCPUs := 0%Z; MemMiB := 0%Z; NetworkBandwidthGbps := float_of_Z 0; EnaSupport := false;
    MaxENIs := 0%Z; Ipv4AddressesPerENI := 0%Z; NvmeInstanceStore := false;
    BareMetal := false; Hypervisor := EmptyString;
    fDistro := mkDistro EmptyString EmptyString; fKernelVersion := EmptyString;
    Source := EmptyString; Warnings := []
  |}).

(** ** ec2meta.go *)

Definition fetchInstanceTypeInfo (cfg : AwsConfig) (instanceType : string) :
    IO InstanceTypeInfo :=
  out <-? map_err (Wrap ("EC2 DescribeInstanceTypes(" +:+ instanceType +:+ ")"))
            (gets (DescribeInstanceTypes cfg instanceType));;
  match out with
  | [] => ret (Err (TextError ("EC2 DescribeInstanceTypes(" +:+ instanceType
                                 +:+ "): no results returned")))
  | info :: _ => ret (Ok info)
  end.

(** [[\d.]+]: the first longest run of digits and dots. *)
Fixpoint number_run (s : string) : string :=
  match s with
  | String c s => if is_digit c || Ascii.eqb c "." then String c (number_run s) else EmptyString
  | EmptyString => EmptyString
  end.

Fixpoint networkPerformanceNumberRe (s : string) : string :=
  match s with
  | EmptyString => EmptyString
  | String c s' =>
      if is_digit c || Ascii.eqb c "." then number_run s else networkPerformanceNumberRe s'
  end.

Definition parseNetworkPerformanceGbps (s : string) : float64 :=
  let m := networkPerformanceNumberRe s in
  if String.eqb m EmptyString then float_of_Z 0
  else match ParseDecimal m with Some v => v | None => float_of_Z 0 end.

Definition bandwidthFromNetworkInfo (ni : NetworkInfo) : float64 :=
  match NetworkCards ni with
  | Some gbps :: _ => gbps
  | _ =>
      match NetworkPerformance ni with
      | Some s => parseNetworkPerformanceGbps s
      | None => float_of_Z 0
      end
  end.

(** A field that is set from a pointer, or left as it is. *)
Definition set_from {A} (v : option A) (old : A) : A := default old v.

Definition applyInstanceTypeInfo (f : Facts) (info : InstanceTypeInfo) : Facts :=
  let ni := infoNetworkInfo info in
  {|
    InstanceID := InstanceID f; InstanceType := InstanceType f; Family := Family f;
    Region := Region f; AvailabilityZone := AvailabilityZone f; Arch := Arch f;
    VCPUs := set_from (mjoin (VCpuInfo info)) (VCPUs f);
    MemMiB := set_from (mjoin (MemoryInfo info)) (MemMiB f);
    NetworkBandwidthGbps :=
      set_from (bandwidthFromNetworkInfo <$> ni) (NetworkBandwidthGbps f);
    EnaSupport :=
      match ni with
      | Some ni => in_list (niEnaSupport ni) ["supported"; "required"] || EnaSupport f
      | None => EnaSupport f
      end;
    MaxENIs := set_from (ni ≫= MaximumNetworkInterfaces) (MaxENIs f);
    Ipv4AddressesPerENI := set_from (ni ≫= Ipv4AddressesPerInterface) (Ipv4AddressesPerENI f);
    NvmeInstanceStore :=
      match InstanceStorageInfo info with
      | Some support => in_list support ["supported"; "required"] || NvmeInstanceStore f
      | None => NvmeInstanceStore f
      end;
    BareMetal := set_from (infoBareMetal info) (BareMetal f);
    Hypervisor := infoHypervisor info;
    fDistro := fDistro f; fKernelVersion := fKernelVersion f; Source := Source f;
    Warnings := Warnings f
  |}.

Definition gatherInstanceTypeInfo (region instanceType : string) : IO Facts :=
  cfg <-? map_err (Wrap "loading AWS config") (gets (LoadDefaultConfig region));;
  info <-? fetchInstanceTypeInfo cfg instanceType;;
  ret (Ok (applyInstanceTypeInfo no_facts info)).
End cloud.

(** ** Looking changes nothing *)

#[export] Instance fetchIdentityDocument_read_only {HC : Cloud} :
  ReadOnly fetchIdentityDocument.
Proof. unfold fetchIdentityDocument. apply _. Qed.
#[export] Instance gatherIdentity_read_only {HC : Cloud} : ReadOnly gatherIdentity.
Proof. unfold gatherIdentity. apply _. Qed.
#[export] Instance fetchInstanceTypeInfo_read_only {HC : Cloud} cfg t :
  ReadOnly (fetchInstanceTypeInfo cfg t).
Proof. unfold fetchInstanceTypeInfo. apply bind_ok_read_only; [apply _|]. intros []; apply _. Qed.
#[export] Instance gatherInstanceTypeInfo_read_only {HC : Cloud} r t :
  ReadOnly (gatherInstanceTypeInfo r t).
Proof. unfold gatherInstanceTypeInfo. apply _. Qed.
#[export] Instance primaryLinkSpeedGbps_read_only e : ReadOnly (primaryLinkSpeedGbps e).
Proof. unfold primaryLinkSpeedGbps. apply _. Qed.
#[export] Instance any_instance_store_read_only e l : ReadOnly (any_instance_store e l).
Proof. induction l; simpl; [apply _|]. apply bind_read_only; [apply _|]. intros []; apply _. Qed.
#[export] Instance detectNvmeInstanceStore_read_only e : ReadOnly (detectNvmeInstanceStore e).
Proof.
  unfold detectNvmeInstanceStore. apply bind_read_only; [apply _|]. intros []; apply _.
Qed.
#[export] Instance LocalFallback_read_only {HP : Platform} e : ReadOnly (LocalFallback e).
Proof. unfold LocalFallback. apply _. Qed.
#[export] Instance KernelVersion_read_only e : ReadOnly (KernelVersion e).
Proof. unfold KernelVersion. apply _. Qed.

(** ** An instance for the witnesses *)

Definition demo_platform : Platform := {|
  NumCPU := 2; GOARCH := "amd64"; int64_overflow := λ _, min_int64
|}%Z.

Definition demo_facts : Facts := {|
  InstanceID := "i-0abc"; InstanceType := "m6i.large"; Family := "m6i";
  Region := "eu-west-1"; AvailabilityZone := "eu-west-1a"; Arch := "x86_64";
  VCPUs := 2; MemMiB := 8192;
  NetworkBandwidthGbps := fdiv (float_of_Z 25) (float_of_Z 2); EnaSupport := true;
  MaxENIs := 3; Ipv4AddressesPerENI := 10; NvmeInstanceStore := false; BareMetal := false;
  Hypervisor := "nitro"; fDistro := mkDistro "ubuntu" EmptyString;
  fKernelVersion := EmptyString; Source := "ec2-api"; Warnings := []
|}%Z.


(** ** Properties *)

(** The size of the neighbour table: at least one entry, never less than the interfaces
    or the addresses alone, and the product exactly, without overflow, for every limit the
    EC2 API can report (its counters have 32 bits). *)
Theorem MaxNeighborEntries_bounds (f : Facts)
    (Henis : (MaxENIs f < 2 ^ 31)%Z) (Hips : (Ipv4AddressesPerENI f < 2 ^ 31)%Z) :
  (1 ≤ MaxNeighborEntries f)%Z ∧ (MaxENIs f ≤ MaxNeighborEntries f)%Z ∧
  (Ipv4AddressesPerENI f ≤ MaxNeighborEntries f)%Z ∧
  ((0 < MaxENIs f)%Z → (0 < Ipv4AddressesPerENI f)%Z →
     MaxNeighborEntries f = (MaxENIs f * Ipv4AddressesPerENI f)%Z).
Proof.
  unfold MaxNeighborEntries.
  destruct (MaxENIs f <=? 0)%Z eqn:H1, (Ipv4AddressesPerENI f <=? 0)%Z eqn:H2; bool_prop;
    rewrite wrap64_id by (unfold in_int64, min_int64, max_int64; apply andb_true_iff;
      split; apply Z.leb_le; nia); split_and!; nia.
Qed.

Example MaxNeighborEntries_bounds_witness : (1 ≤ MaxNeighborEntries demo_facts)%Z.
Proof. by apply MaxNeighborEntries_bounds. Defined.
