(* ===== verification/Cache.v ===== *)
(** * internal/facts: the cache ([cache.go])

    What is stored of an instance: the document that is written, what is read of one, and
    when it may be used. Documents, numbers and instants are those of [GoJSON], [GoJSONRead],
    [GoFloat] and [GoTime]; only the clock and the local time zone are parameters. *)

From Stdlib Require Import SpecFloat.
From S2P Require Import Prelude GoStrings GoPath GoOS Sysutil GoFmt GoFloat GoTime.
From S2P Require Import FloatRound FloatDecimal GoJSON GoJSONRead GoJSONDecode Facts.

Definition DefaultCachePath : string := "/var/lib/node-configurator/facts.json".

(** [CachedAt] in nanoseconds. *)
Record cacheEnvelope : Set := mkEnvelope { envFacts : Facts; CachedAt : Z }.

(** The clock, and the offset of the local time zone at an instant, in seconds. *)
Class Clock : Type := {
  now : World → Z;
  zone : Z → Z
}.

(** [time.Since], a [Duration] that saturates. *)
Definition since (t now : Z) : Z := (Z.max min_int64 (Z.min max_int64 (now - t)))%Z.

(** A JSON object with the struct's tags as its keys; an empty list of warnings is left
    out. *)
Definition distro_json (d : Distro) : json :=
  JObj [("ID", JStr (ID d)); ("VersionID", JStr (VersionID d))].

Definition facts_members (f : Facts) (gbps : json) : list (string * json) := [
    ("instanceId", JStr (InstanceID f));
    ("instanceType", JStr (InstanceType f));
    ("family", JStr (Family f));
    ("region", JStr (Region f));
    ("availabilityZone", JStr (AvailabilityZone f));
    ("arch", JStr (Arch f));
    ("vcpus", json_int (VCPUs f));
    ("memMiB", json_int (MemMiB f));
    ("networkBandwidthGbps", gbps);
    ("enaSupport", JBool (EnaSupport f));
    ("maxENIs", json_int (MaxENIs f));
    ("ipv4AddressesPerENI", json_int (Ipv4AddressesPerENI f));
    ("nvmeInstanceStore", JBool (NvmeInstanceStore f));
    ("bareMetal", JBool (BareMetal f));
    ("hypervisor", JStr (Hypervisor f));
    ("distro", distro_json (fDistro f));
    ("kernelVersion", JStr (fKernelVersion f));
    ("source", JStr (Source f))
  ] ++ (if nonempty (Warnings f) then [("warnings", JArr (JStr <$> Warnings f))] else []).

Definition facts_json (f : Facts) : result error json :=
  match json_float (NetworkBandwidthGbps f) with
  | Err err => Err err
  | Ok gbps => Ok (JObj (facts_members f gbps))
  end.

Definition marshal `{Clock} (env : cacheEnvelope) : result error string :=
  match facts_json (envFacts env), time_text (CachedAt env) (zone (CachedAt env)) with
  | Ok f, Ok t => Ok (MarshalIndent (JObj [("facts", f); ("cachedAt", JStr t)]))
  | Err err, _ => Err err
  | _, Err err => Err err
  end.

(** [json.Unmarshal]: the fields of the structs by their names. What is behind the end of
    the warnings is kept next to the facts. *)
Definition decode_distro : decoder Distro := decode_struct (λ l d,
  let names := ["ID"; "VersionID"] in
  id ← read_field names "ID" decode_string l (ID d);
  version ← read_field names "VersionID" decode_string l (VersionID d);
  Some (mkDistro id version)).

Definition facts_names : list string := [
  "instanceId"; "instanceType"; "family"; "region"; "availabilityZone"; "arch"; "vcpus";
  "memMiB"; "networkBandwidthGbps"; "enaSupport"; "maxENIs"; "ipv4AddressesPerENI";
  "nvmeInstanceStore"; "bareMetal"; "hypervisor"; "distro"; "kernelVersion"; "source";
  "warnings"].

Definition decode_facts : decoder (Facts * list string) := decode_struct (λ l st,
  let f := st.1 in
  let read {A} name (dec : decoder A) old := read_field facts_names name dec l old in
  instanceId ← read "instanceId" decode_string (InstanceID f);
  instanceType ← read "instanceType" decode_string (InstanceType f);
  family ← read "family" decode_string (Family f);
  region ← read "region" decode_string (Region f);
  availabilityZone ← read "availabilityZone" decode_string (AvailabilityZone f);
  arch ← read "arch" decode_string (Arch f);
  vcpus ← read "vcpus" decode_int (VCPUs f);
  memMiB ← read "memMiB" decode_int (MemMiB f);
  gbps ← read "networkBandwidthGbps" decode_float (NetworkBandwidthGbps f);
  ena ← read "enaSupport" decode_bool (EnaSupport f);
  enis ← read "maxENIs" decode_int (MaxENIs f);
  ips ← read "ipv4AddressesPerENI" decode_int (Ipv4AddressesPerENI f);
  nvme ← read "nvmeInstanceStore" decode_bool (NvmeInstanceStore f);
  metal ← read "bareMetal" decode_bool (BareMetal f);
  hypervisor ← read "hypervisor" decode_string (Hypervisor f);
  distro ← read "distro" decode_distro (fDistro f);
  kernel ← read "kernelVersion" decode_string (fKernelVersion f);
  source ← read "source" decode_string (Source f);
  warnings ← read "warnings" decode_strings (Warnings f, st.2);
  Some (mkFacts instanceId instanceType family region availabilityZone arch vcpus memMiB gbps
          ena enis ips nvme metal hypervisor distro kernel source warnings.1, warnings.2)).

Definition envelope_names : list string := ["facts"; "cachedAt"].

(** A document that is [null] leaves the envelope as it is: no facts, stored in the year 1. *)
Definition decode_envelope : decoder (Facts * list string * Z) := decode_struct (λ l st,
  f ← read_field envelope_names "facts" decode_facts l st.1;
  t ← read_field envelope_names "cachedAt" decode_time l st.2;
  Some (f, t)).

Definition zero_time : Z := ((days_of 1 1 1 - unix_epoch) * 86400 * nanos)%Z.

Definition unmarshal (data : string) : option cacheEnvelope :=
  j ← ParseJSON data;
  st ← decode_envelope j (no_facts, [], zero_time);
  Some (mkEnvelope st.1.1 st.2).

Section cache.
Context {HK : Kernel} {HT : Clock}.

Definition loadCache (e : Env) (path wantInstanceID : string) (ttl : Z) :
    M World (option Facts) :=
  data <- ReadFile (Path e [path]);;
  match data with
  | Err _ => ret None
  | Ok data =>
      match unmarshal data with
      | None => ret None
      | Some env =>
          if String.eqb wantInstanceID EmptyString
             || negb (String.eqb (InstanceID (envFacts env)) wantInstanceID)
          then ret None
          else
            t <- gets now;;
            if (0 <? ttl)%Z && (ttl <? since (CachedAt env) t)%Z then ret None
            else ret (Some (envFacts env))
      end
  end.

Definition saveCache (e : Env) (path : string) (f : Facts) : IO () :=
  t <- gets now;;
  match marshal (mkEnvelope f t) with
  | Err err => ret (Err err)
  | Ok data =>
      let full := Path e [path] in
      _ <-? MkdirAll (DirPath full);;
      WriteFile full data 420
  end.
End cache.

#[export] Instance cacheEnvelope_eq_dec : EqDecision cacheEnvelope.
Proof. solve_decision. Defined.

#[export] Instance loadCache_read_only {HT : Clock} e p i ttl : ReadOnly (loadCache e p i ttl).
Proof.
  unfold loadCache. apply bind_read_only; [apply _|]. intros [data|]; [|apply _].
  destruct (unmarshal data); apply _.
Qed.

Section saving.
Context {HK : Kernel} {HT : Clock}.

(** Whatever its outcome, saving changes at most the cache file and adds the directories
    on the way to it. *)
Lemma saveCache_other e p f w r w' :
  saveCache e p f w = (r, w') →
  host w' = host w ∧
  ∀ q, q ≠ Path e [p] → fs w' !! q = fs w !! q ∨
    (q ∈ way_to (Path e [p]) ∧ fs w !! q = None ∧ fs w' !! q = Some NDir).
Proof.
  unfold saveCache. rewrite bind_value by apply _.
  destruct (marshal _) as [data|err]; [|intros [= _ <-]; auto].
  rewrite bind_ok_run. destruct (MkdirAll _ w) as [rm w1] eqn:Hm.
  apply MkdirAll_way in Hm as [Hh Hdirs]. simpl.
  destruct rm; [|intros [= _ <-]; auto].
  intros [Hh' Ho]%WriteFile_other. split; [congruence|]. intros q Hq. rewrite Ho by done.
  apply Hdirs.
Qed.

(** After a save that succeeded, the file holds the document. *)
Lemma saveCache_ok e p f w w' :
  saveCache e p f w = (Ok (), w') → (∀ c, fs w !! Path e [p] ≠ Some (NKnob c)) →
  ∃ data mode, marshal (mkEnvelope f (now w)) = Ok data ∧
    fs w' !! Path e [p] = Some (NFile mode data).
Proof.
  unfold saveCache. rewrite bind_value by apply _. unfold value. simpl.
  destruct (marshal _) as [data|err]; [|done].
  intros ([] & w1 & Hm & Hw)%bind_ok_inv Hknob. apply MkdirAll_any in Hm as (_ & Hdirs & _).
  apply WriteFile_ok in Hw as (n & Hn & ->). exists data. unfold written in Hn. simpl.
  rewrite lookup_insert_eq. specialize (Hdirs (Path e [p])).
  destruct (fs w1 !! Path e [p]) as [[| |old]|] eqn:Hw1; [done|subst n; eauto| |subst n; eauto].
  exfalso. destruct Hdirs as [Hd|[_ Hd]]; [|done]. by eapply Hknob.
Qed.
End saving.

(** When the cache may be used. *)
Lemma loadCache_iff {HT : Clock}
    (e : Env) (path id : string) (ttl : Z)
    (w : World) (f : Facts) :
  value (loadCache e path id ttl) w = Some f ↔
  ∃ data stored, value (ReadFile (Path e [path])) w = Ok data ∧
    unmarshal data = Some (mkEnvelope f stored) ∧
    id ≠ EmptyString ∧ InstanceID f = id ∧ ((ttl ≤ 0)%Z ∨ (since stored (now w) ≤ ttl)%Z).
Proof.
  unfold loadCache. rewrite value_bind by apply _.
  destruct (value (ReadFile (Path e [path])) w) as [data|err];
    [|split; [done|by intros (? & ? & ? & _)]].
  destruct (unmarshal data) as [[f' stored]|] eqn:Hu; simpl;
    [|split; [done|intros (? & ? & [= <-] & ? & _); congruence]].
  destruct (String.eqb_spec id EmptyString) as [->|Hid]; simpl;
    [split; [done|by intros (? & ? & _ & _ & ? & _)]|].
  destruct (String.eqb_spec (InstanceID f') id) as [Hi|Hi]; simpl;
    [|split; [done|intros (? & ? & [= <-] & ? & _ & ? & _); congruence]].
  rewrite value_bind by apply _. unfold value. simpl.
  destruct (andb _ _) eqn:Ht; simpl; split.
  - done.
  - intros (? & ? & [= <-] & Hu' & _ & _ & Hage). rewrite Hu in Hu'. simplify_eq.
    bool_prop. lia.
  - intros [= <-]. exists data, stored. split_and!; try done.
    apply andb_false_iff in Ht as [Ht|Ht]; bool_prop; lia.
  - intros (? & ? & [= <-] & Hu' & _). rewrite Hu in Hu'. by simplify_eq.
Qed.

(** ** The document read back *)

(** Facts whose numbers are of the types of their fields: [int] and [int64], and a
    [float64] of at most 53 bits and an exponent in range. *)
Definition storable (f : Facts) : bool :=
  in_int64 (VCPUs f) && in_int64 (MemMiB f) && in_int64 (MaxENIs f)
  && in_int64 (Ipv4AddressesPerENI f)
  && is_float (NetworkBandwidthGbps f).

(** The decimal of such a bandwidth is found. *)
Lemma storable_found f :
  storable f = true →
  match NetworkBandwidthGbps f with S754_finite _ m e => decimal_found m e = true | _ => True end.
Proof.
  unfold storable. intros [_ Hs]%andb_true_iff. destruct (NetworkBandwidthGbps f); [done..|].
  by apply decimal_is_found.
Qed.

(** Facts that are read are of their types, whatever the document is. *)
Lemma decode_facts_storable j st st' :
  storable st.1 = true → decode_facts j st = Some st' → storable st'.1 = true.
Proof.
  unfold decode_facts, decode_struct, storable. intros Hs. destruct j; try done; [by intros [= <-]|].
  rewrite !andb_true_iff in *. intros H. repeat (apply bind_Some in H as (? & ? & H)).
  injection H as <-. simpl. destruct Hs as [[[[? ?] ?] ?] ?].
  split_and!;
    first
      [ eapply (read_field_inv (λ z, in_int64 z = true));
          [apply decode_int_range| |eassumption]
      | eapply (read_field_inv (λ x, is_float x = true));
          [apply decode_float_valid| |eassumption] ]; done.
Qed.

Lemma unmarshal_storable data env : unmarshal data = Some env → storable (envFacts env) = true.
Proof.
  assert (storable no_facts = true) as Hno by by vm_compute.
  unfold unmarshal. intros (j & _ & H)%bind_Some. apply bind_Some in H as (st & Hst & [= <-]).
  unfold decode_envelope, decode_struct in Hst. destruct j; try done; [by injection Hst as <-|].
  apply bind_Some in Hst as (f & Hf & Hst). apply bind_Some in Hst as (t & _ & [= <-]).
  refine (read_field_inv (λ st, storable st.1 = true) _ _ _ _ (no_facts, []) _
    decode_facts_storable Hno Hf).
Qed.

(** The facts with the invalid bytes of their texts replaced. *)
Definition clean_facts (f : Facts) : Facts :=
  mkFacts (clean (InstanceID f)) (clean (InstanceType f)) (clean (Family f)) (clean (Region f))
    (clean (AvailabilityZone f)) (clean (Arch f)) (VCPUs f) (MemMiB f) (NetworkBandwidthGbps f)
    (EnaSupport f) (MaxENIs f) (Ipv4AddressesPerENI f) (NvmeInstanceStore f) (BareMetal f)
    (clean (Hypervisor f)) (mkDistro (clean (ID (fDistro f))) (clean (VersionID (fDistro f))))
    (clean (fKernelVersion f)) (clean (Source f)) (clean <$> Warnings f).

Lemma decode_distro_text d old :
  decode_distro (raw (distro_json d)) old = Some (mkDistro (clean (ID d)) (clean (VersionID d))).
Proof.
  unfold decode_distro, decode_struct, distro_json. cbn [raw map]. cbv beta zeta.
  erewrite read_field_once by reflexivity. cbn [snd]. rewrite decode_string_text.
  cbn [mbind option_bind].
  erewrite read_field_once by reflexivity. cbn [snd]. by rewrite decode_string_text.
Qed.

Lemma decode_facts_text f gbps old :
  storable f = true → json_float (NetworkBandwidthGbps f) = Ok gbps →
  Warnings old = [] →
  decode_facts (raw (JObj (facts_members f gbps))) (old, []) = Some (clean_facts f, []).
Proof.
  intros Hs Hg Hold. pose proof (storable_found f Hs) as Hfound. unfold storable in Hs. bool_prop.
  assert (∀ x, decode_float gbps x = Some (NetworkBandwidthGbps f)) as Hfloat
    by (intros x; by eapply decode_float_text).
  assert (raw gbps = gbps) as Hraw.
  { destruct (NetworkBandwidthGbps f); simpl in Hg; try done; [by injection Hg as <-|].
    destruct (float_digits _ _). by injection Hg as <-. }
  assert (∀ z old, in_int64 z = true → decode_int (raw (json_int z)) old = Some z) as Hint
    by (intros; by apply decode_int_text).
  unfold clean_facts, facts_members.
  destruct (Warnings f) as [|x l] eqn:Hw; cbn [nonempty app fmap list_fmap];
    unfold decode_facts, decode_struct; cbn [raw map]; cbv beta zeta;
    repeat first
      [ (erewrite read_field_once by reflexivity; cbn [snd])
      | rewrite read_field_none by reflexivity ];
    rewrite ?Hraw, ?Hfloat, ?Hint, ?decode_string_text, ?decode_distro_text by done;
    cbn [mbind option_bind].
  - cbn [mbind option_bind fst snd decode_bool]. by rewrite Hold.
  - cbn [mbind option_bind fst snd decode_bool]. rewrite Hold.
    change (JStr (json_text x) :: map raw (JStr <$> l)) with (map raw (map JStr (x :: l))).
    rewrite map_map. cbn [raw]. by rewrite decode_strings_texts.
Qed.

Lemma facts_readable f gbps d :
  storable f = true → json_float (NetworkBandwidthGbps f) = Ok gbps → (3 <= d)%N →
  readable d (JObj (facts_members f gbps)) = true.
Proof.
  intros Hs%storable_found Hg Hd.
  assert (∀ d, readable d gbps = true) as Hnum.
  { intros d'. destruct (NetworkBandwidthGbps f) as [s|s| |s m e]; simpl in Hg; try done.
    - injection Hg as <-. by destruct s.
    - pose proof (json_float_reads (S754_finite s m e)) as H. simpl in H.
      destruct (float_digits m e). injection Hg as <-. by eapply H. }
  assert (∀ z d, readable d (json_int z) = true) as Hint by (intros; apply Itoa_number).
  assert ((0 <? d)%N = true ∧ (0 <? N.pred d)%N = true) as [Hd0 Hd1]
    by (split; apply N.ltb_lt; lia).
  unfold facts_members. cbn [readable]. rewrite forallb_app. cbn [forallb readable distro_json].
  rewrite Hd0, Hd1, Hnum, !Hint. simpl.
  destruct (Warnings f) as [|x l]; [done|]. cbn [nonempty forallb readable]. rewrite Hd1. simpl.
  rewrite andb_true_r. clear. by induction l.
Qed.

(** The document is that of an object that can be read. *)
Lemma marshal_document {HT : Clock} f t data :
  marshal (mkEnvelope f t) = Ok data → storable f = true →
  ∃ l, readable max_nesting (JObj l) = true ∧ MarshalIndent (JObj l) = data.
Proof.
  unfold marshal, facts_json. simpl envFacts. simpl CachedAt. intros Hm Hs.
  destruct (json_float (NetworkBandwidthGbps f)) as [gbps|] eqn:Hg; [|done].
  destruct (time_text t (zone t)) as [text|]; [|done]. injection Hm as <-.
  eexists. split; [|done].
  change (readable (N.pred max_nesting) (JObj (facts_members f gbps)) && true = true).
  by rewrite (facts_readable f gbps).
Qed.

(** What was written is read back, to the nanosecond, whatever the time zone. *)
Lemma unmarshal_marshal {HT : Clock} f t data :
  marshal (mkEnvelope f t) = Ok data → storable f = true → (zone t mod 60 = 0)%Z →
  unmarshal data = Some (mkEnvelope (clean_facts f) t).
Proof.
  unfold marshal, facts_json. simpl envFacts. simpl CachedAt. intros Hm Hs Hz.
  destruct (json_float (NetworkBandwidthGbps f)) as [gbps|] eqn:Hg; [|done].
  destruct (time_text t (zone t)) as [text|] eqn:Ht; [|done]. injection Hm as <-.
  unfold unmarshal. rewrite ParseJSON_MarshalIndent.
  2:{ change (readable (N.pred max_nesting) (JObj (facts_members f gbps)) && true = true).
      by rewrite (facts_readable f gbps). }
  remember (JObj (facts_members f gbps)) as fj eqn:Hfj. cbn [raw map mbind option_bind].
  unfold decode_envelope, decode_struct. cbv beta zeta.
  do 2 (erewrite read_field_once by reflexivity; cbn [snd fst]). subst fj.
  rewrite decode_facts_text, (decode_time_text _ _ _ _ Ht Hz) by done. done.
Qed.

(** ** Properties *)

(** C22: the cache holds what was put into it. After facts were saved, and as long as the
    file is left alone, loading gives them back exactly for their own instance (an empty
    instance id is none) and, with a positive time to live, until they are older than that;
    in every other case it gives nothing. Only bytes that are not UTF-8 are replaced. The
    numbers are any of the types of their fields, the bandwidth to its last bit, and the local
    time zone is off by whole minutes. *)
Theorem saved_facts_load {HK : Kernel} {HT : Clock} (e : Env) (path id : string) (ttl : Z)
    (f : Facts) (w w1 w2 : World) :
  saveCache e path f w = (Ok (), w1) → (∀ c, fs w !! Path e [path] ≠ Some (NKnob c)) →
  storable f = true → (zone (now w) mod 60 = 0)%Z →
  fs w2 !! Path e [path] = fs w1 !! Path e [path] →
  value (loadCache e path id ttl) w2 =
    if bool_decide (id ≠ EmptyString ∧ id = clean (InstanceID f) ∧
                    ((ttl ≤ 0)%Z ∨ (since (now w) (now w2) ≤ ttl)%Z))
    then Some (clean_facts f) else None.
Proof.
  intros Hsave Hreg Hs Hz Hkept.
  destruct (saveCache_ok _ _ _ _ _ Hsave Hreg) as (data & mode & Hdata & Hnode).
  pose proof (unmarshal_marshal _ _ _ Hdata Hs Hz) as Hread. rewrite Hnode in Hkept.
  assert (value (ReadFile (Path e [path])) w2 = Ok data) as Hfile
    by (unfold value, ReadFile, read_node; simpl; by rewrite Hkept).
  destruct (value (loadCache e path id ttl) w2) as [f'|] eqn:Hload.
  - apply loadCache_iff in Hload as (d & stored & Hd & Hu & Hid & Heq & Hage).
    rewrite Hfile in Hd. injection Hd as <-. rewrite Hread in Hu. injection Hu as <- <-.
    rewrite bool_decide_true; auto.
  - rewrite bool_decide_false; [done|]. intros (Hid & Heq & Hage).
    assert (value (loadCache e path id ttl) w2 = Some (clean_facts f)) as H; [|congruence].
    apply loadCache_iff. by exists data, (now w).
Qed.

(** A clock that stands still, an hour east of Greenwich. *)
Definition demo_clock : Clock := {|
  now := λ _, 1767225600123456789%Z;
  zone := λ _, 3600%Z
|}.

Definition demo_envelope : cacheEnvelope := mkEnvelope demo_facts 1767225600123456789.

Definition demo_world : World := mkWorld (list_to_map [("/", NDir); ("/etc", NDir);
  ("/etc/os-release", NFile 420 ("ID=ubuntu" +:+ nls)); ("/var", NDir)]) ∅.

Example saved_facts_load_witness :
  let w1 := (saveCache (HK:=plain_kernel) (HT:=demo_clock) New DefaultCachePath demo_facts
               demo_world).2 in
  value (loadCache (HT:=demo_clock) New DefaultCachePath "i-0abc" 1) w1 = Some demo_facts.
Proof.
  intros w1.
  apply (saved_facts_load (HK:=plain_kernel) (HT:=demo_clock) New DefaultCachePath "i-0abc" 1
    demo_facts demo_world w1 w1).
  - apply run_ok. by vm_compute.
  - intros c. by vm_compute.
  - by vm_compute.
  - done.
  - done.
Defined.
