(* ===== verification/Gather.v ===== *)
(** * internal/facts: gathering ([facts.go])

    The facts of this host and instance, from the identity document, the cache and the EC2
    API, with what is done when one of them cannot be had. *)

From S2P Require Import Prelude GoStrings GoPath GoOS Sysutil GoFmt GoFloat FloatRound FloatDecimal GoTime.
From S2P Require Import Facts Cache.

(** ** Gatherer *)

Record Gatherer : Set := mkGatherer {
  gEnv : option Env;
  CachePath : string;
  CacheTTL : Z;
  Refresh : bool
}.

Definition genv (g : Gatherer) : Env := default New (gEnv g).

Definition cachePath (g : Gatherer) : string :=
  if String.eqb (CachePath g) EmptyString then DefaultCachePath else CachePath g.

Section gatherer.
Context {HK : Kernel} {HT : Clock} {HC : Cloud} {HP : Platform}.

(** [kernel, _ := env.KernelVersion()]: on an error the version is empty. *)
Definition host_facts (e : Env) : M World (Distro * string) :=
  d <- DetectDistro e;;
  k <- KernelVersion e;;
  ret (d.1, match k with Ok k => k | Err _ => EmptyString end).

Definition from_api (g : Gatherer) (ident : Facts) (distro : Distro) (kernel : string) :
    IO Facts :=
  enrichment <- gatherInstanceTypeInfo (Region ident) (InstanceType ident);;
  match enrichment with
  | Err err =>
      local <- LocalFallback (genv g);;
      ret (Ok (with_warning (with_host (with_local ident local) distro kernel)
        ("EC2 DescribeInstanceTypes unavailable, family-specific tuning is approximate (check ec2:DescribeInstanceTypes IAM permission): "
           +:+ Error err)))
  | Ok enrichment =>
      let f := with_host (with_enrichment ident enrichment) distro kernel in
      saved <- saveCache (genv g) (cachePath g) f;;
      ret (Ok (match saved with
               | Ok _ => f
               | Err err => with_warning f ("caching facts: " +:+ Error err)
               end))
  end.

Definition Gather (g : Gatherer) : IO Facts :=
  h <- host_facts (genv g);;
  let '(distro, kernel) := h in
  ident <- gatherIdentity;;
  match ident with
  | Err err =>
      f <- LocalFallback (genv g);;
      ret (Ok (with_warning (with_host f distro kernel)
        ("IMDS unavailable, using local-only facts: " +:+ Error err)))
  | Ok ident =>
      let ident := with_family ident (familyFromInstanceType (InstanceType ident)) in
      if negb (Refresh g) then
        cached <- loadCache (genv g) (cachePath g) (InstanceID ident) (CacheTTL g);;
        match cached with
        | Some cached => ret (Ok (with_host cached distro kernel))
        | None => from_api g ident distro kernel
        end
      else from_api g ident distro kernel
  end.
End gatherer.

#[export] Instance host_facts_read_only e : ReadOnly (host_facts e).
Proof. unfold host_facts. apply _. Qed.

Section gather.
Context {HK : Kernel} {HT : Clock} {HC : Cloud} {HP : Platform}.

(** The file the cache is in. *)
Definition cache_file (g : Gatherer) : string := Path (genv g) [cachePath g].

(** What the cache holds for an instance, if it may be used. *)
Definition cached (g : Gatherer) (id : string) (w : World) : option Facts :=
  if Refresh g then None else value (loadCache (genv g) (cachePath g) id (CacheTTL g)) w.

(** The facts of the identity document. *)
Definition identified (w : World) : result error Facts :=
  match value gatherIdentity w with
  | Ok f => Ok (with_family f (familyFromInstanceType (InstanceType f)))
  | Err e => Err e
  end.

Lemma Gather_run g w :
  let h := value (host_facts (genv g)) w in
  Gather g w =
  match identified w with
  | Err err =>
      (Ok (with_warning (with_host (value (LocalFallback (genv g)) w) h.1 h.2)
             ("IMDS unavailable, using local-only facts: " +:+ Error err)), w)
  | Ok f =>
      match cached g (InstanceID f) w with
      | Some c => (Ok (with_host c h.1 h.2), w)
      | None => from_api g f h.1 h.2 w
      end
  end.
Proof.
  unfold Gather, identified, cached. rewrite bind_value by apply _.
  destruct (value (host_facts (genv g)) w) as [d k]. rewrite bind_value by apply _.
  destruct (value gatherIdentity w) as [f|err].
  - destruct (Refresh g); simpl; [done|]. rewrite bind_value by apply _.
    by destruct (value (loadCache _ _ _ _) w).
  - by rewrite bind_value by apply _.
Qed.

Lemma from_api_run g f d k w :
  from_api g f d k w =
  match value (gatherInstanceTypeInfo (Region f) (InstanceType f)) w with
  | Err err =>
      (Ok (with_warning (with_host (with_local f (value (LocalFallback (genv g)) w)) d k)
        ("EC2 DescribeInstanceTypes unavailable, family-specific tuning is approximate (check ec2:DescribeInstanceTypes IAM permission): "
           +:+ Error err)), w)
  | Ok e =>
      let f' := with_host (with_enrichment f e) d k in
      let saved := saveCache (genv g) (cachePath g) f' w in
      (Ok (match saved.1 with
           | Ok _ => f'
           | Err err => with_warning f' ("caching facts: " +:+ Error err)
           end), saved.2)
  end.
Proof.
  unfold from_api. rewrite bind_value by apply _.
  destruct (value (gatherInstanceTypeInfo _ _) w) as [e|err].
  - by rewrite bind_run.
  - by rewrite bind_value by apply _.
Qed.

Lemma identified_no_warnings w i : identified w = Ok i → Warnings i = [].
Proof.
  unfold identified, gatherIdentity. rewrite value_bind_ok by apply _.
  destruct (value fetchIdentityDocument w); [|done]. by intros [= <-].
Qed.

Lemma warned f msg : Warnings (with_warning f msg) ≠ [].
Proof. simpl. by destruct (Warnings f). Qed.

(** Gathering never fails, and its only effect is the cache file. *)
Lemma Gather_effect g w r w' :
  Gather g w = (r, w') →
  (∃ f, r = Ok f) ∧ host w' = host w ∧
  ∀ q, q ≠ cache_file g → fs w' !! q = fs w !! q ∨
    (q ∈ way_to (cache_file g) ∧ fs w !! q = None ∧ fs w' !! q = Some NDir).
Proof.
  rewrite Gather_run. simpl. destruct (identified w) as [f|err]; [|intros [= <- <-]; eauto].
  destruct (cached g (InstanceID f) w); [intros [= <- <-]; eauto|].
  rewrite from_api_run. destruct (value (gatherInstanceTypeInfo _ _) w) as [e|err];
    [|intros [= <- <-]; eauto].
  intros [= <- <-]. split; [eauto|].
  by eapply saveCache_other, surjective_pairing.
Qed.
End gather.

(** ** Gathered facts are of their types

    The machine and the SDK hand the program values of Go's types; what it makes of them,
    and what it reads from the cache file, is of the types of the fields again. *)

Definition typed (v : option Z) : bool := match v with Some z => in_int64 z | None => true end.

Definition info_typed (info : InstanceTypeInfo) : bool :=
  typed (mjoin (VCpuInfo info)) && typed (mjoin (MemoryInfo info))
  && match infoNetworkInfo info with
     | Some ni =>
         typed (MaximumNetworkInterfaces ni) && typed (Ipv4AddressesPerInterface ni)
         && forallb (from_option is_float true) (NetworkCards ni)
     | None => true
     end.

Definition cloud_typed (HC : Cloud) : Prop :=
  ∀ cfg t w infos, DescribeInstanceTypes cfg t w = Ok infos → forallb info_typed infos = true.

Lemma typed_set v old : typed v = true → in_int64 old = true → in_int64 (set_from v old) = true.
Proof. by destruct v. Qed.

Lemma bandwidth_valid ni :
  forallb (from_option is_float true) (NetworkCards ni) = true →
  is_float (bandwidthFromNetworkInfo ni) = true.
Proof.
  unfold bandwidthFromNetworkInfo, parseNetworkPerformanceGbps.
  destruct (NetworkCards ni) as [|[x|] l]; simpl; [|by intros [? _]%andb_true_iff|];
    intros _; (destruct (NetworkPerformance ni) as [s|]; [|done]; case_bool; [done|];
    destruct (ParseDecimal _) eqn:Hp; [by apply ParseDecimal_valid in Hp|done]).
Qed.

Lemma applyInstanceTypeInfo_storable f info :
  storable f = true → info_typed info = true → storable (applyInstanceTypeInfo f info) = true.
Proof.
  unfold storable, info_typed. rewrite !andb_true_iff. simpl.
  intros [[[[? ?] ?] ?] ?] [[Hv Hm] Hn].
  destruct (infoNetworkInfo info) as [ni|]; simpl; [|by split_and!; try apply typed_set].
  rewrite !andb_true_iff in Hn. destruct Hn as [[? ?] ?].
  split_and!; by first [apply typed_set|apply bandwidth_valid].
Qed.

Lemma meminfo_total_range lines err z : meminfo_total lines err = Ok z → in_int64 z = true.
Proof.
  induction lines as [|line lines IH]; simpl; [destruct err; [done|by intros [= <-]]|].
  destruct (Fields line) as [|f0 [|f1 l]]; [done..|]. case_bool; [|done].
  destruct (Atoi f1) eqn:Ha; [|done]. intros [= <-]. by eapply Atoi_range.
Qed.

Lemma primaryLinkSpeed_valid e w : is_float (value (primaryLinkSpeedGbps e) w) = true.
Proof.
  unfold primaryLinkSpeedGbps. rewrite value_bind by apply _. case_bool; [done|].
  rewrite value_bind, value_ret by apply _. destruct (value (ReadFile _) w) as [data|]; [|done].
  destruct (Atoi _); [|done]. case_bool; [done|]. bool_prop.
  apply fdiv_valid; apply float_of_Z_unsigned; lia.
Qed.

Section typed.
Context {HK : Kernel} {HT : Clock} {HC : Cloud} {HP : Platform}.
Context (Hcpu : in_int64 NumCPU = true) (Hcloud : cloud_typed HC).

Lemma LocalFallback_storable e w : storable (value (LocalFallback e) w) = true.
Proof using Hcpu.
  unfold LocalFallback. rewrite !value_bind, value_ret by apply _. unfold storable. simpl.
  rewrite Hcpu, primaryLinkSpeed_valid. simpl.
  rewrite !andb_true_r. unfold ParseMemInfoTotalKiB. rewrite value_bind_ok by apply _.
  destruct (value (OpenLines _) w) as [[lines err]|]; [|done]. rewrite value_ret. simpl.
  destruct (meminfo_total lines err) as [z|] eqn:Hz; [|done].
  apply meminfo_total_range in Hz. unfold in_int64, min_int64, max_int64 in *.
  rewrite andb_true_iff in *. bool_prop. split; bool_prop; Z.to_euclidean_division_equations; lia.
Qed.

Lemma gatherInstanceTypeInfo_storable r t w f :
  value (gatherInstanceTypeInfo r t) w = Ok f → storable f = true.
Proof using Hcloud.
  unfold gatherInstanceTypeInfo, fetchInstanceTypeInfo.
  rewrite value_bind_ok, value_map_err by apply _. unfold value at 1. simpl.
  destruct (LoadDefaultConfig r w) as [cfg|]; [|done]. simpl.
  rewrite !value_bind_ok, value_map_err by apply _. unfold value at 1. simpl.
  destruct (DescribeInstanceTypes cfg t w) as [[|info l]|] eqn:Hd; [done| |done].
  apply Hcloud in Hd. simpl in Hd. apply andb_true_iff in Hd as [Hi _]. intros [= <-].
  by apply applyInstanceTypeInfo_storable.
Qed.

Lemma Gather_storable g w f w' : Gather g w = (Ok f, w') → storable f = true.
Proof using Hcpu Hcloud.
  rewrite Gather_run. cbv zeta. destruct (value (host_facts (genv g)) w) as [d k].
  destruct (identified w) as [i|err] eqn:Hi.
  - assert (storable i = true) as Hs.
    { unfold identified, gatherIdentity in Hi. rewrite value_bind_ok in Hi by apply _.
      destruct (value fetchIdentityDocument w); [|done]. by injection Hi as <-. }
    destruct (cached g (InstanceID i) w) as [c|] eqn:Hc.
    + intros [= <- _]. unfold cached in Hc. destruct (Refresh g); [done|].
      apply loadCache_iff in Hc as (data & t & _ & Hu & _). by apply unmarshal_storable in Hu.
    + rewrite from_api_run. destruct (value (gatherInstanceTypeInfo _ _) w) as [e|err] eqn:He.
      * apply gatherInstanceTypeInfo_storable in He. cbv zeta. intros [= <- _]. by case_match.
      * intros [= <- _]. pose proof (LocalFallback_storable (genv g) w) as Hl.
        unfold storable in *. simpl. rewrite !andb_true_iff in *. tauto.
  - intros [= <- _]. apply LocalFallback_storable.
Qed.
End typed.

(** The texts of the facts that are not of this boot are UTF-8. *)
Definition texts_valid (f : Facts) : bool :=
  forallb valid_utf8 [InstanceID f; InstanceType f; Family f; Region f; AvailabilityZone f;
    Arch f; Hypervisor f; Source f] && negb (nonempty (Warnings f)).

Lemma clean_facts_valid f : texts_valid f = true →
  InstanceID (clean_facts f) = InstanceID f ∧
  ∀ d k, with_host (clean_facts f) d k = with_host f d k.
Proof.
  unfold texts_valid. cbn [forallb]. intros H. bool_prop. unfold valid_utf8 in *.
  repeat match goal with
  | H : String.eqb (clean _) _ = true |- _ => apply String.eqb_eq in H
  end.
  split; [done|]. intros d k. destruct f as [? ? ? ? ? ? ? ? ? ? ? ? ? ? ? ? ? ? l].
  simpl in *. unfold clean_facts, with_host. simpl. 
  repeat match goal with H : clean _ = _ |- _ => rewrite H end. by destruct l.
Qed.

Section kept.
Context {HK : Kernel} {HT : Clock} {HP : Platform} {HC : Cloud}.

(** When the document of the cache file was written. *)
Definition cached_at (g : Gatherer) (w : World) : Z :=
  match value (ReadFile (cache_file g)) w with
  | Ok data => match unmarshal data with Some d => CachedAt d | None => now w end
  | Err _ => now w
  end.

(** When the facts that a run returns were gathered: now, unless they are the cache's. *)
Definition gathered_at (g : Gatherer) (w : World) : Z :=
  match identified w with
  | Ok i => if cached g (InstanceID i) w then cached_at g w else now w
  | Err _ => now w
  end.

(** Facts that the API gave without a warning are in the cache file. *)
Lemma Gather_saved g i w f w1 :
  Gather g w = (Ok f, w1) → identified w = Ok i → cached g (InstanceID i) w = None →
  Warnings f = [] → (∀ c, fs w !! cache_file g ≠ Some (NKnob c)) →
  ∃ data mode, marshal (mkEnvelope f (now w)) = Ok data ∧
    fs w1 !! cache_file g = Some (NFile mode data).
Proof.
  intros Hrun Hi Hmiss Hsaved Hreg.
  rewrite Gather_run, Hi in Hrun. cbv zeta in Hrun. rewrite Hmiss, from_api_run in Hrun.
  destruct (value (gatherInstanceTypeInfo _ _) w) as [en|err];
    [|injection Hrun as <- _; by apply warned in Hsaved].
  cbv zeta in Hrun. set (fa := with_host _ _ _) in Hrun.
  destruct (saveCache (genv g) (cachePath g) fa w) as [[[]|err] w1'] eqn:Hs;
    simpl in Hrun; [|injection Hrun as <- _; by apply warned in Hsaved].
  injection Hrun as <- <-. by apply saveCache_ok in Hs.
Qed.

(** Facts gathered without a warning, from the API or from the cache, are in the cache file
    afterwards, with the time they were gathered at. *)
Lemma Gather_kept g w f w1 :
  Gather g w = (Ok f, w1) → Warnings f = [] → (∀ c, fs w !! cache_file g ≠ Some (NKnob c)) →
  in_int64 NumCPU = true → cloud_typed HC → texts_valid f = true → (zone (now w) mod 60 = 0)%Z →
  ∃ data c, value (ReadFile (cache_file g)) w1 = Ok data ∧
    unmarshal data = Some (mkEnvelope c (gathered_at g w)) ∧ InstanceID c = InstanceID f ∧
    ∀ d k, with_host c d k = with_host f d k.
Proof.
  intros Hrun Hsaved Hreg Hcpu Hcloud Htexts Hzone. unfold gathered_at.
  destruct (identified w) as [i|err] eqn:Hi.
  2: { rewrite Gather_run, Hi in Hrun. injection Hrun as <- _. by apply warned in Hsaved. }
  destruct (cached g (InstanceID i) w) as [c|] eqn:Hc.
  - rewrite Gather_run, Hi in Hrun. cbv zeta in Hrun. rewrite Hc in Hrun.
    injection Hrun as <- <-. unfold cached in Hc. destruct (Refresh g); [done|].
    apply loadCache_iff in Hc as (data & t & Hd & Hu & _).
    exists data, c. unfold cached_at. unfold cache_file. by rewrite Hd, Hu.
  - destruct (Gather_saved g i w f w1) as (data & mode & Hdata & Hnode); [done..|].
    destruct (clean_facts_valid f Htexts) as [Hid Hclean].
    exists data, (clean_facts f). split_and!; [| |done..].
    + unfold value, ReadFile, read_node. simpl. by rewrite Hnode.
    + apply unmarshal_marshal; [done| |done]. by eapply Gather_storable.
Qed.
End kept.

(** ** Clouds for the witnesses *)

Definition demo_doc : InstanceIdentityDocument :=
  mkDoc "i-0abc" "m6i.large" "eu-west-1" "eu-west-1a" "x86_64".

Definition demo_info : InstanceTypeInfo := mkInfo (Some (Some 2%Z))
  (Some (Some 8192%Z)) (Some false) "nitro" None
  (Some (mkNetworkInfo "required" (Some 3%Z) (Some 10%Z) [] (Some "Up to 12.5 Gigabit"))).

Definition demo_cloud : Cloud := {|
  AwsConfig := string;
  GetInstanceIdentityDocument := λ _, Ok demo_doc;
  LoadDefaultConfig := λ region _, Ok region;
  DescribeInstanceTypes := λ _ _ _, Ok [demo_info]
|}.

(** The same instance while EC2 cannot be reached. *)
Definition offline_cloud : Cloud := {|
  AwsConfig := string;
  GetInstanceIdentityDocument := λ _, Ok demo_doc;
  LoadDefaultConfig := λ region _, Ok region;
  DescribeInstanceTypes := λ _ _ _, Err (TextError "timeout")
|}.

Definition demo_gatherer (refresh : bool) : Gatherer := mkGatherer None EmptyString 0 refresh.

(** ** Properties *)

(** C21: facts that were gathered without a warning are kept, whether the run that gathered
    them refreshed, found no cache or took them from one: every later run on the same
    instance that does not refresh, within the time to live since the API gave them, gets
    the same facts back, whether the API can be reached or not, with the distribution and the
    kernel of its own boot, and changes nothing. The texts of the identity document and of
    the description are UTF-8, what the SDK and the machine report are values of Go's types,
    and the local time zone is off by whole minutes. *)
Theorem Gather_uses_cache {HK : Kernel} {HT : Clock} {HP : Platform}
    (HC HC' : Cloud) (g g' : Gatherer) (w w1 w2 : World) (f f' : Facts)
    (Hregular : ∀ c, fs w !! cache_file g ≠ Some (NKnob c))
    (Hrun : Gather (HC:=HC) g w = (Ok f, w1))
    (Hsaved : Warnings f = [])
    (Hcpu : in_int64 NumCPU = true) (Hcloud : cloud_typed HC) (Htexts : texts_valid f = true)
    (Hzone : (zone (now w) mod 60 = 0)%Z)
    (Hfile : cache_file g' = cache_file g) (Huse : Refresh g' = false)
    (Hkept : fs w2 !! cache_file g' = fs w1 !! cache_file g)
    (Hid : identified (HC:=HC') w2 = Ok f') (Hsame : InstanceID f' = InstanceID f)
    (Hknown : InstanceID f ≠ EmptyString)
    (Hage : (CacheTTL g' ≤ 0)%Z ∨
            (since (gathered_at (HC:=HC) g w) (now w2) ≤ CacheTTL g')%Z) :
  let h := value (host_facts (genv g')) w2 in
  Gather (HC:=HC') g' w2 = (Ok (with_host f h.1 h.2), w2).
Proof.
  destruct (Gather_kept (HC:=HC) g w f w1) as (data & c & Hd & Hu & Hidc & Hc); [done..|].
  rewrite Gather_run, Hid, Hsame. cbv zeta.
  assert (cached g' (InstanceID f) w2 = Some c) as ->; [|by rewrite Hc].
  unfold cached. rewrite Huse. apply loadCache_iff. exists data, (gathered_at (HC:=HC) g w).
  split_and!; [|done..]. change (value (ReadFile (cache_file g')) w2 = Ok data).
  rewrite Hfile in *. by eapply ReadFile_same.
Qed.

(** The first run finds no cache. *)
Example Gather_uses_cache_witness :
  let w1 := (Gather (HK:=plain_kernel) (HT:=demo_clock)
               (HP:=demo_platform) (HC:=demo_cloud) (demo_gatherer false) demo_world).2 in
  Gather (HK:=plain_kernel) (HT:=demo_clock) (HP:=demo_platform)
    (HC:=offline_cloud) (demo_gatherer false) w1 = (Ok demo_facts, w1).
Proof.
  intros w1.
  apply (Gather_uses_cache (HK:=plain_kernel) (HT:=demo_clock)
    (HP:=demo_platform) demo_cloud offline_cloud (demo_gatherer false) (demo_gatherer false)
    demo_world w1 w1 demo_facts
    (match identified (HC:=offline_cloud) w1 with Ok f => f | Err _ => no_facts end)).
  - intros c. by vm_compute.
  - apply injective_projections; [by vm_compute|done].
  - done.
  - done.
  - by intros cfg t w infos [= <-].
  - by vm_compute.
  - done.
  - done.
  - done.
  - done.
  - by vm_compute.
  - by vm_compute.
  - done.
  - by left.
Defined.

(** C20: gathering never fails: with no identity document it observes the host, with no
    description of the instance type it keeps the identity and observes the rest. Facts
    degraded so are never stored, they carry one warning that names the error, and the
    distribution and the kernel are always those of this boot. *)
Theorem Gather_degrades {HK : Kernel} {HT : Clock} {HC : Cloud} {HP : Platform}
    (g : Gatherer) (w : World) :
  let h := value (host_facts (genv g)) w in
  let local := value (LocalFallback (genv g)) w in
  ∃ f w', Gather g w = (Ok f, w') ∧ fDistro f = h.1 ∧ fKernelVersion f = h.2 ∧
    (∀ i c, identified w = Ok i → cached g (InstanceID i) w = Some c →
       w' = w ∧ f = with_host c h.1 h.2) ∧
    (∀ i e, identified w = Ok i → cached g (InstanceID i) w = None →
       value (gatherInstanceTypeInfo (Region i) (InstanceType i)) w = Ok e →
       Source f = "ec2-api" ∧ InstanceID f = InstanceID i ∧ VCPUs f = VCPUs e ∧
       MemMiB f = MemMiB e ∧ MaxNeighborEntries f = MaxNeighborEntries e) ∧
    (∀ err, identified w = Err err →
       w' = w ∧ Source f = "local-fallback" ∧ InstanceID f = EmptyString ∧
       VCPUs f = NumCPU ∧ MemMiB f = MemMiB local ∧
       Warnings f = ["IMDS unavailable, using local-only facts: " +:+ Error err]) ∧
    (∀ i err, identified w = Ok i → cached g (InstanceID i) w = None →
       value (gatherInstanceTypeInfo (Region i) (InstanceType i)) w = Err err →
       w' = w ∧ Source f = "local-fallback" ∧ InstanceID f = InstanceID i ∧
       InstanceType f = InstanceType i ∧ VCPUs f = NumCPU ∧ MemMiB f = MemMiB local ∧
       length (Warnings f) = 1%nat).
Proof.
  intros h local. rewrite Gather_run. fold h. fold local.
  destruct (identified w) as [i|err] eqn:Hi.
  - destruct (cached g (InstanceID i) w) as [c|] eqn:Hc.
    + do 2 eexists. split_and!; try done; intros; by simplify_eq.
    + rewrite from_api_run. fold local.
      destruct (value (gatherInstanceTypeInfo _ _) w) as [e|err] eqn:He; do 2 eexists;
        (split; [done|]); cbv zeta; split_and!; try done; try (by case_match);
        intros; simplify_eq; rewrite He in *; simplify_eq.
      * by case_match.
      * split_and!; try done; try (by unfold local, LocalFallback; rewrite !value_bind by apply _).
        simpl. by erewrite identified_no_warnings.
  - do 2 eexists. split; [done|]. split_and!; try done. intros err' [= <-].
    unfold local, LocalFallback. rewrite !value_bind by apply _. by split_and!.
Qed.
