(* ===== verification/Crash.v ===== *)
(** * Between the system calls

    The operations that write files, as the sequences of calls they are: the program may be
    stopped between two of them, or in the middle of one that writes data. Each sequence, run
    to its end, is the operation of the other files. What a stop leaves behind is what the
    calls that were made have done; the calls that follow are not made, the deferred ones
    neither.

    A call is one of the [os] package. [os.CreateTemp] and [os.WriteFile] are several system
    calls each, but no other hosts are to be seen between those: an exclusive open that finds
    its name taken changes nothing, so that of the tries of [CreateTemp] only the last one
    shows; [WriteFile] first empties the file and then fills it, and the empty file is among
    the starts of the content that [torn] gives. *)

From stdpp Require Import relations.
From S2P Require Import Prelude GoStrings GoPath GoOS Sysutil GoFmt GoFloat GoTime.
From S2P Require Import GoJSON GoJSONRead GoJSONDecode Facts Cache.

(** ** Calls and sequences of calls *)

Section crash.
Context {HK : Kernel}.

(** A call, with the type of its result. *)
Inductive call : Type → Type :=
| CRead (path : string) : call (result error string)
| CStat (path : string) : call (result error ())
| CMkdir (path : string) : call (result error ())
| CCreateTemp (dir prefix : string) : call (result error string)
| CWrite (path data : string) : call (result error ())
| CChmod (path : string) (mode : Z) : call (result error ())
| CClose (path : string) : call (result error ())
| CRename (old new : string) : call (result error ())
| CRemove (path : string) : call (result error ())
| CWriteFile (path data : string) (perm : Z) : call (result error ()).

Definition do_call {A} (c : call A) : M World A :=
  match c with
  | CRead path => ReadFile path
  | CStat path => Stat path
  | CMkdir path => Mkdir1 path
  | CCreateTemp dir prefix => CreateTemp dir prefix
  | CWrite path data => FileWrite path data
  | CChmod path mode => FileChmod path mode
  | CClose path => FileClose path
  | CRename old new => Rename old new
  | CRemove path => Remove path
  | CWriteFile path data perm => WriteFile path data perm
  end.

(** The mode that a regular file has while [os.WriteFile] fills it, if there can be one. *)
Definition written_mode (path : string) (perm : Z) (w : World) : option Z :=
  match fs w !! path with
  | Some (NFile mode _) => Some mode
  | None => if is_ok (value (creatable path) w) then Some perm else None
  | _ => None
  end.

(** The hosts that a stop in the middle of a call may leave: some of the data is there. *)
Definition torn {A} (c : call A) (w w' : World) : Prop :=
  match c with
  | CWrite path data =>
      ∃ part rest, data = part +:+ rest ∧ w' = set_fs (insert path (NFile 384 part)) w
  | CWriteFile path data perm =>
      ∃ mode part rest, written_mode path perm w = Some mode ∧ data = part +:+ rest ∧
        w' = set_fs (insert path (NFile mode part)) w
  | _ => False
  end.

Inductive prog (A : Type) : Type :=
| Done (a : A)
| Call {B : Type} (c : call B) (k : B → prog A).
Arguments Done {A} a.
Arguments Call {A B} c k.

Fixpoint pbind {A B} (p : prog A) (f : A → prog B) : prog B :=
  match p with
  | Done a => f a
  | Call c k => Call c (λ b, pbind (k b) f)
  end.

(** All the calls, one after the other. *)
Fixpoint perform {A} (p : prog A) : M World A :=
  match p with
  | Done a => ret a
  | Call c k => b <- do_call c;; perform (k b)
  end.

Lemma perform_call {A B} (c : call B) (k : B → prog A) w :
  perform (Call c k) w = perform (k (do_call c w).1) (do_call c w).2.
Proof. simpl. by rewrite bind_run. Qed.

Lemma perform_bind {A B} (p : prog A) (f : A → prog B) w :
  perform (pbind p f) w = perform (f (perform p w).1) (perform p w).2.
Proof.
  revert w. induction p as [a|B' c k IH]; intros w; [done|].
  cbn [pbind]. rewrite !perform_call. apply IH.
Qed.

(** ** Steps *)

Inductive state (A : Type) : Type :=
| Running (p : prog A) (w : World)
| Stopped (w : World).
Arguments Running {A} p w.
Arguments Stopped {A} w.

Definition at_world {A} (s : state A) : World :=
  match s with Running _ w => w | Stopped w => w end.

Inductive step {A} : state A → state A → Prop :=
| step_call {B} (c : call B) k w :
    step (Running (Call c k) w) (Running (k (do_call c w).1) (do_call c w).2)
| step_stop p w : step (Running p w) (Stopped w)
| step_torn {B} (c : call B) k w w' : torn c w w' → step (Running (Call c k) w) (Stopped w').

Lemma step_inv {A} (s s' : state A) :
  step s s' →
  match s with
  | Stopped _ => False
  | Running p w =>
      s' = Stopped w ∨
      match p with
      | Done _ => False
      | Call c k => s' = Running (k (do_call c w).1) (do_call c w).2 ∨
                    ∃ w', torn c w w' ∧ s' = Stopped w'
      end
  end.
Proof. intros []; eauto. Qed.

(** A program that has made all its calls has done what [perform] does. *)
Lemma steps_perform {A} (p : prog A) w a w' :
  rtc step (Running p w) (Running (Done a) w') ↔ perform p w = (a, w').
Proof.
  split.
  - intros Hsteps. revert w Hsteps. induction p as [b|B c k IH]; intros w Hsteps;
      apply rtc_inv in Hsteps as [Heq|(s & Hs%step_inv & Hrest)]; try done.
    + by injection Heq as -> ->.
    + destruct Hs as [->|[]]. apply rtc_inv in Hrest as [?|(s & Hs%step_inv & _)]; done.
    + destruct Hs as [->|[->|(w0 & _ & ->)]].
      * apply rtc_inv in Hrest as [?|(s & Hs%step_inv & _)]; done.
      * rewrite perform_call. by apply IH.
      * apply rtc_inv in Hrest as [?|(s & Hs%step_inv & _)]; done.
  - revert w. induction p as [b|B c k IH]; intros w.
    + intros [= -> ->]. apply rtc_refl.
    + rewrite perform_call. intros H. eapply rtc_l; [apply step_call|]. by apply IH.
Qed.

(** ** Invariants of every state that can be reached *)

(** [P] holds now, after every call that is still to come, and in the middle of it. *)
Fixpoint always {A} (P : World → Prop) (p : prog A) (w : World) : Prop :=
  P w ∧
  match p with
  | Done _ => True
  | Call c k => (∀ w', torn c w w' → P w') ∧ always P (k (do_call c w).1) (do_call c w).2
  end.

Lemma always_now {A} P (p : prog A) w : always P p w → P w.
Proof. by destruct p; intros []. Qed.

Definition holds {A} (P : World → Prop) (s : state A) : Prop :=
  match s with Running p w => always P p w | Stopped w => P w end.

Lemma holds_step {A} P (s s' : state A) : step s s' → holds P s → holds P s'.
Proof.
  intros Hs%step_inv. destruct s as [p w|w]; [|done]. intros Hp.
  destruct Hs as [->|Hs]; [exact (always_now P p w Hp)|]. destruct p as [a|B c k]; [done|].
  destruct Hp as (_ & Htorn & Hk). destruct Hs as [->|(w' & Ht & ->)]; [done|]. by apply Htorn.
Qed.

Lemma always_reached {A} P (p : prog A) w s :
  always P p w → rtc step (Running p w) s → P (at_world s).
Proof.
  intros Hp Hsteps. assert (holds P s) as Hs.
  { change (holds P (Running p w)) in Hp. remember (Running p w) as s0 eqn:Hs0. clear Hs0.
    induction Hsteps as [s|s0 s1 s2 H01 _ IH]; [done|]. apply IH. by eapply holds_step. }
  destruct s as [p' w'|w']; [exact (always_now P p' w' Hs)|done].
Qed.

Lemma always_mono {A} (P Q : World → Prop) (p : prog A) w :
  (∀ w, P w → Q w) → always P p w → always Q p w.
Proof.
  intros HPQ. revert w. induction p as [a|B c k IH]; intros w; [by intros [? _]; split; auto|].
  intros (Hw & Ht & Hk). split; [auto|]. split; [auto|by apply IH].
Qed.

Lemma always_bind {A B} P (p : prog A) (f : A → prog B) w :
  always P p w → always P (f (perform p w).1) (perform p w).2 → always P (pbind p f) w.
Proof.
  revert w. induction p as [a|B' c k IH]; intros w Hp Hf; [done|].
  rewrite perform_call in Hf. destruct Hp as (Hw & Htorn & Hk). simpl. auto.
Qed.

Lemma always_call {A B} P (c : call B) (k : B → prog A) w :
  P w → (∀ w', torn c w w' → P w') → (∀ b w', do_call c w = (b, w') → always P (k b) w') →
  always P (Call c k) w.
Proof. intros Hw Ht Hk. split; [done|]. split; [done|]. by apply Hk, surjective_pairing. Qed.

(** [P] holds up to some call that a program may make, and in the middle of every call before
    it; from then on [Q] holds. *)
Fixpoint until {A} (P Q : World → Prop) (p : prog A) (w : World) : Prop :=
  always Q p w ∨
  (P w ∧
   match p with
   | Done _ => True
   | Call c k => (∀ w', torn c w w' → P w') ∧ until P Q (k (do_call c w).1) (do_call c w).2
   end).

Lemma until_now {A} P Q (p : prog A) w : until P Q p w → P w ∨ Q w.
Proof. destruct p; intros [H|[? _]]; [right; exact (always_now Q _ w H)|by left|
  right; exact (always_now Q _ w H)|by left]. Qed.

Lemma until_done {A} P Q (a : A) w : P w ∨ Q w → until P Q (Done a) w.
Proof. intros [Hw|Hw]; [by right|by left]. Qed.

Lemma until_call {A B} P Q (c : call B) (k : B → prog A) w :
  P w → (∀ w', torn c w w' → P w') → (∀ b w', do_call c w = (b, w') → until P Q (k b) w') →
  until P Q (Call c k) w.
Proof. intros Hw Ht Hk. right. split; [done|]. split; [done|]. by apply Hk, surjective_pairing. Qed.

Lemma until_bind {A B} P Q (p : prog A) (f : A → prog B) w :
  always P p w → until P Q (f (perform p w).1) (perform p w).2 → until P Q (pbind p f) w.
Proof.
  revert w. induction p as [a|B' c k IH]; intros w Hp Hf; [done|].
  rewrite perform_call in Hf. destruct Hp as (Hw & Htorn & Hk). right. auto.
Qed.

Definition until_state {A} (P Q : World → Prop) (s : state A) : Prop :=
  match s with Running p w => until P Q p w | Stopped w => P w ∨ Q w end.

Lemma until_step {A} P Q (s s' : state A) : step s s' → until_state P Q s → until_state P Q s'.
Proof.
  intros Hs%step_inv. destruct s as [p w|w]; [|done]. simpl. intros Hp.
  destruct Hs as [->|Hs]; [exact (until_now P Q p w Hp)|]. destruct p as [a|B c k]; [done|].
  destruct Hp as [(_ & Htorn & Hk)|(_ & Htorn & Hk)]; destruct Hs as [->|(w' & Ht & ->)]; simpl; auto.
  destruct (k _); by left.
Qed.

Lemma until_reached {A} P Q (p : prog A) w s :
  until P Q p w → rtc step (Running p w) s → until_state P Q s.
Proof.
  intros Hp Hsteps. change (until_state P Q (Running p w)) in Hp.
  induction Hsteps as [s|s0 s1 s2 H01 _ IH]; [done|]. apply IH. by eapply until_step.
Qed.

Lemma until_at {A} P Q (s : state A) : until_state P Q s → P (at_world s) ∨ Q (at_world s).
Proof. destruct s as [p w|w]; [apply until_now|done]. Qed.

(** ** The operations of atomic.go *)

Definition pcall {A} (c : call A) : prog A := Call c Done.

(** [if err != nil { return ..., Wrap(msg, err) }]. *)
Definition try {A B} (wrap : error → error) (p : prog (result error A))
    (k : A → prog (result error B)) : prog (result error B) :=
  pbind p (λ r, match r with Ok a => k a | Err e => Done (Err (wrap e)) end).

Fixpoint mkdirs_prog (ds : list string) : prog (result error ()) :=
  match ds with
  | [] => Done (Ok ())
  | d :: ds => try id (pcall (CMkdir d)) (λ _, mkdirs_prog ds)
  end.

Definition fill_prog (tmp path content : string) (mode : Z) : prog (result error bool) :=
  Call (CWrite tmp content) (λ wr,
    match wr with
    | Err e => Call (CClose tmp) (λ _, Done (Err (Wrap ("writing temp file for " +:+ path) e)))
    | Ok _ =>
        Call (CChmod tmp mode) (λ ch,
          match ch with
          | Err e => Call (CClose tmp) (λ _, Done (Err (Wrap ("chmod temp file for " +:+ path) e)))
          | Ok _ =>
              try (Wrap ("closing temp file for " +:+ path)) (pcall (CClose tmp)) (λ _,
                try (Wrap ("renaming temp file into " +:+ path)) (pcall (CRename tmp path)) (λ _,
                  Done (Ok true)))
          end)
    end).

Definition replace_prog (path content : string) (mode : Z) : prog (result error bool) :=
  try (Wrap ("creating parent dir for " +:+ path))
      (mkdirs_prog (ancestors (DirPath path) ++ [DirPath path])) (λ _,
    try (Wrap ("creating temp file for " +:+ path))
        (pcall (CCreateTemp (DirPath path) ("." +:+ BasePath path +:+ ".tmp-"))) (λ tmp,
      pbind (fill_prog tmp path content mode) (λ r, Call (CRemove tmp) (λ _, Done r)))).

Definition write_prog (path content : string) (mode : Z) : prog (result error bool) :=
  Call (CRead path) (λ existing,
    match existing with
    | Ok c => if String.eqb c content then Done (Ok false) else replace_prog path content mode
    | Err e => if negb (IsNotExist e) then Done (Err (Wrap ("reading " +:+ path) e))
               else replace_prog path content mode
    end).

Definition backup_prog (path : string) : prog (result error ()) :=
  Call (CRead path) (λ r,
    match r with
    | Err e => if IsNotExist e then Done (Ok ())
               else Done (Err (Wrap ("reading " +:+ path +:+ " for backup") e))
    | Ok data =>
        Call (CStat (backup_path path)) (λ st,
          match st with
          | Ok _ => Done (Ok ())
          | Err _ => pcall (CWriteFile (backup_path path) data 420)
          end)
    end).

(** *** They are the operations *)

Lemma perform_try {A B} wrap (p : prog (result error A)) (k : A → prog (result error B)) c k' w :
  (∀ w, perform p w = c w) → (∀ a w, perform (k a) w = k' a w) →
  perform (try wrap p k) w = (x <-? map_err wrap c;; k' x) w.
Proof.
  intros Hp Hk. unfold try. rewrite perform_bind, Hp, bind_ok_run, map_err_run.
  destruct (c w) as [[a|e] w']; [apply Hk|done].
Qed.

Lemma perform_pcall {A} (c : call A) w : perform (pcall c) w = do_call c w.
Proof. unfold pcall. rewrite perform_call. simpl. by rewrite <-surjective_pairing. Qed.

Lemma perform_mkdirs ds w : perform (mkdirs_prog ds) w = for_each ds Mkdir1 w.
Proof.
  revert w. induction ds as [|d ds IH]; intros w; [done|]. cbn [mkdirs_prog for_each].
  erewrite perform_try; [|apply perform_pcall|intros; apply IH].
  rewrite !bind_ok_run, map_err_run. simpl do_call. by destruct (Mkdir1 d w) as [[a|e] w'].
Qed.

Lemma perform_fill tmp path content mode w :
  perform (fill_prog tmp path content mode) w = fill_temp tmp path content mode w.
Proof.
  unfold fill_prog, fill_temp. rewrite perform_call, bind_run. simpl do_call.
  destruct (FileWrite tmp content w) as [[u|e] w1]; cbn [fst snd];
    [|by rewrite perform_call, bind_run].
  rewrite perform_call, bind_run. simpl do_call.
  destruct (FileChmod tmp mode w1) as [[u'|e] w2]; cbn [fst snd];
    [|by rewrite perform_call, bind_run].
  apply perform_try; [apply perform_pcall|]. intros _ w'.
  by apply perform_try; [apply perform_pcall|].
Qed.

Lemma perform_replace path content mode w :
  perform (replace_prog path content mode) w = replace_file path content mode w.
Proof.
  apply perform_try; [apply perform_mkdirs|]. intros _ w1.
  apply perform_try; [apply perform_pcall|]. intros tmp w2.
  unfold deferred. rewrite perform_bind, bind_run, perform_fill.
  destruct (fill_temp tmp path content mode w2) as [r w3]. cbn [fst snd].
  by rewrite perform_call, bind_run.
Qed.

Lemma perform_write path content mode w :
  perform (write_prog path content mode) w = WriteFileIfChanged path content mode w.
Proof.
  unfold write_prog, WriteFileIfChanged. rewrite perform_call, bind_run. simpl do_call.
  destruct (ReadFile path w) as [[c|e] w1]; cbn [fst snd]; case_bool; try done;
    apply perform_replace.
Qed.

Lemma perform_backup path w : perform (backup_prog path) w = BackupFile path w.
Proof.
  unfold backup_prog, BackupFile. rewrite perform_call, bind_run. simpl do_call.
  destruct (ReadFile path w) as [[c|e] w1]; cbn [fst snd]; [|by case_bool].
  rewrite perform_call, bind_run. simpl do_call.
  destruct (Stat (backup_path path) w1) as [[u|e] w2]; cbn [fst snd]; [done|].
  apply perform_pcall.
Qed.

(** *** Stopped anywhere, a file that is replaced is whole *)

Section replacing.
Context (es : list string) (e : string) (Hplain : plain_elems (es ++ [e])).
Context (content : string) (mode : Z) (w0 : World).
Abbreviation path := (file_path es e).

(** Nothing that was there has changed but, perhaps, the file, which is new then. *)
Definition untouched (w : World) : Prop :=
  fs w !! path = fs w0 !! path ∧ ∀ q n, fs w0 !! q = Some n → fs w !! q = Some n.

Definition replaced (w : World) : Prop :=
  fs w !! path = Some (NFile mode content) ∧
  ∀ q n, q ≠ path → fs w0 !! q = Some n → fs w !! q = Some n.

(** Changing a path where nothing was. *)
Lemma untouched_new w tmp f :
  tmp ≠ path → fs w0 !! tmp = None → (∀ m q, q ≠ tmp → f m !! q = m !! q) →
  untouched w → untouched (set_fs f w).
Proof.
  intros Hne Hnone Hf [Hp Hq]. split; simpl; [by rewrite Hf|].
  intros q n Hn. rewrite Hf; [by apply Hq|]. intros ->. congruence.
Qed.

Lemma replaced_new w tmp f :
  tmp ≠ path → fs w0 !! tmp = None → (∀ m q, q ≠ tmp → f m !! q = m !! q) →
  replaced w → replaced (set_fs f w).
Proof.
  intros Hne Hnone Hf [Hp Hq]. split; simpl; [by rewrite Hf|].
  intros q n Hqp Hn. rewrite Hf; [by apply Hq|]. intros ->. congruence.
Qed.

Lemma always_mkdirs ds w :
  path ∉ ds → untouched w →
  always untouched (mkdirs_prog ds) w ∧ untouched (perform (mkdirs_prog ds) w).2.
Proof.
  revert w. induction ds as [|d ds IH]; intros w Hds Hw; [by split|].
  apply not_elem_of_cons in Hds as [Hd Hds].
  assert (untouched (Mkdir1 d w).2) as Hw'.
  { unfold Mkdir1. rewrite bind_run. simpl.
    destruct (fs w !! d) as [[]|] eqn:Hn; simpl; try done.
    destruct (fault OpMkdir d); simpl; [done|]. unfold bind, put. simpl. split; simpl.
    - rewrite lookup_insert_ne by done. apply Hw.
    - intros q n Hq. apply Hw in Hq. rewrite lookup_insert_ne; [done|]. congruence. }
  cbn [mkdirs_prog]. unfold try, pcall. cbn [pbind]. rewrite perform_call. simpl do_call.
  destruct (Mkdir1 d w) as [r w'] eqn:Hrun. cbn [fst snd] in *. split.
  - apply always_call; [done|done|]. simpl do_call. rewrite Hrun. intros b w'' [= <- <-].
    destruct r as [u|err]; [by apply IH|by split].
  - destruct r as [u|err]; [by apply IH|done].
Qed.

Lemma insert_other (tmp : string) (n : node) (m : gmap string node) q :
  q ≠ tmp → <[tmp:=n]> m !! q = m !! q.
Proof. intros H. by rewrite lookup_insert_ne. Qed.

Lemma until_remove tmp r w :
  tmp ≠ path → fs w0 !! tmp = None → untouched w ∨ replaced w →
  until untouched replaced
    (Call (CRemove tmp) (λ _ : result error (), Done (r : result error bool))) w.
Proof.
  intros Hne Hnone Hw.
  assert (∀ m q, q ≠ tmp → delete tmp m !! q = (m : gmap string node) !! q) as Hdel
    by (intros; by rewrite lookup_delete_ne).
  assert (∀ R : World → Prop, R w → R (set_fs (delete tmp) w) → R (Remove tmp w).2) as Hrm.
  { intros R Hr Hd. pose proof (Remove_run tmp w) as Hrun. rewrite Hrun.
    by destruct (fs w !! tmp), (fault OpRemove tmp). }
  destruct Hw as [Hw|Hw].
  - right. split; [done|]. split; [done|]. apply until_done. left.
    apply (Hrm untouched); [done|by eapply untouched_new].
  - left. split; [done|]. split; [done|]. split; [|done].
    apply (Hrm replaced); [done|by eapply replaced_new].
Qed.

Lemma until_fill tmp w :
  tmp ≠ path → fs w0 !! tmp = None → untouched w →
  until untouched replaced (pbind (fill_prog tmp path content mode) (λ r, Call (CRemove tmp) (λ _, Done r))) w.
Proof.
  intros Hne Hnone Hw.
  assert (∀ n, untouched (set_fs (insert tmp n) w)) as Hins
    by (intros n; eapply untouched_new; eauto using insert_other).
  assert (∀ (r : result error bool) w, untouched w → until untouched replaced
    (pbind (Call (CClose tmp) (λ _ : result error (), Done r))
      (λ r, Call (CRemove tmp) (λ _, Done r))) w) as Hend.
  { intros r w' Hw'. apply until_call; [done|done|]. intros b w'' [= <- <-]. apply until_remove; auto. }
  unfold fill_prog. cbn [pbind]. apply until_call; [done| |].
  { intros w' (part & rest & _ & ->). apply Hins. }
  simpl do_call. intros b w1. rewrite FileWrite_run.
  destruct (fault OpWrite tmp); intros [= <- <-]; [by apply (Hend _ w)|].
  cbn [pbind]. apply until_call; [apply Hins|done|].
  simpl do_call. intros b w1. rewrite FileChmod_run.
  destruct (fault OpChmod tmp); intros [= <- <-]; [apply Hend, Hins|].
  assert (set_fs (alter (λ n, match n with NFile _ c => NFile mode c | _ => n end) tmp)
    (set_fs (insert tmp (NFile 384 content)) w) = set_fs (insert tmp (NFile mode content)) w) as ->.
  { unfold set_fs. simpl. by rewrite alter_insert_eq. }
  unfold try, pcall. cbn [pbind]. apply until_call; [apply Hins|done|].
  intros b w1 [= <- <-]. destruct (fault OpClose tmp); cbn [pbind];
    [by apply until_remove; [..|left; apply Hins]|].
  apply until_call; [apply Hins|done|]. simpl do_call. intros b w1. rewrite Rename_run.
  simpl fs. rewrite lookup_insert_eq, lookup_insert_ne by done.
  assert (replaced (set_fs (λ m, <[path:=NFile mode content]> (delete tmp m))
    (set_fs (insert tmp (NFile mode content)) w))) as Hdone.
  { split; simpl; [by rewrite lookup_insert_eq|]. intros q n Hq Hn.
    rewrite lookup_insert_ne, lookup_delete_ne, lookup_insert_ne by congruence. by apply Hw. }
  destruct (fault OpRename path); [|destruct (fs w !! path) as [[]|]]; intros [= <- <-];
    cbn [pbind]; apply until_remove; try done; try (left; apply Hins); by right.
Qed.

Lemma until_replace w :
  w = w0 → until untouched replaced (replace_prog path content mode) w.
Proof.
  intros ->. assert (untouched w0) as Hw0 by (by split).
  destruct (always_mkdirs (ancestors (DirPath path) ++ [DirPath path]) w0) as [Hmk Hw1];
    [by apply path_not_above|done|].
  unfold replace_prog, try. apply until_bind; [exact Hmk|].
  destruct (perform (mkdirs_prog _) w0) as [r w1]. cbn [fst snd] in *.
  destruct r as [u|err]; [|by apply until_done; left].
  unfold pcall. cbn [pbind]. apply until_call; [done|done|]. simpl do_call.
  intros [tmp|err] w2 Hct.
  - pose proof (CreateTemp_name _ _ Hplain _ _ _ Hct) as Hne.
    apply CreateTemp_ok in Hct as [Hnone ->].
    assert (fs w0 !! tmp = None) as Hnone0.
    { destruct (fs w0 !! tmp) as [n|] eqn:Hn; [|done]. apply Hw1 in Hn. congruence. }
    apply until_fill; [done..|]. eapply untouched_new; eauto using insert_other.
  - apply CreateTemp_err in Hct as ->. by apply until_done; left.
Qed.

Lemma until_write : until untouched replaced (write_prog path content mode) w0.
Proof.
  assert (untouched w0) as Hw0 by (by split).
  unfold write_prog. apply until_call; [done|done|]. simpl do_call.
  intros b w Hrun. assert (w = w0) as ->.
  { pose proof (read_only (c := ReadFile path) w0) as H. by rewrite Hrun in H. }
  destruct b as [c|err]; case_bool; try (by apply until_done; left); by apply until_replace.
Qed.
End replacing.

(** *** The first calls of a run *)

Fixpoint after {A} (n : nat) (p : prog A) (w : World) : prog A * World :=
  match n, p with
  | S n, Call c k => after n (k (do_call c w).1) (do_call c w).2
  | _, _ => (p, w)
  end.

Lemma after_reached {A} n (p : prog A) w :
  rtc step (Running p w) (Running (after n p w).1 (after n p w).2).
Proof.
  revert p w. induction n as [|n IH]; intros p w; [by apply rtc_refl|].
  destruct p as [a|B c k]; [by apply rtc_refl|]. eapply rtc_l; [apply step_call|]. apply IH.
Qed.

Lemma after_step {A} n (p : prog A) w :
  match (after n p w).1 with Done _ => False | Call _ _ => True end →
  step (Running (after n p w).1 (after n p w).2) (Running (after (S n) p w).1 (after (S n) p w).2).
Proof.
  revert p w. induction n as [|n IH]; intros p w.
  - destruct p as [a|B c k]; [done|]. intros _. apply step_call.
  - destruct p as [a|B' c' k']; [done|]. cbn [after]. apply IH.
Qed.

Lemma torn_reached {A B} n (p : prog A) w (c : call B) k w' :
  (after n p w).1 = Call c k → torn c (after n p w).2 w' →
  rtc step (Running p w) (Stopped w').
Proof.
  intros Hc Ht. eapply rtc_r; [apply (after_reached n)|]. rewrite Hc. by apply step_torn.
Qed.

(** ** Saving the facts *)

Section saving.
Context {HT : Clock} (e : Env) (path : string) (f : Facts) (t : Z).

Definition save_prog : prog (result error ()) :=
  match marshal (mkEnvelope f t) with
  | Err err => Done (Err err)
  | Ok data =>
      let full := Path e [path] in
      try id (mkdirs_prog (ancestors (DirPath full) ++ [DirPath full])) (λ _,
        pcall (CWriteFile full data 420))
  end.

Lemma perform_save w : t = now w → perform save_prog w = saveCache e path f w.
Proof.
  intros Ht. unfold save_prog, saveCache. rewrite bind_value by apply _.
  change (value (gets now) w) with (now w). rewrite <-Ht.
  destruct (marshal _) as [data|err]; [|done].
  erewrite perform_try; [|apply perform_mkdirs|intros; apply perform_pcall].
  rewrite !bind_ok_run, map_err_run. simpl do_call. unfold MkdirAll.
  by destruct (for_each _ Mkdir1 w) as [[u|err] w'].
Qed.

(** The file is as it was, a directory, or holds the start of the document. *)
Definition started (w0 w : World) : Prop :=
  let full := Path e [path] in
  fs w !! full = fs w0 !! full ∨ fs w !! full = Some NDir ∨
  ∃ data mode part rest, marshal (mkEnvelope f t) = Ok data ∧
    fs w !! full = Some (NFile mode part) ∧ data = part +:+ rest.

Lemma started_mkdirs w0 ds w :
  started w0 w →
  always (started w0) (mkdirs_prog ds) w ∧ started w0 (perform (mkdirs_prog ds) w).2.
Proof.
  revert w. induction ds as [|d ds IH]; intros w Hw; [by split|].
  assert (started w0 (Mkdir1 d w).2) as Hw'.
  { unfold Mkdir1. rewrite bind_run. simpl.
    destruct (fs w !! d) as [[]|] eqn:Hn; simpl; try done.
    destruct (fault OpMkdir d); simpl; [done|]. unfold bind, put. simpl. unfold started. simpl.
    destruct (decide (Path e [path] = d)) as [<-|Hne].
    - right. left. apply lookup_insert_eq.
    - by rewrite lookup_insert_ne. }
  cbn [mkdirs_prog]. unfold try, pcall. cbn [pbind]. rewrite perform_call. simpl do_call.
  destruct (Mkdir1 d w) as [r w'] eqn:Hrun. cbn [fst snd] in *. split.
  - apply always_call; [done|done|]. simpl do_call. rewrite Hrun. intros b w'' [= <- <-].
    destruct r as [u|err]; [by apply IH|by split].
  - destruct r as [u|err]; [by apply IH|done].
Qed.

Lemma started_write w0 w data :
  marshal (mkEnvelope f t) = Ok data → (∀ c, fs w0 !! Path e [path] ≠ Some (NKnob c)) →
  started w0 w → always (started w0) (pcall (CWriteFile (Path e [path]) data 420)) w.
Proof.
  intros Hdata Hreg Hw.
  assert (∀ mode part rest, data = part +:+ rest →
    started w0 (set_fs (insert (Path e [path]) (NFile mode part)) w)) as Hins.
  { intros mode part rest Hd. right. right. exists data, mode, part, rest. split_and!; [done| |done].
    apply lookup_insert_eq. }
  assert (∀ mode, started w0 (write_regular (Path e [path]) mode data w).2) as Hreg'.
  { intros mode. unfold write_regular. destruct (fault OpWrite _); unfold bind, put; simpl.
    - by apply (Hins mode EmptyString data).
    - apply (Hins mode data EmptyString). by rewrite str_app_nil_r. }
  apply always_call; [done| |].
  { intros w' (mode & part & rest & _ & Hd & ->). by eapply Hins. }
  simpl do_call. intros b w' Hrun. split; [|done].
  assert (w' = (WriteFile (Path e [path]) data 420 w).2) as -> by (by rewrite Hrun).
  unfold WriteFile. rewrite bind_run. simpl.
  destruct (fs w !! Path e [path]) as [[|mode c|old]|] eqn:Hn; [done|apply Hreg'| |].
  - exfalso. destruct Hw as [Hw|[Hw|(d & m & p & r & _ & Hw & _)]]; rewrite Hn in Hw; try done.
    symmetry in Hw. by apply Hreg in Hw.
  - rewrite bind_ok_value by apply _.
    destruct (value (creatable (Path e [path])) w); [apply Hreg'|done].
Qed.

Lemma always_save w0 :
  (∀ c, fs w0 !! Path e [path] ≠ Some (NKnob c)) → always (started w0) save_prog w0.
Proof.
  intros Hreg. assert (started w0 w0) as Hw0 by (by left). unfold save_prog.
  destruct (marshal _) as [data|err] eqn:Hdata; [|by split].
  destruct (started_mkdirs w0 (ancestors (DirPath (Path e [path])) ++ [DirPath (Path e [path])]) w0 Hw0)
    as [Hmk Hw1].
  unfold try. apply always_bind; [done|].
  destruct (perform (mkdirs_prog _) w0) as [[u|err] w1]; cbn [fst snd] in *; [|by split].
  by apply started_write.
Qed.

(** The start of a document holds nothing, or all of it. *)
Lemma started_loads part rest data f' t' :
  marshal (mkEnvelope f t) = Ok data → storable f = true → (zone t mod 60 = 0)%Z →
  data = part +:+ rest → unmarshal part = Some (mkEnvelope f' t') → f' = clean_facts f.
Proof.
  intros Hdata Hs Hz -> Hu. destruct (decide (rest = EmptyString)) as [->|Hrest].
  - rewrite str_app_nil_r in Hdata. rewrite (unmarshal_marshal _ _ _ Hdata Hs Hz) in Hu.
    by injection Hu as <- _.
  - exfalso. apply marshal_document in Hdata as (l & Hl & Hdoc); [|done].
    unfold unmarshal in Hu. by rewrite (ParseJSON_torn l part rest Hl Hdoc Hrest) in Hu.
Qed.
End saving.
End crash.

#[global] Arguments Running {A} p w.
#[global] Arguments Stopped {A} w.
#[global] Arguments Done {A} a.
#[global] Arguments Call {A B} c k.

(** ** Properties *)

(** The three operations that write files outside of /proc and /sys are the sequences of
    system calls of this file: the runs that make all of them are the ones that end as the
    operation does. *)
Lemma writes_refined {HK : Kernel} {HT : Clock} (e : Env) (path content : string) (mode : Z)
    (f : Facts) (w w' : World) :
  (∀ r, rtc step (Running (write_prog path content mode) w) (Running (Done r) w') ↔
        WriteFileIfChanged path content mode w = (r, w')) ∧
  (∀ r, rtc step (Running (backup_prog path) w) (Running (Done r) w') ↔
        BackupFile path w = (r, w')) ∧
  (∀ r, rtc step (Running (save_prog e path f (now w)) w) (Running (Done r) w') ↔
        saveCache e path f w = (r, w')).
Proof.
  split_and!; intros r; rewrite steps_perform.
  - by rewrite perform_write.
  - by rewrite perform_backup.
  - by rewrite perform_save.
Qed.

(** C9: a file that is replaced is whole at every moment. Whenever the program is stopped,
    between two system calls or in the middle of writing, the file is what it was before or
    has all of the new content and its mode, and every other file that was there is as it
    was. *)
Theorem stopped_write_is_whole {HK : Kernel} (es : list string) (e content : string) (mode : Z)
    (w : World) (s : state (result error bool)) :
  let path := file_path es e in
  plain_elems (es ++ [e]) →
  rtc step (Running (write_prog path content mode) w) s →
  (fs (at_world s) !! path = fs w !! path ∨
   fs (at_world s) !! path = Some (NFile mode content)) ∧
  ∀ q n, q ≠ path → fs w !! q = Some n → fs (at_world s) !! q = Some n.
Proof.
  intros path Hplain Hs.
  destruct (until_at _ _ _ (until_reached _ _ _ _ _ (until_write es e Hplain content mode w) Hs))
    as [[Hp Hq]|[Hp Hq]]; (split; [by auto|]); [|done].
  intros q n _. apply Hq.
Qed.

(** *** The write as one indivisible step

    What is to be seen of a write from outside: the node at the path, and whether there is an
    answer yet. *)

Inductive outcome : Set := Pending | Answered (r : result error bool) | Crashed.

Section atomic.
Context (content : string) (mode : Z) (old : option node).
Abbreviation new := (Some (NFile mode content)).

(** The specification: the node changes once, at one moment, from the old one to the new; the
    answer is true only after that, false only if the old node had the content, and an error
    only if the old node is still there. It may crash at any time. *)
Inductive atomic_step : option node * outcome → option node * outcome → Prop :=
| atomic_commit : atomic_step (old, Pending) (new, Pending)
| atomic_changed : atomic_step (new, Pending) (new, Answered (Ok true))
| atomic_same : (∃ m, old = Some (NFile m content)) ∨ old = Some (NKnob (Ok content)) →
    atomic_step (old, Pending) (old, Answered (Ok false))
| atomic_failed err : atomic_step (old, Pending) (old, Answered (Err err))
| atomic_crash n o : atomic_step (n, o) (n, Crashed).

End atomic.

Section observed.
Context {HK : Kernel} (path : string).

Definition outcome_of (s : state (result error bool)) : outcome :=
  match s with
  | Running (Done r) _ => Answered r
  | Running (Call _ _) _ => Pending
  | Stopped _ => Crashed
  end.

Definition observed (s : state (result error bool)) : option node * outcome :=
  (fs (at_world s) !! path, outcome_of s).
End observed.

Lemma write_answers {HK : Kernel} es e content mode w r w' :
  let path := file_path es e in
  plain_elems (es ++ [e]) → WriteFileIfChanged path content mode w = (r, w') →
  match r with
  | Ok true => fs w' !! path = Some (NFile mode content)
  | Ok false => fs w' !! path = fs w !! path ∧ value (ReadFile path) w = Ok content
  | Err _ => fs w' !! path = fs w !! path
  end.
Proof.
  intros path Hplain Hrun.
  destruct (WriteFileIfChanged_spec es e Hplain content mode w r w' Hrun)
    as [(-> & -> & ?)|[(-> & -> & _)|(err & -> & _ & Hsame & _)]]; [done| |done].
  simpl. unfold write_effect. apply lookup_insert_eq.
Qed.

(** The node before a call and after it. *)
Lemma until_views {HK : Kernel} es e content mode w {A B} (c : call B) (k : B → prog A) w1 :
  let path := file_path es e in
  let new := Some (NFile mode content) in
  until (untouched es e w) (replaced es e content mode w) (Call c k) w1 →
  (∀ w', torn c w1 w' → fs w' !! path = fs w1 !! path) ∧
  let w2 := (do_call c w1).2 in
  (fs w1 !! path = fs w !! path ∧ (fs w2 !! path = fs w !! path ∨ fs w2 !! path = new)) ∨
  (fs w1 !! path = new ∧ fs w2 !! path = new).
Proof.
  intros path new [([Hw _] & Ht & Hk)|([Hw _] & Ht & Hk)]; (split; [intros w' Hw'|]).
  - destruct (Ht w' Hw') as [Hp _]. unfold path. congruence.
  - right. split; [done|]. by apply always_now in Hk as [? _].
  - destruct (Ht w' Hw') as [Hp _]. unfold path. congruence.
  - left. split; [done|]. apply until_now in Hk as [[? _]|[? _]]; auto.
Qed.

(** C10: the sequence of system calls is a refinement of an indivisible write. Each step of
    the program, from any state it can reach, each of its answers and each stop, in the
    middle of a call included, is seen from outside as no step of the specification or as
    steps of it: the file changes once, from what it was to all of the new content and its
    mode, and never back; the answer is true after that only, false if the content was there
    already, and an error if the file is as it was. *)
Theorem write_refines_atomic {HK : Kernel} (es : list string) (e content : string) (mode : Z)
    (w : World) (s s' : state (result error bool)) :
  let path := file_path es e in
  plain_elems (es ++ [e]) →
  rtc step (Running (write_prog path content mode) w) s → step s s' →
  rtc (atomic_step content mode (fs w !! path)) (observed path s) (observed path s').
Proof.
  intros path Hplain Hs Hstep.
  pose proof (until_reached _ _ _ _ _ (until_write es e Hplain content mode w) Hs) as Hu.
  assert (rtc step (Running (write_prog path content mode) w) s') as Hs' by by eapply rtc_r.
  apply step_inv in Hstep. destruct s as [p w1|w1]; [|done].
  destruct Hstep as [->|Hstep]; [apply rtc_once, atomic_crash|].
  destruct p as [r|B c k]; [done|]. unfold observed.
  destruct (until_views es e content mode w c k w1 Hu) as [Htorn Hview].
  destruct Hstep as [->|(w' & Ht & ->)].
  2: { cbn [at_world]. rewrite (Htorn w' Ht : fs w' !! path = fs w1 !! path).
       apply rtc_once, atomic_crash. }
  cbv zeta in Hview. set (w2 := (do_call c w1).2) in *. set (p2 := k (do_call c w1).1) in *.
  cbn [at_world]. change (outcome_of (Running (Call c k) w1)) with Pending.
  clearbody p2 w2. destruct p2 as [r|B' c' k']; cbn [outcome_of].
  - apply steps_perform in Hs'. rewrite perform_write in Hs'.
    apply write_answers in Hs'; [|done]. fold path in Hs', Hview.
    destruct r as [[]|err].
    + rewrite Hs'. destruct Hview as [[-> _]|[-> _]].
      * eapply rtc_l; [apply atomic_commit|]. apply rtc_once, atomic_changed.
      * apply rtc_once, atomic_changed.
    + destruct Hs' as [Hold Hread]. apply ReadFile_ok_node in Hread.
      assert (fs w1 !! path = fs w !! path) as -> by (destruct Hview as [[? _]|[? ?]]; congruence).
      rewrite Hold. by apply rtc_once, atomic_same.
    + assert (fs w1 !! path = fs w !! path) as -> by (destruct Hview as [[? _]|[? ?]]; congruence).
      rewrite Hs'. apply rtc_once, atomic_failed.
  - fold path in Hview. destruct Hview as [[-> [->| ->]]|[-> ->]]; [done| |done].
    apply rtc_once, atomic_commit.
Qed.


(** The eighth call is the renaming: there the file becomes the new one. *)
Example write_refines_atomic_witness :
  let k := plain_kernel in
  let path := "/etc/motd" in
  let at_call n := let '(p, w) := after n (write_prog path "new" 420) motd_world in Running p w in
  observed path (at_call 7) = (Some (NFile 420 "old"), Pending) ∧
  observed path (at_call 8) = (Some (NFile 420 "new"), Pending) ∧
  rtc (atomic_step "new" 420 (fs motd_world !! path))
    (observed path (at_call 7)) (observed path (at_call 8)).
Proof.
  intros k path at_call. split; [by vm_compute|]. split; [by vm_compute|].
  assert (∀ n, at_call n = Running (after n (write_prog path "new" 420) motd_world).1
    (after n (write_prog path "new" 420) motd_world).2) as Hat.
  { intros n. unfold at_call. by destruct (after n _ _). }
  apply (write_refines_atomic ["etc"] "motd" "new" 420 motd_world (at_call 7) (at_call 8)).
  - by repeat constructor.
  - rewrite Hat. apply after_reached.
  - rewrite !Hat. apply (after_step 7). by vm_compute.
Defined.

(** The start of the new content is in the temporary file. *)
Definition half_written : World :=
  set_fs (insert "/etc/.motd.tmp-0" (NFile 384 "ne")) motd_world.

Example stopped_write_is_whole_witness :
  let k := plain_kernel in
  rtc step (Running (write_prog "/etc/motd" "new" 420) motd_world)
    (Stopped half_written) ∧
  fs half_written !! "/etc/motd" = Some (NFile 420 "old").
Proof.
  intros k.
  assert (rtc step (Running (write_prog "/etc/motd" "new" 420) motd_world)
    (Stopped half_written)) as Hs.
  { eapply (torn_reached 4 _ _ (CWrite "/etc/.motd.tmp-0" "new")); [by vm_compute|].
    exists "ne", "w". by vm_compute. }
  split; [exact Hs|].
  destruct (stopped_write_is_whole ["etc"] "motd" "new" 420 motd_world (Stopped half_written))
    as [[H|H] _]; [by repeat constructor|exact Hs|exact H|by vm_compute in H].
Defined.

(** C39: a backup is not: BackupFile copies in place. Stopped in the middle of writing, it
    leaves a backup with only the start of the file, and every later call takes that for the
    backup: it succeeds and does nothing, so that the original may be changed next with no
    copy of it anywhere. *)
Theorem torn_backup_is_kept {HK : Kernel} (path part rest : string) (w : World) :
  value (ReadFile path) w = Ok (part +:+ rest) → fs w !! backup_path path = None →
  value (creatable (backup_path path)) w = Ok () →
  ∃ s, rtc step (Running (backup_prog path) w) s ∧
    fs (at_world s) !! backup_path path = Some (NFile 420 part) ∧
    ∀ w', fs w' !! backup_path path = fs (at_world s) !! backup_path path →
      is_ok (value (ReadFile path) w') = true → BackupFile path w' = (Ok (), w').
Proof.
  intros Hread Hnone Hcreate.
  exists (Stopped (set_fs (insert (backup_path path) (NFile 420 part)) w)). split_and!.
  - eapply rtc_l; [apply step_call|]. simpl do_call.
    change (ReadFile path w).1 with (value (ReadFile path) w). rewrite Hread.
    change (ReadFile path w).2 with w.
    eapply rtc_l; [apply step_call|]. simpl do_call.
    change (Stat (backup_path path) w).2 with w. unfold Stat. simpl. rewrite Hnone.
    apply rtc_once, step_torn. exists 420%Z, part, rest. split_and!; [|done|done].
    unfold written_mode. by rewrite Hnone, Hcreate.
  - apply lookup_insert_eq.
  - intros w' Hw' Hok. simpl in Hw'. rewrite lookup_insert_eq in Hw'.
    unfold BackupFile. rewrite bind_value by apply _.
    destruct (value (ReadFile path) w') as [data|]; [|done].
    rewrite bind_value by apply _. unfold value, Stat. simpl. by rewrite Hw'.
Qed.

(** The program has been run again: the file has changed, the backup is the torn one. *)
Definition changed_motd : World :=
  set_fs (λ m, <["/etc/motd" := NFile 420 "new"]>
    (<["/etc/motd.node-configurator.orig" := NFile 420 "o"]> m)) motd_world.

Example torn_backup_is_kept_witness :
  let k := plain_kernel in
  (∃ s, rtc step (Running (backup_prog "/etc/motd") motd_world) s ∧
    fs (at_world s) !! "/etc/motd.node-configurator.orig" = Some (NFile 420 "o")) ∧
  BackupFile "/etc/motd" changed_motd = (Ok (), changed_motd).
Proof.
  intros k.
  destruct (torn_backup_is_kept "/etc/motd" "o" "ld" motd_world) as (s & Hs & Hb & Hkeep);
    [by vm_compute..|].
  split; [by exists s|]. apply Hkeep; [by etrans; [|symmetry; exact Hb]|by vm_compute].
Defined.

(** C23: saving the facts may be stopped anywhere as well: what the cache file holds then is
    what it held before, or nothing that loads, or the facts that were saved; the start of a
    document is never taken for facts. *)
Theorem stopped_save_invents_nothing {HK : Kernel} {HT : Clock} (e : Env) (path id : string)
    (ttl : Z) (f f' : Facts) (w : World) (s : state (result error ())) :
  rtc step (Running (save_prog e path f (now w)) w) s →
  (∀ c, fs w !! Path e [path] ≠ Some (NKnob c)) →
  storable f = true → (zone (now w) mod 60 = 0)%Z →
  value (loadCache e path id ttl) (at_world s) = Some f' →
  fs (at_world s) !! Path e [path] = fs w !! Path e [path] ∨ f' = clean_facts f.
Proof.
  intros Hs Hreg Hst Hz Hload.
  apply loadCache_iff in Hload as (d & t & Hd & Hu & _).
  destruct (always_reached _ _ _ _ (always_save e path f (now w) w Hreg) Hs)
    as [|[Hn|(data & mode & part & rest & Hdata & Hn & Hpart)]]; [by left| |right].
  - exfalso. unfold value, ReadFile, read_node in Hd. simpl in Hd. by rewrite Hn in Hd.
  - assert (d = part) as ->.
    { unfold value, ReadFile, read_node in Hd. simpl in Hd. rewrite Hn in Hd. by injection Hd. }
    by eapply started_loads.
Qed.

(** All of the document is there, and the call that wrote it has not returned. *)
Definition just_saved (w : World) : World :=
  match @marshal demo_clock demo_envelope with
  | Ok data => set_fs (insert "/var/lib/node-configurator/facts.json" (NFile 420 data)) w
  | Err _ => w
  end.

Example stopped_save_invents_nothing_witness :
  let k := plain_kernel in let c := demo_clock in
  let p := save_prog New DefaultCachePath demo_facts 1767225600123456789 in
  let w' := just_saved (after 4 p demo_world).2 in
  rtc step (Running p demo_world) (Stopped w') ∧
  (fs w' !! "/var/lib/node-configurator/facts.json" = None ∨ demo_facts = clean_facts demo_facts).
Proof.
  intros k c p w'.
  assert (rtc step (Running p demo_world) (Stopped w')) as Hs.
  { eapply (torn_reached 4); [by vm_compute|]. eexists 420%Z, _, EmptyString.
    split_and!; [by vm_compute|symmetry; apply str_app_nil_r|by vm_compute]. }
  split; [exact Hs|].
  apply (stopped_save_invents_nothing New DefaultCachePath "i-0abc" 1 demo_facts demo_facts
    demo_world (Stopped w')); [exact Hs|by vm_compute..].
Defined.
