(* ===== verification/Profile.v ===== *)
(** * internal/profile

    The desired state of a host as a function of its facts and the operator's overrides:
    the base profile ([base.go]), what scales with the instance ([scaling.go]), the
    prerequisites of Cilium ([cilium.go]) and the overrides ([merge.go]). *)

From S2P Require Import Prelude GoStrings GoPath GoOS Sysutil GoFloat GoJSON Facts Sysctl Mount.

(** ** types.go *)

Record LimitsSpec : Set := mkLimits { NoFile : Z; NProc : Z }.

Record MountSpec : Set := mkMountSpec {
  msName : string;
  Device : string;
  msPath : string;
  FSType : string;
  msOptions : string;
  FstabPersist : bool
}.

Record HugePagesSpec : Set := mkHugePages { hpEnabled : bool; Count2M : Z }.
Record IRQSpec : Set := mkIRQSpec { iqEnabled : bool }.
Record NICSpec : Set := mkNICSpec { RingBufferMax : bool; RPS : bool; XPS : bool }.
Record IOSchedulerSpec : Set := mkIOSpec { ioEnabled : bool; Scheduler : string }.
Record SwapSpec : Set := mkSwapSpec { Disable : bool }.

Record Profile : Type := mkProfile {
  Sysctls : gmap string string;
  Modules : list string;
  Limits : LimitsSpec;
  Mounts : list MountSpec;
  HugePages : HugePagesSpec;
  pIRQ : IRQSpec;
  pNIC : NICSpec;
  CPUGovernor : string;
  IOScheduler : IOSchedulerSpec;
  Swap : SwapSpec
}.

(** Assignments into the map of a profile, in order. *)
Definition set_all (m : gmap string string) (l : list (string * string)) :
    gmap string string :=
  foldl (λ m kv, <[kv.1 := kv.2]> m) m l.

Definition with_sysctls (p : Profile) (m : gmap string string) : Profile :=
  mkProfile m (Modules p) (Limits p) (Mounts p) (HugePages p) (pIRQ p) (pNIC p)
    (CPUGovernor p) (IOScheduler p) (Swap p).

(** The JSON of a profile: its fields under their own names, the map by its sorted keys. *)
Definition mount_json (m : MountSpec) : json :=
  JObj [("Name", JStr (msName m)); ("Device", JStr (Device m)); ("Path", JStr (msPath m));
        ("FSType", JStr (FSType m)); ("Options", JStr (msOptions m));
        ("FstabPersist", JBool (FstabPersist m))].

Definition profile_json (p : Profile) : json :=
  JObj [
    ("Sysctls", JObj ((λ k, (k, JStr (setting (Sysctls p) k))) <$> sortedKeys (Sysctls p)));
    ("Modules", JArr (JStr <$> Modules p));
    ("Limits", JObj [("NoFile", json_int (NoFile (Limits p)));
                     ("NProc", json_int (NProc (Limits p)))]);
    ("Mounts", JArr (mount_json <$> Mounts p));
    ("HugePages", JObj [("Enabled", JBool (hpEnabled (HugePages p)));
                        ("Count2M", json_int (Count2M (HugePages p)))]);
    ("IRQ", JObj [("Enabled", JBool (iqEnabled (pIRQ p)))]);
    ("NIC", JObj [("RingBufferMax", JBool (RingBufferMax (pNIC p)));
                  ("RPS", JBool (RPS (pNIC p))); ("XPS", JBool (XPS (pNIC p)))]);
    ("CPUGovernor", JStr (CPUGovernor p));
    ("IOScheduler", JObj [("Enabled", JBool (ioEnabled (IOScheduler p)));
                          ("Scheduler", JStr (Scheduler (IOScheduler p)))]);
    ("Swap", JObj [("Disable", JBool (Disable (Swap p)))])
  ].

(** ** base.go *)

Definition base_settings : list (string * string) := [
  ("vm.max_map_count", "262144");
  ("vm.swappiness", "0");
  ("fs.inotify.max_user_watches", "1048576");
  ("fs.inotify.max_user_instances", "8192");
  ("fs.nr_open", "1048576");
  ("net.ipv4.ip_forward", "1");
  ("net.core.bpf_jit_enable", "1");
  ("net.core.bpf_jit_harden", "0");
  ("kernel.unprivileged_bpf_disabled", "1");
  ("kernel.panic", "10");
  ("kernel.panic_on_oops", "1")
].

Definition baseSysctls : gmap string string := set_all ∅ base_settings.

Definition newBaseProfile (f : Facts) : Profile := {|
  Sysctls := baseSysctls;
  Modules := [];
  Limits := mkLimits 1048576 0;
  Mounts := [];
  HugePages := mkHugePages false 0;
  pIRQ := mkIRQSpec (1 <? VCPUs f)%Z;
  pNIC := mkNICSpec true true true;
  CPUGovernor := "performance";
  IOScheduler := mkIOSpec true "none";
  Swap := mkSwapSpec true
|}.

(** ** scaling.go *)

Definition clampInt (v min max : Z) : Z :=
  if (v <? min)%Z then min else if (max <? v)%Z then max else v.

Section scaling.
Context {HP : Platform}.

Definition scaled_mem (f : Facts) : Z := if (MemMiB f <=? 0)%Z then 1024%Z else MemMiB f.
Definition scaled_vcpus (f : Facts) : Z := if (VCPUs f <=? 0)%Z then 1%Z else VCPUs f.

Definition fileMax (f : Facts) : Z :=
  let memGiB := fdiv (float_of_Z (scaled_mem f)) (float_of_Z 1024) in
  clampInt (int64_of_float (fmul memGiB (float_of_Z 131072))) 1048576 12582912.

Definition somaxconn (f : Facts) : Z := clampInt (wrap64 (scaled_vcpus f * 2048)) 4096 65535.
Definition threadsMax (f : Facts) : Z :=
  clampInt (wrap64 (scaled_vcpus f * 4096)) 131072 4194304.
Definition backlog (f : Facts) : Z :=
  clampInt (int64_of_float (fmul (NetworkBandwidthGbps f) (float_of_Z 2000))) 4096 250000.
Definition rmemMax (f : Facts) : Z :=
  clampInt (wrap64 (wrap64 (int64_of_float (NetworkBandwidthGbps f) * 2) * 1048576))
    4194304 134217728.
Definition bpfJitLimit (f : Facts) : Z :=
  clampInt (wrap64 (scaled_vcpus f * 8388608)) 268435456 1073741824.
Definition thresh3 (f : Facts) : Z :=
  clampInt (wrap64 (MaxNeighborEntries f * 16)) 1024 131072.
Definition thresh2 (f : Facts) : Z := Z.max (Z.quot (thresh3 f) 2) 512.
Definition thresh1 (f : Facts) : Z := Z.max (Z.quot (thresh3 f) 8) 128.

Definition scaled_settings (f : Facts) : list (string * string) := [
  ("fs.file-max", Itoa (fileMax f));
  ("net.core.somaxconn", Itoa (somaxconn f));
  ("kernel.threads-max", Itoa (threadsMax f));
  ("kernel.pid_max", Itoa (threadsMax f));
  ("net.core.netdev_max_backlog", Itoa (backlog f));
  ("net.core.rmem_max", Itoa (rmemMax f));
  ("net.core.wmem_max", Itoa (rmemMax f));
  ("net.ipv4.tcp_rmem", "4096 131072 " +:+ Itoa (rmemMax f));
  ("net.ipv4.tcp_wmem", "4096 65536 " +:+ Itoa (rmemMax f));
  ("net.core.bpf_jit_limit", Itoa (bpfJitLimit f));
  ("net.ipv4.neigh.default.gc_thresh1", Itoa (thresh1 f));
  ("net.ipv4.neigh.default.gc_thresh2", Itoa (thresh2 f));
  ("net.ipv4.neigh.default.gc_thresh3", Itoa (thresh3 f))
].

Definition applyScaling (p : Profile) (f : Facts) : Profile :=
  with_sysctls p (set_all (Sysctls p) (scaled_settings f)).
End scaling.

(** ** cilium.go *)

Definition bpffsPath : string := "/sys/fs/bpf".

Record CiliumOptions : Set := mkCilium { TunnelMode : string; LegacyIPTables : bool }.

Definition bpffs_mount : MountSpec :=
  mkMountSpec "bpffs-mount" "bpffs" bpffsPath "bpf" "rw,nosuid,nodev,noexec,relatime" true.

Definition tunnel_modules (mode : string) : list string :=
  if String.eqb mode "vxlan" then ["vxlan"]
  else if String.eqb mode "geneve" then ["geneve"] else [].

Definition bridge_settings : list (string * string) := [
  ("net.bridge.bridge-nf-call-iptables", "1");
  ("net.bridge.bridge-nf-call-ip6tables", "1")
].

Definition applyCiliumPrereqs (p : Profile) (opts : CiliumOptions) : Profile :=
  let legacy := LegacyIPTables opts in
  mkProfile
    (if legacy then set_all (Sysctls p) bridge_settings else Sysctls p)
    (Modules p ++ tunnel_modules (TunnelMode opts)
       ++ (if legacy then ["br_netfilter"; "nf_conntrack"; "iptable_nat"; "iptable_filter"]
           else []))
    (Limits p) (Mounts p ++ [bpffs_mount]) (HugePages p) (pIRQ p) (pNIC p) (CPUGovernor p)
    (IOScheduler p) (Swap p).

(** ** merge.go *)

Record Overrides : Type := mkOverrides {
  SysctlOverrides : gmap string string;
  NoFileLimit : Z;
  ovCPUGovernor : option string;
  HugePages2M : Z;
  Cilium : CiliumOptions;
  ovIRQAffinity : option bool;
  ovRingBufferMax : option bool;
  ovRPS : option bool;
  ovXPS : option bool;
  ovIOScheduler : option string
}.

Definition applyOverrides (p : Profile) (ov : Overrides) : Profile :=
  let m := SysctlOverrides ov ∪ Sysctls p in
  let huge := (0 <? HugePages2M ov)%Z in
  {|
    Sysctls := if huge then <["vm.nr_hugepages" := Itoa (HugePages2M ov)]> m else m;
    Modules := Modules p;
    Limits := if (0 <? NoFileLimit ov)%Z then mkLimits (NoFileLimit ov) (NProc (Limits p))
              else Limits p;
    Mounts := Mounts p;
    HugePages := if huge then mkHugePages true (HugePages2M ov) else HugePages p;
    pIRQ := mkIRQSpec (default (iqEnabled (pIRQ p)) (ovIRQAffinity ov));
    pNIC := mkNICSpec (default (RingBufferMax (pNIC p)) (ovRingBufferMax ov))
              (default (RPS (pNIC p)) (ovRPS ov)) (default (XPS (pNIC p)) (ovXPS ov));
    CPUGovernor := default (CPUGovernor p) (ovCPUGovernor ov);
    IOScheduler :=
      match ovIOScheduler ov with
      | Some s => mkIOSpec (negb (String.eqb s EmptyString)) s
      | None => IOScheduler p
      end;
    Swap := Swap p
  |}.

Definition Build {HP : Platform} (f : Facts) (ov : Overrides) : Profile :=
  let p := newBaseProfile f in
  let p := applyScaling p f in
  let p := applyCiliumPrereqs p (Cilium ov) in
  applyOverrides p ov.

(** ** Settings *)

Lemma set_all_snoc m l kv : set_all m (l ++ [kv]) = <[kv.1 := kv.2]> (set_all m l).
Proof. unfold set_all. by rewrite foldl_app. Qed.

Lemma set_all_notin m l k : k ∉ l.*1 → set_all m l !! k = m !! k.
Proof.
  induction l as [|[k' v'] l IH] using rev_ind; [done|].
  rewrite fmap_app, set_all_snoc, not_elem_of_app. intros [Hl Hk]. simpl in *.
  rewrite lookup_insert_ne by set_solver. by apply IH.
Qed.

Lemma set_all_in m l k v : NoDup l.*1 → (k, v) ∈ l → set_all m l !! k = Some v.
Proof.
  induction l as [|[k' v'] l IH] using rev_ind; [by intros _ ?%elem_of_nil|].
  rewrite fmap_app, set_all_snoc, NoDup_app. intros (Hnd & Hdisj & _) Hin. simpl in *.
  apply elem_of_app in Hin as [Hin|Hin%list_elem_of_singleton].
  - rewrite lookup_insert_ne; [by apply IH|]. intros ->.
    apply (Hdisj k); [|by left]. apply list_elem_of_fmap. by exists (k, v).
  - injection Hin as -> ->. apply lookup_insert_eq.
Qed.

Lemma set_all_forall (P : string → string → Prop) m l :
  map_Forall P m → Forall (λ kv, P kv.1 kv.2) l → map_Forall P (set_all m l).
Proof.
  intros Hm Hl. induction l as [|kv l IH] using rev_ind; [done|].
  apply Forall_app in Hl as [Hl Hkv]. inversion_clear Hkv.
  rewrite set_all_snoc. apply map_Forall_insert_2; [done|]. by apply IH.
Qed.

Section built.
Context {HP : Platform}.

(** What is computed before the overrides. *)
Definition computed (f : Facts) (opts : CiliumOptions) : gmap string string :=
  Sysctls (applyCiliumPrereqs (applyScaling (newBaseProfile f) f) opts).

Lemma Build_sysctl f ov k :
  Sysctls (Build f ov) !! k =
  if (0 <? HugePages2M ov)%Z && String.eqb k "vm.nr_hugepages" then Some (Itoa (HugePages2M ov))
  else match SysctlOverrides ov !! k with
       | Some v => Some v
       | None => computed f (Cilium ov) !! k
       end.
Proof.
  unfold Build, applyOverrides, Sysctls at 1. fold (computed f (Cilium ov)).
  assert ((SysctlOverrides ov ∪ computed f (Cilium ov)) !! k =
    match SysctlOverrides ov !! k with
    | Some v => Some v | None => computed f (Cilium ov) !! k end) as Hunion.
  { rewrite lookup_union. by destruct (SysctlOverrides ov !! k), (computed f (Cilium ov) !! k). }
  destruct (0 <? HugePages2M ov)%Z; simpl; [|done].
  destruct (String.eqb_spec k "vm.nr_hugepages") as [->|Hne]; [apply lookup_insert_eq|].
  by rewrite lookup_insert_ne.
Qed.

Lemma scaled_keys_nodup f : NoDup (scaled_settings f).*1.
Proof. refine (bool_decide_unpack _ _). by vm_compute. Qed.

Lemma computed_eq f opts :
  computed f opts =
  let m := set_all baseSysctls (scaled_settings f) in
  if LegacyIPTables opts then set_all m bridge_settings else m.
Proof. done. Qed.

(** The bridge settings and the scaled settings are different ones. *)
Lemma scaled_lookup f opts k v :
  (k, v) ∈ scaled_settings f → computed f opts !! k = Some v.
Proof.
  intros Hin. rewrite computed_eq.
  pose proof (set_all_in baseSysctls _ _ _ (scaled_keys_nodup f) Hin) as Hs.
  destruct (LegacyIPTables opts); [|exact Hs]. rewrite set_all_notin; [exact Hs|]. intros Hb.
  assert (k ∈ (scaled_settings f).*1) as Hk by (apply list_elem_of_fmap; by exists (k, v)).
  assert (k ∉ bridge_settings.*1) as Hk'; [|by apply Hk'].
  clear Hb. assert (Forall (λ k, k ∉ bridge_settings.*1) (scaled_settings f).*1) as Hall;
    [|by apply (proj1 (Forall_forall _ _) Hall)].
  refine (bool_decide_unpack _ _). by vm_compute.
Qed.

Lemma clampInt_range v lo hi : (lo ≤ hi)%Z → (lo ≤ clampInt v lo hi ≤ hi)%Z.
Proof. intros ?. unfold clampInt. repeat case_bool; bool_prop; lia. Qed.

(** A setting that the operator leaves alone keeps the value of the formula. *)
Lemma scaled_built f ov k v :
  (k, v) ∈ scaled_settings f → SysctlOverrides ov !! k = None →
  Sysctls (Build f ov) !! k = Some v.
Proof.
  intros Hin Hov. rewrite Build_sysctl, Hov. destruct (String.eqb_spec k "vm.nr_hugepages").
  - subst k. exfalso. assert ("vm.nr_hugepages" ∉ (scaled_settings f).*1) as Hk.
    { refine (bool_decide_unpack _ _). by vm_compute. }
    apply Hk, list_elem_of_fmap. by exists ("vm.nr_hugepages", v).
  - rewrite andb_false_r. by apply scaled_lookup.
Qed.
End built.

(** ** Well-formed profiles *)

(** A setting the sysctl resource can hold: its path stays distinct from every other key's
    and its line in the drop-in reads back. *)
Definition setting_ok (k v : string) : bool := clean_key k && conf_key k && conf_value v.

Definition settings_ok (m : gmap string string) : Prop :=
  map_Forall (λ k v, setting_ok k v = true) m.

Definition mount_ok (e : Env) (m : MountSpec) : bool :=
  entry_ok (mkMount e (msName m) (Device m) (msPath m) (FSType m) (msOptions m)
              (FstabPersist m)).

Lemma conf_value_fields l :
  l ≠ [] → Forall (λ s, field s = true ∧ sep_free nl s = true) l →
  conf_value (Join " " l) = true.
Proof.
  intros Hne Hl. apply Forall_and in Hl as [Hf Hn]. unfold conf_value.
  apply andb_true_iff. split; [|apply String.eqb_eq].
  - clear Hne Hf. induction Hn as [|s l Hs Hn IH]; [done|]. destruct l as [|s' l]; [done|].
    rewrite Join_cons, !sep_free_app, Hs, IH by done. done.
  - assert (ends_plain (Join " " l)) as Hends by by apply Join_ends.
    destruct Hf as [|s l [Hs Hsne]%field_inv Hf]; [done|].
    destruct s as [|c s]; [done|]. simpl in Hs. apply andb_true_iff in Hs as [Hc%Nat.eqb_eq _].
    destruct l as [|s' l]; [by apply TrimSpace_ends|].
    rewrite Join_cons in * by done. apply TrimSpace_ends; [|done].
    exact (space_len_ascii (String c s) " " _ Hsne ltac:(done) Hc).
Qed.

Lemma numeral_field z : field (Itoa z) = true ∧ sep_free nl (Itoa z) = true.
Proof. split; [apply Itoa_field|by apply Itoa_sep_free]. Qed.

Lemma conf_value_Itoa z : conf_value (Itoa z) = true.
Proof. apply (conf_value_fields [Itoa z]); [done|]. repeat constructor; apply numeral_field. Qed.

(** A TCP buffer setting: two numbers and the computed maximum. *)
Lemma conf_value_triple a b z :
  field a && field b && sep_free nl a && sep_free nl b = true →
  conf_value (Join " " [a; b; Itoa z]) = true.
Proof.
  intros H. bool_prop. apply conf_value_fields; [done|].
  repeat constructor; try done; apply numeral_field.
Qed.

Section well_formed.
Context {HP : Platform}.

Lemma scaled_settings_ok f :
  Forall (λ kv, setting_ok kv.1 kv.2 = true) (scaled_settings f).
Proof.
  unfold scaled_settings, setting_ok.
  repeat first [apply Forall_nil_2|apply Forall_cons_2]; cbn [fst snd]; apply andb_true_iff;
    (split; [by vm_compute|]); try apply conf_value_Itoa.
  - by apply (conf_value_triple "4096" "131072").
  - by apply (conf_value_triple "4096" "65536").
Qed.

Lemma computed_ok f opts : settings_ok (computed f opts).
Proof.
  rewrite computed_eq. cbv zeta. assert (settings_ok baseSysctls) as Hbase.
  { apply set_all_forall; [apply map_Forall_empty|].
    refine (bool_decide_unpack _ _). by vm_compute. }
  assert (settings_ok (set_all baseSysctls (scaled_settings f))) as Hs.
  { apply set_all_forall; [done|apply scaled_settings_ok]. }
  destruct (LegacyIPTables opts); [|done]. apply set_all_forall; [done|].
  refine (bool_decide_unpack _ _). by vm_compute.
Qed.

Lemma Build_settings_ok f ov :
  settings_ok (SysctlOverrides ov) → settings_ok (Sysctls (Build f ov)).
Proof.
  intros Hov k v. rewrite Build_sysctl.
  destruct (_ && _) eqn:Hk.
  - intros [= <-]. apply andb_true_iff in Hk as [_ ->%String.eqb_eq].
    unfold setting_ok. by rewrite conf_value_Itoa.
  - destruct (SysctlOverrides ov !! k) eqn:Ho; [intros [= <-]; by apply Hov|].
    apply computed_ok.
Qed.
End well_formed.

(** Finds a setting in the list of the scaled ones. *)
Ltac scaled_in :=
  unfold scaled_settings;
  repeat first [apply list_elem_of_here|apply list_elem_of_further].

(** ** Properties *)

(** Settings that are one number, with the range the code documents. *)
Definition scaled_ranges : list (string * (Z * Z)) := [
  ("fs.file-max", (1048576, 12582912));
  ("net.core.somaxconn", (4096, 65535));
  ("kernel.threads-max", (131072, 4194304));
  ("kernel.pid_max", (131072, 4194304));
  ("net.core.netdev_max_backlog", (4096, 250000));
  ("net.core.rmem_max", (4194304, 134217728));
  ("net.core.wmem_max", (4194304, 134217728));
  ("net.core.bpf_jit_limit", (268435456, 1073741824))
]%Z.

(** C12: whatever the facts are (nothing known, negative, overflowing or not a number), every
    scaled setting the operator leaves alone is a number within its range, the socket
    buffers' maxima agree with the TCP ones, and the neighbour table's thresholds are
    ordered as the kernel needs them. *)
Theorem scaling_in_range {HP : Platform} (f : Facts) (ov : Overrides) :
  Forall (λ x, SysctlOverrides ov !! x.1 = None →
    ∃ z, Sysctls (Build f ov) !! x.1 = Some (Itoa z) ∧ (x.2.1 ≤ z ≤ x.2.2)%Z) scaled_ranges ∧
  (SysctlOverrides ov = ∅ →
     ∃ rmem t1 t2 t3 : Z,
       Sysctls (Build f ov) !! "net.core.rmem_max" = Some (Itoa rmem) ∧
       Sysctls (Build f ov) !! "net.ipv4.tcp_rmem" = Some ("4096 131072 " +:+ Itoa rmem) ∧
       Sysctls (Build f ov) !! "net.ipv4.tcp_wmem" = Some ("4096 65536 " +:+ Itoa rmem) ∧
       Sysctls (Build f ov) !! "net.ipv4.neigh.default.gc_thresh1" = Some (Itoa t1) ∧
       Sysctls (Build f ov) !! "net.ipv4.neigh.default.gc_thresh2" = Some (Itoa t2) ∧
       Sysctls (Build f ov) !! "net.ipv4.neigh.default.gc_thresh3" = Some (Itoa t3) ∧
       (131072 < rmem)%Z ∧ (128 ≤ t1 < t2)%Z ∧ (t2 < t3 ≤ 131072)%Z).
Proof.
  split.
  - repeat first [apply Forall_nil_2|apply Forall_cons_2]; intros Hov; eexists;
      (split; [apply scaled_built; [scaled_in|done]|by apply clampInt_range]).
  - intros Hov. exists (rmemMax f), (thresh1 f), (thresh2 f), (thresh3 f).
    assert (1024 ≤ thresh3 f ≤ 131072)%Z by by apply clampInt_range.
    assert (4194304 ≤ rmemMax f ≤ 134217728)%Z by by apply clampInt_range.
    split_and!; try (apply scaled_built; [scaled_in|by rewrite Hov]); try lia;
      unfold thresh1, thresh2; rewrite ?Z.quot_div_nonneg by lia;
      Z.to_euclidean_division_equations; lia.
Qed.

(** C25: the overrides have the last word. A sysctl is the one of the operator's map, else the
    computed one, with one exception: huge pages that are asked for by their count set
    vm.nr_hugepages after the map is merged, so that the count wins over that key of the map
    (configs/example.yaml gives the map the highest precedence). Each feature is as the
    override says or as computed, and an empty scheduler turns its resource off. *)
Theorem Build_overrides {HP : Platform} (f : Facts) (ov : Overrides) :
  let p := Build f ov in
  let base := applyCiliumPrereqs (applyScaling (newBaseProfile f) f) (Cilium ov) in
  (∀ k, k ≠ "vm.nr_hugepages" ∨ (HugePages2M ov ≤ 0)%Z →
     Sysctls p !! k =
       match SysctlOverrides ov !! k with Some v => Some v | None => Sysctls base !! k end) ∧
  ((0 < HugePages2M ov)%Z →
     Sysctls p !! "vm.nr_hugepages" = Some (Itoa (HugePages2M ov)) ∧
     HugePages p = mkHugePages true (HugePages2M ov)) ∧
  NoFile (Limits p) = (if (0 <? NoFileLimit ov)%Z then NoFileLimit ov else 1048576%Z) ∧
  NProc (Limits p) = 0%Z ∧
  CPUGovernor p = default "performance" (ovCPUGovernor ov) ∧
  iqEnabled (pIRQ p) = default (1 <? VCPUs f)%Z (ovIRQAffinity ov) ∧
  RingBufferMax (pNIC p) = default true (ovRingBufferMax ov) ∧
  RPS (pNIC p) = default true (ovRPS ov) ∧ XPS (pNIC p) = default true (ovXPS ov) ∧
  (ioEnabled (IOScheduler p) = false ↔ ovIOScheduler ov = Some EmptyString) ∧
  (ioEnabled (IOScheduler p) = true → Scheduler (IOScheduler p) ≠ EmptyString).
Proof.
  intros p base. split; [|split; [|split; [|split]]].
  - intros k Hk. unfold p. rewrite Build_sysctl. destruct (_ && _) eqn:Hb; [|done].
    apply andb_true_iff in Hb as [?%Z.ltb_lt ?%String.eqb_eq]. destruct Hk; [done|lia].
  - intros Hp. unfold p. rewrite Build_sysctl. apply Z.ltb_lt in Hp as Hb. split.
    + by rewrite Hb.
    + unfold Build, applyOverrides. cbn [HugePages]. by rewrite Hb.
  - unfold p, Build, applyOverrides. cbn [Limits]. by destruct (0 <? NoFileLimit ov)%Z.
  - unfold p, Build, applyOverrides. cbn [Limits]. by destruct (0 <? NoFileLimit ov)%Z.
  - do 5 (split; [done|]). unfold p, Build, applyOverrides. cbn [IOScheduler].
    destruct (ovIOScheduler ov) as [s|]; simpl; [|split; [by split|done]].
    destruct (String.eqb_spec s EmptyString) as [->|Hne]; simpl; split; try done; split; try done.
    by intros [= ->].
Qed.

(** C26: the profile is well formed. Whatever the facts, if the operator's settings can be
    held by the sysctl resource (a clean key, a line of the drop-in that reads back) then so
    can all the settings of the profile; every mount of it can be held by the table. *)
Theorem Build_well_formed {HP : Platform} (e : Env) (f : Facts) (ov : Overrides)
    (Hov : settings_ok (SysctlOverrides ov)) :
  (∀ k v, Sysctls (Build f ov) !! k = Some v →
     clean_key k = true ∧ conf_key k = true ∧ conf_value v = true) ∧
  Forall (λ m, mount_ok e m = true) (Mounts (Build f ov)) ∧
  parse_conf (renderSysctlFile (Sysctls (Build f ov))) = Sysctls (Build f ov).
Proof.
  assert (∀ k v, Sysctls (Build f ov) !! k = Some v →
    clean_key k = true ∧ conf_key k = true ∧ conf_value v = true) as Hall.
  { intros k v Hk. apply Build_settings_ok in Hk; [|done]. unfold setting_ok in Hk.
    by bool_prop. }
  split_and!; [done|by repeat constructor|]. apply parse_render. intros k v Hk.
  by apply Hall in Hk as (_ & ? & ?).
Qed.

Definition demo_overrides : Overrides :=
  mkOverrides {["vm.swappiness" := "10"]} 0 None 0 (mkCilium "vxlan" true) None None None None
    None.

Example Build_well_formed_witness :
  parse_conf (renderSysctlFile (Sysctls (Build (HP:=demo_platform) demo_facts demo_overrides)))
    = Sysctls (Build (HP:=demo_platform) demo_facts demo_overrides).
Proof.
  apply (Build_well_formed (HP:=demo_platform) New demo_facts demo_overrides).
  refine (bool_decide_unpack _ _). by vm_compute.
Defined.
