(* ===== verification/Scaling.v ===== *)
(** * internal/profile/scaling.go: the formulas

    For the sizes instances have, the scaled settings are the formulas of the source over
    unbounded integers, with nothing lost to overflow and at most one packet to rounding, and
    a larger instance gets no smaller setting. *)

From Stdlib Require Import SpecFloat.
From S2P Require Import Prelude GoStrings GoOS GoFmt GoFloat FloatExact FloatRound.
From S2P Require Import Sysutil Facts Profile.

#[local] Open Scope Z_scope.

(** The float [b] times two to the [e], as binary64 holds it: 53 bits, or fewer at the least
    exponent, zero among them. *)
Definition float_at (b e : Z) : float64 :=
  match b with Zpos m => S754_finite false m e | _ => S754_zero false end.

Definition float_parts (b e : Z) : Prop :=
  0 ≤ b < 2 ^ 53 ∧ -1074 ≤ e ∧ (e = -1074 ∨ 2 ^ 52 ≤ b).

(** Every float64 from 0 on that is finite is one. *)
Lemma float_has_parts x :
  is_float x = true →
  match x with S754_zero s => s = false | S754_finite s _ _ => s = false | _ => False end →
  ∃ b e, float_parts b e ∧ x = float_at b e.
Proof.
  unfold float_parts. destruct x as [s|s| |s m e]; [|done..|]; intros Hx Hs; subst s.
  - exists 0, (-1074). split; [lia|done].
  - exists (Zpos m), e. pose proof (bounded_bits m e Hx) as (Hb & He & Hcase).
    pose proof (bounded_max m e Hx). pose proof (bits_range m) as [Hlow _].
    split; [|done]. split_and!; [lia..|]. destruct Hcase as [|H53]; [by left|right].
    rewrite H53 in Hlow. exact Hlow.
Qed.

(** Sizes: memory, processors and interfaces that are known and not astronomical, and any
    bandwidth below 2^42 Gbps. *)
Record sized (f : Facts) (b e : Z) : Prop := {
  sz_mem : 0 < MemMiB f < 2 ^ 53;
  sz_vcpus : 0 < VCPUs f < 2 ^ 40;
  sz_bandwidth : NetworkBandwidthGbps f = float_at b e;
  sz_parts : float_parts b e;
  sz_gbps : Z.shiftl b e < 2 ^ 42;
  sz_enis : 0 < MaxENIs f < 2 ^ 29;
  sz_ips : 0 < Ipv4AddressesPerENI f < 2 ^ 29
}.

Lemma in_int64_intro z : - 2 ^ 63 ≤ z < 2 ^ 63 → in_int64 z = true.
Proof. unfold in_int64, min_int64, max_int64. intros H. apply andb_true_iff. split; bool_prop; lia. Qed.

(** ** A bandwidth times 2000 *)

(** 2000 is 2000 times two to the 42, times two to the -42. *)
Definition product (b : Z) : Z := b * (2000 * 2 ^ 42).

(** The packets that are computed. *)
Definition packets (b e : Z) : Z :=
  Z.shiftl (rman (product b) (e - 42)) (rexp (product b) (e - 42)).

Section packets.
Context (b e : Z) (Hparts : float_parts b e).

Lemma product_digits n : 0 ≤ n → b < 2 ^ n → Zdigits2 (product b) ≤ n + 53.
Proof using Hparts.
  destruct Hparts as [Hb _]. intros Hn Hlt. unfold product. apply digits_high; [lia|].
  rewrite Z.pow_add_r by lia. lia.
Qed.

Lemma product_fine : fine (product b) (e - 42).
Proof using Hparts.
  destruct Hparts as ([H0 _] & He & Hcase). unfold fine, rexp. rewrite exponent_spec.
  split; [unfold product; lia|]. destruct Hcase as [->|Hlow]; [lia|].
  pose proof (digits_low (product b) 104 ltac:(lia) ltac:(unfold product; lia)). lia.
Qed.

Lemma product_shiftl : Z.shiftl (product b) (e - 42) = Z.shiftl (b * 2000) e.
Proof using.
  unfold product. rewrite Z.mul_assoc, <-Z.shiftl_mul_pow2, Z.shiftl_shiftl by lia.
  f_equal. lia.
Qed.

Context (Hmax : Z.shiftl b e < 2 ^ 42).

(** Below 2^42 what is computed is below 2^53. *)
Lemma product_small : rexp (product b) (e - 42) ≤ 0.
Proof using Hparts Hmax.
  destruct Hparts as ([H0 H53] & He & Hcase). unfold rexp. rewrite exponent_spec.
  destruct (Z.le_gt_cases e (-53)) as [Hsmall|Hbig].
  { pose proof (product_digits 53). lia. }
  destruct (Z.le_gt_cases 0 e) as [Hpos|Hneg].
  - rewrite Z.shiftl_mul_pow2 in Hmax by done. exfalso.
    assert (1 ≤ 2 ^ e) by (apply (Z.pow_le_mono_r 2 0); lia). nia.
  - rewrite shiftl_neg in Hmax by lia.
    assert (0 < 2 ^ (- e)) as HP by (apply Z.pow_pos_nonneg; lia).
    assert (b < 2 ^ (42 - e)) as Hlt.
    { replace (42 - e) with (- e + 42) by lia. rewrite Z.pow_add_r by lia.
      pose proof (Z.mul_succ_div_gt b (2 ^ (- e)) HP). nia. }
    pose proof (product_digits (42 - e)). lia.
Qed.

Lemma packets_floor : Z.shiftl (b * 2000) e ≤ packets b e ≤ Z.shiftl (b * 2000) e + 1.
Proof using Hparts Hmax.
  rewrite <-product_shiftl. apply rounded_floor; [apply product_fine|apply product_small].
Qed.

(** Of a bandwidth of at most 42 bits nothing is rounded. *)
Lemma packets_exact : b mod 2 ^ 11 = 0 → packets b e = Z.shiftl (b * 2000) e.
Proof using Hparts Hmax.
  intros Hm. rewrite <-product_shiftl. apply rounded_exact; [apply product_fine| |apply product_small].
  pose proof product_fine as [_ Hex]. set (k := rexp (product b) (e - 42) - (e - 42)) in *.
  assert (k ≤ 53) as Hk.
  { destruct Hparts as ([_ H53] & He & _). pose proof (product_digits 53). unfold k, rexp.
    rewrite exponent_spec. lia. }
  apply Z.mod_divide; [apply Z.pow_nonzero; lia|]. apply Z.mod_divide in Hm as [c ->]; [|done].
  exists (c * 2000 * 2 ^ (53 - k)). unfold product.
  rewrite <-(Z.mul_assoc _ (2 ^ (53 - k))), <-Z.pow_add_r by lia.
  replace (53 - k + k) with (11 + 42) by lia. rewrite Z.pow_add_r by lia. ring.
Qed.
End packets.

Lemma packets_mono b e b' e' :
  float_parts b e → float_parts b' e' → no_larger b e b' e' → packets b e ≤ packets b' e'.
Proof.
  intros Hp Hp' Hle. apply rounded_mono; [by apply product_fine..|].
  unfold no_larger, product in *. replace (Z.min (e - 42) (e' - 42)) with (Z.min e e' - 42) by lia.
  replace (e - 42 - (Z.min e e' - 42)) with (e - Z.min e e') by lia.
  replace (e' - 42 - (Z.min e e' - 42)) with (e' - Z.min e e') by lia. lia.
Qed.

(** Whole Gbps in their order. *)
Lemma shiftl_no_larger b e b' e' : no_larger b e b' e' → Z.shiftl b e ≤ Z.shiftl b' e'.
Proof.
  unfold no_larger. set (lo := Z.min e e'). intros Hle.
  assert (∀ a x, lo ≤ x → Z.shiftl a x = Z.shiftl (a * 2 ^ (x - lo)) lo) as H.
  { intros a x Hx. rewrite <-Z.shiftl_mul_pow2, Z.shiftl_shiftl by lia. f_equal. lia. }
  rewrite (H b e), (H b' e') by lia. by apply shiftl_mono.
Qed.

(** ** The formulas *)

Section exact.
Context {HP : Platform}.

Lemma int64_of_trunc x v : float_trunc x = Some v → - 2 ^ 63 ≤ v < 2 ^ 63 → int64_of_float x = v.
Proof. intros Hx Hv. unfold int64_of_float. by rewrite Hx, in_int64_intro. Qed.

Lemma trunc_float_at b e : 0 ≤ b → float_trunc (float_at b e) = Some (Z.shiftl b e).
Proof.
  intros Hb. destruct b as [|m|m]; [by rewrite Z.shiftl_0_l| |lia]. simpl float_at. unfold float_trunc.
  case_bool; [done|]. by rewrite <-Z.shiftl_opp_r, Z.opp_involutive.
Qed.

Lemma trunc_product b e :
  float_parts b e → Z.shiftl b e < 2 ^ 42 →
  float_trunc (fmul (float_at b e) (float_of_Z 2000)) = Some (packets b e).
Proof.
  intros Hp Hmax. pose proof (product_fine b e Hp) as Hf.
  pose proof (product_small b e Hp Hmax) as H0.
  unfold packets. destruct b as [|m|m].
  - change (product 0) with 0 in *. by rewrite rman_0, Z.shiftl_0_l.
  - by rewrite <-rounded_trunc by (done || lia).
  - destruct Hp as [? _]. lia.
Qed.

Section sized.
Context (f : Facts) (b e : Z) (Hs : sized f b e).

Lemma fileMax_exact : fileMax f = clampInt (MemMiB f * 128) 1048576 12582912.
Proof using Hs.
  destruct (sz_mem _ _ _ Hs) as [Hpos Hmax]. unfold fileMax, scaled_mem.
  rewrite (proj2 (Z.leb_gt _ _)) by done. f_equal.
  destruct (MemMiB f) as [|m|m]; [lia| |lia].
  assert (bits m ≤ 53) as Hm by (apply bits_bound; lia).
  rewrite float_of_Z_exact by done. change (float_of_Z 1024) with (fl 1 10).
  change (float_of_Z 131072) with (fl 1 17).
  rewrite fdiv_exact, fmul_exact; try done; rewrite ?Pos.mul_1_r; try done.
  apply int64_of_trunc; [by rewrite float_trunc_exact|simpl; lia].
Qed.

Lemma backlog_packets : backlog f = clampInt (packets b e) 4096 250000.
Proof using Hs.
  pose proof (sz_parts _ _ _ Hs) as Hp. pose proof (sz_gbps _ _ _ Hs) as Hmax.
  pose proof (packets_floor b e Hp Hmax) as Hn.
  unfold backlog. rewrite (sz_bandwidth _ _ _ Hs). f_equal.
  apply int64_of_trunc; [by apply trunc_product|].
  assert (Z.shiftl (b * 2000) e ≤ 2 ^ 53) as Hup.
  { destruct Hp as [[H0 _] _]. destruct (Z.le_gt_cases 0 e).
    - rewrite Z.shiftl_mul_pow2 in * by done. nia.
    - rewrite shiftl_neg in * by lia. set (P := 2 ^ (- e)) in *.
      assert (0 < P) as HD by (apply Z.pow_pos_nonneg; lia).
      pose proof (Z.mul_succ_div_gt b P HD). apply Z.div_le_upper_bound; [done|]. nia. }
  assert (0 ≤ Z.shiftl (b * 2000) e); [|lia]. destruct Hp as [[H0 _] _].
  apply Z.shiftl_nonneg. lia.
Qed.

Lemma rmemMax_exact : rmemMax f = clampInt (Z.shiftl b e * 2 * 1048576) 4194304 134217728.
Proof using Hs.
  destruct (sz_parts _ _ _ Hs) as [[H0 _] _]. pose proof (sz_gbps _ _ _ Hs) as Hmax.
  assert (0 ≤ Z.shiftl b e) as Hq by (by apply Z.shiftl_nonneg).
  unfold rmemMax. rewrite (sz_bandwidth _ _ _ Hs).
  rewrite (int64_of_trunc _ (Z.shiftl b e)); [|by apply trunc_float_at|lia].
  rewrite (wrap64_id (Z.shiftl b e * 2)) by (apply in_int64_intro; lia).
  rewrite wrap64_id; [done|apply in_int64_intro; lia].
Qed.

Lemma vcpus_exact k : 0 ≤ k ≤ 2 ^ 23 → wrap64 (scaled_vcpus f * k) = VCPUs f * k.
Proof using Hs.
  intros Hk. pose proof (sz_vcpus _ _ _ Hs) as Hv. unfold scaled_vcpus.
  rewrite (proj2 (Z.leb_gt _ _)) by lia. apply wrap64_id, in_int64_intro. nia.
Qed.

Lemma thresh3_exact :
  thresh3 f = clampInt (MaxENIs f * Ipv4AddressesPerENI f * 16) 1024 131072.
Proof using Hs.
  pose proof (sz_enis _ _ _ Hs) as He. pose proof (sz_ips _ _ _ Hs) as Hp.
  unfold thresh3, MaxNeighborEntries. rewrite !(proj2 (Z.leb_gt _ _)) by lia.
  rewrite (wrap64_id (_ * Ipv4AddressesPerENI f)) by (apply in_int64_intro; nia).
  rewrite wrap64_id; [done|apply in_int64_intro; nia].
Qed.
End sized.
End exact.

(** ** Order *)

Lemma clampInt_mono min max v v' :
  min ≤ max → v ≤ v' → clampInt v min max ≤ clampInt v' min max.
Proof. intros H Hv. unfold clampInt. repeat case_match; bool_prop; lia. Qed.

(** The numbers of the settings. *)
Definition scaled_numbers {HP : Platform} (f : Facts) : list Z :=
  [fileMax f; somaxconn f; threadsMax f; backlog f; rmemMax f; bpfJitLimit f;
   thresh1 f; thresh2 f; thresh3 f].

(** They are what is written. *)
Lemma scaled_numbers_written {HP : Platform} f :
  Forall (λ z, Exists (λ kv : string * string, kv.2 = Itoa z) (scaled_settings f))
    (scaled_numbers f).
Proof.
  unfold scaled_numbers, scaled_settings.
  repeat (constructor; [rewrite !Exists_cons; simpl; tauto|]). constructor.
Qed.

(** ** Properties *)

(** C13: for the sizes of instances the settings are the formulas of the source over
    unbounded integers: 128 files for each MiB, 2048 pending connections, 4096 threads and 8
    MiB of compiled BPF for each vCPU, 2 MiB of socket buffer for each whole Gbps, 16
    neighbours for each address that the interfaces can hold, all within their ranges:
    neither the rounding of float64 nor the wrap-around of int64 shows. The backlog is 2000
    packets for each Gbps, rounded down; the product is rounded first, which may round it up
    to the next packet, but not if the bandwidth has at most 42 bits (12.5 has 5, 0.781 has
    53). *)
Theorem scaling_is_exact {HP : Platform} (f : Facts) (b e : Z) :
  sized f b e →
  fileMax f = clampInt (MemMiB f * 128) 1048576 12582912 ∧
  somaxconn f = clampInt (VCPUs f * 2048) 4096 65535 ∧
  threadsMax f = clampInt (VCPUs f * 4096) 131072 4194304 ∧
  bpfJitLimit f = clampInt (VCPUs f * 8388608) 268435456 1073741824 ∧
  rmemMax f = clampInt (Z.shiftl b e * 2097152) 4194304 134217728 ∧
  thresh3 f = clampInt (MaxENIs f * Ipv4AddressesPerENI f * 16) 1024 131072 ∧
  ∃ n, backlog f = clampInt n 4096 250000 ∧
    Z.shiftl (b * 2000) e ≤ n ≤ Z.shiftl (b * 2000) e + 1 ∧
    (b mod 2 ^ 11 = 0 → n = Z.shiftl (b * 2000) e).
Proof.
  intros Hs. split_and!; [by eapply fileMax_exact|..|by eapply thresh3_exact|];
    unfold somaxconn, threadsMax, bpfJitLimit; rewrite ?(vcpus_exact f b e Hs) by lia; try done.
  - rewrite (rmemMax_exact f b e Hs). f_equal. lia.
  - exists (packets b e). split; [by apply backlog_packets|].
    split; [by apply packets_floor; apply Hs|by apply packets_exact; apply Hs].
Qed.

(** 12.5 Gbps. *)
Lemma demo_sized : sized demo_facts (25 * 2 ^ 48) (-49).
Proof. split; [done|done|by vm_compute| |done|done|done]. unfold float_parts. lia. Qed.

Example scaling_is_exact_witness :
  fileMax (HP:=demo_platform) demo_facts = 1048576 ∧
  backlog (HP:=demo_platform) demo_facts = 25000 ∧
  rmemMax (HP:=demo_platform) demo_facts = 25165824.
Proof.
  destruct (scaling_is_exact (HP:=demo_platform) demo_facts _ _ demo_sized)
    as (Hf & _ & _ & _ & Hr & _ & n & Hb & _ & Hn).
  rewrite Hn in Hb by by vm_compute. split; [exact Hf|]. split; [exact Hb|exact Hr].
Defined.

(** C14: a larger instance gets no smaller setting: when memory, processors, bandwidth and
    what the interfaces hold are each at least as large, every scaled setting is, whatever
    is rounded on the way. *)
Theorem scaling_monotone {HP : Platform} (f f' : Facts) (b e b' e' : Z) :
  sized f b e → sized f' b' e' →
  MemMiB f ≤ MemMiB f' → VCPUs f ≤ VCPUs f' → no_larger b e b' e' →
  MaxENIs f ≤ MaxENIs f' → Ipv4AddressesPerENI f ≤ Ipv4AddressesPerENI f' →
  Forall2 Z.le (scaled_numbers f) (scaled_numbers f').
Proof.
  intros Hs Hs' Hmem Hcpu Hb Heni Hip.
  assert (thresh3 f ≤ thresh3 f') as Ht.
  { rewrite (thresh3_exact f b e Hs), (thresh3_exact f' b' e' Hs'). apply clampInt_mono; [lia|].
    pose proof (sz_enis _ _ _ Hs). pose proof (sz_ips _ _ _ Hs). nia. }
  assert (∀ k, 0 < k → Z.quot (thresh3 f) k ≤ Z.quot (thresh3 f') k) as Hquot
    by (intros k Hk; by apply Z.quot_le_mono).
  pose proof (packets_mono b e b' e' (sz_parts _ _ _ Hs) (sz_parts _ _ _ Hs') Hb) as Hpackets.
  pose proof (shiftl_no_larger b e b' e' Hb) as Hgbps.
  unfold scaled_numbers, thresh1, thresh2. pose proof (Hquot 2). pose proof (Hquot 8).
  unfold somaxconn, threadsMax, bpfJitLimit.
  rewrite !(vcpus_exact f b e Hs), !(vcpus_exact f' b' e' Hs') by lia.
  rewrite (fileMax_exact f b e Hs), (fileMax_exact f' b' e' Hs').
  rewrite (backlog_packets f b e Hs), (backlog_packets f' b' e' Hs').
  rewrite (rmemMax_exact f b e Hs), (rmemMax_exact f' b' e' Hs').
  repeat (constructor; [|]); try constructor; try lia; apply clampInt_mono; lia.
Qed.

(** 0.781 Gbps, which no float64 is. *)
Definition smaller_facts : Facts := with_local demo_facts
  {| InstanceID := EmptyString; InstanceType := EmptyString; Family := EmptyString;
     Region := EmptyString; AvailabilityZone := EmptyString; Arch := EmptyString;
     VCPUs := 2; MemMiB := 4096; NetworkBandwidthGbps := fdiv (float_of_Z 781) (float_of_Z 1000);
     EnaSupport := true; MaxENIs := 0; Ipv4AddressesPerENI := 0; NvmeInstanceStore := false;
     BareMetal := false; Hypervisor := EmptyString; fDistro := mkDistro EmptyString EmptyString;
     fKernelVersion := EmptyString; Source := EmptyString; Warnings := [] |}.

Example scaling_monotone_witness :
  Forall2 Z.le (scaled_numbers (HP:=demo_platform) smaller_facts)
    (scaled_numbers (HP:=demo_platform) demo_facts).
Proof.
  apply (scaling_monotone (HP:=demo_platform) smaller_facts demo_facts 7034622617952715 (-53)
    (25 * 2 ^ 48) (-49)); [|exact demo_sized|done..].
  split; [done|done|by vm_compute| |done|done|done]. unfold float_parts. lia.
Defined.
