(* ===== verification/Engine.v ===== *)
(** * internal/engine

    The resources a profile is converged with, in their order ([Build]), the filters of
    the command line and the configuration ([filterResources]), the run over them ([Run])
    and its exit code and text report ([engine.go], [report.go]). *)

From S2P Require Import Prelude GoStrings GoPath GoOS Sysutil Frame GoFmt GoFloat GoJSON.
From S2P Require Import Resource DropIn Sysctl Kmod Swap Mount CPUGovernor IOScheduler.
From S2P Require Import IRQAffinity NIC Facts Cache Profile.

(** ** engine.go *)

Inductive Mode : Set := ModeApply | ModeCheck.

#[export] Instance Mode_eq_dec : EqDecision Mode.
Proof. solve_decision. Defined.

Record Options : Set := mkOptions { Only : list string; Skip : list string }.

Definition sysctlPersistFile : string := "etc/sysctl.d/99-node-configurator.conf".
Definition modulesPersistFile : string := "etc/modules-load.d/99-node-configurator.conf".
Definition limitsPersistFile : string := "etc/security/limits.d/99-node-configurator.conf".
Definition systemdLimitServices : list string := ["containerd"; "kubelet"; "cilium"].

(** The maps [excluded] and [included] hold [true] for the listed names. *)
Definition filterResources (all : list Resource) (disabledFromConfig : list string)
    (opts : Options) : list Resource :=
  let excluded name := in_list name (disabledFromConfig ++ Skip opts) in
  let included name := in_list name (Only opts) in
  filter (λ r, Is_true (negb (excluded (Name r))
                        && (negb (nonempty (Only opts)) || included (Name r)))) all.

Section engine.
Context {HK : Kernel} {HR : Runner} {HU : Unicode}.

Definition limits_dropins (e : Env) (l : LimitsSpec) : list DropInFileResource :=
  mkDropIn "limits-conf" (Path e [limitsPersistFile]) (RenderLimitsConf (NoFile l) (NProc l)) 0
  :: ((λ svc, mkDropIn ("systemd-limits-" +:+ svc)
         (Path e ["etc"; "systemd"; "system"; svc +:+ ".service.d"; "99-node-configurator.conf"])
         (RenderSystemdLimitDropIn (NoFile l)) 0) <$> systemdLimitServices).

Definition mount_of (e : Env) (m : MountSpec) : MountResource :=
  mkMount e (msName m) (Device m) (msPath m) (FSType m) (msOptions m) (FstabPersist m).

(** The resources before they are filtered, given the primary interface. *)
Definition all_resources (e : Env) (iface : string) (f : Facts) (p : Profile) :
    list Resource :=
  [ sysctl_resource (mkSysctl e (Sysctls p) (Path e [sysctlPersistFile]));
    kmod_resource (mkKmod e (Modules p) (Path e [modulesPersistFile]));
    swap_resource e;
    cgroupv2_resource e ]
  ++ ((λ m, mount_resource (mount_of e m)) <$> Mounts p)
  ++ (if (0 <? NoFile (Limits p))%Z then dropin_resource <$> limits_dropins e (Limits p) else [])
  ++ (if iqEnabled (pIRQ p) then [irqaffinity_resource (mkIRQ e iface (VCPUs f))] else [])
  ++ (if RingBufferMax (pNIC p) || RPS (pNIC p) || XPS (pNIC p)
      then [nic_resource (mkNIC e iface (VCPUs f) (RingBufferMax (pNIC p)) (RPS (pNIC p))
                            (XPS (pNIC p)))]
      else [])
  ++ (if negb (String.eqb (CPUGovernor p) EmptyString)
      then [cpugovernor_resource (mkCPUGovernor e (CPUGovernor p))] else [])
  ++ (if ioEnabled (IOScheduler p)
      then [ioscheduler_resource (mkIOScheduler e (Scheduler (IOScheduler p)))] else []).

Definition Build (e : Env) (f : Facts) (p : Profile) (disabled : list string)
    (opts : Options) : M World (list Resource) :=
  iface <- PrimaryInterface e;;
  ret (filterResources (all_resources e iface f p) disabled opts).
End engine.

(** One resource: its check, and [Apply] when the check found drift. *)
Definition run_one (mode : Mode) (r : Resource) : M World Result :=
  c <- Checking r;;
  match c.2 with
  | Some _ => ret c.1
  | None =>
      if bool_decide (mode = ModeApply) && bool_decide (rStatus c.1 = StatusWouldChange) then
        applied <- Apply r;;
        ret (match applied with
             | Err err => mkResult (rName c.1) StatusFailed (Error err)
             | Ok _ => mkResult (rName c.1) StatusChanged (rDetail c.1)
             end)
      else ret c.1
  end.

Fixpoint Run (resources : list Resource) (mode : Mode) : M World (list Result) :=
  match resources with
  | [] => ret []
  | r :: resources =>
      res <- run_one mode r;;
      results <- Run resources mode;;
      ret (res :: results)
  end.

(** ** report.go *)

Definition failed (r : Result) : bool := bool_decide (rStatus r = StatusFailed).

Definition ExitCode (results : list Result) (mode : Mode) : Z :=
  let has_failed := existsb failed results in
  let has_changed := existsb (λ r, Changed (rStatus r)) results in
  if has_failed then 1%Z
  else if bool_decide (mode = ModeCheck) && has_changed then 2%Z
  else 0%Z.

(** An [io.Writer]: what becomes of a text that is written. *)
Definition Writer (S : Type) : Type := string → M S (result error ()).

Definition facts_summary (f : Facts) : string :=
  "=== Discovered facts (source: " +:+ Source f +:+ ") ===" +:+ nls
  +:+ (if negb (String.eqb (InstanceType f) EmptyString)
       then "Instance:  " +:+ InstanceType f +:+ " (family " +:+ Family f +:+ ", " +:+ Arch f
              +:+ (if negb (String.eqb (Hypervisor f) EmptyString)
                   then ", " +:+ Hypervisor f +:+ " hypervisor" else EmptyString)
              +:+ ")" +:+ nls
       else "Instance:  unknown (arch " +:+ Arch f +:+ ")" +:+ nls)
  +:+ (if negb (String.eqb (Region f) EmptyString)
       then "Region:    " +:+ Region f +:+ " (az " +:+ AvailabilityZone f +:+ ")" +:+ nls
       else EmptyString)
  +:+ "Sizing:    " +:+ Itoa (VCPUs f) +:+ " vCPUs, " +:+ Itoa (MemMiB f) +:+ " MiB memory, ~"
  +:+ fmt_float (NetworkBandwidthGbps f) +:+ " Gbps network"
  +:+ (if EnaSupport f then " (ENA)" else EmptyString)
  +:+ (if (0 <? MaxENIs f)%Z then ", maxENIs=" +:+ Itoa (MaxENIs f) else EmptyString)
  +:+ nls
  +:+ "Storage:   NVMe instance store=" +:+ fmt_bool (NvmeInstanceStore f)
  +:+ ", bare metal=" +:+ fmt_bool (BareMetal f) +:+ nls
  +:+ (if negb (String.eqb (ID (fDistro f)) EmptyString)
          || negb (String.eqb (fKernelVersion f) EmptyString)
       then "Host:      " +:+ ID (fDistro f) +:+ " " +:+ VersionID (fDistro f) +:+ ", kernel "
              +:+ fKernelVersion f +:+ nls
       else EmptyString).

Definition result_json (r : Result) : json :=
  JObj ([("name", JStr (rName r)); ("status", JStr (status_string (rStatus r)))]
        ++ (if String.eqb (rDetail r) EmptyString then [] else [("detail", JStr (rDetail r))])).

Definition report_json (f : Facts) (results : list Result) : result error json :=
  match facts_json f with
  | Ok j => Ok (JObj [("facts", j); ("results", JArr (result_json <$> results))])
  | Err err => Err err
  end.

Section writers.
Context {S : Type} (w : Writer S).

Definition WriteFactsSummary (f : Facts) : M S (result error ()) := w (facts_summary f).

Definition WriteTextReport (results : list Result) : M S (result error ()) :=
  for_each results (λ r, w (Result_String r +:+ nls)).

Definition WriteJSONReport (f : Facts) (results : list Result) : M S (result error ()) :=
  match report_json f results with
  | Err err => ret (Err err)
  | Ok j => w (Encode j)
  end.
End writers.

(** ** Running *)

Lemma run_one_check r `{!WellBehaved r} w :
  run_one ModeCheck r w = ((value (Checking r) w).1, w).
Proof.
  unfold run_one. rewrite bind_value by apply _. by destruct (value (Checking r) w) as [? []].
Qed.

Lemma Run_cons r rs mode w :
  Run (r :: rs) mode w =
  let x := run_one mode r w in let y := Run rs mode x.2 in (x.1 :: y.1, y.2).
Proof. simpl. rewrite !bind_run. done. Qed.

Lemma Run_check rs w :
  Forall WellBehaved rs →
  Run rs ModeCheck w = ((λ r, (value (Checking r) w).1) <$> rs, w).
Proof.
  induction 1 as [|r rs Hr Hrs IH]; [done|].
  rewrite Run_cons, run_one_check by done. simpl. by rewrite IH.
Qed.

Lemma Run_app rs rs' mode w :
  Run (rs ++ rs') mode w =
  let x := Run rs mode w in let y := Run rs' mode x.2 in (x.1 ++ y.1, y.2).
Proof.
  revert w. induction rs as [|r rs IH]; intros w; [apply surjective_pairing|].
  cbv zeta in *. rewrite <-app_comm_cons, !Run_cons. cbv zeta. by rewrite IH.
Qed.

(** What one step of a run in [ModeApply] can be. *)
Lemma run_one_apply r `{!WellBehaved r} w :
  let c := value (Checking r) w in
  (rStatus c.1 = StatusWouldChange ∧
     run_one ModeApply r w =
       (match (Apply r w).1 with
        | Err err => mkResult (Name r) StatusFailed (Error err)
        | Ok _ => mkResult (Name r) StatusChanged (rDetail c.1)
        end, (Apply r w).2)) ∨
  (rStatus c.1 ≠ StatusWouldChange ∧ run_one ModeApply r w = (c.1, w)).
Proof.
  intros c. destruct (wb_result (r:=r) w) as (Hn & _ & Herr). fold c in Hn, Herr.
  unfold run_one. rewrite bind_value by apply _. fold c.
  destruct (decide (rStatus c.1 = StatusWouldChange)) as [Hs|Hs].
  - left. split; [done|]. destruct (c.2) eqn:Hc.
    + exfalso. assert (rStatus c.1 = StatusFailed) by (apply Herr; eauto). congruence.
    + rewrite !bool_decide_true by done. simpl. by rewrite bind_run, Hn.
  - right. split; [done|]. destruct (c.2); [done|].
    by rewrite (bool_decide_false (rStatus c.1 = _)), andb_false_r by done.
Qed.

(** ** Properties of the filters *)

Lemma filterResources_in all disabled opts r :
  r ∈ filterResources all disabled opts ↔
  r ∈ all ∧ (Name r ∉ disabled) ∧ (Name r ∉ Skip opts) ∧ (Only opts = [] ∨ Name r ∈ Only opts).
Proof.
  unfold filterResources. rewrite list_elem_of_filter, Is_true_true, andb_true_iff, negb_true_iff,
    orb_true_iff, negb_true_iff, in_list_true, nonempty_false.
  assert (in_list (Name r) (disabled ++ Skip opts) = false ↔
    (Name r ∉ disabled) ∧ (Name r ∉ Skip opts)) as ->.
  { rewrite <-not_true_iff_false, in_list_true, elem_of_app. tauto. }
  tauto.
Qed.

Lemma filterResources_sublist all disabled opts :
  sublist (filterResources all disabled opts) all.
Proof. apply sublist_filter. Qed.

(** A run moves along what its resources' applies move along. *)
Lemma Run_respects (R : relation World) `{!PreOrder R} rs mode :
  Forall WellBehaved rs → Forall (λ r, Respects R (Apply r)) rs → Respects R (Run rs mode).
Proof.
  intros Hb. induction Hb as [|r rs Hr Hrs IH]; intros Ha; [apply _|].
  inversion_clear Ha as [|?? Har Hars]. simpl. respects_bind.
  - unfold run_one. respects_bind. intros [res [err|]]; simpl; [apply _|].
    apply if_respects; [|apply _]. respects_bind; [done|]. intros [|]; apply _.
  - intros res. respects_bind; [by apply IH|]. intros. apply _.
Qed.

(** ** A run that converges *)

(** Whatever becomes of an [Apply] of [r'], [r] stays as settled as it was. *)
Definition keeps_converged (I : World → Prop) (r r' : Resource) : Prop :=
  ∀ w x w', I w → converged r w → Apply r' w = (x, w') → converged r w'.

(** Every resource settles where [I] holds and keeps it, and no resource undoes what
    an earlier one has settled. *)
Record cooperate (I : World → Prop) (rs : list Resource) : Prop := {
  co_converges : Forall (Converges I) rs;
  co_keeps : StronglySorted (keeps_converged I) rs
}.

(** Resources that cooperate do so without some of them. *)
Lemma cooperate_filter I rs disabled opts :
  cooperate I rs → cooperate I (filterResources rs disabled opts).
Proof.
  intros [Hc Hk]. split; [|by apply StronglySorted_filter].
  rewrite Forall_forall in Hc |- *. intros r [Hr _]%filterResources_in. by apply Hc.
Qed.

Lemma converged_not_would r w :
  converged r w → rStatus (value (Checking r) w).1 ≠ StatusWouldChange.
Proof. intros [Hc _]%settled_not_changed Hs. by rewrite Hs in Hc. Qed.

Section cooperating.
Context (I : World → Prop).

(** One step keeps what is settled; if it did not fail, its resource is settled. *)
Lemma run_one_settles r w res w' :
  Converges I r → I w → run_one ModeApply r w = (res, w') →
  I w' ∧ (rStatus res ≠ StatusFailed → converged r w') ∧
  ∀ r', keeps_converged I r' r → converged r' w → converged r' w'.
Proof.
  intros Hc HI Hrun. pose proof (cv_behaved (r:=r)) as Hb.
  destruct (run_one_apply r w) as [[Hs Heq]|[Hs Heq]]; rewrite Heq in Hrun;
    injection Hrun as Hres Hw.
  - destruct (Apply r w) as [x w1] eqn:Ha. simpl in *. subst w1. split_and!.
    + by eapply (cv_invariant w x).
    + destruct x as [[]|err]; intros Hf; [by eapply (cv_settles w)|by subst res].
    + intros r' Hk Hconv. by eapply Hk.
  - subst w'. split_and!; [done| |done]. intros Hf. unfold converged, settled.
    destruct (wb_result (r:=r) w) as (_ & Hch & Herr). subst res.
    destruct (value (Checking r) w) as [[n s d] e]. simpl in *. split.
    + destruct e; [|done]. destruct Hf. apply Herr. eauto.
    + destruct s; set_solver.
Qed.

Lemma Run_settles rs w results w' :
  cooperate I rs → I w → Run rs ModeApply w = (results, w') →
  I w' ∧ Forall2 (λ r res, rStatus res ≠ StatusFailed → converged r w') rs results ∧
  ∀ r, Forall (keeps_converged I r) rs → converged r w → converged r w'.
Proof.
  intros [Hconv Hkeeps]. revert w results.
  induction Hkeeps as [|r rs Hkeeps IH Hr]; intros w results HI.
  - intros [= <- <-]. split_and!; [done|constructor|done].
  - inversion_clear Hconv as [|?? Hc Hcs]. rewrite Run_cons. cbv zeta.
    destruct (run_one ModeApply r w) as [res w1] eqn:H1. simpl.
    destruct (Run rs ModeApply w1) as [results' w2] eqn:H2. simpl. intros [= <- <-].
    apply run_one_settles in H1 as (HI1 & Hset & Hkeep1); [|done..].
    apply IH in H2 as (HI2 & Hall & Hkeep2); [|done..].
    split_and!; [done| |].
    + constructor; [|done]. intros Hf. apply Hkeep2; [done|by apply Hset].
    + intros r' [Hk Hks]%Forall_cons Hcr. apply Hkeep2; [done|]. by apply Hkeep1.
Qed.
End cooperating.

(** On a host where everything has converged, a run in either mode changes nothing. *)
Lemma Run_converged rs mode w :
  Forall WellBehaved rs → Forall (λ r, converged r w) rs →
  Run rs mode w = ((λ r, (value (Checking r) w).1) <$> rs, w).
Proof.
  intros Hb Hc. induction Hb as [|r rs Hr Hrs IH]; [done|]. inversion_clear Hc.
  rewrite Run_cons. cbv zeta.
  assert (run_one mode r w = ((value (Checking r) w).1, w)) as ->.
  { destruct mode; [|by apply run_one_check].
    destruct (run_one_apply r w) as [[Hs _]|[_ Heq]]; [|done].
    by apply converged_not_would in Hs. }
  simpl. by rewrite IH.
Qed.

Lemma ExitCode_settled rs mode w :
  Forall (λ r, converged r w) rs →
  ExitCode ((λ r, (value (Checking r) w).1) <$> rs) mode = 0%Z.
Proof.
  intros Hc. unfold ExitCode.
  assert (existsb failed ((λ r, (value (Checking r) w).1) <$> rs) = false ∧
    existsb (λ r, Changed (rStatus r)) ((λ r, (value (Checking r) w).1) <$> rs) = false)
    as [-> ->]; [|by rewrite andb_false_r].
  induction Hc as [|r rs Hr Hrs [IH1 IH2]]; [done|]. rewrite !fmap_cons. cbn [existsb].
  apply settled_not_changed in Hr as [Hch Hf]. rewrite IH1, IH2, Hch. unfold failed.
  by rewrite bool_decide_false by done.
Qed.

(** After a run that failed nowhere the next one finds nothing to do. *)
Lemma settled_run_again I rs (results : list Result) mode w :
  Forall (Converges I) rs →
  Forall2 (λ r res, rStatus res ≠ StatusFailed → converged r w) rs results →
  Forall (λ res, rStatus res ≠ StatusFailed) results →
  let again := Run rs mode w in
  again.2 = w ∧ Forall (λ res, Changed (rStatus res) = false) again.1 ∧
  ExitCode again.1 mode = 0%Z.
Proof.
  intros Hc Hall Hok.
  assert (Forall (λ r, converged r w) rs) as Hconv.
  { clear -Hall Hok. induction Hall as [|r res rs results Hr Hall IH]; [constructor|].
    inversion_clear Hok. constructor; auto. }
  assert (Forall WellBehaved rs) as Hb.
  { eapply Forall_impl; [exact Hc|]. intros r Hr. apply _. }
  cbv zeta. rewrite Run_converged by done. cbn [fst snd]. split_and!; [done| |].
  - apply Forall_fmap. eapply Forall_impl; [exact Hconv|]. intros r Hr.
    by apply settled_not_changed in Hr as [? _].
  - by apply ExitCode_settled.
Qed.

Lemma ExitCode_zero results mode :
  ExitCode results mode = 0%Z → Forall (λ res, rStatus res ≠ StatusFailed) results.
Proof.
  unfold ExitCode. destruct (existsb failed results) eqn:Hf; [done|]. intros _.
  apply Forall_forall. intros r Hr Hs. assert (existsb failed results = true) as Ht; [|congruence].
  apply existsb_exists. exists r. split; [by apply list_elem_of_In|].
  unfold failed. by apply bool_decide_eq_true.
Qed.

(** ** The drop-in files cooperate *)

Lemma Path_limits e :
  Path e [limitsPersistFile] =
  Path e ["etc"; "security"; "limits.d"; "99-node-configurator.conf"].
Proof. unfold Path. by destruct (Root e). Qed.

(** The elements of the drop-ins' paths below the root. *)
Definition dropin_elems : list (list string) :=
  ["etc"; "security"; "limits.d"; "99-node-configurator.conf"]
  :: ((λ svc, ["etc"; "systemd"; "system"; svc +:+ ".service.d"; "99-node-configurator.conf"])
        <$> systemdLimitServices).

Lemma limits_dropins_paths e l :
  df_Path <$> limits_dropins e l = Path e <$> dropin_elems.
Proof. cbn -[Path]. by rewrite Path_limits. Qed.

Lemma dropin_elems_plain : Forall plain_elems dropin_elems.
Proof. by repeat constructor. Qed.

Lemma dropin_path_file e es :
  env_ok e = true → es ∈ dropin_elems →
  ∃ pre x, plain_elems (pre ++ [x]) ∧ Path e es = file_path pre x.
Proof.
  intros He Hin. assert (plain_elems es) as Hes.
  { by apply (proj1 (Forall_forall _ _) dropin_elems_plain). }
  destruct es as [|x pre _] using rev_ind; [exfalso; simpl in Hin; set_solver|].
  exists (env_elems e ++ pre), x. unfold file_path. rewrite <-app_assoc. split.
  - apply plain_elems_app. split; [by apply env_elems_plain|done].
  - by apply Path_plain.
Qed.

Lemma limits_paths_nodup e l : env_ok e = true → NoDup (df_Path <$> limits_dropins e l).
Proof.
  intros He. rewrite limits_dropins_paths. apply NoDup_fmap_2_strong.
  - intros es es' Hes Hes'. pose proof dropin_elems_plain as Hall. rewrite Forall_forall in Hall.
    by apply Path_inj; auto.
  - refine (bool_decide_unpack _ _). by vm_compute.
Qed.

Lemma limits_path_file e l d :
  env_ok e = true → d ∈ limits_dropins e l →
  ∃ pre x, plain_elems (pre ++ [x]) ∧ df_Path d = file_path pre x.
Proof.
  intros He Hd. assert (df_Path d ∈ df_Path <$> limits_dropins e l) as Hp
    by (apply list_elem_of_fmap; eauto).
  rewrite limits_dropins_paths in Hp. apply list_elem_of_fmap in Hp as (es & -> & Hes).
  by apply dropin_path_file.
Qed.

Lemma limits_cooperate {HK : Kernel} e l :
  env_ok e = true → cooperate (λ _, True) (dropin_resource <$> limits_dropins e l).
Proof.
  intros He. split.
  - apply Forall_fmap, Forall_forall. intros d Hd.
    destruct (limits_path_file e l d) as (pre & x & Hplain & Hpath); [done..|].
    by apply (dropin_converges pre x).
  - eapply StronglySorted_fmap; [|eapply NoDup_StronglySorted, (NoDup_fmap_1 df_Path);
      by apply limits_paths_nodup].
    intros d d' Hd Hd' Hne w x w' _ Hconv Happly.
    apply dropin_converged in Hconv. apply dropin_converged.
    destruct (limits_path_file e l d') as (pre & y & Hplain & Hpath); [done..|].
    assert (df_Path d ≠ file_path pre y) as Hdiff.
    { rewrite <-Hpath. intros Heq.
      apply list_elem_of_lookup in Hd as [i Hi]. apply list_elem_of_lookup in Hd' as [j Hj].
      assert (i = j) as ->; [|by simplify_eq].
      eapply (NoDup_lookup (df_Path <$> limits_dropins e l)); [by apply limits_paths_nodup|..].
      - by rewrite list_lookup_fmap, Hi.
      - by rewrite list_lookup_fmap, Hj, Heq. }
    simpl in Happly. unfold DropInFileResource_Apply in Happly. rewrite Hpath in Happly.
    rewrite bind_ok_run, map_err_run in Happly.
    destruct (WriteFileIfChanged _ _ _ w) as [rw w1] eqn:Hw.
    assert (w' = w1) as -> by (destruct rw; by injection Happly).
    destruct (fs w !! df_Path d) as [n|] eqn:Hn.
    + eapply ReadFile_same; [|exact Hconv]. rewrite Hn. symmetry.
      by eapply (WriteFileIfChanged_other pre y).
    + unfold value, ReadFile, read_node in Hconv. simpl in Hconv. by rewrite Hn in Hconv.
Qed.

(** ** What is built is well behaved *)

#[export] Instance cgroupv2_behaved {HK : Kernel} e : WellBehaved (cgroupv2_resource e).
Proof. apply (cv_behaved (I:=λ _, True)). Qed.

Section built.
Context {HK : Kernel} {HR : Runner} {HU : Unicode}.
(** The two commands that only ask. *)
Context {Hlist : ReadOnly (Sysutil.Run "systemctl" list_units_args)}.
Context {Hring : ∀ iface, ReadOnly (Sysutil.Run "ethtool" ["-g"; iface])}.

Lemma all_resources_behaved e iface f p : Forall WellBehaved (all_resources e iface f p).
Proof.
  unfold all_resources. rewrite !Forall_app. split_and!;
    repeat match goal with
    | |- Forall _ (_ <$> _) => apply Forall_fmap, Forall_forall; intros; simpl
    | |- Forall _ (if _ then _ else _) => case_bool
    | |- Forall _ [] => constructor
    | |- Forall _ (_ :: _) => constructor
    end; try apply _.
Qed.

Lemma Build_behaved e f p disabled opts w :
  Forall WellBehaved (value (Build e f p disabled opts) w).
Proof.
  unfold Build. rewrite value_bind by apply _. rewrite value_ret. apply Forall_forall.
  intros r [Hr _]%filterResources_in.
  pose proof (all_resources_behaved e (value (PrimaryInterface e) w) f p) as Hall.
  rewrite Forall_forall in Hall. by apply Hall.
Qed.
End built.

#[export] Instance Build_read_only {HK : Kernel} {HR : Runner} {HU : Unicode} e f p dis opts :
  ReadOnly (Build e f p dis opts).
Proof. unfold Build. apply _. Qed.

(** The names [Build] may use, in order. *)
Definition candidates_of (p : Profile) : list string :=
  ["sysctl"; "kernel-modules"; "swap"; "cgroup-v2"]
  ++ (msName <$> Mounts p)
  ++ (if (0 <? NoFile (Limits p))%Z
      then ["limits-conf"; "systemd-limits-containerd"; "systemd-limits-kubelet";
            "systemd-limits-cilium"] else [])
  ++ (if iqEnabled (pIRQ p) then ["irq-affinity"] else [])
  ++ (if RingBufferMax (pNIC p) || RPS (pNIC p) || XPS (pNIC p) then ["nic-tuning"] else [])
  ++ (if negb (String.eqb (CPUGovernor p) EmptyString) then ["cpu-governor"] else [])
  ++ (if ioEnabled (IOScheduler p) then ["io-scheduler"] else []).

(** May a resource of this name run? *)
Definition allowed (disabled : list string) (opts : Options) (name : string) : Prop :=
  (name ∉ disabled) ∧ (name ∉ Skip opts) ∧ (Only opts = [] ∨ name ∈ Only opts).

#[export] Instance allowed_dec disabled opts name : Decision (allowed disabled opts name).
Proof. unfold allowed. apply _. Defined.

Lemma filterResources_names all disabled opts :
  Name <$> filterResources all disabled opts = filter (allowed disabled opts) (Name <$> all).
Proof.
  induction all as [|r all IH]; [done|]. unfold filterResources in *. rewrite fmap_cons.
  destruct (decide (allowed disabled opts (Name r))) as [Ha|Ha].
  - rewrite (filter_cons_True _ (Name r)) by done. rewrite filter_cons_True.
    + by rewrite fmap_cons, IH.
    + assert (r ∈ filterResources [r] disabled opts) as Hr.
      { apply filterResources_in. split; [by left|exact Ha]. }
      by apply list_elem_of_filter in Hr as [? _].
  - rewrite (filter_cons_False _ (Name r)) by done. rewrite filter_cons_False; [done|].
    intros Hp. apply Ha.
    assert (r ∈ filterResources [r] disabled opts) as Hr.
    { apply list_elem_of_filter. split; [done|by left]. }
    by apply filterResources_in in Hr as [_ ?].
Qed.

Lemma all_resources_names {HK : Kernel} {HR : Runner} {HU : Unicode} e iface f p :
  Name <$> all_resources e iface f p = candidates_of p.
Proof.
  unfold all_resources, candidates_of. rewrite !fmap_app.
  rewrite <-list_fmap_compose. by repeat case_match.
Qed.

(** ** Properties *)

(** C2: the run that converges. Where the resources cooperate (each settles after its own
    Apply, none undoes what an earlier one has settled), one run in apply mode leaves every
    resource that it does not report as failed settled, whatever failed before or after it.
    If none failed, the next run, in either mode, changes nothing, reports no change and
    exits with 0. *)
Theorem Run_converges (I : World → Prop) (rs : list Resource) (w w' : World)
    (results : list Result) (mode : Mode)
    (Hco : cooperate I rs) (HI : I w) (Hrun : Run rs ModeApply w = (results, w')) :
  Forall2 (λ r res, rStatus res ≠ StatusFailed → converged r w') rs results ∧
  (Forall (λ res, rStatus res ≠ StatusFailed) results →
     let again := Run rs mode w' in
     again.2 = w' ∧ Forall (λ res, Changed (rStatus res) = false) again.1 ∧
     ExitCode again.1 mode = 0%Z).
Proof.
  destruct (Run_settles I rs w results w') as (_ & Hall & _); [done..|].
  split; [done|]. intros Hok. eapply settled_run_again; [apply (co_converges _ _ Hco)|done..].
Qed.

(** C15: checking never changes the host. Whatever the profile, the filters and the state of
    the host, if the commands that only ask ([systemctl list-units], [ethtool -g]) leave the
    host alone, a run in check mode leaves it exactly as it was; its results are the
    resources' own checks, one each in order, and none claims a change was made. *)
Theorem check_mode_read_only {HK : Kernel} {HR : Runner} {HU : Unicode}
    (Hlist : ReadOnly (Sysutil.Run "systemctl" list_units_args))
    (Hring : ∀ iface, ReadOnly (Sysutil.Run "ethtool" ["-g"; iface]))
    (e : Env) (f : Facts) (p : Profile) (disabled : list string) (opts : Options) (w : World) :
  let rs := value (Build e f p disabled opts) w in
  (Build e f p disabled opts w).2 = w ∧
  Run rs ModeCheck w = ((λ r, (value (Checking r) w).1) <$> rs, w) ∧
  rName <$> (Run rs ModeCheck w).1 = Name <$> rs ∧
  Forall (λ res, rStatus res ≠ StatusChanged) (Run rs ModeCheck w).1.
Proof.
  intros rs. pose proof (Build_behaved e f p disabled opts w) as Hb. fold rs in Hb.
  assert (Run rs ModeCheck w = ((λ r, (value (Checking r) w).1) <$> rs, w)) as Hrun
    by by apply Run_check.
  rewrite Hrun. cbn [fst]. split_and!; [apply (Build_read_only e f p disabled opts w)|done|..].
  - rewrite <-list_fmap_compose. apply list_fmap_ext. intros i r Hr.
    rewrite Forall_lookup in Hb. simpl. by destruct (wb_result (WellBehaved := Hb i r Hr) w).
  - apply Forall_fmap. eapply Forall_impl; [exact Hb|]. intros r Hr.
    by destruct (wb_result (r:=r) w) as (_ & ? & _).
Qed.

(** C34: which resources run, and in which order: those of the profile, from the sysctls to
    the I/O scheduler, without the names the configuration disables or the command line
    skips, and only the named ones if any are named. *)
Theorem Build_names {HK : Kernel} {HR : Runner} {HU : Unicode} (e : Env) (f : Facts)
    (p : Profile) (disabled : list string) (opts : Options) (w : World) :
  Name <$> value (Build e f p disabled opts) w =
  filter (allowed disabled opts) (candidates_of p).
Proof.
  unfold Build. rewrite value_bind by apply _. rewrite value_ret.
  by rewrite filterResources_names, all_resources_names.
Qed.

(** C35: the exit code: 1 exactly if a resource failed, 2 exactly if a check found pending
    changes and nothing failed, 0 otherwise. *)
Theorem ExitCode_spec (results : list Result) (mode : Mode) :
  (ExitCode results mode = 1%Z ↔ ∃ r, r ∈ results ∧ rStatus r = StatusFailed) ∧
  (ExitCode results mode = 2%Z ↔
     mode = ModeCheck ∧ (∀ r, r ∈ results → rStatus r ≠ StatusFailed) ∧
     ∃ r, r ∈ results ∧ (rStatus r = StatusChanged ∨ rStatus r = StatusWouldChange)) ∧
  ExitCode results mode ∈ [0%Z; 1%Z; 2%Z].
Proof.
  assert (existsb failed results = true ↔ ∃ r, r ∈ results ∧ rStatus r = StatusFailed) as Hf.
  { rewrite existsb_exists. setoid_rewrite list_elem_of_In. unfold failed.
    by setoid_rewrite bool_decide_eq_true. }
  assert (existsb (λ r, Changed (rStatus r)) results = true ↔
    ∃ r, r ∈ results ∧ (rStatus r = StatusChanged ∨ rStatus r = StatusWouldChange)) as Hc.
  { rewrite existsb_exists. setoid_rewrite list_elem_of_In. unfold Changed.
    setoid_rewrite orb_true_iff. by setoid_rewrite bool_decide_eq_true. }
  unfold ExitCode. destruct (existsb failed results) eqn:Hfb.
  - split_and!; [by split; [intros _; apply Hf|]| |set_solver]. split; [done|]. intros (_ & Hnone & _).
    destruct (proj1 Hf eq_refl) as (r & Hr & Hs). by destruct (Hnone r Hr).
  - assert (∀ r, r ∈ results → rStatus r ≠ StatusFailed) as Hnone.
    { intros r Hr Hs. assert (false = true) by (apply Hf; eauto). done. }
    split; [|split].
    + split; [by destruct (bool_decide _ && _)|]. intros (r & Hr & Hs). by destruct (Hnone r Hr).
    + rewrite <-Hc. destruct mode; simpl.
      * split; [done|by intros [? _]].
      * destruct (existsb (λ r, Changed (rStatus r)) results); [done|].
        split; [done|]. by intros (_ & _ & ?).
    + destruct (bool_decide _ && _); set_solver.
Qed.

(** *** Concrete hosts *)

(** Commands that do nothing and print nothing. *)
Definition silent_runner : Runner := λ _ _ w, ((EmptyString, None), w).

Definition limits_resources : list Resource :=
  dropin_resource (HK:=plain_kernel) <$> limits_dropins New (mkLimits 1048576 0).

Example Run_converges_witness :
  let w' := (Run limits_resources ModeApply (etc_world [])).2 in
  let again := Run limits_resources ModeCheck w' in
  again.2 = w' ∧ Forall (λ res, Changed (rStatus res) = false) again.1 ∧
  ExitCode again.1 ModeCheck = 0%Z.
Proof.
  intros w'.
  apply (Run_converges (λ _, True) limits_resources (etc_world []) w'
    (Run limits_resources ModeApply (etc_world [])).1 ModeCheck).
  - by apply limits_cooperate.
  - done.
  - apply surjective_pairing.
  - refine (bool_decide_unpack _ _). by vm_compute.
Defined.

Example check_mode_read_only_witness :
  let p := Profile.Build (HP:=demo_platform) demo_facts demo_overrides in
  (Engine.Build (HK:=plain_kernel) (HR:=silent_runner) (HU:=plain_unicode) New demo_facts p []
     (mkOptions [] []) demo_world).2 = demo_world.
Proof.
  apply (check_mode_read_only (HK:=plain_kernel) (HR:=silent_runner) (HU:=plain_unicode));
    intros; by intros w.
Defined.
