(* ===== verification/Tree.v ===== *)
(** * The file system stays a tree

    Every path of a host is clean and lies in a directory ([tree]). Whatever the program
    does, and whether it succeeds, it keeps that, removes nothing that was there and turns no
    directory, regular file or kernel attribute into another kind of node ([grows]). *)

From S2P Require Import Prelude GoStrings GoPath GoOS Sysutil Frame GoFmt.
From S2P Require Import Resource DropIn Sysctl Kmod Swap Mount Attr CPUGovernor IOScheduler.
From S2P Require Import IRQAffinity CPUMask NIC Applies Zones GoFloat GoTime Facts Cache Gather Profile Engine.

(** ** Trees *)

Definition clean_path (q : string) : Prop := ∃ es, plain_elems es ∧ q = rooted_path es.

Record tree (m : gmap string node) : Prop := {
  tree_root : m !! "/" = Some NDir;
  tree_clean : ∀ q, is_Some (m !! q) → clean_path q;
  tree_parent : ∀ es e, plain_elems (es ++ [e]) → is_Some (m !! rooted_path (es ++ [e])) →
    m !! rooted_path es = Some NDir
}.

Inductive node_kind : Set := KDir | KFile | KKnob.

Definition kind_of (n : node) : node_kind :=
  match n with NDir => KDir | NFile _ _ => KFile | NKnob _ => KKnob end.

(** A tree stays one, and everything in it stays what it is. *)
Definition grows (w w' : World) : Prop :=
  (tree (fs w) → tree (fs w')) ∧
  ∀ q n, fs w !! q = Some n → ∃ n', fs w' !! q = Some n' ∧ kind_of n' = kind_of n.

#[export] Instance grows_preorder : PreOrder grows.
Proof.
  split; [by split; eauto|]. intros w1 w2 w3 [Ht Hk] [Ht' Hk']. split; [auto|].
  intros q n (n2 & Hn2 & <-)%Hk. destruct (Hk' q n2 Hn2) as (n3 & ? & <-). eauto.
Qed.

(** *** Deciding it *)

Definition is_tree (m : gmap string node) : bool :=
  is_dir m "/" &&
  forallb (λ q, String.eqb q (rooted_path (clean_elems q)) &&
    match reverse (clean_elems q) with
    | [] => true
    | _ :: up => is_dir m (rooted_path (reverse up))
    end) (map_to_list m).*1.

Lemma is_dir_true m q : is_dir m q = true ↔ m !! q = Some NDir.
Proof. unfold is_dir. destruct (m !! q) as [[]|]; naive_solver. Qed.

Lemma is_tree_tree m : is_tree m = true → tree m.
Proof.
  unfold is_tree. rewrite andb_true_iff, is_dir_true, forallb_forall. intros [Hroot Hall].
  assert (∀ q, is_Some (m !! q) → q = rooted_path (clean_elems q) ∧
    match reverse (clean_elems q) with
    | [] => True
    | _ :: up => m !! rooted_path (reverse up) = Some NDir
    end) as H.
  { intros q [n Hn]. specialize (Hall q). rewrite <-list_elem_of_In, list_elem_of_fmap in Hall.
    rewrite andb_true_iff, String.eqb_eq in Hall. destruct Hall as [Hq Hd].
    { exists (q, n). split; [done|]. by apply elem_of_map_to_list. }
    split; [done|]. destruct (reverse _); [done|]. by apply is_dir_true. }
  split; [done|..].
  - intros q Hq. apply H in Hq as [Hq _]. exists (clean_elems q). split; [|done].
    apply clean_elems_rooted. rewrite Hq. apply is_rooted_path.
  - intros es e Hes Hq. apply H in Hq as [_ Hq].
    rewrite clean_elems_rooted_path, reverse_snoc in Hq by done. by rewrite reverse_involutive in Hq.
Qed.

(** *** Adding to it *)

Lemma clean_path_file es e : plain_elems (es ++ [e]) → clean_path (file_path es e).
Proof. intros H. by exists (es ++ [e]). Qed.

Lemma below_clean base q : plain_elems base → below base q → clean_path q.
Proof. intros Hb (es & Hes & ->). exists (base ++ es). by rewrite plain_elems_app. Qed.

Section adding.
Context (m : gmap string node) (Hm : tree m) (p : string).

(** A path that is not there yet, in a directory. *)
Lemma tree_add n :
  clean_path p → m !! p = None → m !! DirPath p = Some NDir → tree (<[p:=n]> m).
Proof using Hm.
  intros Hp Hnone Hdir. destruct Hm as [Hroot Hclean Hparent]. split.
  - rewrite lookup_insert_ne; [done|]. intros ->. congruence.
  - intros q. rewrite lookup_insert_is_Some. intros [->|[_ Hq]]; auto.
  - intros es e Hes Hq.
    assert (m !! rooted_path es = Some NDir) as Hd.
    { apply lookup_insert_is_Some in Hq as [->|[_ Hq]]; [by rewrite DirPath_snoc in Hdir|eauto]. }
    rewrite lookup_insert_ne; [done|]. intros ->. congruence.
Qed.

Lemma tree_update n n' : m !! p = Some n → kind_of n' = kind_of n → tree (<[p:=n']> m).
Proof using Hm.
  intros Hp Hk. destruct Hm as [Hroot Hclean Hparent].
  assert (∀ q, m !! q = Some NDir → <[p:=n']> m !! q = Some NDir) as Hdir.
  { intros q Hq. destruct (decide (p = q)) as [<-|Hne]; [|by rewrite lookup_insert_ne].
    rewrite lookup_insert_eq. rewrite Hq in Hp. injection Hp as <-. by destruct n'. }
  assert (∀ q, is_Some (<[p:=n']> m !! q) → is_Some (m !! q)) as Hsome.
  { intros q. rewrite lookup_insert_is_Some. intros [->|[_ ?]]; eauto. }
  split; eauto.
Qed.
End adding.

Lemma grows_add w p n :
  clean_path p → fs w !! p = None → fs w !! DirPath p = Some NDir →
  grows w (set_fs (insert p n) w).
Proof.
  intros Hp Hnone Hdir. split; [intros Hm; by apply tree_add|].
  intros q n0 Hq. exists n0. simpl. rewrite lookup_insert_ne; [done|congruence].
Qed.

Lemma grows_update w p n n' :
  fs w !! p = Some n → kind_of n' = kind_of n → grows w (set_fs (insert p n') w).
Proof.
  intros Hp Hk. split; [intros Hm; by eapply tree_update|].
  intros q n0 Hq. simpl. destruct (decide (p = q)) as [<-|Hne].
  - exists n'. rewrite lookup_insert_eq. naive_solver.
  - exists n0. by rewrite lookup_insert_ne.
Qed.

(** ** The calls *)

Section calls.
Context {HK : Kernel}.

Lemma write_regular_grows p mode data w :
  clean_path p → (∃ mode c, fs w !! p = Some (NFile mode c)) ∨
    (fs w !! p = None ∧ fs w !! DirPath p = Some NDir) →
  grows w (write_regular p mode data w).2.
Proof.
  intros Hp Hw. assert (∀ c, grows w (set_fs (insert p (NFile mode c)) w)) as H.
  { intros c. destruct Hw as [(mode' & c' & Hw)|[Hw Hd]].
    - by eapply grows_update.
    - by apply grows_add. }
  unfold write_regular. destruct (fault OpWrite p); apply H.
Qed.

Lemma creatable_dir p w :
  value (creatable p) w = Ok () → fs w !! DirPath p = Some NDir.
Proof.
  unfold value, creatable. simpl. destruct (is_dir _ _) eqn:Hd; [|done]. by apply is_dir_true in Hd.
Qed.

Lemma WriteFile_grows p data perm : clean_path p → Respects grows (WriteFile p data perm).
Proof.
  intros Hp w. unfold WriteFile. rewrite bind_run. cbn [fst snd gets].
  destruct (fs w !! p) as [[|mode c|old]|] eqn:Hn.
  - reflexivity.
  - apply write_regular_grows; eauto.
  - destruct (knob_write p old data); [by eapply grows_update|reflexivity].
  - rewrite bind_ok_value by (unfold creatable; apply _).
    destruct (value (creatable p) w) as [[]|] eqn:Hc; [|reflexivity].
    apply write_regular_grows; [done|]. right. split; [done|]. by apply creatable_dir.
Qed.

Lemma Mkdir1_grows p w :
  clean_path p → fs w !! DirPath p = Some NDir ∨ is_Some (fs w !! p) →
  grows w (Mkdir1 p w).2 ∧ ((Mkdir1 p w).1 = Ok () → fs (Mkdir1 p w).2 !! p = Some NDir).
Proof.
  intros Hp Hd. unfold Mkdir1. rewrite bind_run. cbn [fst snd gets].
  destruct (fs w !! p) as [[]|] eqn:Hn; try by split.
  destruct (fault OpMkdir p); [by split|]. split; [|intros _; apply lookup_insert_eq].
  apply grows_add; [done..|]. by destruct Hd as [?|[? ?]].
Qed.

(** The directories on the way, from one that is there. *)
Lemma mkdirs_grow pre es w :
  plain_elems (pre ++ es) →
  (pre = [] ∧ fs w !! "/" = Some NDir ∨
   ∃ up e, pre = up ++ [e] ∧ fs w !! rooted_path up = Some NDir) →
  grows w (for_each ((λ l, rooted_path (pre ++ l)) <$> (prefixes es ++ [es])) Mkdir1 w).2.
Proof.
  revert pre w. induction es as [|x es IH]; intros pre w Hes Hpre.
  all: assert (clean_path (rooted_path pre)) as Hclean
    by (exists pre; split; [by apply plain_elems_app in Hes as [? _]|done]).
  all: assert (fs w !! DirPath (rooted_path pre) = Some NDir ∨ is_Some (fs w !! rooted_path pre)) as Hd.
  1,3: destruct Hpre as [[-> Hr]|(up & e & -> & Hu)]; [right; by exists NDir|left];
    by rewrite DirPath_snoc by by apply plain_elems_app in Hes as [? _].
  all: destruct (Mkdir1_grows (rooted_path pre) w Hclean Hd) as [Hg Hok].
  - cbn [prefixes app fmap list_fmap for_each]. rewrite app_nil_r, bind_ok_run.
    by destruct (Mkdir1 _ w) as [[u|err] w1].
  - cbn [prefixes app fmap list_fmap for_each]. rewrite app_nil_r, bind_ok_run.
    destruct (Mkdir1 _ w) as [[[]|err] w1]; cbn [fst snd] in *; [|done].
    etrans; [exact Hg|]. specialize (IH (pre ++ [x]) w1).
    assert (∀ l, rooted_path (pre ++ x :: l) = rooted_path ((pre ++ [x]) ++ l)) as Heq
      by (intros l; by rewrite <-app_assoc).
    rewrite fmap_app, <-list_fmap_compose. cbn [fmap list_fmap compose].
    rewrite fmap_app in IH. cbn [fmap list_fmap] in IH.
    rewrite Heq, (list_fmap_ext _ (λ l, rooted_path ((pre ++ [x]) ++ l))) by (intros; apply Heq).
    apply IH; [by rewrite <-app_assoc|]. right. eauto.
Qed.

Lemma MkdirAll_grows p : clean_path p → Respects grows (MkdirAll p).
Proof.
  intros (es & Hes & ->) w. unfold MkdirAll. rewrite ancestors_rooted by done.
  pose proof (mkdirs_grow [] es) as H. cbn [app] in H. rewrite fmap_app in H.
  split.
  - intros Hm. apply H; [done| |done]. left. split; [done|]. by apply tree_root.
  - intros q n Hn. destruct (for_each _ Mkdir1 w) as [r w'] eqn:Hrun.
    assert (MkdirAll (rooted_path es) w = (r, w')) as Hall
      by (unfold MkdirAll; by rewrite ancestors_rooted).
    apply MkdirAll_any in Hall as (_ & Hdirs%only_dirs_added_subseteq & _).
    exists n. split; [|done]. by eapply lookup_weaken.
Qed.

(** *** Files that are replaced *)

Lemma CreateTemp_made dir prefix w name w' :
  CreateTemp dir prefix w = (Ok name, w') →
  fs w !! DirPath name = Some NDir ∧ ∃ n, name = child dir (prefix +:+ Itoa n).
Proof.
  unfold CreateTemp. generalize O. induction maxTempTries as [|tries IH]; intros i; [done|].
  simpl. rewrite bind_run. simpl.
  destruct (fs w !! child dir _) eqn:Hn; [apply IH|].
  rewrite bind_ok_value by (unfold creatable; apply _).
  destruct (value (creatable _) w) as [[]|] eqn:Hc; [|done]. intros [= <- _].
  split; [by apply creatable_dir|]. eexists. reflexivity.
Qed.

(** Only a regular file is replaced, or nothing. *)
Lemma fill_temp_target tmp path content mode w w' :
  tmp ≠ path → fill_temp tmp path content mode w = (Ok true, w') →
  fs w !! path = None ∨ ∃ mode c, fs w !! path = Some (NFile mode c).
Proof.
  intros Hne. unfold fill_temp.
  rewrite bind_run, FileWrite_run. destruct (fault OpWrite tmp); [done|]. cbn [fst snd].
  rewrite bind_run, FileChmod_run. destruct (fault OpChmod tmp); [done|]. cbn [fst snd].
  rewrite bind_ok_run, map_err_run, FileClose_run. destruct (fault OpClose tmp); [done|].
  rewrite bind_ok_run, map_err_run, Rename_run. simpl.
  rewrite lookup_alter_eq, lookup_insert_eq, lookup_alter_ne, lookup_insert_ne by done.
  destruct (fault OpRename path); [done|]. destruct (fs w !! path) as [[]|]; naive_solver.
Qed.

Section file.
Context (es : list string) (e : string) (Hplain : plain_elems (es ++ [e])).
Abbreviation path := (file_path es e).

Lemma temp_clean n :
  clean_path (child (DirPath path) (("." +:+ BasePath path +:+ ".tmp-") +:+ Itoa n)).
Proof using Hplain.
  rewrite DirPath_file, BasePath_file by done. pose proof Hplain as [Hes He]%plain_elems_app.
  rewrite child_rooted by done. apply clean_path_file, plain_elems_app. split; [done|].
  constructor; [|constructor]. apply plain_elems_cons in He as [He _].
  apply plain_elem_inv in He as (Hfree & _).
  apply plain_elem_long; [|rewrite !str_length_app; simpl; lia].
  by rewrite !sep_free_app, Hfree, Itoa_sep_free by done.
Qed.

Lemma replace_file_grows content mode : Respects grows (replace_file path content mode).
Proof using Hplain.
  intros w. unfold replace_file. rewrite bind_ok_run, map_err_run.
  assert (clean_path (DirPath path)) as Hdir.
  { rewrite DirPath_file by done. exists es. by apply plain_elems_app in Hplain as [? _]. }
  pose proof (MkdirAll_grows (DirPath path) Hdir w) as Hg.
  destruct (MkdirAll (DirPath path) w) as [[[]|err] w1] eqn:Hmk; cbn [fst snd] in *; [|done].
  apply MkdirAll_ok in Hmk as [_ Hd]. etrans; [exact Hg|]. clear Hg.
  rewrite bind_ok_run, map_err_run.
  destruct (CreateTemp _ _ w1) as [[tmp|err] w2] eqn:Hct; cbn [fst snd].
  2: { by apply CreateTemp_err in Hct as ->. }
  pose proof (CreateTemp_name _ _ Hplain _ _ _ Hct) as Hne.
  pose proof (CreateTemp_made _ _ _ _ _ Hct) as [Htd [n ->]].
  apply CreateTemp_ok in Hct as [Htmp ->].
  match goal with |- grows _ ?x.2 => destruct x as [r w3] eqn:Hrun end.
  pose proof Hrun as Hr. unfold deferred in Hr. rewrite bind_run in Hr.
  apply deferred_fill_spec in Hrun as [[-> ->]|(err & -> & [->|(_ & n' & ->)])]; [|done| |done..].
  2: { by apply grows_add; [apply temp_clean|..]. }
  destruct (fill_temp _ path content mode _) as [r1 w4] eqn:Hfill.
  cbn [fst snd] in Hr. rewrite bind_run in Hr. injection Hr as -> _.
  apply fill_temp_target in Hfill; [|done]. simpl in Hfill.
  rewrite lookup_insert_ne in Hfill by done. destruct Hfill as [Hp|(m' & c & Hp)].
  - apply grows_add; [by apply clean_path_file|done..].
  - by eapply grows_update.
Qed.

Lemma WriteFileIfChanged_grows content mode :
  Respects grows (WriteFileIfChanged path content mode).
Proof using Hplain.
  unfold WriteFileIfChanged. respects_bind.
  intros [c|err]; apply if_respects; (apply replace_file_grows || apply _).
Qed.

Lemma BackupFile_grows : Respects grows (BackupFile path).
Proof using Hplain.
  unfold BackupFile. respects_bind. intros [data|err]; [|apply _].
  respects_bind. intros [u|err]; [apply _|]. apply WriteFile_grows.
  unfold backup_path, file_path. rewrite rooted_path_app. apply clean_path_file.
  pose proof Hplain as [Hes He]%plain_elems_app. apply plain_elems_app. split; [done|].
  constructor; [|constructor]. apply plain_elems_cons in He as [He _].
  apply plain_elem_inv in He as (Hfree & _).
  apply plain_elem_long; [by rewrite sep_free_app, Hfree|rewrite str_length_app; simpl; lia].
Qed.
End file.
End calls.

(** ** The resources *)

Lemma dropin_managed l d : d ∈ limits_dropins New l → df_Path d ∈ managed_files.
Proof.
  intros Hd. assert (df_Path d ∈ df_Path <$> limits_dropins New l) as Hp
    by (apply list_elem_of_fmap; eauto).
  rewrite limits_dropins_paths in Hp.
  assert (Forall (λ q, q ∈ managed_files) (Path New <$> dropin_elems)) as Hall.
  { refine (bool_decide_unpack _ _). by vm_compute. }
  rewrite Forall_forall in Hall. by apply Hall.
Qed.

Section resources.
Context {HK : Kernel} {HR : Runner} {HU : Unicode} {HP : Platform}.

(** The commands keep the host a tree as well. *)
Context (Hcmd : ∀ name args, Respects grows (Sysutil.Run name args)).

Lemma Path_clean es : plain_elems es → clean_path (Path New es).
Proof. intros Hes. rewrite Path_New by done. by exists es. Qed.

Lemma SysctlPath_clean k : clean_path (SysctlPath New k).
Proof.
  rewrite SysctlPath_elems by done. eexists. split; [|done].
  apply plain_elems_app. split; [by apply env_elems_plain|].
  apply plain_elems_app. split; [by repeat constructor|apply sysctl_elems_plain].
Qed.

Lemma managed_file p : p ∈ managed_files → ∃ es e, plain_elems (es ++ [e]) ∧ p = file_path es e.
Proof.
  assert (Forall (λ p, String.eqb p (rooted_path (clean_elems p)) &&
    nonempty (clean_elems p) = true) managed_files) as H by by repeat constructor.
  rewrite Forall_forall in H. intros [Hp Hne]%H%andb_true_iff. apply String.eqb_eq in Hp.
  destruct (clean_elems p) as [|e es _] eqn:Hes using rev_ind; [done|].
  exists es, e. split; [|done]. rewrite <-Hes. apply clean_elems_rooted.
  rewrite Hp. apply is_rooted_path.
Qed.

Lemma write_grows p content mode :
  p ∈ managed_files → Respects grows (WriteFileIfChanged p content mode).
Proof.
  intros (es & e & Hes & ->)%managed_file. exact (WriteFileIfChanged_grows es e Hes content mode).
Qed.

Lemma fstab_grows : fstab_respects grows New.
Proof.
  unfold fstab_respects. rewrite fstabPath_file by done.
  split; [|intros content]; apply BackupFile_grows || apply WriteFileIfChanged_grows;
    by apply fstab_plain.
Qed.

Context {Hlist : ReadOnly (Sysutil.Run "systemctl" list_units_args)}.
Context {Hask : ∀ iface, ReadOnly (Sysutil.Run "ethtool" ["-g"; iface])}.

Lemma all_resources_grow iface f p :
  iface = EmptyString ∨ plain_elem iface = true →
  Forall (λ m, clean_path (msPath m)) (Mounts p) →
  Forall (λ r, Respects grows (Apply r)) (all_resources New iface f p).
Proof using Hcmd Hlist Hask.
  intros Hi Hm. unfold all_resources. rewrite !Forall_app. split_and!.
  - rewrite !Forall_cons. repeat (apply conj); [..|constructor].
    + apply sysctl_respects; [apply _|..].
      * intros k v. apply WriteFile_grows, SysctlPath_clean.
      * intros content. by apply write_grows; left.
    + apply kmod_respects; [apply _|auto|]. intros content. by apply write_grows; right; left.
    + apply swap_respects; auto using fstab_grows; apply _.
    + apply read_only_respects; apply _.
  - apply Forall_fmap. eapply Forall_impl; [exact Hm|]. intros m Hp.
    apply mount_respects; [apply _|by apply MkdirAll_grows|auto|].
    apply persistFstab_respects; [apply _|]. apply fstab_grows.
  - case_match; [|constructor]. apply Forall_fmap. apply Forall_forall. intros d Hd.
    apply dropin_respects; [apply _|]. intros mode. apply write_grows.
    by eapply dropin_managed.
  - case_match; [|constructor]. apply Forall_singleton, irq_respects; [apply _|].
    intros n v. apply WriteFile_grows, Path_clean. repeat constructor; apply plain_elem_Itoa.
  - case_match; [|constructor]. apply Forall_singleton, nic_respects; [apply _|apply _|auto|].
    intros Hne d a w dirs dir Hk Hd Hin. destruct Hi as [?|Hi]; [done|].
    apply WriteFile_grows, (below_clean net_base); [by repeat constructor|].
    eapply queue_mask_below; [..|exact Hd|exact Hin]; done.
  - case_match; [|constructor]. apply Forall_singleton, governor_respects; [apply _|].
    intros w ps q Hp Hin. apply WriteFile_grows. apply (below_clean cpu_base); [by repeat constructor|].
    destruct (governorPaths_alike (CPUGovernor p) w w ltac:(done)) as [_ Hall].
    specialize (Hall ps Hp). rewrite Forall_forall in Hall. by apply Hall.
  - case_match; [|constructor]. apply Forall_singleton, scheduler_respects; [apply _|].
    intros dev Hdev. apply WriteFile_grows, Path_clean. by repeat constructor.
Qed.

Lemma Build_mounts_clean f ov : Forall (λ m, clean_path (msPath m)) (Mounts (Profile.Build f ov)).
Proof.
  assert (clean_path bpffsPath) as H
    by (exists ["sys"; "fs"; "bpf"]; by split; [repeat constructor|]).
  assert (Mounts (Profile.Build f ov) = [] ∨ Mounts (Profile.Build f ov) = [bpffs_mount]) as [->| ->].
  { unfold Profile.Build, applyCiliumPrereqs, applyOverrides, applyScaling.
    repeat case_match; auto. }
  all: repeat constructor. exact H.
Qed.

(** Building and running them, in either mode and with any filters. *)
Lemma engine_grows f ov disabled opts mode :
  Respects grows (rs <- Engine.Build New f (Profile.Build f ov) disabled opts;; Engine.Run rs mode).
Proof using Hcmd Hlist Hask.
  intros w. rewrite bind_value by apply _. apply Run_respects; [apply _|apply Build_behaved|].
  unfold Engine.Build. rewrite value_bind, value_ret by apply _.
  apply Forall_forall. intros r [Hr _]%filterResources_in. revert r Hr. apply Forall_forall.
  apply all_resources_grow; [apply PrimaryInterface_plain|apply Build_mounts_clean].
Qed.
End resources.

(** ** Gathering the facts *)

Section gathering.
Context {HK : Kernel} {HT : Clock} {HC : Cloud} {HP : Platform}.

Lemma saveCache_grows env path es e f :
  Path env [path] = file_path es e → plain_elems (es ++ [e]) →
  Respects grows (saveCache env path f).
Proof.
  intros Hp Hes. unfold saveCache. respects_bind. intros t.
  destruct (marshal _) as [data|err]; [|apply _]. rewrite Hp.
  respects_bind; [|intros _; by apply WriteFile_grows, clean_path_file].
  apply MkdirAll_grows. rewrite DirPath_file by done. exists es.
  by apply plain_elems_app in Hes as [? _].
Qed.

Lemma Gather_grows g es e :
  cache_file g = file_path es e → plain_elems (es ++ [e]) → Respects grows (Gather g).
Proof.
  intros Hp Hes w. rewrite Gather_run. simpl. destruct (identified w) as [f|err]; [|reflexivity].
  destruct (cached g (InstanceID f) w); [reflexivity|]. rewrite from_api_run.
  destruct (value (gatherInstanceTypeInfo _ _) w); [|reflexivity]. by eapply saveCache_grows.
Qed.
End gathering.
