(* ===== verification/Cooperate.v ===== *)
(** * The resources together

    The whole list the engine runs on a host: no resource undoes what an earlier one has
    settled, so an apply that reports no failure leaves a host that a check finds nothing
    to change on. *)

From S2P Require Import Prelude GoStrings GoPath GoOS Sysutil Frame GoFmt.
From S2P Require Import Resource DropIn Sysctl Kmod Swap Mount Attr CPUGovernor IOScheduler.
From S2P Require Import IRQAffinity CPUMask NIC Applies Zones GoFloat GoJSON Facts Profile Engine Tree.

(** ** The resources of a profile *)

Inductive kind : Set :=
| KSysctl | KModules | KSwap | KCgroup | KMount | KDropIn (d : DropInFileResource)
| KIRQ | KNIC | KGovernor | KScheduler.

#[export] Instance kind_eq_dec : EqDecision kind.
Proof.
  assert (EqDecision DropInFileResource) by solve_decision. solve_decision.
Defined.

Definition looks_at (k : kind) : list zone :=
  match k with
  | KSysctl => [ZSysctl; ZManaged (Path New [sysctlPersistFile])]
  | KModules => [ZModules; ZManaged (Path New [modulesPersistFile])]
  | KSwap => [ZSwaps; ZFstab]
  | KCgroup => []
  | KMount => [ZMounts; ZFstab]
  | KDropIn d => [ZManaged (df_Path d)]
  | KIRQ => [ZInterrupts; ZIrq]
  | KNIC => [ZNet; ZRing]
  | KGovernor => [ZCpu]
  | KScheduler => [ZBlock]
  end.

Definition touches (k : kind) : list zone :=
  match k with
  | KIRQ => [ZIrq]
  | _ => looks_at k
  end.

(** No [Apply] of the second touches what the check of the first looks at. *)
Definition apart (k k' : kind) : bool :=
  forallb (λ z, negb (bool_decide (z ∈ touches k'))) (looks_at k).

(** The two editors of fstab, in the order they run. *)
Definition swap_then_mount (k k' : kind) : bool :=
  match k, k' with KSwap, KMount => true | _, _ => false end.

Section host.
Context {HK : Kernel} {HR : Runner} {HU : Unicode}.
Context (iface : string) (f : Facts) (p : Profile).

Definition sysctl_of : SysctlResource := mkSysctl New (Sysctls p) (Path New [sysctlPersistFile]).
Definition kmod_of : KernelModuleResource :=
  mkKmod New (Modules p) (Path New [modulesPersistFile]).
Definition bpffs_of : MountResource := mount_of New bpffs_mount.
Definition irq_of : IRQAffinityResource := mkIRQ New iface (VCPUs f).
Definition nic_of : NICResource :=
  mkNIC New iface (VCPUs f) (RingBufferMax (pNIC p)) (RPS (pNIC p)) (XPS (pNIC p)).
Definition governor_of : CPUGovernorResource := mkCPUGovernor New (CPUGovernor p).
Definition scheduler_of : IOSchedulerResource := mkIOScheduler New (Scheduler (IOScheduler p)).

Definition resource_of (k : kind) : Resource :=
  match k with
  | KSysctl => sysctl_resource sysctl_of
  | KModules => kmod_resource kmod_of
  | KSwap => swap_resource New
  | KCgroup => cgroupv2_resource New
  | KMount => mount_resource bpffs_of
  | KDropIn d => dropin_resource d
  | KIRQ => irqaffinity_resource irq_of
  | KNIC => nic_resource nic_of
  | KGovernor => cpugovernor_resource governor_of
  | KScheduler => ioscheduler_resource scheduler_of
  end.

Definition kinds_of : list kind :=
  [KSysctl; KModules; KSwap; KCgroup; KMount]
  ++ (if (0 <? NoFile (Limits p))%Z then KDropIn <$> limits_dropins New (Limits p) else [])
  ++ (if iqEnabled (pIRQ p) then [KIRQ] else [])
  ++ (if RingBufferMax (pNIC p) || RPS (pNIC p) || XPS (pNIC p) then [KNIC] else [])
  ++ (if negb (String.eqb (CPUGovernor p) EmptyString) then [KGovernor] else [])
  ++ (if ioEnabled (IOScheduler p) then [KScheduler] else []).

Lemma all_resources_kinds :
  Mounts p = [bpffs_mount] → all_resources New iface f p = resource_of <$> kinds_of.
Proof.
  intros Hm. unfold all_resources, kinds_of. rewrite Hm, !fmap_app. by repeat case_match.
Qed.

(** The files of the drop-ins are managed, and each its own. *)
Lemma kinds_of_dropin d : KDropIn d ∈ kinds_of → d ∈ limits_dropins New (Limits p).
Proof.
  unfold kinds_of. rewrite !elem_of_app.
  intros [H|[H|[H|[H|[H|H]]]]];
    try (case_match; [|by apply elem_of_nil in H]); try by apply list_elem_of_singleton in H.
  - repeat (apply elem_of_cons in H as [?|H]; [done|]). by apply elem_of_nil in H.
  - by apply list_elem_of_fmap in H as (d' & [= ->] & H).
Qed.

(** No resource touches what an earlier one looks at, but for the two editors of fstab. *)
Definition all_kinds : list kind :=
  [KSysctl; KModules; KSwap; KCgroup; KMount] ++ (KDropIn <$> limits_dropins New (Limits p))
  ++ [KIRQ] ++ [KNIC] ++ [KGovernor] ++ [KScheduler].

Lemma kinds_sublist : sublist kinds_of all_kinds.
Proof.
  unfold kinds_of, all_kinds.
  repeat apply sublist_app; try done; case_match; (done || apply sublist_nil_l).
Qed.

Lemma kinds_apart :
  StronglySorted (λ k k', apart k k' || swap_then_mount k k' = true) kinds_of.
Proof.
  eapply StronglySorted_sublist; [apply kinds_sublist|].
  unfold all_kinds. rewrite <-!app_comm_cons. repeat constructor; by vm_compute.
Qed.

(** What an apply does not touch it leaves, if the commands it runs do. *)
Lemma resource_touches_if k z
    `{!ReadOnly (Sysutil.Run "systemctl" list_units_args)}
    `{!∀ i, ReadOnly (Sysutil.Run "ethtool" ["-g"; i])} :
  (∀ i w w', host w' = host w →
     (Sysutil.Run "ethtool" ["-g"; i] w').1 = (Sysutil.Run "ethtool" ["-g"; i] w).1) →
  (iface = EmptyString ∨ plain_elem iface = true) →
  match k with
  | KModules => ∀ m, m ∈ Modules p → Respects (same (Sysctls p) z) (Sysutil.Run "modprobe" [m])
  | KSwap => Respects (same (Sysctls p) z) (Sysutil.Run "swapoff" ["-a"]) ∧
      ∀ unit, Respects (same (Sysctls p) z) (Sysutil.Run "systemctl" ["mask"; unit])
  | KMount => Respects (same (Sysctls p) z) (Sysutil.Run "mount" (mount_args bpffs_of))
  | KNIC => ∀ args, Respects (same (Sysctls p) z) (Sysutil.Run "ethtool" (["-G"; iface] ++ args))
  | _ => True
  end →
  k ∈ kinds_of → z ∉ touches k → Respects (same (Sysctls p) z) (Apply (resource_of k)).
Proof.
  intros Hring Hiface Hcmd Hk Hz. destruct k; cbn [touches looks_at] in Hz.
  - apply sysctl_touches; [done|refine (bool_decide_unpack _ _); by vm_compute|set_solver..].
  - apply kmod_touches; [done..|refine (bool_decide_unpack _ _); by vm_compute|set_solver].
  - destruct Hcmd. apply swap_touches; [apply _|done..|set_solver].
  - apply _.
  - apply mount_touches; [done|done|by repeat constructor|done|set_solver].
  - apply dropin_touches; [done| |set_solver].
    by eapply dropin_managed, kinds_of_dropin.
  - apply irq_touches; [done|set_solver].
  - apply nic_touches; [apply _|done..|set_solver].
  - apply governor_touches; [done|set_solver].
  - apply scheduler_touches; [done|set_solver].
Qed.

(** ** What the host must offer

    The kernel keeps what it accepts, the commands do what they say, and each of them
    changes nothing else of what the resources look at. *)

Record host_ok : Prop := {
  (* the commands that ask *)
  ho_units : ReadOnly (Sysutil.Run "systemctl" list_units_args);
  ho_rings : ∀ i, ReadOnly (Sysutil.Run "ethtool" ["-g"; i]);
  ho_ring_host : ∀ i w w', host w' = host w →
    (Sysutil.Run "ethtool" ["-g"; i] w').1 = (Sysutil.Run "ethtool" ["-g"; i] w).1;
  (* the commands that change the host do what they say *)
  ho_modprobe : ∀ m, m ∈ Modules p → modprobe_loads kmod_of m;
  ho_swapoff : swapoff_clears New;
  ho_swap_units : units_follow_devices New;
  ho_mount : mount_mounts bpffs_of;
  ho_nic : nic_ok nic_of;
  (* and nothing else *)
  ho_modprobe_only : ∀ m z, m ∈ Modules p → z ≠ ZModules →
    Respects (same (Sysctls p) z) (Sysutil.Run "modprobe" [m]);
  ho_swapoff_only : ∀ z, z ≠ ZSwaps →
    Respects (same (Sysctls p) z) (Sysutil.Run "swapoff" ["-a"]);
  ho_mask_only : ∀ unit z, Respects (same (Sysctls p) z) (Sysutil.Run "systemctl" ["mask"; unit]);
  ho_mount_only : ∀ z, z ≠ ZMounts →
    Respects (same (Sysctls p) z) (Sysutil.Run "mount" (mount_args bpffs_of));
  ho_ring_only : ∀ args z, z ≠ ZRing →
    Respects (same (Sysctls p) z) (Sysutil.Run "ethtool" (["-G"; iface] ++ args));
  (* the kernel keeps what it accepts *)
  ho_clean : ∀ k, k ∈ sortedKeys (Sysctls p) → clean_key k = true;
  ho_keeps : ∀ k, k ∈ sortedKeys (Sysctls p) → keeps_value sysctl_of k;
  ho_affinity : ∀ irqs, affinity_keeps irq_of (desiredAffinity irq_of irqs);
  ho_governor : governor_ok governor_of;
  ho_scheduler : iosched_ok scheduler_of
}.

(** The disks' schedulers are attributes, below a directory. *)
Definition block_ok (w : World) : Prop := iosched_host scheduler_of w ∧ block_dir w.

Lemma block_ok_same w w' : same (Sysctls p) ZBlock w w' → block_ok w → block_ok w'.
Proof.
  intros Hs [Hh Hb]. split.
  - intros dev Hd. rewrite (same_zone (Sysctls p) ZBlock _ w w'); [by apply Hh| |done|done].
    by apply zone_of_scheduler.
  - unfold block_dir. by rewrite (same_zone (Sysctls p) ZBlock _ w w').
Qed.

Section cooperating.
Context (Hok : host_ok) (Hmounts : Mounts p = [bpffs_mount]).
Context (Hiface : iface = EmptyString ∨ plain_elem iface = true).

#[local] Instance units_read_only : ReadOnly (Sysutil.Run "systemctl" list_units_args) :=
  ho_units Hok.
#[local] Instance rings_read_only i : ReadOnly (Sysutil.Run "ethtool" ["-g"; i]) := ho_rings Hok i.

(** What is looked at decides whether a resource is settled. *)
Lemma resource_looks k w w' :
  k ∈ kinds_of → block_dir w → (∀ z, z ∈ looks_at k → same (Sysctls p) z w w') →
  converged (resource_of k) w → converged (resource_of k) w'.
Proof.
  intros Hk Hb Hs. destruct k; simpl in Hs |- *.
  - apply sysctl_looks; [refine (bool_decide_unpack _ _); by vm_compute|apply Hs; set_solver..].
  - apply (kmod_looks (Sysctls p)); [refine (bool_decide_unpack _ _); by vm_compute|apply Hs; set_solver..].
  - intros Hc. apply (swap_looks (Sysctls p) w w'); [apply (ho_swap_units Hok)|apply Hs; set_solver| |done].
    rewrite (fstab_content_same (Sysctls p) w w') by (apply Hs; set_solver).
    by apply swap_converged_iff in Hc as (_ & ? & _).
  - intros _. apply (cv_settles (Converges := cgroupv2_converges New (λ _, True)) w' w'); done.
  - apply (mount_looks (Sysctls p)); [done|apply Hs; set_solver..].
  - apply (dropin_looks (Sysctls p)); [|apply Hs; set_solver].
    by eapply dropin_managed, kinds_of_dropin.
  - apply (irq_looks (Sysctls p)); apply Hs; set_solver.
  - apply (nic_looks (Sysctls p)); [done|done|apply Hs; set_solver..].
  - apply (governor_looks (Sysctls p)), Hs. set_solver.
  - apply (scheduler_looks (Sysctls p)); [done|]. apply Hs. set_solver.
Qed.

Lemma resource_touches k z :
  k ∈ kinds_of → z ∉ touches k → Respects (same (Sysctls p) z) (Apply (resource_of k)).
Proof.
  intros Hk Hz. apply resource_touches_if; try done; try apply _; [apply (ho_ring_host Hok)|].
  destruct k; cbn [touches looks_at] in Hz; try done.
  - intros m Hm. apply (ho_modprobe_only Hok); [done|set_solver].
  - split; [apply (ho_swapoff_only Hok); set_solver|]. intros u. apply (ho_mask_only Hok).
  - apply (ho_mount_only Hok). set_solver.
  - intros args. apply (ho_ring_only Hok). set_solver.
Qed.

(** Turning swap off and adding a mount's entry: the swap stays off. *)
Lemma mount_keeps_swap : keeps_converged block_ok (swap_resource New) (mount_resource bpffs_of).
Proof.
  intros w x w' _ Hc Hrun.
  assert (∀ z, z ∉ touches KMount → same (Sysctls p) z w w') as Hs.
  { intros z Hz. pose proof (resource_touches KMount z ltac:(set_solver) Hz w) as H.
    change (resource_of KMount) with (mount_resource bpffs_of) in H. by rewrite Hrun in H. }
  apply (swap_looks (Sysctls p) w w'); [apply (ho_swap_units Hok)|apply Hs; set_solver| |done].
  apply swap_converged_iff in Hc as (_ & Hf & _).
  pose proof (mount_no_swap bpffs_of eq_refl ltac:(by vm_compute) ltac:(done) (Sysctls p)
    (ho_ring_host Hok) ltac:(by repeat constructor) (ho_mount_only Hok ZFstab ltac:(done)) w Hf) as H.
  by rewrite Hrun in H.
Qed.

Lemma kinds_keep k k' :
  k ∈ kinds_of → k' ∈ kinds_of → apart k k' || swap_then_mount k k' = true →
  keeps_converged block_ok (resource_of k) (resource_of k').
Proof.
  intros Hk Hk' [Hap|Hsm]%orb_true_iff.
  - intros w x w' [_ Hb] Hc Hrun. apply (resource_looks k w w'); [done|done| |done].
    intros z Hz. unfold apart in Hap. rewrite forallb_forall in Hap.
    specialize (Hap z (proj1 (list_elem_of_In _ _) Hz)). bool_prop.
    pose proof (resource_touches k' z Hk' ltac:(done) w) as Hs. by rewrite Hrun in Hs.
  - destruct k, k'; try done. apply mount_keeps_swap.
Qed.

Lemma converges_with (I : World → Prop) r :
  Converges (λ _, True) r → (∀ w, I w → I (Apply r w).2) → Converges I r.
Proof.
  intros [Hb _ Hs] HI. split; [done| |].
  - intros w x w' Hw Hrun. specialize (HI w Hw). by rewrite Hrun in HI.
  - intros w w' _. by apply Hs.
Qed.

Lemma block_ok_kept k w :
  k ∈ kinds_of → k ≠ KScheduler → block_ok w → block_ok (Apply (resource_of k) w).2.
Proof.
  intros Hk Hne. apply block_ok_same, (resource_touches k); [done|].
  destruct k; simpl; set_solver.
Qed.

(** The scheduler's own attributes are below directories of /sys/block. *)
Lemma scheduler_block_dir w :
  block_dir w → block_dir (Apply (ioscheduler_resource scheduler_of) w).2.
Proof.
  assert (Respects (λ w w', block_dir w → block_dir w')
    (Apply (ioscheduler_resource scheduler_of))) as H; [|apply H].
  apply scheduler_respects.
  { split; [by intros s Hs|]. intros w1 w2 w3 H H' Hw. by apply H', H. }
  intros dev Hdev s Hs.
  assert (schedulerPath scheduler_of dev ≠ Path New ["sys"; "block"]) as Hne.
  { intros Heq%Path_inj; [done|done|..]; by repeat constructor. }
  destruct (WriteFile_frame (λ q, q = Path New ["sys"; "block"]) (schedulerPath scheduler_of dev)
    (Scheduler (IOScheduler p)) 420 Hne s) as [_ Hf].
  etrans; [exact (Hf _ eq_refl)|exact Hs].
Qed.

Lemma resource_converges k : k ∈ kinds_of → Converges block_ok (resource_of k).
Proof.
  intros Hk. destruct (decide (k = KScheduler)) as [->|Hne].
  - destruct (ioscheduler_converges scheduler_of (ho_scheduler Hok)) as [Hb Hi Hs].
    split; [done| |intros w w' [Hh _]; by apply Hs].
    intros w x w' [Hh Hd] Hrun. split; [by eapply Hi|].
    pose proof (scheduler_block_dir w Hd) as H.
    change (ioscheduler_resource scheduler_of) with (resource_of KScheduler) in H.
    by rewrite Hrun in H.
  - apply converges_with; [|intros w; by apply block_ok_kept].
    destruct k; simpl; try done.
    + apply sysctl_converges. split; [done|apply (ho_clean Hok)|apply (ho_keeps Hok)|].
      right. exists ["etc"; "sysctl.d"], "99-node-configurator.conf".
      split_and!; [by repeat constructor|by vm_compute|done].
    + apply kmod_converges. split; [done|apply (ho_modprobe Hok)|].
      right. exists ["etc"; "modules-load.d"], "99-node-configurator.conf".
      split_and!; [by repeat constructor|by vm_compute|done].
    + apply swap_converges; [apply _|done|apply (ho_swapoff Hok)|apply (ho_swap_units Hok)].
    + apply _.
    + apply mount_converges; [done|by vm_compute|apply (ho_mount Hok)].
    + apply kinds_of_dropin in Hk.
      destruct (limits_path_file New (Limits p) d eq_refl Hk) as (pre & x & ? & ?).
      by eapply dropin_converges.
    + apply irqaffinity_converges; [done|apply (ho_affinity Hok)].
    + apply nic_converges; [apply _|apply (ho_nic Hok)].
    + apply cpugovernor_converges, (ho_governor Hok).
Qed.

Lemma profile_cooperates : cooperate block_ok (all_resources New iface f p).
Proof.
  rewrite all_resources_kinds by done. split.
  - apply Forall_fmap, Forall_forall. intros k. apply resource_converges.
  - eapply StronglySorted_fmap; [|apply kinds_apart]. intros k k'. apply kinds_keep.
Qed.

(** *** The same resources are built again *)

(** Nothing appears or disappears below /sys/class/net. *)
Definition net_alike (w w' : World) : Prop := alike_below net_base (fs w) (fs w').

#[export] Instance net_alike_preorder : PreOrder net_alike.
Proof.
  split; [by intros w q|]. intros w1 w2 w3 H H' q Hq. by rewrite H, H'.
Qed.

Lemma resource_net_alike k : k ∈ kinds_of → Respects net_alike (Apply (resource_of k)).
Proof.
  intros Hk.
  assert (∀ A (c : M World A), Respects (same (Sysctls p) ZNet) c → Respects net_alike c) as Hsub.
  { intros A c. apply respects_sub. intros w w' Hs.
    by eapply (same_alike (Sysctls p) _ ZNet); [|zone_literal|..]. }
  destruct (decide (k = KNIC)) as [->|Hne].
  - apply nic_respects; [apply _|apply _|..].
    + intros _ args. by apply Hsub, (ho_ring_only Hok).
    + intros Hi d a w dirs dir Hkind Hd Hin s.
      pose proof (no_queues _ (ho_nic Hok) d a w dirs dir Hkind Hd Hin) as Hq.
      destruct (WriteFile (JoinPath [dir; a]) _ _ s) as [x s'] eqn:Hw.
      apply WriteFile_shape in Hw; [|apply (no_create _ _ Hq)].
      intros q _. symmetry. exact (same_shape_lookup _ _ q Hw).
  - apply Hsub, resource_touches; [done|]. destruct k; simpl; set_solver.
Qed.
End cooperating.
End host.

(** Which interface is found depends on what there is below /sys/class/net. *)
Lemma has_device_alike w w' name :
  plain_elem name = true → net_alike w w' → has_device New w name = has_device New w' name.
Proof.
  intros Hn Ha. unfold has_device.
  assert (below net_base (Path New ["sys"; "class"; "net"; name; "device"])) as Hb.
  { exists [name; "device"]. split; [by repeat constructor|]. apply Path_New. by repeat constructor. }
  specialize (Ha _ Hb). unfold value, Stat. simpl.
  by destruct (fs w !! _), (fs w' !! _).
Qed.

Lemma primary_go_alike w w' names fallback :
  Forall (λ n, plain_elem n = true) names → net_alike w w' →
  value (primary_go New fallback names) w = value (primary_go New fallback names) w'.
Proof.
  intros Hn Ha. revert fallback. induction Hn as [|n names Hn _ IH]; intros fallback; [done|].
  cbn [primary_go]. case_bool; [apply IH|]. rewrite !value_bind by apply _.
  fold (has_device New w n). fold (has_device New w' n).
  rewrite (has_device_alike w w') by done. destruct (has_device New w' n); [done|apply IH].
Qed.

Lemma PrimaryInterface_alike w w' :
  net_alike w w' → value (PrimaryInterface New) w = value (PrimaryInterface New) w'.
Proof.
  intros Ha. unfold PrimaryInterface. rewrite !value_bind by apply _.
  assert (plain_elems net_base) as Hb by by repeat constructor.
  change (Path New ["sys"; "class"; "net"]) with (rooted_path net_base).
  assert (alike_below net_base (fs w') (fs w)) as Ha' by (intros q Hq; symmetry; by apply Ha).
  destruct (value (ReadDir _) w) as [names|e] eqn:Hr.
  - rewrite (ReadDir_local net_base Hb w w' _ Ha (below_self _) names Hr).
    apply primary_go_alike; [|done]. apply Forall_forall. intros n. by eapply ReadDir_plain.
  - destruct (value (ReadDir _) w') as [names|e'] eqn:Hr'; [|done].
    by rewrite (ReadDir_local net_base Hb w' w _ Ha' (below_self _) names Hr') in Hr.
Qed.

(** ** Properties *)

(** What is built for the host, in the order it runs. *)
Definition planned {HK : Kernel} {HR : Runner} {HU : Unicode} (f : Facts) (p : Profile)
    (disabled : list string) (opts : Options) (w : World) : list Resource :=
  value (Engine.Build New f p disabled opts) w.

Section planned.
Context {HK : Kernel} {HR : Runner} {HU : Unicode} (f : Facts) (p : Profile).
Context (disabled : list string) (opts : Options).
Context (Hmounts : Mounts p = [bpffs_mount]).

Lemma planned_eq w :
  planned f p disabled opts w =
  filterResources (all_resources New (value (PrimaryInterface New) w) f p) disabled opts.
Proof. unfold planned, Engine.Build. by rewrite value_bind by apply _. Qed.

Lemma planned_cooperate w :
  host_ok (value (PrimaryInterface New) w) f p →
  cooperate (block_ok p) (planned f p disabled opts w).
Proof using Hmounts.
  intros Hok. rewrite planned_eq. apply cooperate_filter, profile_cooperates; [done..|].
  apply PrimaryInterface_plain.
Qed.

(** A run leaves the interface that is tuned, and so the list of the resources. *)
Lemma planned_stable w mode :
  host_ok (value (PrimaryInterface New) w) f p →
  let w' := (Engine.Run (planned f p disabled opts w) mode w).2 in
  planned f p disabled opts w' = planned f p disabled opts w.
Proof using Hmounts.
  intros Hok w'. rewrite !planned_eq. do 2 f_equal. symmetry. apply PrimaryInterface_alike.
  apply Run_respects; [apply _|..].
  - eapply Forall_impl; [apply (co_converges _ _ (planned_cooperate w Hok))|]. intros r Hr. apply _.
  - rewrite planned_eq, all_resources_kinds by done. apply Forall_forall.
    intros r [Hr _]%filterResources_in. apply list_elem_of_fmap in Hr as (k & -> & Hk).
    apply resource_net_alike; [done|done|apply PrimaryInterface_plain|done].
Qed.
End planned.

(** C3: an apply that exits with 0 leaves nothing for the next run. On a host whose kernel
    keeps what it accepts and whose commands do what they say and nothing else, whatever the
    facts, the operator's overrides and the filters: the same resources are built again,
    and running them, to check or to apply, changes nothing at all, reports no change and
    exits with 0. *)
Theorem apply_settles_the_host {HK : Kernel} {HR : Runner} {HU : Unicode} {HP : Platform}
    (f : Facts) (ov : Overrides) (disabled : list string) (opts : Options) (w w' : World)
    (results : list Result) (mode : Mode) :
  let p := Profile.Build f ov in
  let rs := planned f p disabled opts in
  host_ok (value (PrimaryInterface New) w) f p → block_ok p w →
  Engine.Run (rs w) ModeApply w = (results, w') → ExitCode results ModeApply = 0%Z →
  rs w' = rs w ∧
  let again := Engine.Run (rs w') mode w' in
  again.2 = w' ∧ Forall (λ res, Changed (rStatus res) = false) again.1 ∧
  ExitCode again.1 mode = 0%Z.
Proof.
  intros p rs Hok Hb Hrun Hexit.
  assert (rs w' = rs w) as Hrs.
  { pose proof (planned_stable f p disabled opts eq_refl w ModeApply Hok) as H.
    change (rs (Engine.Run (rs w) ModeApply w).2 = rs w) in H. by rewrite Hrun in H. }
  split; [done|]. rewrite Hrs.
  pose proof (planned_cooperate f p disabled opts eq_refl w Hok) as Hco. fold rs in Hco.
  destruct (Run_settles _ _ _ _ _ Hco Hb Hrun) as (_ & Hall & _).
  eapply settled_run_again; [apply (co_converges _ _ Hco)|exact Hall|].
  by apply ExitCode_zero in Hexit.
Qed.

(** *** A host that satisfies the assumptions

    Attributes echo what is written to them, a disk brackets its scheduler, directories of
    attributes take no files; one module can be loaded, swap can be turned off, the BPF file
    system mounted and the rings raised. *)

Definition node_kernel : Kernel := {|
  knob_write := λ path old data,
    match zone_of path with
    | Some ZBlock => @knob_write nvme_kernel path old data
    | Some ZSysctl => @knob_write tab_kernel path old data
    | _ => Ok (Ok (data +:+ nls))
    end;
  fault := λ op path,
    match op, zone_of path with
    | OpCreate, Some (ZCpu | ZBlock | ZNet) => Some EACCES
    | _, _ => None
    end;
  random := λ _ i, N.of_nat i
|}.

Definition vxlan_line : string := "vxlan 155648 0 - Live 0x0" +:+ nls.

Definition node_runner : Runner := λ name args w,
  if String.eqb name "ethtool" then
    match args with
    | "-g" :: iface :: _ =>
        ((ethtool_g iface (if bool_decide (host w !! "rings" = Some "max") then ena_max else ena_low),
          None), w)
    | _ => ((EmptyString, None), mkWorld (fs w) (<["rings" := "max"]> (host w)))
    end
  else if String.eqb name "systemctl" then
    match args with
    | "mask" :: _ => ((EmptyString, None), w)
    | _ => swap_runner name args w
    end
  else if String.eqb name "swapoff" then swap_runner name args w
  else if String.eqb name "mount" then mount_runner name args w
  else if bool_decide (fs w !! "/proc/modules" = Some (NKnob (Ok overlay_line)))
          && bool_decide (args = ["vxlan"])
  then ((EmptyString, None), set_fs (insert "/proc/modules"
          (NKnob (Ok (vxlan_line +:+ overlay_line)))) w)
  else ((EmptyString, Some (TextError "exit status 1")), w).

Definition node_facts : Facts := demo_facts.
Definition node_overrides : Overrides :=
  mkOverrides ∅ 0 None 0 (mkCilium "vxlan" false) None None None None None.
Definition node_profile : Profile := Profile.Build (HP:=demo_platform) node_facts node_overrides.

Definition node_world : World := etc_world ([
    ("/sys", NDir);
    ("/etc/os-release", NFile 420 ("ID=ubuntu" +:+ nls));
    ("/etc/fstab", NFile 420 swap_fstab);
    ("/proc/modules", NKnob (Ok overlay_line));
    ("/proc/swaps", NKnob (Ok (swaps_header +:+ "/swapfile file 1048572 0 -2" +:+ nls)));
    ("/proc/mounts", NKnob (Ok mounts_line));
    ("/proc/sys/vm/max_map_count", NKnob (Ok ("65530" +:+ nls)));
    ("/proc/sys/net/ipv4/tcp_rmem", NKnob (Ok ("4096 131072 6291456" +:+ nls)));
    ("/proc/interrupts", NKnob (Ok ("  CPU0 CPU1" +:+ nls +:+ irq_line "30" "eth0-Tx-Rx-1"
       +:+ irq_line "27" "eth0-Tx-Rx-0")));
    ("/proc/irq/27/smp_affinity_list", NKnob (Ok ("0-1" +:+ nls)));
    ("/proc/irq/30/smp_affinity_list", NKnob (Ok ("0-1" +:+ nls)));
    ("/sys/class/net", NDir); ("/sys/class/net/lo", NDir); ("/sys/class/net/eth0", NDir);
    ("/sys/class/net/eth0/device", NDir); ("/sys/class/net/eth0/queues", NDir);
    ("/sys/class/net/eth0/queues/rx-0", NDir); ("/sys/class/net/eth0/queues/tx-0", NDir);
    (queue_path "rx-0" "rps_cpus", NKnob (Ok ("0" +:+ nls)));
    (queue_path "tx-0" "xps_cpus", NKnob (Ok ("0" +:+ nls)));
    ("/sys/devices/system/cpu", NDir); ("/sys/devices/system/cpu/cpu0", NDir);
    ("/sys/devices/system/cpu/cpu0/cpufreq", NDir);
    (cpu_path "cpu0", NKnob (Ok ("powersave" +:+ nls)));
    ("/sys/block", NDir); ("/sys/block/nvme0n1", NDir);
    ("/sys/block/nvme0n1/queue/scheduler", NKnob (Ok ("none [mq-deadline]" +:+ nls)))]).

#[local] Existing Instance node_kernel.
#[local] Existing Instance node_runner.
#[local] Existing Instance plain_unicode.

Definition node_rs (w : World) : list Resource :=
  planned node_facts node_profile [] (mkOptions [] []) w.

Lemma node_iface : value (PrimaryInterface New) node_world = "eth0".
Proof. by vm_compute. Qed.

(** Writing one path of another zone leaves a zone alone. *)
Lemma node_ring i w w' : host w' = host w →
  (Sysutil.Run "ethtool" ["-g"; i] w').1 = (Sysutil.Run "ethtool" ["-g"; i] w).1.
Proof. intros Hw. unfold Sysutil.Run, node_runner. simpl. by rewrite Hw. Qed.

Lemma insert_same settings z q n w :
  zone_of q ≠ Some z → same settings z w (set_fs (insert q n) w).
Proof.
  intros Hz. apply files_same; [apply node_ring|]. split; [done|]. intros q' [Hq' _].
  simpl. rewrite lookup_insert_ne; [done|]. by intros <-.
Qed.

Lemma node_keeps p key : keeps_value (sysctl_of p) key.
Proof.
  intros old new Hw. eapply (tab_kernel_keeps (sysctl_of p) key old new).
  unfold knob_write, node_kernel in Hw. change (sc_Env _) with New in *.
  by rewrite zone_of_sysctl in Hw.
Qed.

(** A number on a line is what the attribute echoes, in every zone. *)
Lemma node_echo path old c z :
  knob_write path old (Itoa z) = Ok (Ok c) → TrimSpace c = Itoa z.
Proof.
  assert (TrimSpace (Itoa z +:+ nls) = Itoa z) as Hecho.
  { apply TrimSpace_spacefree; [|done]. apply ascii_word_spacefree, Itoa_word. }
  pose proof (Fields_field _ (Itoa_field z)) as Hfields.
  unfold knob_write, node_kernel. destruct (zone_of path) as [[]|]; try (by intros [= <-]).
  - simpl. rewrite Hfields. simpl. by intros [= <-].
  - unfold knob_write, nvme_kernel. case_bool; [|done].
    match goal with H : String.eqb _ _ = true |- _ => apply String.eqb_eq in H; rename H into Hn end.
    pose proof (Itoa_sep_free "n" z eq_refl) as Hfree. by rewrite Hn in Hfree.
Qed.

Lemma node_affinity r want irq w : attr_keeps (affinityPath r) (affinity_set want) irq (wantStr want irq) w.
Proof.
  apply attr_keeps_intro; unfold affinity_set.
  - apply String.eqb_eq, TrimSpace_id, ascii_word_spacefree, Itoa_word.
  - intros old c Hc. apply String.eqb_eq. by eapply node_echo.
Qed.

Lemma node_governor : governor_ok (governor_of node_profile).
Proof.
  intros w ps p Hps Hp.
  destruct (governorPaths_alike (CPUGovernor node_profile) w w ltac:(done)) as [_ Hall].
  specialize (Hall ps Hps). rewrite Forall_forall in Hall.
  assert (zone_of p = Some ZCpu) as Hz.
  { apply (zone_of_below cpu_base); [done|zone_literal|by apply Hall]. }
  split; [unfold fault, node_kernel; by rewrite Hz|].
  intros s. apply attr_keeps_intro; [by vm_compute|]. intros old c.
  unfold knob_write, node_kernel. rewrite Hz. intros [= <-]. by vm_compute.
Qed.

Lemma node_scheduler : iosched_ok (scheduler_of node_profile).
Proof.
  intros dev Hdev. pose proof (zone_of_scheduler (Scheduler (IOScheduler node_profile)) dev Hdev) as Hz.
  fold (scheduler_of node_profile) in Hz.
  split; [unfold fault, node_kernel; by rewrite Hz|]. intros old c.
  unfold knob_write, node_kernel. rewrite Hz. unfold knob_write, nvme_kernel. simpl.
  intros [= <-]. by vm_compute.
Qed.

Abbreviation node_nic := (nic_of "eth0" node_facts node_profile).

Lemma node_nic_ok : nic_ok node_nic.
Proof.
  split.
  - intros d a w dirs dir Hk Hd Hin.
    assert (zone_of (JoinPath [dir; a]) = Some ZNet) as Hz.
    { by apply zone_of_net, (queue_mask_below node_nic d a w dirs dir). }
    split.
    + unfold fault, node_kernel. by rewrite Hz.
    + done.
    + intros old data. unfold knob_write, node_kernel. by rewrite Hz.
    + intros s. apply attr_keeps_intro; [by vm_compute|]. intros old c.
      unfold knob_write, node_kernel. rewrite Hz. intros [= <-]. by vm_compute.
  - intros w w' Hw. by apply node_ring.
  - intros w w' out out' args _ _. unfold Sysutil.Run, node_runner. simpl.
    intros [= _ <-] _ s. unfold ringBufferDrift. unfold value. rewrite bind_ok_run, map_err_run.
    unfold run_cmd. rewrite bind_run. unfold Sysutil.Run, node_runner. simpl.
    rewrite lookup_insert_eq. vm_compute. by intros [= <-].
Qed.

Lemma node_modules l w :
  fs w !! "/proc/modules" = Some (NKnob (Ok l)) →
  value (loadedModules (kmod_of node_profile)) w = Ok (list_to_set (first_fields (scan_lines l).1)) ∨
  (scan_lines l).2 = true.
Proof.
  intros Hw. unfold loadedModules. rewrite value_bind_ok, value_map_err by apply _.
  change (Path _ ["proc"; "modules"]) with "/proc/modules".
  unfold value, OpenLines, read_node. simpl. rewrite Hw.
  destruct (scan_lines l) as [ls []]; [by right|by left].
Qed.

Lemma node_modprobe m : modprobe_loads (kmod_of node_profile) m.
Proof.
  intros w w' out loaded Hl. unfold Sysutil.Run, node_runner. simpl.
  destruct (bool_decide _ && _) eqn:Hb; [|done].
  apply andb_true_iff in Hb as [Hw%bool_decide_eq_true Hm%bool_decide_eq_true].
  injection Hm as ->. intros [= _ <-].
  destruct (node_modules overlay_line w Hw) as [Hv|]; [|done].
  rewrite Hv in Hl. injection Hl as <-.
  destruct (node_modules (vxlan_line +:+ overlay_line)
    (set_fs (insert "/proc/modules" (NKnob (Ok (vxlan_line +:+ overlay_line)))) w)
    ltac:(apply lookup_insert_eq)) as [Hv'|]; [|done].
  eexists. split; [exact Hv'|]. split; [|by vm_compute].
  refine (bool_decide_unpack _ _). by vm_compute.
Qed.

(** Each command changes what it is for and nothing else, whatever the settings are. *)
Lemma node_modprobe_only settings m z : z ≠ ZModules →
  Respects (same settings z) (Sysutil.Run "modprobe" [m]).
Proof.
  intros Hz w. unfold Sysutil.Run, node_runner. simpl.
  case_bool; [apply insert_same; by intros [= <-]|by destruct z].
Qed.

Lemma node_swapoff_only settings z : z ≠ ZSwaps →
  Respects (same settings z) (Sysutil.Run "swapoff" ["-a"]).
Proof. intros Hz w. apply insert_same. by intros [= <-]. Qed.

Lemma node_mount_only settings z args : z ≠ ZMounts →
  Respects (same settings z) (Sysutil.Run "mount" args).
Proof. intros Hz w. apply insert_same. by intros [= <-]. Qed.

Lemma node_ring_only settings z args : z ≠ ZRing →
  Respects (same settings z) (Sysutil.Run "ethtool" ("-G" :: args)).
Proof. intros Hz w. unfold Sysutil.Run, node_runner. simpl. by destruct z. Qed.

Lemma node_host_ok : host_ok "eth0" node_facts node_profile.
Proof.
  split.
  - by intros w.
  - by intros i w.
  - apply node_ring.
  - intros m _. apply node_modprobe.
  - intros w w' out [= _ <-]. by apply (swap_runner_clears w _ EmptyString).
  - intros w Hw. by apply (swap_runner_follows w).
  - intros w w' out [= _ <-]. by apply (mount_runner_mounts w _ EmptyString).
  - exact node_nic_ok.
  - intros m z _. apply node_modprobe_only.
  - apply node_swapoff_only.
  - intros u z w. by destruct z.
  - intros z. apply node_mount_only.
  - intros args z. apply node_ring_only.
  - apply Forall_forall. refine (bool_decide_unpack _ _). by vm_compute.
  - intros k _. apply node_keeps.
  - intros irqs irq w. apply node_affinity.
  - exact node_governor.
  - exact node_scheduler.
Qed.

(** No regular file is among the disks. *)
Definition disks_clean (w : World) : bool :=
  forallb (λ '(q, n), match n with
    | NFile _ _ => negb (bool_decide (zone_of q = Some ZBlock)) | _ => true end)
    (map_to_list (fs w)).

Lemma disks_block_ok p w : disks_clean w = true → block_dir w → block_ok p w.
Proof.
  intros Hd Hb. split; [|done]. intros dev Hdev.
  destruct (_ !! _) as [[|m c|]|] eqn:Hl; [done| |done..].
  unfold disks_clean in Hd. rewrite forallb_forall in Hd.
  specialize (Hd _ (proj1 (list_elem_of_In _ _) (proj2 (elem_of_map_to_list _ _ _) Hl))).
  simpl in Hd. apply negb_true_iff, bool_decide_eq_false in Hd.
  apply Hd. by apply zone_of_scheduler.
Qed.

Example apply_settles_the_host_witness :
  let run := Engine.Run (node_rs node_world) ModeApply node_world in
  value (PrimaryInterface New) node_world = "eth0" ∧
  length (filter (λ res, Changed (rStatus res)) run.1) = 12%nat ∧
  ExitCode run.1 ModeApply = 0%Z ∧ run.2 ≠ node_world ∧
  (Engine.Run (node_rs run.2) ModeCheck run.2).2 = run.2 ∧
  ExitCode (Engine.Run (node_rs run.2) ModeCheck run.2).1 ModeCheck = 0%Z.
Proof.
  intros run.
  destruct (apply_settles_the_host (HP:=demo_platform) node_facts node_overrides [] (mkOptions [] [])
    node_world run.2 run.1 ModeCheck) as (_ & Hw & _ & Hexit).
  - rewrite node_iface. exact node_host_ok.
  - by apply disks_block_ok; vm_compute.
  - apply surjective_pairing.
  - by vm_compute.
  - split; [exact node_iface|]. split; [by vm_compute|]. split; [by vm_compute|].
    split; [|split; [exact Hw|exact Hexit]].
    intros Heq. apply (f_equal host) in Heq. by vm_compute in Heq.
Defined.
