(* ===== verification/Bridge.v ===== *)
(** * Settings that a module brings

    The engine runs the sysctls before the modules. A setting of /proc/sys that is only there
    once a module is loaded, as the bridge settings are with br_netfilter, is skipped by the
    run that loads the module, and written by the next one. *)

From S2P Require Import Prelude GoStrings GoPath GoOS Sysutil Frame GoFmt.
From S2P Require Import Resource DropIn Sysctl Kmod Swap Mount Attr CPUGovernor IOScheduler.
From S2P Require Import IRQAffinity CPUMask NIC Applies Zones GoFloat GoJSON Facts Profile Engine.
From S2P Require Import Tree Cooperate.

Abbreviation bridge_key := "net.bridge.bridge-nf-call-iptables".
Definition bridge_path : string := "/proc/sys/net/bridge/bridge-nf-call-iptables".

Lemma bridge_path_eq : SysctlPath New bridge_key = bridge_path.
Proof. by vm_compute. Qed.

(** A resource that is allowed stays in the list. *)
Lemma filterResources_cons r all disabled opts :
  allowed disabled opts (Name r) →
  filterResources (r :: all) disabled opts = r :: filterResources all disabled opts.
Proof.
  intros Ha. unfold filterResources. rewrite filter_cons_True; [done|].
  assert (r ∈ filterResources [r] disabled opts) as Hr.
  { apply filterResources_in. split; [by left|exact Ha]. }
  by apply list_elem_of_filter in Hr as [? _].
Qed.

(** ** What the profile asks for *)

Section profile.
Context {HP : Platform} (f : Facts) (ov : Overrides).
Context (Hlegacy : LegacyIPTables (Cilium ov) = true).

Lemma bridge_module : "br_netfilter" ∈ Modules (Profile.Build f ov).
Proof using Hlegacy.
  unfold Profile.Build, applyOverrides, applyCiliumPrereqs. cbn [Modules]. rewrite Hlegacy.
  rewrite !elem_of_app. right. right. by left.
Qed.

Lemma bridge_wanted :
  SysctlOverrides ov !! bridge_key = None →
  Sysctls (Profile.Build f ov) !! bridge_key = Some "1".
Proof using Hlegacy.
  intros Hov. rewrite Build_sysctl, Hov, andb_false_r, computed_eq. cbv zeta. rewrite Hlegacy.
  apply set_all_in; [|by left]. refine (bool_decide_unpack _ _). by vm_compute.
Qed.
End profile.

(** ** The host

    The module brings the setting with the value [v] and no other does; the commands of the
    other resources leave the settings alone, and the kernel keeps what it accepts. *)

Section host.
Context {HK : Kernel} {HR : Runner} {HU : Unicode}.
Context (p : Profile) (v : string).

Record bridge_host : Prop := {
  bh_units : ReadOnly (Sysutil.Run "systemctl" list_units_args);
  bh_rings : ∀ i, ReadOnly (Sysutil.Run "ethtool" ["-g"; i]);
  bh_ring_host : ∀ i w w', host w' = host w →
    (Sysutil.Run "ethtool" ["-g"; i] w').1 = (Sysutil.Run "ethtool" ["-g"; i] w).1;
  bh_brings : ∀ w w' out, fs w !! bridge_path = None →
    Sysutil.Run "modprobe" ["br_netfilter"] w = ((out, None), w') →
    fs w' !! bridge_path = Some (NKnob (Ok v));
  bh_other : ∀ m w, m ∈ Modules p → m ≠ "br_netfilter" → fs w !! bridge_path = None →
    fs (Sysutil.Run "modprobe" [m] w).2 !! bridge_path = None;
  bh_stays : ∀ m w n, m ∈ Modules p → fs w !! bridge_path = Some n →
    fs (Sysutil.Run "modprobe" [m] w).2 !! bridge_path = Some n;
  bh_swapoff : Respects (same (Sysctls p) ZSysctl) (Sysutil.Run "swapoff" ["-a"]);
  bh_mask : ∀ unit, Respects (same (Sysctls p) ZSysctl) (Sysutil.Run "systemctl" ["mask"; unit]);
  bh_mount : Respects (same (Sysctls p) ZSysctl) (Sysutil.Run "mount" (mount_args bpffs_of));
  bh_ring_set : ∀ args, Respects (same (Sysctls p) ZSysctl) (Sysutil.Run "ethtool" ("-G" :: args));
  bh_clean : ∀ k, k ∈ sortedKeys (Sysctls p) → clean_key k = true;
  bh_keeps : ∀ k, k ∈ sortedKeys (Sysctls p) → keeps_value (sysctl_of p) k
}.

Context (iface : string) (f : Facts).
Context (Hok : bridge_host) (Hmounts : Mounts p = [bpffs_mount]).
Context (Hiface : iface = EmptyString ∨ plain_elem iface = true).
Context (Hwanted : Sysctls p !! bridge_key = Some "1") (Hv : Fields v ≠ ["1"]).
Context (Hmodule : "br_netfilter" ∈ Modules p).

#[local] Instance bridge_units : ReadOnly (Sysutil.Run "systemctl" list_units_args) := bh_units Hok.
#[local] Instance bridge_rings i : ReadOnly (Sysutil.Run "ethtool" ["-g"; i]) := bh_rings Hok i.

Lemma bridge_same w w' :
  same (Sysctls p) ZSysctl w w' → fs w' !! bridge_path = fs w !! bridge_path.
Proof using Hwanted.
  rewrite <-bridge_path_eq. apply same_setting, elem_of_sortedKeys. by exists "1".
Qed.

Lemma persisted_same content file :
  file ∈ managed_files → Respects (same (Sysctls p) ZSysctl) (WriteFileIfChanged file content 420).
Proof using Hok. intros Hf. by apply write_managed_same; [apply (bh_ring_host Hok)| |]. Qed.

(** Persisting them writes other files. *)
Lemma persist_elsewhere msg file content w :
  file ∈ managed_files →
  fs (persist msg file content w).2 !! bridge_path = fs w !! bridge_path.
Proof using Hok Hwanted.
  intros Hf. apply bridge_same.
  by apply (persist_respects (same (Sysctls p) ZSysctl) msg file content), persisted_same.
Qed.

(** *** The sysctls before the module *)

Lemma sysctl_skips w :
  fs w !! bridge_path = None →
  fs (Apply (resource_of iface f p KSysctl) w).2 !! bridge_path = None.
Proof using Hok Hwanted.
  intros Hnone. simpl. unfold SysctlResource_Apply. rewrite bind_ok_run.
  destruct (for_each _ _ w) as [x w1] eqn:Hfe. cbn [fst snd].
  assert (fs w1 !! bridge_path = None) as Hw1.
  { refine (for_each_inv _ (λ w, fs w !! bridge_path = None) _ _ _ _ _ Hnone Hfe).
    intros k s y s' _ Hs Hrun. destruct (decide (SysctlPath New k = bridge_path)) as [Hk|Hk].
    - rewrite apply_key_settled in Hrun by (left; simpl; by rewrite Hk). by injection Hrun as _ <-.
    - by apply (apply_key_other _ _ _ _ _ bridge_path) in Hrun as [_ ->]; [|simpl; congruence]. }
  destruct x as [u|e]; [|done]. rewrite <-Hw1.
  apply (persist_elsewhere "persisting sysctl drop-in "). refine (bool_decide_unpack _ _). by vm_compute.
Qed.

(** The setting differs: the check of the sysctls says so. *)
Lemma sysctl_drifts w :
  fs w !! bridge_path = Some (NKnob (Ok v)) →
  rStatus (value (Checking (resource_of iface f p KSysctl)) w).1 ∈ [StatusWouldChange; StatusFailed].
Proof using Hwanted Hv.
  intros Hn. simpl. assert (rStatus (value (SysctlResource_Check (sysctl_of p)) w).1 ≠ StatusUnchanged) as Hne.
  { intros [Hall _]%sysctl_unchanged. destruct (Hall bridge_key) as [Habs|(c & Hc & Hf)].
    - apply elem_of_sortedKeys. by exists "1".
    - simpl in Habs. rewrite bridge_path_eq in Habs. congruence.
    - simpl in Hc. rewrite bridge_path_eq in Hc. apply ReadFile_ok_node in Hc. rewrite Hn in Hc.
      destruct Hc as [(? & ?)|?]; simplify_eq. unfold setting in Hf. simpl in Hf.
      by rewrite Hwanted in Hf. }
  revert Hne. unfold SysctlResource_Check, SysctlResource_diffLive. rewrite value_bind by apply _.
  destruct (value (diff_keys _ _) w) as [[drift skipped]|e]; simpl.
  - rewrite value_bind by apply _. case_bool; rewrite value_checked; simpl; [done|]. intros _. by left.
  - intros _. right. by left.
Qed.

(** *** The module *)

Lemma modules_stay w n :
  fs w !! bridge_path = Some n →
  fs (Apply (resource_of iface f p KModules) w).2 !! bridge_path = Some n.
Proof using Hok Hwanted.
  intros Hn. assert (Respects (λ w w', fs w !! bridge_path = Some n → fs w' !! bridge_path = Some n)
    (Apply (resource_of iface f p KModules))) as H; [|by apply H].
  apply kmod_respects.
  - split; [by intros s|]. intros s1 s2 s3 H12 H23 H. auto.
  - intros m Hm s. by apply (bh_stays Hok).
  - intros content s Hs. rewrite <-Hs. apply bridge_same, persisted_same.
    refine (bool_decide_unpack _ _). by vm_compute.
Qed.

Lemma load_module_brings loaded m w w' :
  m ∈ Modules p → "br_netfilter" ∉ loaded →
  fs w !! bridge_path = None ∨ fs w !! bridge_path = Some (NKnob (Ok v)) →
  load_module loaded m w = (Ok (), w') →
  (fs w' !! bridge_path = None ∨ fs w' !! bridge_path = Some (NKnob (Ok v))) ∧
  (m = "br_netfilter" ∨ fs w !! bridge_path = Some (NKnob (Ok v)) →
     fs w' !! bridge_path = Some (NKnob (Ok v))).
Proof using Hok.
  intros Hm Hnot Hw. unfold load_module. case_bool_decide as Hl.
  { intros [= <-]. split; [done|]. by intros [->|]. }
  intros Hrun. run_inv.
  match goal with H : run_cmd _ _ _ = _ |- _ => apply run_cmd_ok in H; rename H into Hcmd end.
  pose proof (bh_other Hok m w Hm) as Hother. pose proof (bh_stays Hok m w (NKnob (Ok v)) Hm) as Hstays.
  rewrite Hcmd in Hother, Hstays. cbn [snd] in *.
  destruct Hw as [Hw|Hw]; [|auto].
  destruct (decide (m = "br_netfilter")) as [->|Hne].
  - apply (bh_brings Hok) in Hcmd; auto.
  - split; [auto|]. intros [?|?]; congruence.
Qed.

Lemma modules_bring w w' :
  fs w !! bridge_path = None → unlisted (kmod_of p) "br_netfilter" w →
  Apply (resource_of iface f p KModules) w = (Ok (), w') →
  fs w' !! bridge_path = Some (NKnob (Ok v)).
Proof using Hok Hwanted Hmodule.
  intros Hw (loaded & Hl & Hnot). simpl. unfold KernelModuleResource_Apply.
  rewrite bind_ok_value, Hl by apply _. rewrite bind_ok_run.
  destruct (for_each _ _ w) as [[[]|e] w1] eqn:Hfe; [|done]. cbn [fst snd].
  intros Hp. change (persist "persisting modules-load.d drop-in " (Path New [modulesPersistFile])
    (renderModulesFile (wantModules (kmod_of p))) w1 = (Ok (), w')) in Hp.
  apply (for_each_establishes _
    (λ w, fs w !! bridge_path = None ∨ fs w !! bridge_path = Some (NKnob (Ok v)))
    (λ m w, m = "br_netfilter" → fs w !! bridge_path = Some (NKnob (Ok v)))) in Hfe as [_ Hall].
  - rewrite <-(Hall "br_netfilter"); [|by apply elem_of_wantModules|done].
    rewrite <-(persist_elsewhere "persisting modules-load.d drop-in " (Path New [modulesPersistFile])
      (renderModulesFile (wantModules (kmod_of p))) w1).
    + by rewrite Hp.
    + refine (bool_decide_unpack _ _). by vm_compute.
  - intros m s s' Hm Hs Hrun. apply elem_of_wantModules in Hm.
    apply load_module_brings in Hrun as [? ?]; auto.
  - intros m m' s s' _ Hm' Hs Hq Hrun ->. apply elem_of_wantModules in Hm'.
    apply load_module_brings in Hrun as [_ H]; auto.
  - by left.
Qed.

(** *** The sysctls after the module *)

Lemma sysctl_writes w w' :
  is_Some (fs w !! bridge_path) → Apply (resource_of iface f p KSysctl) w = (Ok (), w') →
  ∃ c, value (ReadFile bridge_path) w' = Ok c ∧ Fields c = ["1"].
Proof using Hok Hwanted.
  intros [n Hn] Hrun.
  assert (Respects grows (Apply (resource_of iface f p KSysctl))) as Hgrows.
  { apply sysctl_respects; [apply _|..].
    - intros k y. apply WriteFile_grows, SysctlPath_clean.
    - intros content. apply write_grows. refine (bool_decide_unpack _ _). by vm_compute. }
  destruct (Hgrows w) as [_ Hk]. rewrite Hrun in Hk. cbn [snd] in Hk.
  apply Hk in Hn as (n' & Hn' & _).
  apply sysctl_apply_unchanged in Hrun.
  - apply sysctl_unchanged in Hrun as [Hall _]. destruct (Hall bridge_key) as [Habs|(c & Hc & Hf)].
    + apply elem_of_sortedKeys. by exists "1".
    + simpl in Habs. rewrite bridge_path_eq in Habs. congruence.
    + simpl in Hc. rewrite bridge_path_eq in Hc. exists c. split; [done|].
      unfold setting in Hf. simpl in Hf. by rewrite Hwanted in Hf.
  - split; [done|apply (bh_clean Hok)|apply (bh_keeps Hok)|].
    right. exists ["etc"; "sysctl.d"], "99-node-configurator.conf".
    split_and!; [by repeat constructor|by vm_compute|done].
Qed.
(** *** The other resources *)

Definition others : list kind := tail (tail (kinds_of p)).

Lemma others_kinds k :
  k ∈ others → k ∈ kinds_of p ∧ k ≠ KModules ∧ ZSysctl ∉ touches k.
Proof using.
  clear Hok Hmounts Hiface Hwanted Hv Hmodule.
  intros Hk. split; [unfold kinds_of; rewrite <-!app_comm_cons; by do 2 right|].
  assert (Forall (λ k, k ≠ KModules ∧ ZSysctl ∉ touches k) others) as Hall;
    [|by apply (proj1 (Forall_forall _ _) Hall)].
  unfold others, kinds_of. rewrite <-!app_comm_cons. cbn [tail].
  repeat first [apply Forall_cons_2|apply Forall_app_2|case_match]; try apply Forall_nil_2;
    split; (done || (simpl; set_solver)).
Qed.

Lemma others_run disabled opts mode w :
  fs (Engine.Run (filterResources (resource_of iface f p <$> others) disabled opts) mode w).2
    !! bridge_path = fs w !! bridge_path.
Proof using Hok Hmounts Hiface Hwanted.
  apply bridge_same, (Run_respects (same (Sysctls p) ZSysctl));
    apply Forall_forall; intros r [Hr _]%filterResources_in;
    apply list_elem_of_fmap in Hr as (k & -> & (Hin & Hne & Hz)%others_kinds).
  - pose proof (all_resources_behaved New iface f p) as Hall. rewrite all_resources_kinds in Hall by done.
    rewrite Forall_fmap, Forall_forall in Hall. by apply Hall.
  - apply resource_touches_if; try done; try apply _; [apply (bh_ring_host Hok)|].
    destruct k; try done.
    + split; [apply (bh_swapoff Hok)|apply (bh_mask Hok)].
    + apply (bh_mount Hok).
    + intros args. apply (bh_ring_set Hok).
Qed.

(** *** The runs *)

Context (disabled : list string) (opts : Options).
Context (Hsysctl : allowed disabled opts "sysctl") (Hkmod : allowed disabled opts "kernel-modules").

(** What runs: the sysctls, the modules, and the others. *)
Abbreviation runs :=
  (resource_of iface f p KSysctl :: resource_of iface f p KModules
    :: filterResources (resource_of iface f p <$> others) disabled opts).

Lemma runs_planned :
  filterResources (all_resources New iface f p) disabled opts = runs.
Proof using Hmounts Hsysctl Hkmod.
  rewrite all_resources_kinds by done. unfold others, kinds_of. rewrite <-!app_comm_cons.
  rewrite !fmap_cons, filterResources_cons by done. by rewrite filterResources_cons.
Qed.

(** In a run that fails nowhere, a resource whose check finds drift is applied. *)
Lemma drift_applied r `{!WellBehaved r} w :
  rStatus (value (Checking r) w).1 = StatusWouldChange →
  rStatus (run_one ModeApply r w).1 ≠ StatusFailed →
  ∃ w', Apply r w = (Ok (), w') ∧ (run_one ModeApply r w).2 = w'.
Proof.
  intros Hs Hf. destruct (run_one_apply r w) as [[_ Heq]|[? _]]; [|done].
  rewrite Heq in *. cbn [fst snd] in *. destruct (Apply r w) as [[[]|e] w'] eqn:Ha; [|done].
  by exists w'.
Qed.

(** A step of a run is an Apply or nothing. *)
Lemma run_one_moves (R : relation World) r `{!WellBehaved r} w :
  R w w → R w (Apply r w).2 → R w (run_one ModeApply r w).2.
Proof. intros Hw Ha. by destruct (run_one_apply r w) as [[_ ->]|[_ ->]]. Qed.

Lemma Run_two r r' rs mode w :
  Engine.Run (r :: r' :: rs) mode w =
  let w1 := (run_one mode r w).2 in
  let w2 := (run_one mode r' w1).2 in
  ((run_one mode r w).1 :: (run_one mode r' w1).1 :: (Engine.Run rs mode w2).1,
   (Engine.Run rs mode w2).2).
Proof. cbv zeta. rewrite Run_cons. cbv zeta. by rewrite Run_cons. Qed.

(** The run that loads the module skips the setting ... *)
Lemma first_run w results w' :
  fs w !! bridge_path = None → unlisted (kmod_of p) "br_netfilter" w →
  Engine.Run runs ModeApply w = (results, w') → ExitCode results ModeApply = 0%Z →
  fs w' !! bridge_path = Some (NKnob (Ok v)).
Proof using Hok Hmounts Hiface Hwanted Hmodule.
  intros Hnone Hun Hrun Hexit.
  assert (Forall (λ res, rStatus res ≠ StatusFailed) (Engine.Run runs ModeApply w).1) as Hfine.
  { rewrite Hrun. by eapply ExitCode_zero. }
  set (r := resource_of iface f p KSysctl) in *. set (w1 := (run_one ModeApply r w).2).
  assert (fs w1 !! bridge_path = None) as Hnone1.
  { apply (run_one_moves (λ _ w, fs w !! bridge_path = None)); [apply _|done|by apply sysctl_skips]. }
  assert (unlisted (kmod_of p) "br_netfilter" w1) as Hun1.
  { eapply unlisted_same; [|exact Hun]. intros n <-.
    apply (same_zone (Sysctls p) ZModules); [done|done|].
    apply (run_one_moves (same (Sysctls p) ZModules)); [apply _|done|].
    apply resource_touches_if; try done; try apply _; [apply (bh_ring_host Hok)|by left|].
    refine (bool_decide_unpack _ _). by vm_compute. }
  rewrite Run_two in Hrun, Hfine. cbv zeta in Hrun, Hfine. cbn [fst snd] in Hrun, Hfine.
  fold r w1 in Hrun, Hfine.
  apply Forall_cons in Hfine as [_ [Hm _]%Forall_cons].
  apply (drift_applied _ w1) in Hm as (w2 & Happly & Hw2); [|by apply (unlisted_drift _ "br_netfilter")].
  injection Hrun as _ <-. rewrite others_run.
  change (fs (run_one ModeApply (resource_of iface f p KModules) w1).2 !! bridge_path
    = Some (NKnob (Ok v))). rewrite Hw2. by eapply modules_bring.
Qed.

(** ... which the next one writes. *)
Lemma second_run w results w' :
  fs w !! bridge_path = Some (NKnob (Ok v)) →
  Engine.Run runs ModeApply w = (results, w') → ExitCode results ModeApply = 0%Z →
  ∃ c, value (ReadFile bridge_path) w' = Ok c ∧ Fields c = ["1"].
Proof using Hok Hmounts Hiface Hwanted Hv.
  intros Hn Hrun Hexit. pose proof (sysctl_drifts w Hn) as Hdrift.
  assert (Forall (λ res, rStatus res ≠ StatusFailed) (Engine.Run runs ModeApply w).1) as Hfine.
  { rewrite Hrun. by eapply ExitCode_zero. }
  rewrite Run_two in Hrun, Hfine. cbv zeta in Hrun, Hfine. cbn [fst snd] in Hrun, Hfine.
  set (r := resource_of iface f p KSysctl) in *. apply Forall_cons in Hfine as [Hf _].
  assert (rStatus (value (Checking r) w).1 = StatusWouldChange) as Hs.
  { rewrite !elem_of_cons, elem_of_nil in Hdrift. destruct Hdrift as [|[Hs|[]]]; [done|].
    destruct (run_one_apply r w) as [[? _]|[_ Heq]]; [done|]. rewrite Heq in Hf. done. }
  destruct (drift_applied r w Hs Hf) as (w1 & Happly & Hw1).
  destruct (sysctl_writes w w1) as (c & Hc & Hfields); [by eexists|done|].
  exists c. split; [|done]. injection Hrun as _ <-. eapply ReadFile_same; [|exact Hc].
  rewrite others_run, Hw1.
  assert (is_Some (fs w1 !! bridge_path)) as [n Hn1].
  { apply ReadFile_ok_node in Hc as [[m Hc]|Hc]; rewrite Hc; by eexists. }
  rewrite Hn1. symmetry.
  apply (run_one_moves (λ _ w, fs w !! bridge_path = Some n)); [apply _|done|by apply modules_stay].
Qed.
End host.

(** ** Properties *)

Section legacy.
Context {HK : Kernel} {HR : Runner} {HU : Unicode} {HP : Platform}.
Context (f : Facts) (ov : Overrides) (disabled : list string) (opts : Options) (v : string).
Context (Hlegacy : LegacyIPTables (Cilium ov) = true).
Context (Hov : SysctlOverrides ov !! bridge_key = None) (Hv : Fields v ≠ ["1"]).
Context (Hsysctl : allowed disabled opts "sysctl") (Hkmod : allowed disabled opts "kernel-modules").
Context (Hok : bridge_host (Profile.Build f ov) v).

Abbreviation prof := (Profile.Build f ov).

(** What is built starts with the sysctls and the modules. *)
Lemma planned_runs w :
  let iface := value (PrimaryInterface New) w in
  planned f prof disabled opts w =
  resource_of iface f prof KSysctl :: resource_of iface f prof KModules
    :: filterResources (resource_of iface f prof <$> others prof) disabled opts.
Proof using Hsysctl Hkmod. cbv zeta. rewrite planned_eq. by apply runs_planned. Qed.

Lemma check_reports w :
  fs w !! bridge_path = Some (NKnob (Ok v)) →
  ExitCode (Engine.Run (planned f prof disabled opts w) ModeCheck w).1 ModeCheck ≠ 0%Z.
Proof using All.
  intros Hn Hexit. pose proof (bh_units _ _ Hok). pose proof (bh_rings _ _ Hok).
  assert (Forall WellBehaved (planned f prof disabled opts w)) as Hb by apply Build_behaved.
  rewrite Run_check in Hexit by done. rewrite planned_runs in Hexit. cbv zeta in Hexit.
  cbn [fst] in Hexit. rewrite fmap_cons in Hexit.
  pose proof (sysctl_drifts prof v (value (PrimaryInterface New) w) f
    (bridge_wanted f ov Hlegacy Hov) Hv w Hn) as Hs.
  set (r := resource_of _ f prof KSysctl) in *. clearbody r.
  rewrite !elem_of_cons, elem_of_nil in Hs.
  apply ExitCode_zero in Hexit as Hf. apply Forall_cons in Hf as [Hf _].
  destruct Hs as [Hs|[Hs|[]]]; [|done].
  unfold ExitCode in Hexit. cbn [existsb] in Hexit. rewrite Hs in Hexit.
  by destruct (failed _ || _).
Qed.
End legacy.


(** *** A node without the module

    [modprobe] lists a module in /proc/modules, and br_netfilter brings the bridge settings
    with it, both 0; all else is the node of [Cooperate]. *)

Definition zero : string := "0" +:+ nls.

Definition load (m : string) (l : gmap string node) : gmap string node :=
  alter (λ n, match n with
              | NKnob (Ok c) => NKnob (Ok (c +:+ m +:+ " 16384 0 - Live 0x0" +:+ nls))
              | _ => n
              end) "/proc/modules" l.

Definition bring (l : gmap string node) : gmap string node :=
  match l !! bridge_path with
  | Some _ => l
  | None => <[bridge_path := NKnob (Ok zero)]>
              (<["/proc/sys/net/bridge/bridge-nf-call-ip6tables" := NKnob (Ok zero)]> l)
  end.

Definition modprobe_runner : Runner := λ name args w,
  if String.eqb name "modprobe" then
    match args with
    | m :: _ => ((EmptyString, None),
                 set_fs (λ l, if String.eqb m "br_netfilter" then bring (load m l) else load m l) w)
    | [] => ((EmptyString, None), w)
    end
  else node_runner name args w.

Definition legacy_overrides : Overrides :=
  mkOverrides ∅ 0 None 0 (mkCilium EmptyString true) None None None None None.
Definition legacy_profile : Profile := Profile.Build (HP:=demo_platform) node_facts legacy_overrides.

Lemma load_elsewhere m l : load m l !! bridge_path = l !! bridge_path.
Proof. unfold load. by rewrite lookup_alter_ne. Qed.

#[local] Existing Instance node_kernel.
#[local] Existing Instance modprobe_runner.
#[local] Existing Instance plain_unicode.

Lemma legacy_host : bridge_host legacy_profile zero.
Proof.
  split.
  - by intros w.
  - by intros i w.
  - exact node_ring.
  - intros w w' out Hn [= _ <-]. simpl. unfold bring. rewrite load_elsewhere, Hn. apply lookup_insert_eq.
  - intros m w _ Hne Hn. simpl. apply String.eqb_neq in Hne as ->. by rewrite load_elsewhere.
  - intros m w n _ Hn. simpl. case_match; [|by rewrite load_elsewhere].
    unfold bring. by rewrite load_elsewhere, Hn, load_elsewhere.
  - exact (node_swapoff_only (Sysctls legacy_profile) ZSysctl ltac:(done)).
  - by intros unit w.
  - exact (node_mount_only (Sysctls legacy_profile) ZSysctl _ ltac:(done)).
  - intros args. exact (node_ring_only (Sysctls legacy_profile) ZSysctl args ltac:(done)).
  - apply Forall_forall. refine (bool_decide_unpack _ _). by vm_compute.
  - intros k _. exact (node_keeps legacy_profile k).
Qed.

Definition legacy_rs (w : World) : list Resource :=
  planned node_facts legacy_profile [] (mkOptions [] []) w.

