(* ===== verification/Config.v ===== *)
(** * internal/config

    The operator's YAML file ([config.go]): its structure, the duration it may hold and how
    it becomes overrides of the profile. Parsing YAML itself is the parameter [Yaml]. *)

From Stdlib Require Import DecimalString.
From S2P Require Import Prelude GoStrings GoPath GoOS Sysutil GoFmt GoFloat Facts Profile.

(** ** [time.ParseDuration] *)

Definition two63 : Z := (2 ^ 63)%Z.

(** [time]'s own quoting: bytes that are not printable ASCII are escaped. *)
Fixpoint time_quote_go (s : string) : string :=
  match s with
  | EmptyString => EmptyString
  | String c s =>
      let n := N_of_ascii c in
      (if (128 <=? n)%N || (n <? 32)%N
       then String backslash (String "x" (hex_fixed 2 (Z.of_N n)))
       else if (n =? 34)%N || (n =? 92)%N then String backslash (String c EmptyString)
       else String c EmptyString) +:+ time_quote_go s
  end.
Definition time_quote (s : string) : string :=
  String quote_char (time_quote_go s +:+ String quote_char EmptyString).

Definition digit_value (c : ascii) : Z := (Z.of_N (N_of_ascii c) - 48)%Z.

(** [[0-9]*], an error beyond 2^63. *)
Fixpoint leadingInt (x : Z) (s : string) : option (Z * string) :=
  match s with
  | String c s' =>
      if is_digit c then
        if (two63 / 10 <? x)%Z then None
        else let x := (x * 10 + digit_value c)%Z in
             if (two63 <? x)%Z then None else leadingInt x s'
      else Some (x, s)
  | EmptyString => Some (x, s)
  end.

(** The digits after a point, as [x / scale]; digits beyond 63 bits are read over. *)
Fixpoint leadingFraction (x : Z) (scale : float64) (overflow : bool) (s : string) :
    Z * float64 * string :=
  match s with
  | String c s' =>
      if is_digit c then
        let y := (x * 10 + digit_value c)%Z in
        if overflow || ((two63 - 1) / 10 <? x)%Z || (two63 <? y)%Z
        then leadingFraction x scale true s'
        else leadingFraction y (fmul scale (float_of_Z 10)) false s'
      else (x, scale, s)
  | EmptyString => (x, scale, s)
  end.

(** What comes before the next digit or point. *)
Fixpoint leading_unit (s : string) : string * string :=
  match s with
  | String c s' =>
      if is_digit c || Ascii.eqb c "." then (EmptyString, s)
      else let '(u, r) := leading_unit s' in (String c u, r)
  | EmptyString => (EmptyString, EmptyString)
  end.

(** The micro sign and the Greek letter mu, in UTF-8. *)
Definition micro : string := String "194" (String "181" "s").
Definition mu : string := String "206" (String "188" "s").

Definition unit_of (u : string) : option Z :=
  if String.eqb u "ns" then Some 1%Z
  else if in_list u ["us"; micro; mu] then Some 1000%Z
  else if String.eqb u "ms" then Some 1000000%Z
  else if String.eqb u "s" then Some 1000000000%Z
  else if String.eqb u "m" then Some 60000000000%Z
  else if String.eqb u "h" then Some 3600000000000%Z
  else None.

Inductive duration_error : Set := Invalid | MissingUnit | UnknownUnit (u : string).

(** One number and its unit, in nanoseconds, and the rest. *)
Definition duration_term (s : string) : result duration_error (Z * string) :=
  match s with
  | EmptyString => Err Invalid
  | String c _ =>
    if negb (is_digit c || Ascii.eqb c ".") then Err Invalid else
    match leadingInt 0 s with
    | None => Err Invalid
    | Some (v, s1) =>
      let pre := negb (Nat.eqb (String.length s1) (String.length s)) in
      let '(f, scale, s2, post) :=
        match s1 with
        | String "." s1 =>
            let '(f, scale, s2) := leadingFraction 0 (float_of_Z 1) false s1 in
            (f, scale, s2, negb (Nat.eqb (String.length s2) (String.length s1)))
        | _ => (0%Z, float_of_Z 1, s1, false)
        end in
      if negb pre && negb post then Err Invalid else
      let '(u, s3) := leading_unit s2 in
      if String.eqb u EmptyString then Err MissingUnit else
      match unit_of u with
      | None => Err (UnknownUnit u)
      | Some unit =>
        if (two63 / unit <? v)%Z then Err Invalid else
        let v := (v * unit)%Z in
        let v := if (0 <? f)%Z
                 then (v + default 0 (float_trunc
                             (fmul (float_of_Z f) (fdiv (float_of_Z unit) scale))))%Z
                 else v in
        if (0 <? f)%Z && (two63 <? v)%Z then Err Invalid else Ok (v, s3)
      end
    end
  end.

(** The sum of the terms; each takes at least one byte, so the length is fuel enough. *)
Fixpoint duration_terms (fuel : nat) (d : Z) (s : string) : result duration_error Z :=
  match s, fuel with
  | EmptyString, _ => Ok d
  | _, O => Err Invalid
  | _, S fuel =>
      match duration_term s with
      | Err e => Err e
      | Ok (v, s) =>
          let d := (d + v)%Z in
          if (two63 <? d)%Z then Err Invalid else duration_terms fuel d s
      end
  end.

Definition duration_message (orig : string) (e : duration_error) : error :=
  TextError
    match e with
    | Invalid => "time: invalid duration " +:+ time_quote orig
    | MissingUnit => "time: missing unit in duration " +:+ time_quote orig
    | UnknownUnit u =>
        "time: unknown unit " +:+ time_quote u +:+ " in duration " +:+ time_quote orig
    end.

Definition ParseDuration (orig : string) : result error Z :=
  let '(neg, s) :=
    match orig with
    | String c s =>
        if Ascii.eqb c "-" then (true, s)
        else if Ascii.eqb c "+" then (false, s) else (false, orig)
    | EmptyString => (false, orig)
    end in
  if String.eqb s "0" then Ok 0%Z
  else if String.eqb s EmptyString then Err (duration_message orig Invalid)
  else
    match duration_terms (String.length s) 0 s with
    | Err e => Err (duration_message orig e)
    | Ok d =>
        if neg then Ok (- d)%Z
        else if (two63 - 1 <? d)%Z then Err (duration_message orig Invalid) else Ok d
    end.

Example durations :
  ParseDuration <$> ["1h"; "1.5h"; "-30m"; "2h45m0.5s"; "0"; "1"; "3x"; "9223372036854775808ns"] =
  [Ok 3600000000000%Z; Ok 5400000000000%Z; Ok (-1800000000000)%Z; Ok 9900500000000%Z; Ok 0%Z;
   Err (duration_message "1" MissingUnit); Err (duration_message "3x" (UnknownUnit "x"));
   Err (duration_message "9223372036854775808ns" Invalid)].
Proof. by vm_compute. Qed.

(** ** The file *)

(** [Duration.UnmarshalYAML], given what decoding the node as a string yields. *)
Definition UnmarshalYAML `{!Unicode} (decoded : result error string) : result error Z :=
  match decoded with
  | Err err => Err err
  | Ok s =>
      if String.eqb s EmptyString then Ok 0%Z
      else
        match ParseDuration s with
        | Err err => Err (Wrap ("invalid duration " +:+ Quote s) err)
        | Ok d => Ok d
        end
  end.

Record ResourcesConfig : Set := mkResourcesConfig { cDisable : list string }.
Record SysctlConfig : Type := mkSysctlConfig { cOverrides : gmap string string }.
Record LimitsConfig : Set := mkLimitsConfig { cNoFile : Z; cNProc : Z }.
Record HugePagesConfig : Set := mkHugePagesConfig { cEnabled : bool; cCount2M : Z }.
Record CiliumConfig : Set := mkCiliumConfig { cTunnelMode : string; cLegacyIPTables : bool }.
Record NetworkConfig : Set := mkNetworkConfig {
  cIRQAffinity : option bool;
  cRingBufferMax : option bool;
  cRPS : option bool;
  cXPS : option bool
}.
Record StorageConfig : Set := mkStorageConfig { cIOScheduler : option string }.
Record CPUConfig : Set := mkCPUConfig { cGovernor : option string }.
Record FactsConfig : Set := mkFactsConfig { cCacheTTL : Z }.

Record Config : Type := mkConfig {
  DryRun : bool;
  LogFormat : string;
  cResources : ResourcesConfig;
  cSysctl : SysctlConfig;
  cLimits : LimitsConfig;
  cHugePages : HugePagesConfig;
  cCilium : CiliumConfig;
  cNetwork : NetworkConfig;
  cStorage : StorageConfig;
  cCPU : CPUConfig;
  cFacts : FactsConfig
}.

(** [var cfg Config]. *)
Definition no_config : Config :=
  mkConfig false EmptyString (mkResourcesConfig []) (mkSysctlConfig ∅) (mkLimitsConfig 0 0)
    (mkHugePagesConfig false 0) (mkCiliumConfig EmptyString false)
    (mkNetworkConfig None None None None) (mkStorageConfig None) (mkCPUConfig None)
    (mkFactsConfig 0).

(** [yaml.Unmarshal] of the file's bytes into a fresh configuration: the library fills the
    structure, and calls the method that reads a [Duration] with what decoding its node as a
    string yields. *)
Class Yaml : Type :=
  yaml_unmarshal : (result error string → result error Z) → string → result error Config.

Definition Load `{!Unicode} {HY : Yaml} (path : string) : IO Config :=
  data <- ReadFile path;;
  ret (match data with
       | Err err =>
           if IsNotExist err then Ok no_config
           else Err (Wrap ("reading config " +:+ path) err)
       | Ok data =>
           match yaml_unmarshal UnmarshalYAML data with
           | Err err => Err (Wrap ("parsing config " +:+ path) err)
           | Ok cfg => Ok cfg
           end
       end).

#[export] Instance Load_read_only `{!Unicode} {HY : Yaml} path : ReadOnly (Load path).
Proof. unfold Load. apply _. Qed.

Definition ToProfileOverrides (c : Config) : Overrides := {|
  SysctlOverrides := cOverrides (cSysctl c);
  NoFileLimit := cNoFile (cLimits c);
  ovCPUGovernor := cGovernor (cCPU c);
  HugePages2M := if cEnabled (cHugePages c) then cCount2M (cHugePages c) else 0%Z;
  Cilium := mkCilium (cTunnelMode (cCilium c)) (cLegacyIPTables (cCilium c));
  ovIRQAffinity := cIRQAffinity (cNetwork c);
  ovRingBufferMax := cRingBufferMax (cNetwork c);
  ovRPS := cRPS (cNetwork c);
  ovXPS := cXPS (cNetwork c);
  ovIOScheduler := cIOScheduler (cStorage c)
|}.

(** ** Durations read back *)

(** What follows a number does not start with a digit. *)
Definition no_digit_head (s : string) : bool :=
  match s with String c _ => negb (is_digit c) | EmptyString => true end.

(** What follows a unit is the end or the next number. *)
Definition digit_head (s : string) : bool :=
  match s with String c _ => is_digit c | EmptyString => true end.

Lemma of_uint_acc_le d acc : (acc ≤ Pos.of_uint_acc d acc)%positive.
Proof. revert acc. induction d; intros acc; simpl; [done|etrans; [|apply IHd]; lia..]. Qed.

Lemma leading_step {A} (k : Z → option A) (x v y : Z) :
  y = (x * 10 + v)%Z → (0 ≤ v)%Z → (y ≤ two63)%Z →
  (if (two63 / 10 <? x)%Z then None
   else if (two63 <? x * 10 + v)%Z then None else k (x * 10 + v)%Z) = k y.
Proof.
  intros -> Hv Hy. unfold two63 in *.
  rewrite !(proj2 (Z.ltb_ge _ _)); [done|lia|].
  apply Z.div_le_lower_bound; lia.
Qed.

Lemma leadingInt_acc d acc r :
  no_digit_head r = true → (Zpos (Pos.of_uint_acc d acc) ≤ two63)%Z →
  leadingInt (Zpos acc) (NilEmpty.string_of_uint d +:+ r)
    = Some (Zpos (Pos.of_uint_acc d acc), r).
Proof.
  intros Hr. revert acc. induction d; intros acc Hle; simpl in Hle |- *.
  { destruct r as [|c r]; simpl in *; [done|]. by apply negb_true_iff in Hr as ->. }
  all: match type of Hle with (Zpos (Pos.of_uint_acc _ ?a) ≤ _)%Z =>
         pose proof (of_uint_acc_le d a) as Hmono; specialize (IHd a Hle); rewrite <-IHd;
         apply (leading_step (λ x, leadingInt x _) _ _ (Zpos a)) end;
       unfold digit_value; simpl; lia.
Qed.

Lemma leadingInt_uint d r :
  no_digit_head r = true → (Z.of_N (N.of_uint d) ≤ two63)%Z →
  leadingInt 0 (NilEmpty.string_of_uint d +:+ r) = Some (Z.of_N (N.of_uint d), r).
Proof.
  intros Hr Hle. unfold N.of_uint in *. induction d; simpl in Hle |- *;
    [destruct r as [|c r]; simpl in *; [done|]; by apply negb_true_iff in Hr as ->
    |by apply IHd|by apply leadingInt_acc..].
Qed.

Lemma leadingInt_Itoa n r :
  (0 ≤ n ≤ two63)%Z → no_digit_head r = true → leadingInt 0 (Itoa n +:+ r) = Some (n, r).
Proof.
  intros Hn Hr. unfold Itoa. destruct (n <? 0)%Z eqn:Hneg; [bool_prop; lia|].
  unfold digits_of_N.
  assert (NilZero.string_of_uint (N.to_uint (Z.to_N n)) =
    NilEmpty.string_of_uint (N.to_uint (Z.to_N n))) as ->.
  { pose proof (to_uint_nonnil (Z.to_N n)). by destruct (N.to_uint _). }
  rewrite leadingInt_uint; rewrite ?DecimalN.Unsigned.of_to, ?Z2N.id by lia; try done; lia.
Qed.

(** A duration as it is written: numbers and their units. *)
Fixpoint duration_text (l : list (Z * string)) : string :=
  match l with
  | [] => EmptyString
  | (n, u) :: l => Itoa n +:+ u +:+ duration_text l
  end.

Fixpoint duration_total (l : list (Z * string)) : Z :=
  match l with
  | [] => 0
  | (n, u) :: l => n * default 0 (unit_of u) + duration_total l
  end%Z.

Definition term_ok (x : Z * string) : bool :=
  (0 <=? x.1)%Z && match unit_of x.2 with Some _ => true | None => false end.

(** The units the standard library knows. *)
Lemma unit_of_inv u k :
  unit_of u = Some k →
  u ∈ ["ns"; "us"; micro; mu; "ms"; "s"; "m"; "h"] ∧ (0 < k)%Z.
Proof.
  unfold unit_of, in_list.
  repeat match goal with
  | |- context [String.eqb u ?s] => destruct (String.eqb_spec u s); [subst u|]
  | |- context [bool_decide ?P] => destruct (bool_decide_reflect P)
  end; intros [= <-]; (split; [set_solver|lia]).
Qed.

Definition no_number (u : string) : bool :=
  forallb (λ c, negb (is_digit c || Ascii.eqb c ".")) (String.list_ascii_of_string u).

Lemma leading_unit_free u r :
  no_number u = true → leading_unit r = (EmptyString, r) → leading_unit (u +:+ r) = (u, r).
Proof.
  intros Hu Hr. induction u as [|c u IH]; [done|]. unfold no_number in Hu. simpl in *.
  apply andb_true_iff in Hu as [Hc%negb_true_iff Hu]. by rewrite Hc, (IH Hu).
Qed.

Lemma unit_no_number u k : unit_of u = Some k → no_number u = true ∧ u ≠ EmptyString.
Proof.
  intros [Hu _]%unit_of_inv. rewrite !elem_of_cons, elem_of_nil in Hu.
  destruct_or! Hu; try done; by subst u.
Qed.

Lemma leading_unit_app u k r :
  unit_of u = Some k → digit_head r = true →
  leading_unit (u +:+ r) = (u, r) ∧ no_digit_head (u +:+ r) = true ∧
  (∀ s, u +:+ r ≠ String "." s).
Proof.
  intros [Hu Hne]%unit_no_number Hr.
  assert (leading_unit r = (EmptyString, r)) as Hl.
  { destruct r as [|c r]; [done|]. simpl in *. by rewrite Hr. }
  split; [by apply leading_unit_free|].
  destruct u as [|c u]; [done|]. unfold no_number in Hu. simpl in *.
  apply andb_true_iff in Hu as [Hc%negb_true_iff _]. apply orb_false_iff in Hc as [Hd Hp].
  rewrite Hd. split; [done|]. by intros s [= -> _].
Qed.

Lemma Itoa_head n : (0 ≤ n)%Z →
  ∃ c s, Itoa n = String c s ∧ is_digit c = true ∧ Ascii.eqb c "-" = false ∧
    Ascii.eqb c "+" = false.
Proof.
  intros Hn. unfold Itoa. destruct (n <? 0)%Z eqn:Hneg; [bool_prop; lia|].
  unfold digits_of_N, NilZero.string_of_uint. pose proof (to_uint_nonnil (Z.to_N n)).
  destruct (N.to_uint (Z.to_N n)); [done|..]; simpl; by do 2 eexists.
Qed.

Lemma duration_text_head l : Forall (λ x, term_ok x = true) l → digit_head (duration_text l) = true.
Proof.
  intros Hl. destruct Hl as [|[n u] l Hx _]; [done|]. unfold term_ok in Hx. simpl in *. bool_prop.
  destruct (Itoa_head n) as (c & s & -> & Hc & _); [done|]. done.
Qed.

Lemma duration_term_text n u k r :
  (0 ≤ n)%Z → unit_of u = Some k → (n * k ≤ two63)%Z → digit_head r = true →
  duration_term (Itoa n +:+ u +:+ r) = Ok ((n * k)%Z, r).
Proof.
  intros Hn Hu Hle Hr.
  destruct (leading_unit_app u k r) as (Hl & Hnd & Hdot); [done..|].
  destruct (unit_of_inv u k Hu) as [Hin Hk].
  destruct (Itoa_head n Hn) as (c & s & Hc & Hd & _). unfold duration_term.
  assert (leadingInt 0 (Itoa n +:+ u +:+ r) = Some (n, u +:+ r)) as Hlead.
  { apply leadingInt_Itoa; [nia|done]. }
  assert (String.length (u +:+ r) ≠ String.length (Itoa n +:+ u +:+ r)) as Hlen.
  { rewrite !str_length_app, Hc. simpl. lia. }
  destruct (Itoa n +:+ u +:+ r) as [|c' s'] eqn:Ht; [by rewrite Hc in Ht|].
  assert (c' = c) as -> by (rewrite Hc in Ht; by injection Ht). rewrite Hd. cbn [negb orb]. cbv iota.
  rewrite Hlead.
  assert (∀ A (a b : A) F, match u +:+ r with String "." s1 => F s1 | _ => b end = b) as Hnodot.
  { intros A _ b F. destruct (u +:+ r) as [|c1 s1]; [done|]. 
    destruct (Ascii.eqb_spec c1 ".") as [->|Hne]; [by destruct (Hdot s1)|].
    destruct c1 as [[] [] [] [] [] [] [] []]; try done. }
  rewrite (Hnodot _ (0%Z, float_of_Z 1, u +:+ r, false) (0%Z, float_of_Z 1, u +:+ r, false)
    (λ s1, let '(f, scale, s2) := leadingFraction 0 (float_of_Z 1) false s1 in
           (f, scale, s2, negb (Nat.eqb (String.length s2) (String.length s1))))).
  rewrite (proj2 (Nat.eqb_neq _ _) Hlen). cbn [negb andb]. cbv iota.
  rewrite Hl, Hu. cbn [Z.ltb Z.compare andb].
  rewrite (proj2 (String.eqb_neq _ _) (proj2 (unit_no_number u k Hu))).
  rewrite (proj2 (Z.ltb_ge _ _)); [done|]. apply Z.div_le_lower_bound; lia.
Qed.

Lemma duration_total_nonneg l : Forall (λ x, term_ok x = true) l → (0 ≤ duration_total l)%Z.
Proof.
  induction 1 as [|[n u] l Hx Hl IH]; [done|]. unfold term_ok in Hx. simpl in *. bool_prop.
  destruct (unit_of u) as [k|] eqn:Hu; [|done]. apply unit_of_inv in Hu as [_ ?]. simpl. nia.
Qed.

Lemma duration_terms_text l fuel d :
  Forall (λ x, term_ok x = true) l → (0 ≤ d)%Z → (d + duration_total l ≤ two63)%Z →
  (String.length (duration_text l) ≤ fuel)%nat →
  duration_terms fuel d (duration_text l) = Ok (d + duration_total l)%Z.
Proof.
  intros Hl. revert fuel d. induction Hl as [|[n u] l Hx Hl IH]; intros fuel d Hd Hle Hfuel.
  { simpl. rewrite Z.add_0_r. by destruct fuel. }
  unfold term_ok in Hx. cbn [fst snd] in Hx. bool_prop.
  destruct (unit_of u) as [k|] eqn:Hu; [|done]. destruct (unit_of_inv u k Hu) as [_ Hk].
  pose proof (duration_total_nonneg l Hl). simpl in Hle |- *. rewrite Hu in Hle |- *.
  simpl in Hle |- *. simpl in Hfuel. rewrite !str_length_app in Hfuel.
  destruct (Itoa_head n) as (c & s & Hc & _); [done|].
  destruct fuel as [|fuel]; [rewrite Hc in Hfuel; simpl in Hfuel; lia|].
  pose proof (duration_term_text n u k (duration_text l) ltac:(done) Hu ltac:(nia)
    (duration_text_head l Hl)) as Hterm.
  destruct (Itoa n +:+ u +:+ duration_text l) as [|c' s'] eqn:Ht; [by rewrite Hc in Ht|].
  cbn [duration_terms]. rewrite Hterm. cbv zeta.
  rewrite (proj2 (Z.ltb_ge _ _)) by lia.
  rewrite IH; [f_equal; lia|nia|lia|].
  rewrite Hc in Hfuel. simpl in Hfuel. lia.
Qed.

Lemma ParseDuration_text l :
  l ≠ [] → Forall (λ x, term_ok x = true) l → (duration_total l < 2 ^ 63)%Z →
  duration_text l ≠ EmptyString ∧
  ParseDuration (duration_text l) = Ok (duration_total l) ∧
  ParseDuration ("-" +:+ duration_text l) = Ok (- duration_total l)%Z.
Proof.
  intros Hne Hl Hmax.
  assert (duration_terms (String.length (duration_text l)) 0 (duration_text l)
    = Ok (duration_total l)) as Hterms.
  { by rewrite duration_terms_text by (done || (unfold two63; lia)). }
  assert (∃ c s, duration_text l = String c s ∧ Ascii.eqb c "-" = false ∧
    Ascii.eqb c "+" = false ∧ duration_text l ≠ "0") as (c & s & Hc & Hm & Hp & H0).
  { destruct Hl as [|[n u] l Hx Hl]; [done|]. unfold term_ok in Hx. simpl in *. bool_prop.
    destruct (unit_of u) eqn:Hu; [|done]. destruct (unit_no_number _ _ Hu) as [_ Hune].
    destruct (Itoa_head n) as (c & s & Hs & ? & ? & ?); [done|]. rewrite Hs.
    exists c, (s +:+ u +:+ duration_text l). split_and!; [done..|]. intros [= _ Hnil].
    apply str_app_eq_nil in Hnil as [_ Hnil]. by apply str_app_eq_nil in Hnil as [? _]. }
  apply String.eqb_neq in H0. split; [by rewrite Hc|]. split.
  - unfold ParseDuration. rewrite Hc in *. rewrite Hm, Hp, H0. cbn [String.eqb].
    rewrite Hterms. by rewrite (proj2 (Z.ltb_ge _ _)) by (unfold two63; lia).
  - rewrite str_cons_app, str_nil_app. unfold ParseDuration.
    change (Ascii.eqb "-"%char "-"%char) with true. cbv beta iota.
    rewrite H0. rewrite Hc in *. cbn [String.eqb]. by rewrite Hterms.
Qed.

(** ** The loop of [time.ParseDuration] *)

Lemma digit_value_nonneg c : is_digit c = true → (0 ≤ digit_value c)%Z.
Proof.
  unfold is_digit, digit_value. intros H. bool_prop. lia.
Qed.

Lemma leadingInt_rest x s v r :
  leadingInt x s = Some (v, r) → (0 ≤ x)%Z → (0 ≤ v)%Z ∧ String.length r ≤ String.length s.
Proof.
  revert x. induction s as [|c s IH]; intros x; simpl; [by intros [= <- <-]|].
  destruct (is_digit c) eqn:Hc; [|by intros [= <- <-]].
  apply digit_value_nonneg in Hc. case_match; [done|]. case_match; [done|].
  intros Hr Hx. apply IH in Hr as [? ?]; lia.
Qed.

Lemma leadingFraction_rest x scale b s v scale' r :
  leadingFraction x scale b s = (v, scale', r) → unsigned scale = true →
  unsigned scale' = true ∧ String.length r ≤ String.length s.
Proof.
  revert x scale b. induction s as [|c s IH]; intros x scale b; simpl; [by intros [= _ <- <-]|].
  destruct (is_digit c); [|by intros [= _ <- <-]].
  intros Hr Hs. case_bool; apply IH in Hr as [? ?]; try done; try (split; [done|lia]).
  by apply fmul_unsigned.
Qed.

Lemma leading_unit_rest s u r :
  leading_unit s = (u, r) → String.length s = String.length u + String.length r.
Proof.
  revert u. induction s as [|c s IH]; intros u; simpl; [by intros [= <- <-]|].
  case_bool; [by intros [= <- <-]|]. destruct (leading_unit s) as [u' r'].
  intros [= <- <-]. simpl. by rewrite (IH u').
Qed.

(** A term is not negative and takes at least a byte. *)
Lemma duration_term_rest s v r :
  duration_term s = Ok (v, r) → (0 ≤ v)%Z ∧ String.length r < String.length s.
Proof.
  unfold duration_term. destruct s as [|c s0]; [done|]. set (s := String c s0).
  case_bool; [done|].
  destruct (leadingInt 0 s) as [[x s1]|] eqn:Hi; [|done].
  apply leadingInt_rest in Hi as [Hx Hs1]; [|done].
  assert (∃ f scale s2 post, (match s1 with
      | String "." s1 => let '(f, scale, s2) := leadingFraction 0 (float_of_Z 1) false s1 in
          (f, scale, s2, negb (Nat.eqb (String.length s2) (String.length s1)))
      | _ => (0%Z, float_of_Z 1, s1, false)
      end) = (f, scale, s2, post) ∧ unsigned scale = true ∧
      String.length s2 ≤ String.length s1) as (f & scale & s2 & post & -> & Hscale & Hs2).
  { destruct s1 as [|[[] [] [] [] [] [] [] []] s1]; try (by do 4 eexists).
    destruct (leadingFraction _ _ _ s1) as [[f scale] s2] eqn:Hf.
    apply leadingFraction_rest in Hf as [? ?]; [|done].
    do 4 eexists. split; [done|]. split; [done|]. simpl. lia. }
  case_bool; [done|]. destruct (leading_unit s2) as [u s3] eqn:Hu.
  apply leading_unit_rest in Hu. destruct (String.eqb_spec u EmptyString) as [|Hne]; [done|].
  destruct (unit_of u) as [unit|] eqn:Hunit; [|done]. apply unit_of_inv in Hunit as [_ Hunit].
  case_match; [done|]. case_match; [done|]. intros [= <- <-]. split.
  - case_match; [|nia].
    assert (0 ≤ default 0 (float_trunc (fmul (float_of_Z f) (fdiv (float_of_Z unit) scale))))%Z.
    { destruct (float_trunc _) as [n|] eqn:Hn; [|done]. apply float_trunc_unsigned in Hn; [done|].
      bool_prop. apply fmul_unsigned; [|apply fdiv_unsigned]; try done;
        apply float_of_Z_unsigned; lia. }
    nia.
  - destruct u as [|c' u]; [done|]. simpl in Hu. lia.
Qed.

(** What the loop computes, without counting its steps. *)
Inductive adds_up : Z → string → result duration_error Z → Prop :=
| adds_none d : adds_up d EmptyString (Ok d)
| adds_error d s e : duration_term s = Err e → s ≠ EmptyString → adds_up d s (Err e)
| adds_overflow d s v r : duration_term s = Ok (v, r) → (two63 < d + v)%Z →
    adds_up d s (Err Invalid)
| adds_term d s v r res : duration_term s = Ok (v, r) → (d + v ≤ two63)%Z →
    adds_up (d + v) r res → adds_up d s res.

Lemma adds_up_inv d s r :
  adds_up d s r →
  match duration_term s with
  | Err e => r = (if String.eqb s EmptyString then Ok d else Err e)
  | Ok (v, rest) => if (two63 <? d + v)%Z then r = Err Invalid else adds_up (d + v) rest r
  end.
Proof.
  destruct 1 as [d|d s e Ht Hne|d s v r Ht Hv|d s v r res Ht Hv Hr]; [done|..]; rewrite Ht.
  - by apply String.eqb_neq in Hne as ->.
  - by rewrite (proj2 (Z.ltb_lt _ _)).
  - by rewrite (proj2 (Z.ltb_ge _ _)).
Qed.

Lemma adds_up_unique d s r r' : adds_up d s r → adds_up d s r' → r = r'.
Proof.
  intros H. revert r'. induction H as [d|d s e Ht Hne|d s v r Ht Hv|d s v r res Ht Hv Hr IH];
    intros r' H'%adds_up_inv; [done|..]; rewrite Ht in H'.
  - by apply String.eqb_neq in Hne as Heq; rewrite Heq in H'.
  - by rewrite (proj2 (Z.ltb_lt _ _)) in H'.
  - rewrite (proj2 (Z.ltb_ge _ _)) in H' by done. by apply IH.
Qed.

Lemma duration_terms_adds n d s :
  String.length s ≤ n → adds_up d s (duration_terms n d s).
Proof.
  revert d s. induction n as [|n IH]; intros d s Hn.
  { destruct s; [constructor|simpl in Hn; lia]. }
  destruct s as [|c s]; [constructor|]. cbn [duration_terms].
  destruct (duration_term (String c s)) as [[v r]|e] eqn:Ht; [|by constructor].
  destruct (two63 <? d + v)%Z eqn:Hmax; bool_prop; [by eapply adds_overflow|].
  eapply adds_term; [done|lia|]. apply IH. apply duration_term_rest in Ht as [_ Ht]. lia.
Qed.

Lemma adds_up_range d s x : adds_up d s (Ok x) → (0 ≤ d ≤ two63)%Z → (0 ≤ x ≤ two63)%Z.
Proof.
  remember (Ok x) as r eqn:Hr. induction 1 as [| | |d s v r res Ht Hle _ IH]; simplify_eq; [done|].
  intros Hd. apply duration_term_rest in Ht as [Hv _]. apply IH; [done|lia].
Qed.

(** ** Properties *)

(** C37: a time to live written as numbers with units, in any order and with repetition
    ("1h30m"), is read as their exact sum in nanoseconds up to the largest duration, and as
    its negative after a minus sign; the empty string is 0, which means never. *)
Theorem UnmarshalYAML_reads {HU : Unicode} (l : list (Z * string))
    (Hne : l ≠ []) (Hl : Forall (λ x, term_ok x = true) l)
    (Hmax : (duration_total l < 2 ^ 63)%Z) :
  UnmarshalYAML (Ok (duration_text l)) = Ok (duration_total l) ∧
  UnmarshalYAML (Ok ("-" +:+ duration_text l)) = Ok (- duration_total l)%Z ∧
  UnmarshalYAML (Ok EmptyString) = Ok 0%Z.
Proof.
  destruct (ParseDuration_text l) as (Hnil & Hpos & Hneg); [done..|].
  unfold UnmarshalYAML. rewrite Hpos, Hneg, (proj2 (String.eqb_neq _ _) Hnil). by split_and!.
Qed.

Example UnmarshalYAML_reads_witness :
  UnmarshalYAML (H:=plain_unicode) (Ok "1h30m") = Ok 5400000000000%Z.
Proof.
  apply (UnmarshalYAML_reads (HU:=plain_unicode) [(1%Z, "h"); (30%Z, "m")]);
    [done|by repeat constructor|by vm_compute].
Defined.

(** Reading a duration ends, in a number that fits or an error. For every text the loop over
    its terms has exactly one outcome, which the fuel given to it does not decide; and the
    time to live that is accepted, from numbers with fractions and a sign as well, is within
    64 bits. *)
Lemma UnmarshalYAML_ends {HU : Unicode} (s : string) :
  (∀ d, ∃ r, adds_up d s r ∧ (∀ r', adds_up d s r' → r' = r) ∧
     ∀ n, String.length s ≤ n → duration_terms n d s = r) ∧
  ∀ d, UnmarshalYAML (Ok s) = Ok d → (- 2 ^ 63 ≤ d < 2 ^ 63)%Z.
Proof.
  split.
  - intros d. pose proof (duration_terms_adds (String.length s) d s (le_n _)) as H.
    eexists. split; [exact H|]. split; [intros r' H'; by eapply adds_up_unique|].
    intros n Hn. eapply adds_up_unique; [by apply duration_terms_adds|exact H].
  - intros d. unfold UnmarshalYAML. case_bool; [by intros [= <-]|].
    destruct (ParseDuration s) as [x|] eqn:Hp; [|done]. intros [= <-]. revert Hp.
    unfold ParseDuration. destruct (match s with String _ _ => _ | _ => _ end) as [neg t].
    case_bool; [by intros [= <-]|].
    case_bool; [done|]. destruct (duration_terms _ 0 t) as [y|e] eqn:Ht; [|done].
    pose proof (duration_terms_adds (String.length t) 0 t (le_n _)) as H. rewrite Ht in H.
    apply adds_up_range in H; [|by split]. unfold two63 in *.
    destruct neg; [intros [= <-]; lia|]. case_match; [done|]. bool_prop. intros [= <-]. lia.
Qed.

(** C40: what loading the configuration decides. A file that is not there (an ENOENT, under
    any path) is no opinion: it loads as the empty configuration, whose overrides leave the
    computed profile as it is. Any other failure to read the file is an error that names it.
    Of a file that the library decodes into [cfg ttl], with [ttl] read from the string [s] of
    its [facts.cacheTTL], the time to live is 0 for the empty string and the sum of the
    numbers and units otherwise, negative after a minus sign; a string that is no duration
    makes the whole file an error that names both. *)
Theorem Load_decides {HU : Unicode} {HY : Yaml} {HP : Platform} (path : string) (w : World) :
  (fs w !! path = None → missing_errno (fs w) path = ENOENT →
     value (Load path) w = Ok no_config) ∧
  (∀ f, Profile.Build f (ToProfileOverrides no_config) =
     applyCiliumPrereqs (applyScaling (newBaseProfile f) f) (mkCilium EmptyString false)) ∧
  (∀ err, value (ReadFile path) w = Err err → IsNotExist err = false →
     value (Load path) w = Err (Wrap ("reading config " +:+ path) err)) ∧
  ∀ data s (cfg : Z → Config), value (ReadFile path) w = Ok data →
    (∀ read, yaml_unmarshal read data =
       match read (Ok s) with Ok ttl => Ok (cfg ttl) | Err err => Err err end) →
    (s = EmptyString → value (Load path) w = Ok (cfg 0%Z)) ∧
    (∀ l, l ≠ [] → Forall (λ x, term_ok x = true) l → (duration_total l < 2 ^ 63)%Z →
       (s = duration_text l → value (Load path) w = Ok (cfg (duration_total l))) ∧
       (s = "-" +:+ duration_text l → value (Load path) w = Ok (cfg (- duration_total l)%Z))) ∧
    (∀ err, s ≠ EmptyString → ParseDuration s = Err err →
       value (Load path) w =
         Err (Wrap ("parsing config " +:+ path) (Wrap ("invalid duration " +:+ Quote s) err))).
Proof.
  unfold Load. rewrite value_bind by apply _. rewrite value_ret. split_and!.
  - intros Hnone Herr. unfold value, ReadFile, read_node. simpl. by rewrite Hnone, Herr.
  - intros f. unfold Profile.Build, applyOverrides, ToProfileOverrides.
    cbn [SysctlOverrides NoFileLimit ovCPUGovernor HugePages2M Cilium ovIRQAffinity
      ovRingBufferMax ovRPS ovXPS ovIOScheduler].
    change (cOverrides (cSysctl no_config)) with (∅ : gmap string string).
    by rewrite (left_id_L ∅ (∪)).
  - by intros err -> ->.
  - intros data s cfg -> Hy. rewrite Hy. unfold UnmarshalYAML. split_and!.
    + by intros ->.
    + intros l Hne Hl Hmax. destruct (ParseDuration_text l) as (Hnil & Hpos & Hneg); [done..|].
      apply String.eqb_neq in Hnil.
      split; intros ->; [by rewrite Hnil, Hpos|by rewrite Hneg].
    + intros err Hs%String.eqb_neq Hp. by rewrite Hs, Hp.
Qed.

(** A library that finds a time to live in every file, and nothing else. *)
Definition with_ttl (ttl : Z) : Config :=
  mkConfig false EmptyString (mkResourcesConfig []) (mkSysctlConfig ∅) (mkLimitsConfig 0 0)
    (mkHugePagesConfig false 0) (mkCiliumConfig EmptyString false)
    (mkNetworkConfig None None None None) (mkStorageConfig None) (mkCPUConfig None)
    (mkFactsConfig ttl).

Definition ttl_yaml (s : string) : Yaml := λ read _,
  match read (Ok s) with Ok ttl => Ok (with_ttl ttl) | Err err => Err err end.

Example Load_decides_witness :
  let u := plain_unicode in
  value (Load (HY:=ttl_yaml "1h30m") "/etc/motd") motd_world = Ok (with_ttl 5400000000000) ∧
  value (Load (HY:=ttl_yaml "soon") "/etc/motd") motd_world =
    Err (Wrap "parsing config /etc/motd" (Wrap ("invalid duration " +:+ Quote "soon")
      (duration_message "soon" Invalid))).
Proof.
  intros u. split.
  - destruct (Load_decides (HY:=ttl_yaml "1h30m") (HP:=demo_platform) "/etc/motd" motd_world)
      as (_ & _ & _ & H).
    destruct (H "old" "1h30m" with_ttl ltac:(by vm_compute) ltac:(done)) as (_ & Hl & _).
    apply (Hl [(1%Z, "h"); (30%Z, "m")]); [done|by repeat constructor|by vm_compute|done].
  - destruct (Load_decides (HY:=ttl_yaml "soon") (HP:=demo_platform) "/etc/motd" motd_world)
      as (_ & _ & _ & H).
    destruct (H "old" "soon" with_ttl ltac:(by vm_compute) ltac:(done)) as (_ & _ & He).
    apply He; [done|by vm_compute].
Defined.

(** The limits of a configuration with another process limit. *)
Definition with_nproc (c : Config) (n : Z) : Config :=
  mkConfig (DryRun c) (LogFormat c) (cResources c) (cSysctl c)
    (mkLimitsConfig (cNoFile (cLimits c)) n) (cHugePages c) (cCilium c) (cNetwork c)
    (cStorage c) (cCPU c) (cFacts c).

(** The process limit of the configuration is dropped. Whatever [limits.nproc] says, the
    overrides are the same and the profile's limit stays 0, which renders as unlimited. *)
Theorem nproc_has_no_effect {HP : Platform} (c : Config) (n : Z) (f : Facts) :
  ToProfileOverrides (with_nproc c n) = ToProfileOverrides c ∧
  NProc (Limits (Profile.Build f (ToProfileOverrides (with_nproc c n)))) = 0%Z.
Proof.
  split; [done|]. unfold Profile.Build, applyOverrides. cbn [Limits]. by destruct (0 <? _)%Z.
Qed.
