(* ===== verification/Flags.v ===== *)
(** * cmd/node-configurator: flags

    The flags of the subcommands ([parseCommonFlags] of main.go) as the [flag] package parses
    them, what it says of a bad one, and lists of names ([splitCSV]). *)

From S2P Require Import Prelude GoStrings GoFmt.

Definition defaultConfigPath : string := "/etc/node-configurator/config.yaml".

Record commonFlags : Set := mkFlags {
  configPath : string;
  logFormat : string;
  refreshFacts : bool;
  only : string;
  skip : string
}.

Definition default_flags : commonFlags :=
  mkFlags defaultConfigPath EmptyString false EmptyString EmptyString.

(** The flags as they are defined, for their usage: the default is what a text flag has. *)
Record flag_def : Set := mkFlag { fName : string; fUsage : string; fDefault : option string }.

Definition quoted (s : string) : string :=
  String quote_char (s +:+ String quote_char EmptyString).

Definition flag_defs : list flag_def := [
  mkFlag "config" "path to YAML config" (Some (configPath default_flags));
  mkFlag "log-format" (quoted "text" +:+ " or " +:+ quoted "json" +:+ " (overrides config)")
    (Some (logFormat default_flags));
  mkFlag "refresh-facts" "bypass the facts cache and re-query the EC2 API" None;
  mkFlag "only" "comma-separated resource names to run exclusively" (Some (only default_flags));
  mkFlag "skip" "comma-separated resource names to skip" (Some (skip default_flags))
].

(** [flag.Value.Set] of the flag of this name: [None] if there is no such flag that takes
    a text. *)
Definition set_string (cf : commonFlags) (name value : string) : option commonFlags :=
  if String.eqb name "config"
  then Some (mkFlags value (logFormat cf) (refreshFacts cf) (only cf) (skip cf))
  else if String.eqb name "log-format"
  then Some (mkFlags (configPath cf) value (refreshFacts cf) (only cf) (skip cf))
  else if String.eqb name "only"
  then Some (mkFlags (configPath cf) (logFormat cf) (refreshFacts cf) value (skip cf))
  else if String.eqb name "skip"
  then Some (mkFlags (configPath cf) (logFormat cf) (refreshFacts cf) (only cf) value)
  else None.

Definition set_refresh (cf : commonFlags) (b : bool) : commonFlags :=
  mkFlags (configPath cf) (logFormat cf) b (only cf) (skip cf).

(** [strconv.ParseBool]. *)
Definition ParseBool (s : string) : option bool :=
  if in_list s ["1"; "t"; "T"; "TRUE"; "true"; "True"] then Some true
  else if in_list s ["0"; "f"; "F"; "FALSE"; "false"; "False"] then Some false
  else None.

Inductive flag_error : Set :=
| BadSyntax (arg : string)
| HelpRequested
| Undefined (name : string)
| BadBool (name value : string)
| NeedsArgument (name : string).

(** The name and the value of a flag's argument; a value may follow an equals sign that is
    not the first byte of the name. *)
Definition flag_name (arg : string) : option (string * option string) :=
  let name :=
    match arg with
    | String _ (String c rest) => if Ascii.eqb c "-" then rest else String c rest
    | _ => EmptyString
    end in
  match name with
  | EmptyString => None
  | String c _ =>
      if Ascii.eqb c "-" || Ascii.eqb c "=" then None
      else let '(n, v, ok) := Cut "=" name in Some (n, if ok then Some v else None)
  end.

(** Is the argument a flag? A lone minus sign and what starts otherwise is not. *)
Definition is_flag (arg : string) : bool :=
  match arg with String c (String _ _) => Ascii.eqb c "-" | _ => false end.

(** [FlagSet.Parse]: up to the first argument that is no flag, or to "--". *)
Fixpoint Parse (cf : commonFlags) (args : list string) : result flag_error commonFlags :=
  match args with
  | [] => Ok cf
  | arg :: args =>
      if negb (is_flag arg) || String.eqb arg "--" then Ok cf
      else
        match flag_name arg with
        | None => Err (BadSyntax arg)
        | Some (name, value) =>
            if String.eqb name "refresh-facts" then
              match value with
              | None => Parse (set_refresh cf true) args
              | Some v =>
                  match ParseBool v with
                  | Some b => Parse (set_refresh cf b) args
                  | None => Err (BadBool name v)
                  end
              end
            else
              match set_string cf name EmptyString with
              | None => Err (if in_list name ["help"; "h"] then HelpRequested else Undefined name)
              | Some _ =>
                  match value, args with
                  | Some v, _ => Parse (default cf (set_string cf name v)) args
                  | None, v :: args => Parse (default cf (set_string cf name v)) args
                  | None, [] => Err (NeedsArgument name)
                  end
              end
        end
  end.

(** What [Parse] makes of the arguments of a subcommand. *)
Definition parsed_flags (args : list string) : result flag_error commonFlags :=
  Parse default_flags args.

(** *** What the flag package says of a bad flag *)

Section usage.
Context {HU : Unicode}.

(** [FlagSet.failf]; the request for help has no message. *)
Definition flag_message (e : flag_error) : option string :=
  match e with
  | BadSyntax arg => Some ("bad flag syntax: " +:+ arg)
  | HelpRequested => None
  | Undefined name => Some ("flag provided but not defined: -" +:+ name)
  | BadBool name value =>
      Some ("invalid boolean value " +:+ Quote value +:+ " for -" +:+ name +:+ ": parse error")
  | NeedsArgument name => Some ("flag needs an argument: -" +:+ name)
  end.

(** One flag of [PrintDefaults]: its type unless it is boolean, its usage, indented, and its
    default if that is not the zero value. No usage names its argument in back quotes. *)
Definition flag_line (d : flag_def) : string :=
  let tab := String (byte_of 9) EmptyString in
  let indent := nls +:+ "    " +:+ tab in
  let head := "  -" +:+ fName d +:+ (match fDefault d with Some _ => " string" | None => EmptyString end) in
  head +:+ (if (slen head <=? 4)%Z then tab else indent) +:+ ReplaceAll (fUsage d) nls indent
    +:+ (match fDefault d with
         | Some v => if String.eqb v EmptyString then EmptyString
                     else " (default " +:+ Quote v +:+ ")"
         | None => EmptyString
         end) +:+ nls.

(** The flags are visited in the order of their names. *)
Definition print_defaults (defs : list flag_def) : string :=
  foldr String.append EmptyString
    ((λ n, from_option flag_line EmptyString (find (λ d, String.eqb (fName d) n) defs))
       <$> sort_Strings (fName <$> defs)).

(** [FlagSet.usage] of a named set. *)
Definition flag_usage (name : string) : string :=
  "Usage of " +:+ name +:+ ":" +:+ nls +:+ print_defaults flag_defs.

Definition flag_complaint (name : string) (e : flag_error) : string :=
  (match flag_message e with Some m => m +:+ nls | None => EmptyString end) +:+ flag_usage name.
End usage.

Example flag_usage_lines :
  Split nl (flag_complaint (HU:=plain_unicode) "node-configurator" (BadBool "refresh-facts" "x")) =
  ["invalid boolean value " +:+ quoted "x" +:+ " for -refresh-facts: parse error";
   "Usage of node-configurator:";
   "  -config string";
   "    	path to YAML config (default " +:+ quoted "/etc/node-configurator/config.yaml" +:+ ")";
   "  -log-format string";
   "    	" +:+ quoted "text" +:+ " or " +:+ quoted "json" +:+ " (overrides config)";
   "  -only string";
   "    	comma-separated resource names to run exclusively";
   "  -refresh-facts";
   "    	bypass the facts cache and re-query the EC2 API";
   "  -skip string";
   "    	comma-separated resource names to skip";
   EmptyString].
Proof. by vm_compute. Qed.

(** ** Lists of names *)

Definition splitCSV (s : string) : list string :=
  if String.eqb s EmptyString then []
  else filter (λ p, p ≠ EmptyString) (TrimSpace <$> Split "," s).

Lemma splitCSV_fields l :
  Forall (λ x, field x && sep_free "," x = true) l →
  filter (λ p, p ≠ EmptyString) (TrimSpace <$> l) = l.
Proof.
  induction 1 as [|x l Hx Hl IH]; [done|]. apply andb_true_iff in Hx as [Hx _].
  apply field_inv in Hx as [Hs Hne]. rewrite fmap_cons, TrimSpace_id by done.
  by rewrite filter_cons_True, IH.
Qed.

Lemma split_space r : TrimSpace <$> Split "," (String " " r) = TrimSpace <$> Split "," r.
Proof.
  simpl. change (Ascii.eqb " " ",") with false. cbv iota.
  destruct (Split_cons "," r) as (x & xs & ->). rewrite !fmap_cons. by rewrite TrimSpace_space.
Qed.

Lemma splitCSV_join sep l :
  sep = "," ∨ sep = ", " → l ≠ [] → Forall (λ x, field x && sep_free "," x = true) l →
  TrimSpace <$> Split "," (Join sep l) = TrimSpace <$> l.
Proof.
  intros Hsep Hne Hl. induction Hl as [|x l Hx Hl IH]; [done|].
  apply andb_true_iff in Hx as [_ Hx]. destruct l as [|y l]; [simpl; by rewrite Split_single|].
  rewrite Join_cons by done. rewrite (fmap_cons _ x), <-IH by done.
  destruct Hsep as [->| ->]; rewrite str_cons_app, ?str_nil_app, Split_app_sep by done;
    rewrite fmap_cons; [done|]. f_equal. apply split_space.
Qed.

(** Names given on the command line: a comma-separated list of words, with or without
    white space after the commas, gives exactly those words; the empty string gives none,
    so that it neither includes nor skips anything. *)
Theorem splitCSV_reads (l : list string)
    (Hl : Forall (λ x, field x && sep_free "," x = true) l) :
  splitCSV (Join "," l) = l ∧ splitCSV (Join ", " l) = l ∧ splitCSV EmptyString = [].
Proof.
  assert (∀ sep, sep = "," ∨ sep = ", " → splitCSV (Join sep l) = l) as Hjoin.
  { intros sep Hsep. unfold splitCSV. destruct l as [|x l]; [by destruct Hsep as [->| ->]|].
    rewrite splitCSV_join, splitCSV_fields by done.
    inversion_clear Hl as [|? ? Hx Hl']. apply andb_true_iff in Hx as [Hx _].
    apply field_inv in Hx as [_ Hne]. rewrite (proj2 (String.eqb_neq _ _)); [done|].
    destruct l; [done|]. rewrite Join_cons by done. intros Hnil.
    by apply str_app_eq_nil in Hnil as [? _]. }
  split_and!; [by apply Hjoin; left|by apply Hjoin; right|done].
Qed.

Example splitCSV_reads_witness : splitCSV "sysctl, swap" = ["sysctl"; "swap"].
Proof. apply (splitCSV_reads ["sysctl"; "swap"]). by repeat constructor. Defined.
