(* ===== verification/Main.v ===== *)
(** * cmd/node-configurator

    The command: the subcommands and what they print ([main.go]). Standard output and
    standard error are texts that grow; whether a write to standard output fails is the
    parameter [Stdout]. *)

From S2P Require Import Prelude GoStrings GoPath GoOS Sysutil Frame GoFmt GoFloat GoJSON.
From S2P Require Import Resource Facts Cache Gather Swap Profile Config Engine Tree Flags.

Definition usage : string := Join nls [
  "node-configurator: idempotent EC2 Kubernetes node tuning";
  EmptyString;
  "Usage:";
  "  node-configurator apply   [flags]   converge the host to desired state";
  "  node-configurator check   [flags]   report drift without changing anything (exit 2 if changes are pending)";
  "  node-configurator facts   [flags]   print gathered instance/host facts as JSON";
  "  node-configurator profile [flags]   print the resolved desired-state profile as JSON";
  "  node-configurator version           print the build version";
  EmptyString;
  "Flags (apply/check/facts/profile):";
  "  -config string        path to YAML config (default " +:+ quoted defaultConfigPath +:+ ")";
  "  -log-format string     " +:+ quoted "text" +:+ " or " +:+ quoted "json" +:+ " (default "
    +:+ quoted "text" +:+ "; apply/check only)";
  "  -refresh-facts          bypass the facts cache and re-query the EC2 API";
  "  -only string            comma-separated resource names to run exclusively (apply/check only)";
  "  -skip string            comma-separated resource names to skip (apply/check only)";
  EmptyString
].

(** ** What the flags and the configuration decide *)

Definition resolveLogFormat (cf : commonFlags) (cfg : Config) : string :=
  if negb (String.eqb (logFormat cf) EmptyString) then logFormat cf
  else if negb (String.eqb (LogFormat cfg) EmptyString) then LogFormat cfg
  else "text".

(** ** The process *)

Record Proc : Type := mkProc { world : World; out : string; err_out : string }.

(** Does a write of this text to standard output fail? *)
Class Stdout : Type := stdout_fault : string → option error.

Definition on_host {A} (c : M World A) : M Proc A :=
  λ p, let '(a, w) := c (world p) in (a, mkProc w (out p) (err_out p)).

Definition print_out {HO : Stdout} : Writer Proc := λ text,
  match stdout_fault text with
  | Some e => ret (Err e)
  | None => _ <- modify (λ p, mkProc (world p) (out p +:+ text) (err_out p));; ret (Ok ())
  end.

Definition print_err (text : string) : M Proc () :=
  modify (λ p, mkProc (world p) (out p) (err_out p +:+ text)).

Definition complain (e : error) : M Proc Z :=
  _ <- print_err ("node-configurator: " +:+ Error e +:+ nls);; ret 1%Z.

Fixpoint print_warnings (ws : list string) : M Proc () :=
  match ws with
  | [] => ret ()
  | w :: ws => _ <- print_err ("node-configurator: warning: " +:+ w +:+ nls);; print_warnings ws
  end.

(** The flag package prints what is wrong, and the usage, before it returns the error. *)
Definition parseCommonFlags {HU : Unicode} (name : string) (args : list string) :
    M Proc (result flag_error commonFlags) :=
  match parsed_flags args with
  | Ok cf => ret (Ok cf)
  | Err e => _ <- print_err (flag_complaint name e);; ret (Err e)
  end.

Section command.
Context {HK : Kernel} {HR : Runner} {HU : Unicode} {HC : Cloud} {HP : Platform} {HT : Clock}
  {HY : Yaml} {HO : Stdout}.
Context (version : string).

Definition gatherAllAndBuild (e : Env) (cf : commonFlags) : IO (Facts * Config) :=
  cfg <-? map_err (Wrap "loading config") (Load (configPath cf));;
  f <-? map_err (Wrap "gathering facts")
          (Gather (mkGatherer (Some e) EmptyString (cCacheTTL (cFacts cfg)) (refreshFacts cf)));;
  ret (Ok (f, cfg)).

(** Converging or checking, once the flags are known. *)
Definition engine_resources (cf : commonFlags) (f : Facts) (cfg : Config) :
    M World (list Resource) :=
  Engine.Build New f (Profile.Build f (ToProfileOverrides cfg)) (cDisable (cResources cfg))
    (mkOptions (splitCSV (only cf)) (splitCSV (skip cf))).

Definition effective_mode (cfg : Config) (mode : Mode) : Mode :=
  if DryRun cfg && bool_decide (mode = ModeApply) then ModeCheck else mode.

Definition report (format : string) (f : Facts) (results : list Result) :
    M Proc (result error ()) :=
  if String.eqb format "json" then WriteJSONReport print_out f results
  else WriteTextReport print_out results.

Definition converge (cf : commonFlags) (f : Facts) (cfg : Config) (mode : Mode) : M Proc Z :=
  let format := resolveLogFormat cf cfg in
  summary <- (if negb (String.eqb format "json") then WriteFactsSummary print_out f
              else ret (Ok ()));;
  match summary with
  | Err e => complain e
  | Ok _ =>
      let mode := effective_mode cfg mode in
      resources <- on_host (engine_resources cf f cfg);;
      results <- on_host (Engine.Run resources mode);;
      written <- report format f results;;
      match written with
      | Err e => complain e
      | Ok _ => ret (ExitCode results mode)
      end
  end.

Definition runEngine (args : list string) (mode : Mode) : M Proc Z :=
  flags <- parseCommonFlags "node-configurator" args;;
  match flags with
  | Err _ => ret 2%Z
  | Ok cf =>
      r <- on_host (gatherAllAndBuild New cf);;
      match r with
      | Err e => complain e
      | Ok (f, cfg) =>
          _ <- print_warnings (Warnings f);;
          converge cf f cfg mode
      end
  end.

Definition encodeJSON (j : result error json) : M Proc Z :=
  match j with
  | Err e => complain e
  | Ok j =>
      r <- print_out (Encode j);;
      match r with Err e => complain e | Ok _ => ret 0%Z end
  end.

Definition runFacts (args : list string) : M Proc Z :=
  flags <- parseCommonFlags "node-configurator facts" args;;
  match flags with
  | Err _ => ret 2%Z
  | Ok cf =>
      r <- on_host (gatherAllAndBuild New cf);;
      match r with
      | Err e => complain e
      | Ok (f, _) => encodeJSON (facts_json f)
      end
  end.

Definition runProfile (args : list string) : M Proc Z :=
  flags <- parseCommonFlags "node-configurator profile" args;;
  match flags with
  | Err _ => ret 2%Z
  | Ok cf =>
      r <- on_host (gatherAllAndBuild New cf);;
      match r with
      | Err e => complain e
      | Ok (f, cfg) => encodeJSON (Ok (profile_json (Profile.Build f (ToProfileOverrides cfg))))
      end
  end.

Definition run (args : list string) : M Proc Z :=
  match args with
  | [] => _ <- print_err usage;; ret 2%Z
  | cmd :: args =>
      if String.eqb cmd "apply" then runEngine args ModeApply
      else if String.eqb cmd "check" then runEngine args ModeCheck
      else if String.eqb cmd "facts" then runFacts args
      else if String.eqb cmd "profile" then runProfile args
      else if String.eqb cmd "version" then _ <- print_out (version +:+ nls);; ret 0%Z
      else if in_list cmd ["-h"; "--help"; "help"] then _ <- print_err usage;; ret 0%Z
      else
        _ <- print_err ("node-configurator: unknown command " +:+ Quote cmd +:+ nls +:+ nls);;
        _ <- print_err usage;;
        ret 2%Z
  end.

(** [os.Args] starts with the name of the program; the result is what [os.Exit] is given. *)
Definition main (os_Args : list string) : M Proc Z := run (tail os_Args).
End command.

(** ** What reaches the host *)

Lemma on_host_run {A} (c : M World A) p :
  on_host c p = ((c (world p)).1, mkProc (c (world p)).2 (out p) (err_out p)).
Proof. unfold on_host. by destruct (c (world p)). Qed.

(** Computations that only print. *)
Class OnlyPrints {A} (c : M Proc A) : Prop := only_prints : ∀ p, world (c p).2 = world p.

#[export] Instance ret_only_prints {A} (a : A) : OnlyPrints (ret a).
Proof. by intros p. Qed.
#[export] Instance bind_only_prints {A B} (c : M Proc A) (k : A → M Proc B) :
  OnlyPrints c → (∀ a, OnlyPrints (k a)) → OnlyPrints (bind c k).
Proof. intros Hc Hk p. rewrite bind_run. by rewrite Hk, Hc. Qed.
#[export] Instance bind_ok_only_prints {E A B} (c : M Proc (result E A))
    (k : A → M Proc (result E B)) :
  OnlyPrints c → (∀ a, OnlyPrints (k a)) → OnlyPrints (bind_ok c k).
Proof. intros Hc Hk. unfold bind_ok. apply bind_only_prints; [done|]. intros []; apply _. Qed.
#[export] Instance on_host_only_prints {A} (c : M World A) : ReadOnly c → OnlyPrints (on_host c).
Proof. intros Hc p. rewrite on_host_run. simpl. apply Hc. Qed.
#[export] Instance print_err_only_prints text : OnlyPrints (print_err text).
Proof. by intros p. Qed.
#[export] Instance parseCommonFlags_only_prints {HU : Unicode} name args :
  OnlyPrints (parseCommonFlags name args).
Proof. unfold parseCommonFlags. destruct (parsed_flags args); apply _. Qed.

(** What follows the flags starts on the same host, with their complaint printed if they are
    bad. *)
Lemma after_flags {HU : Unicode} {A} name args (k : _ → M Proc A) p :
  ∃ q, bind (parseCommonFlags name args) k p = k (parsed_flags args) q ∧ world q = world p.
Proof.
  exists (parseCommonFlags name args p).2. split; [|apply only_prints].
  rewrite bind_run. unfold parseCommonFlags. by destruct (parsed_flags args).
Qed.
#[export] Instance print_out_only_prints {HO : Stdout} text : OnlyPrints (print_out text).
Proof. intros p. unfold print_out. by destruct (stdout_fault text). Qed.
#[export] Instance complain_only_prints e : OnlyPrints (complain e).
Proof. unfold complain. apply _. Qed.
#[export] Instance print_warnings_only_prints ws : OnlyPrints (print_warnings ws).
Proof. induction ws; simpl; apply _. Qed.
#[export] Instance for_each_only_prints {E A} (l : list A) (body : A → M Proc (result E ())) :
  (∀ a, OnlyPrints (body a)) → OnlyPrints (for_each l body).
Proof. intros Hb. induction l; simpl; apply _. Qed.
#[export] Instance report_only_prints {HO : Stdout} format f results :
  OnlyPrints (report format f results).
Proof.
  unfold report, WriteJSONReport, WriteTextReport. case_bool; [|apply _].
  destruct (report_json f results); apply _.
Qed.
#[export] Instance encodeJSON_only_prints {HO : Stdout} j : OnlyPrints (encodeJSON j).
Proof.
  unfold encodeJSON. destruct j; [|apply _]. apply bind_only_prints; [apply _|].
  intros []; apply _.
Qed.

(** The facts cache and the directories on the way to it are all that may differ. *)
Definition cache_path : string := "/var/lib/node-configurator/facts.json".

(** What [MkdirAll] makes on the way to it. *)
Definition cache_dirs : list string := ["/"; "/var"; "/var/lib"; "/var/lib/node-configurator"].

Definition only_cache_changed (w w' : World) : Prop :=
  host w' = host w ∧
  ∀ q, q ≠ cache_path → fs w' !! q = fs w !! q ∨
    (q ∈ cache_dirs ∧ fs w !! q = None ∧ fs w' !! q = Some NDir).

Lemma only_cache_refl w : only_cache_changed w w.
Proof. split; auto. Qed.

Section command_facts.
Context {HK : Kernel} {HR : Runner} {HU : Unicode} {HC : Cloud} {HP : Platform} {HT : Clock}
  {HY : Yaml} {HO : Stdout}.

Lemma gatherAllAndBuild_effect cf w r w' :
  gatherAllAndBuild New cf w = (r, w') →
  only_cache_changed w w' ∧
  (∀ f cfg, r = Ok (f, cfg) → value (Load (configPath cf)) w = Ok cfg).
Proof.
  unfold gatherAllAndBuild. rewrite bind_ok_run, map_err_run.
  rewrite (read_only_run (Load _)). cbn [fst snd]. fold (value (Load (configPath cf)) w).
  destruct (value (Load (configPath cf)) w) as [cfg|err].
  2: { intros [= <- <-]. split; [apply only_cache_refl|done]. }
  rewrite bind_ok_run, map_err_run.
  destruct (Gather _ w) as [g w1] eqn:Hg. apply Gather_effect in Hg as ([f ->] & Hh & Hfs).
  simpl. intros [= <- <-]. split; [by split|]. by intros f' cfg' [= <- <-].
Qed.

Context {Hlist : ReadOnly (Sysutil.Run "systemctl" list_units_args)}.
Context {Hring : ∀ iface, ReadOnly (Sysutil.Run "ethtool" ["-g"; iface])}.

Lemma converge_checks cf f cfg mode p :
  effective_mode cfg mode = ModeCheck → world (converge cf f cfg mode p).2 = world p.
Proof.
  intros Hmode. unfold converge. rewrite Hmode. rewrite bind_run.
  set (s := (if negb _ then _ else _) : M Proc _).
  assert (OnlyPrints s) as Hs by (unfold s, WriteFactsSummary; case_bool; apply _).
  rewrite <-(Hs p). generalize (s p). intros [[u|e] p1]; cbn [fst snd]; [|apply complain_only_prints].
  rewrite bind_run, (on_host_run (engine_resources cf f cfg)). cbn [fst snd].
  unfold engine_resources. rewrite Build_read_only.
  set (rs := (Engine.Build _ _ _ _ _ _).1).
  assert (Forall WellBehaved rs) as Hrs by apply Build_behaved.
  rewrite bind_run, on_host_run. cbn [fst snd world].
  rewrite (Run_check rs) by done. cbn [fst snd].
  match goal with |- world (?c ?q).2 = _ => assert (OnlyPrints c) as Hrest end.
  { apply bind_only_prints; [apply _|]. intros []; apply _. }
  by rewrite Hrest.
Qed.

Lemma runEngine_checks args mode p :
  (∀ cf cfg, parsed_flags args = Ok cf → value (Load (configPath cf)) (world p) = Ok cfg →
     effective_mode cfg mode = ModeCheck) →
  only_cache_changed (world p) (world (runEngine args mode p).2).
Proof.
  intros Hmode. unfold runEngine.
  match goal with |- context [bind (parseCommonFlags ?n args) ?k p] =>
    destruct (after_flags n args k p) as (q & -> & Hq) end. rewrite <-Hq in *.
  destruct (parsed_flags args) as [cf|e]; [|apply only_cache_refl].
  rewrite bind_run, on_host_run. cbn [fst snd].
  destruct (gatherAllAndBuild New cf (world q)) as [r w1] eqn:Hg.
  apply gatherAllAndBuild_effect in Hg as [Hc Hload]. simpl.
  destruct r as [[f cfg]|e]; [|by rewrite only_prints].
  rewrite bind_run, converge_checks by eauto. by rewrite only_prints.
Qed.

(** The subcommands that gather facts and print something of them. *)
Definition print_command (name : string) (args : list string) (k : Facts * Config → M Proc Z) :
    M Proc Z :=
  flags <- parseCommonFlags name args;;
  match flags with
  | Err _ => ret 2%Z
  | Ok cf =>
      r <- on_host (gatherAllAndBuild New cf);;
      match r with Err e => complain e | Ok x => k x end
  end.

Lemma runFacts_prints args :
  runFacts args = print_command "node-configurator facts" args
    (λ x, let '(f, _) := x in encodeJSON (facts_json f)).
Proof. done. Qed.

Lemma runProfile_prints args :
  runProfile args = print_command "node-configurator profile" args (λ x, let '(f, cfg) := x in
    encodeJSON (Ok (profile_json (Profile.Build f (ToProfileOverrides cfg))))).
Proof. done. Qed.

Lemma print_command_effect name args k p :
  (∀ x, OnlyPrints (k x)) →
  only_cache_changed (world p) (world (print_command name args k p).2).
Proof.
  intros Hk. unfold print_command.
  match goal with |- context [bind (parseCommonFlags ?n args) ?k p] =>
    destruct (after_flags n args k p) as (q & -> & Hq) end. rewrite <-Hq.
  destruct (parsed_flags args) as [cf|e]; [|apply only_cache_refl].
  rewrite bind_run, on_host_run. cbn [fst snd].
  destruct (gatherAllAndBuild New cf (world q)) as [r w1] eqn:Hg.
  apply gatherAllAndBuild_effect in Hg as [Hc _]. simpl.
  destruct r as [x|e]; by rewrite only_prints.
Qed.
(** *** The tree the host is *)

Definition world_grows (p p' : Proc) : Prop := grows (world p) (world p').

#[local] Instance world_grows_preorder : PreOrder world_grows.
Proof. unfold world_grows. split; [by intros p|]. intros p1 p2 p3 H12 H23. by etrans. Qed.

Lemma on_host_grows {A} (c : M World A) : Respects grows c → Respects world_grows (on_host c).
Proof. intros Hc p. rewrite on_host_run. apply Hc. Qed.

Lemma printing_grows {A} (c : M Proc A) : OnlyPrints c → Respects world_grows c.
Proof. intros Hc p. unfold world_grows. by rewrite Hc. Qed.

#[local] Hint Extern 0 (Respects world_grows _) => (apply printing_grows; apply _) : core.

Lemma gathering_grows cf : Respects grows (gatherAllAndBuild New cf).
Proof.
  unfold gatherAllAndBuild. respects_bind. intros cfg. respects_bind; [|apply _].
  apply map_err_respects. by apply (Gather_grows _ ["var"; "lib"; "node-configurator"] "facts.json");
    [|repeat constructor].
Qed.

Context (Hcmd : ∀ name args, Respects grows (Sysutil.Run name args)).

Lemma converge_grows cf f cfg mode : Respects world_grows (converge cf f cfg mode).
Proof using Hcmd Hlist Hring.
  intros p. unfold converge. rewrite bind_run.
  set (s := (if negb _ then _ else _) : M Proc _).
  assert (OnlyPrints s) as Hs by (unfold s, WriteFactsSummary; case_bool; apply _).
  etrans; [by apply (printing_grows s)|]. generalize (s p).
  intros [[u|e] p1]; cbn [fst snd]; [|by apply (printing_grows (complain e))].
  rewrite bind_run, on_host_run. cbn [fst snd].
  rewrite bind_run, on_host_run. cbn [fst snd world].
  etrans; [|apply printing_grows; apply bind_only_prints; [apply _|intros []; apply _]].
  unfold world_grows. simpl. set (m := effective_mode cfg mode).
  pose proof (engine_grows Hcmd f (ToProfileOverrides cfg) (cDisable (cResources cfg))
    (mkOptions (splitCSV (only cf)) (splitCSV (skip cf))) m (world p1)) as H.
  by rewrite bind_run in H.
Qed.

Lemma run_grows version args : Respects world_grows (run version args).
Proof using Hcmd Hlist Hring.
  assert (∀ args mode, Respects world_grows (runEngine args mode)) as Hengine.
  { intros a mode. unfold runEngine. apply bind_respects; [apply _|auto|].
    intros [cf|e]; [|auto].
    apply bind_respects; [apply _|apply on_host_grows, gathering_grows|].
    intros [[f cfg]|e]; [|auto].
    apply bind_respects; [apply _|auto|]. intros _. apply converge_grows. }
  assert (∀ name args k, (∀ x, OnlyPrints (k x)) →
    Respects world_grows (print_command name args k)) as Hprint.
  { intros name a k Hk. unfold print_command. apply bind_respects; [apply _|auto|].
    intros [cf|e]; [|auto].
    apply bind_respects; [apply _|apply on_host_grows, gathering_grows|]. intros [x|e]; auto. }
  destruct args as [|cmd args]; [auto|]. unfold run.
  apply if_respects; [apply Hengine|]. apply if_respects; [apply Hengine|].
  apply if_respects; [rewrite runFacts_prints; apply Hprint; intros []; apply _|].
  apply if_respects; [rewrite runProfile_prints; apply Hprint; intros []; apply _|].
  repeat (apply if_respects; [auto|]); auto.
Qed.

End command_facts.

(** ** Flags read back *)

(** The flags of a value, each as one argument ... *)
Definition render_flags (cf : commonFlags) : list string :=
  ["-config=" +:+ configPath cf; "--log-format=" +:+ logFormat cf;
   "-refresh-facts=" +:+ fmt_bool (refreshFacts cf); "-only=" +:+ only cf; "--skip=" +:+ skip cf].

(** ... and with their values as arguments of their own. *)
Definition render_spaced (cf : commonFlags) : list string :=
  ["-config"; configPath cf; "--log-format"; logFormat cf]
  ++ (if refreshFacts cf then ["--refresh-facts"] else [])
  ++ ["-only"; only cf; "-skip"; skip cf].

(** The subcommands that gather facts. *)
Definition gathering : list string := ["apply"; "check"; "facts"; "profile"].
Definition commands : list string := gathering ++ ["version"; "-h"; "--help"; "help"].

(** ** Properties *)

(** C1: looking never touches the node. Every subcommand but [apply], and [apply] itself when
    the configuration asks for a dry run, leaves the host as it was apart from the file of
    the facts cache and, of the four directories on the way to it, those that were missing,
    which are made; whatever the flags, the configuration and the facts are, provided the two
    commands that only ask leave the host alone. *)
Theorem checking_changes_only_the_cache {HK : Kernel} {HR : Runner} {HU : Unicode}
    {HC : Cloud} {HP : Platform} {HT : Clock} {HY : Yaml} {HO : Stdout}
    (Hlist : ReadOnly (Sysutil.Run "systemctl" list_units_args))
    (Hring : ∀ iface, ReadOnly (Sysutil.Run "ethtool" ["-g"; iface]))
    (version cmd : string) (args : list string) (p : Proc)
    (Hdry : cmd = "apply" → ∀ cf cfg, parsed_flags args = Ok cf →
              value (Load (configPath cf)) (world p) = Ok cfg → DryRun cfg = true) :
  let p' := (run version (cmd :: args) p).2 in
  host (world p') = host (world p) ∧
  ∀ q, q ≠ "/var/lib/node-configurator/facts.json" →
    fs (world p') !! q = fs (world p) !! q ∨
    (q ∈ ["/"; "/var"; "/var/lib"; "/var/lib/node-configurator"] ∧
     fs (world p) !! q = None ∧ fs (world p') !! q = Some NDir).
Proof.
  intros p'. change (only_cache_changed (world p) (world p')). unfold p', run.
  destruct (String.eqb_spec cmd "apply") as [Ha|_].
  { apply runEngine_checks. intros cf cfg Hcf Hcfg. unfold effective_mode.
    by rewrite (Hdry Ha cf cfg). }
  destruct (String.eqb_spec cmd "check") as [_|_].
  { apply runEngine_checks. intros cf cfg _ _. unfold effective_mode. by case_bool. }
  destruct (String.eqb_spec cmd "facts") as [_|_].
  { rewrite runFacts_prints. apply print_command_effect. intros []; apply _. }
  destruct (String.eqb_spec cmd "profile") as [_|_].
  { rewrite runProfile_prints. apply print_command_effect. intros []; apply _. }
  match goal with |- only_cache_changed _ (world (?c p).2) => assert (OnlyPrints c) as Hc end.
  { repeat case_bool; apply _. }
  rewrite Hc. apply only_cache_refl.
Qed.

(** The name a subcommand gives its flags. *)
Definition flag_set (cmd : string) : string :=
  if in_list cmd ["facts"; "profile"] then "node-configurator " +:+ cmd else "node-configurator".

(** A usage error touches nothing. Without a subcommand or with an unknown one the exit
    code is 2 and only standard error grows; with a bad flag every subcommand that takes
    flags exits with 2 before it has read or written anything, and what the flag package
    says of the flag is all that is printed. *)
Theorem usage_errors_touch_nothing {HK : Kernel} {HR : Runner} {HU : Unicode}
    {HC : Cloud} {HP : Platform} {HT : Clock} {HY : Yaml} {HO : Stdout}
    (version : string) (p : Proc) :
  (∀ args, match args with [] => True | cmd :: _ => cmd ∉ commands end →
     (run version args p).1 = 2%Z ∧ world (run version args p).2 = world p ∧
     out (run version args p).2 = out p) ∧
  (∀ cmd args e, cmd ∈ gathering → parsed_flags args = Err e →
     run version (cmd :: args) p =
       (2%Z, mkProc (world p) (out p) (err_out p +:+ flag_complaint (flag_set cmd) e))).
Proof.
  split.
  - intros [|cmd args] Hcmd; [done|].
    assert (∀ c, c ∈ commands → String.eqb cmd c = false) as Hne.
    { intros c Hc. apply String.eqb_neq. by intros ->. }
    unfold run. rewrite !Hne by (unfold commands, gathering; set_solver).
    assert (in_list cmd ["-h"; "--help"; "help"] = false) as ->; [|done].
    unfold in_list. apply bool_decide_eq_false. intros Hin. apply Hcmd.
    unfold commands, gathering. set_solver.
  - intros cmd args e Hcmd Herr. unfold gathering in Hcmd.
    rewrite !elem_of_cons, elem_of_nil in Hcmd.
    destruct_or! Hcmd; try done; subst cmd; cbn -[parsed_flags flag_complaint flag_set];
      unfold runEngine, runFacts, runProfile, parseCommonFlags; by rewrite Herr.
Qed.

(** C36: flags read back in both of their forms, with one minus sign or two: whatever the
    values are, empty ones, minus signs and equals signs included; and nothing is printed. *)
Theorem flags_roundtrip {HU : Unicode} (name : string) (cf : commonFlags) (p : Proc) :
  parseCommonFlags name (render_flags cf) p = (Ok cf, p) ∧
  parseCommonFlags name (render_spaced cf) p = (Ok cf, p).
Proof. destruct cf as [c l [] o s]; split; done. Qed.

(** A host with nothing to read, and a terminal that takes everything. *)
Definition plain_yaml : Yaml := λ _ _, Ok no_config.
Definition plain_stdout : Stdout := λ _, None.

Definition demo_run (args : list string) (w : World) : Z * Proc :=
  run (HK:=plain_kernel) (HR:=silent_runner) (HU:=plain_unicode) (HC:=demo_cloud)
    (HP:=demo_platform) (HT:=demo_clock) (HY:=plain_yaml) (HO:=plain_stdout)
    "dev" args (mkProc w EmptyString EmptyString).

(** A node at its first boot. *)
Definition fresh_world : World := mkWorld (list_to_map [
  ("/", NDir); ("/etc", NDir); ("/etc/os-release", NFile 420 ("ID=ubuntu" +:+ nls));
  ("/var", NDir); ("/proc", NDir); ("/proc/mounts", NKnob (Ok EmptyString));
  ("/proc/swaps", NKnob (Ok EmptyString)); ("/proc/interrupts", NKnob (Ok EmptyString))]) ∅.

Example checking_changes_only_the_cache_witness :
  host (world (demo_run ["check"] demo_world).2) = host demo_world.
Proof.
  apply (checking_changes_only_the_cache (HK:=plain_kernel) (HR:=silent_runner)
    (HU:=plain_unicode) (HC:=demo_cloud) (HP:=demo_platform) (HT:=demo_clock)
    (HY:=plain_yaml) (HO:=plain_stdout)); [by intros w|by intros iface w|done].
Defined.

(** C8: the host stays well formed. Whatever the subcommand, the flags, the configuration and
    the outcome, failures of any call included, a host whose paths are clean and lie each in a
    directory is still such a host when the program ends; nothing that was there is gone, and
    no directory, regular file or kernel attribute has become another kind of node. The
    commands the program runs are held to the same. *)
Theorem run_keeps_the_tree {HK : Kernel} {HR : Runner} {HU : Unicode}
    {HC : Cloud} {HP : Platform} {HT : Clock} {HY : Yaml} {HO : Stdout}
    (Hlist : ReadOnly (Sysutil.Run "systemctl" list_units_args))
    (Hring : ∀ iface, ReadOnly (Sysutil.Run "ethtool" ["-g"; iface]))
    (Hcmd : ∀ name args, Respects grows (Sysutil.Run name args))
    (version : string) (os_Args : list string) (p : Proc) :
  let p' := (main version os_Args p).2 in
  tree (fs (world p)) →
  tree (fs (world p')) ∧
  ∀ q n, fs (world p) !! q = Some n →
    ∃ n', fs (world p') !! q = Some n' ∧ kind_of n' = kind_of n.
Proof.
  intros p' Htree. destruct (run_grows Hcmd version (tail os_Args) p) as [Ht Hk]. by split; [apply Ht|].
Qed.

Example run_keeps_the_tree_witness :
  is_tree (fs fresh_world) = true ∧ tree (fs (world (demo_run ["apply"] fresh_world).2)).
Proof.
  split; [by vm_compute|].
  refine (proj1 (run_keeps_the_tree (HK:=plain_kernel) (HR:=silent_runner)
    (HU:=plain_unicode) (HC:=demo_cloud) (HP:=demo_platform) (HT:=demo_clock)
    (HY:=plain_yaml) (HO:=plain_stdout) _ _ _ "dev" ["node-configurator"; "apply"]
    (mkProc fresh_world EmptyString EmptyString) _)); [by intros w|by intros iface w| |].
  - intros name args w. reflexivity.
  - apply is_tree_tree. by vm_compute.
Defined.

(** [check] is not read-only in full: on a host without a facts cache, with the API at
    hand, it exits with 2 (changes are pending) and has written the cache file, its
    directory included, which its next run reads back. *)
Theorem check_writes_the_facts_cache :
  let w := world (demo_run ["check"] fresh_world).2 in
  (demo_run ["check"] fresh_world).1 = 2%Z ∧
  fs fresh_world !! "/var/lib/node-configurator" = None ∧
  fs w !! "/var/lib/node-configurator" = Some NDir ∧
  (∃ data, fs w !! "/var/lib/node-configurator/facts.json" = Some (NFile 420 data) ∧
     marshal (H:=demo_clock) demo_envelope = Ok data) ∧
  (demo_run ["check"] w).2 = mkProc w (out (demo_run ["check"] fresh_world).2) EmptyString.
Proof.
  split; [by vm_compute|]. split; [by vm_compute|]. split; [by vm_compute|]. split.
  - exists (match marshal (H:=demo_clock) demo_envelope with Ok d => d | Err _ => EmptyString end).
    split; by vm_compute.
  - by vm_compute.
Qed.
