(* ===== verification/Rerun.v ===== *)
(** * The command, run again

    What [engine.Run] leaves is what the next invocation of the command finds: an [apply] that
    exits with 0 is followed by a [check], or an [apply], that changes nothing and exits with
    0 as well. *)

From S2P Require Import Prelude GoStrings GoPath GoOS Sysutil Frame GoFmt GoFloat GoTime GoJSON.
From S2P Require Import Resource Swap Facts Cache Gather Profile Engine Cooperate Config Flags Main.

(** ** What the exit code says of the run *)

Section rerun.
Context {HK : Kernel} {HR : Runner} {HU : Unicode} {HC : Cloud} {HP : Platform} {HT : Clock}
  {HY : Yaml} {HO : Stdout}.

(** The resources of a run and their results. *)
Definition engine_run (cf : commonFlags) (f : Facts) (cfg : Config) (mode : Mode) (w : World) :
    list Result * World :=
  Engine.Run (value (engine_resources cf f cfg) w) mode w.

Definition reports_json (cf : commonFlags) (cfg : Config) : bool :=
  String.eqb (resolveLogFormat cf cfg) "json".

(** Once the facts are printed, what is left is the run, the report and the exit code. *)
Lemma converge_run cf f cfg mode p :
  let m := effective_mode cfg mode in
  let run := engine_run cf f cfg m (world p) in
  let summary := if negb (reports_json cf cfg) then WriteFactsSummary print_out f p
                 else (Ok (), p) in
  converge cf f cfg mode p =
  match summary with
  | (Err e, p1) => complain e p1
  | (Ok _, p1) =>
      match report (resolveLogFormat cf cfg) f run.1 (mkProc run.2 (out p1) (err_out p1)) with
      | (Err e, p2) => complain e p2
      | (Ok _, p2) => (ExitCode run.1 m, p2)
      end
  end.
Proof.
  cbv zeta. unfold converge, engine_run, reports_json. rewrite bind_run.
  set (s := (if negb _ then _ else _) : M Proc _).
  assert (OnlyPrints s) as Hs by (unfold s, WriteFactsSummary; case_bool; apply _).
  assert (s p = if negb (resolveLogFormat cf cfg =? "json")%string
    then WriteFactsSummary print_out f p else (Ok (), p)) as <- by (unfold s; by case_bool).
  specialize (Hs p). destruct (s p) as [[u|e] p1]; cbn [fst snd] in *; [|done].
  rewrite bind_run, on_host_run. cbn [fst snd]. rewrite Hs.
  assert ((engine_resources cf f cfg (world p)).2 = world p) as ->.
  { unfold engine_resources. apply read_only. }
  rewrite bind_run, on_host_run. cbn [fst snd world out err_out].
  rewrite bind_run. unfold value.
  by destruct (report _ _ _ _) as [[u'|e] p2].
Qed.

Lemma converge_zero cf f cfg mode p p' :
  let run := engine_run cf f cfg (effective_mode cfg mode) (world p) in
  converge cf f cfg mode p = (0%Z, p') →
  ExitCode run.1 (effective_mode cfg mode) = 0%Z ∧ world p' = run.2 ∧
  (reports_json cf cfg = true → is_ok (facts_json f) = true).
Proof.
  rewrite converge_run. cbv zeta. set (run := engine_run _ _ _ _ _). 
  destruct (if negb _ then _ else _) as [[u|e] p1]; [|by unfold complain; rewrite bind_run].
  pose proof (report_only_prints (resolveLogFormat cf cfg) f run.1
    (mkProc run.2 (out p1) (err_out p1))) as Hw.
  destruct (report _ _ _ _) as [[u'|e] p2] eqn:Hr; [|by unfold complain; rewrite bind_run].
  intros [= -> <-]. split; [done|]. split; [exact Hw|]. unfold reports_json. intros Hj.
  unfold report in Hr. rewrite Hj in Hr. unfold WriteJSONReport, report_json in Hr.
  by destruct (facts_json f).
Qed.

Context (Hout : ∀ text, stdout_fault text = None).

Lemma print_out_ok text p : (print_out text p).1 = Ok ().
Proof using Hout. unfold print_out. by rewrite Hout. Qed.

Lemma report_ok format f results p :
  (String.eqb format "json" = true → is_ok (facts_json f) = true) →
  (report format f results p).1 = Ok ().
Proof using Hout.
  intros Hj. unfold report. destruct (String.eqb format "json").
  - unfold WriteJSONReport, report_json. specialize (Hj eq_refl).
    destruct (facts_json f); [apply print_out_ok|done].
  - clear Hj. unfold WriteTextReport. revert p.
    induction results as [|r rs IH]; intros p; [done|]. simpl. rewrite bind_ok_run.
    pose proof (print_out_ok (Result_String r +:+ nls) p) as Ht.
    destruct (print_out _ p) as [x p1]. cbn [fst snd] in *. subst x. apply IH.
Qed.

(** When standard output takes what is written, the exit code is the run's. *)
Lemma converge_code cf f cfg mode p :
  (reports_json cf cfg = true → is_ok (facts_json f) = true) →
  let run := engine_run cf f cfg (effective_mode cfg mode) (world p) in
  (converge cf f cfg mode p).1 = ExitCode run.1 (effective_mode cfg mode) ∧
  world (converge cf f cfg mode p).2 = run.2.
Proof using Hout.
  intros Hj. rewrite converge_run. cbv zeta. set (run := engine_run _ _ _ _ _).
  assert (∃ p1, (if negb (reports_json cf cfg) then WriteFactsSummary print_out f p
    else (Ok (), p)) = (Ok (), p1)) as [p1 ->].
  { unfold WriteFactsSummary. destruct (negb _); [|eauto].
    pose proof (print_out_ok (facts_summary f) p). destruct (print_out _ p). simpl in *. subst. eauto. }
  pose proof (report_ok _ f run.1 (mkProc run.2 (out p1) (err_out p1)) Hj) as Hr.
  pose proof (report_only_prints (resolveLogFormat cf cfg) f run.1
    (mkProc run.2 (out p1) (err_out p1))) as Hw.
  destruct (report _ _ _ _) as [x p2]. cbn [fst snd] in *. by subst x.
Qed.

(** The run of a subcommand that converges, once its flags and its facts are known. *)
Lemma runEngine_known args mode cf f cfg w p :
  parsed_flags args = Ok cf → gatherAllAndBuild New cf (world p) = (Ok (f, cfg), w) →
  ∃ p0, world p0 = w ∧ runEngine args mode p = converge cf f cfg mode p0.
Proof.
  intros Hcf Hg. unfold runEngine, parseCommonFlags. rewrite Hcf, bind_run.
  cbn [fst snd ret]. rewrite bind_run, on_host_run. cbn [fst snd]. rewrite Hg. cbn [fst snd].
  rewrite bind_run. eexists. split; [|reflexivity]. by rewrite only_prints.
Qed.
End rerun.

Lemma world_mkProc w o e : world (mkProc w o e) = w.
Proof. done. Qed.

(** ** Properties *)

(** C4: the command settles the host for itself. If [apply] exits with 0, and the next
    invocation finds the configuration and the facts of the first (the cache gives them, and
    reading it changes nothing), then that invocation, [apply] or [check], with the same
    flags, changes nothing at all and exits with 0, on a host whose kernel keeps what it
    accepts, whose commands do what they say and whose standard output takes what is
    written. *)
Theorem apply_then_nothing {HK : Kernel} {HR : Runner} {HU : Unicode} {HC : Cloud}
    {HP : Platform} {HT : Clock} {HY : Yaml} {HO : Stdout}
    (Hout : ∀ text, stdout_fault text = None)
    (version cmd : string) (args : list string) (cf : commonFlags) (f : Facts) (cfg : Config)
    (w : World) (p p' q : Proc) :
  let prof := Profile.Build f (ToProfileOverrides cfg) in
  parsed_flags args = Ok cf → DryRun cfg = false →
  gatherAllAndBuild New cf (world p) = (Ok (f, cfg), w) →
  host_ok (value (PrimaryInterface New) w) f prof → block_ok prof w →
  run version ("apply" :: args) p = (0%Z, p') →
  gatherAllAndBuild New cf (world p') = (Ok (f, cfg), world p') →
  cmd ∈ ["apply"; "check"] → world q = world p' →
  let again := run version (cmd :: args) q in
  again.1 = 0%Z ∧ world again.2 = world p'.
Proof.
  intros prof Hcf Hdry Hg Hok Hb Hrun Hg' Hcmd Hq again.
  destruct (runEngine_known args ModeApply cf f cfg w p Hcf Hg) as (p0 & Hp0 & Happly).
  change (run version ("apply" :: args) p) with (runEngine args ModeApply p) in Hrun.
  rewrite Happly in Hrun. apply converge_zero in Hrun as (Hexit & Hw & Hj).
  assert (∀ mode, effective_mode cfg mode = mode) as Hmode
    by (intros mode; unfold effective_mode; by rewrite Hdry).
  rewrite Hmode, Hp0 in *. unfold engine_run in Hexit, Hw.
  destruct (Engine.Run _ ModeApply w) as [results w'] eqn:Hr. cbn [fst snd] in *.
  assert (∃ mode, again = runEngine args mode q) as [mode ->].
  { unfold again. rewrite !elem_of_cons, elem_of_nil in Hcmd.
    destruct Hcmd as [->|[->|[]]]; [exists ModeApply|exists ModeCheck]; done. }
  rewrite <-Hq in Hg'.
  destruct (runEngine_known args mode cf f cfg _ q Hcf Hg') as (q0 & Hq0 & ->).
  destruct (converge_code Hout cf f cfg mode q0 Hj) as [-> ->].
  rewrite Hmode, Hq0, Hq, Hw.
  destruct (apply_settles_the_host f (ToProfileOverrides cfg) (cDisable (cResources cfg))
    (mkOptions (splitCSV (only cf)) (splitCSV (skip cf))) w w' results mode Hok Hb Hr Hexit)
    as (_ & Hsame & _ & Hcode). by split.
Qed.

(** The node of [Cooperate], with a configuration file that asks for a VXLAN tunnel. *)
Definition vxlan_config : Config :=
  mkConfig false EmptyString (mkResourcesConfig []) (mkSysctlConfig ∅) (mkLimitsConfig 0 0)
    (mkHugePagesConfig false 0) (mkCiliumConfig "vxlan" false)
    (mkNetworkConfig None None None None) (mkStorageConfig None) (mkCPUConfig None)
    (mkFactsConfig 0).

Definition vxlan_yaml : Yaml := λ _ _, Ok vxlan_config.

Definition configured_node : World :=
  set_fs (λ m, <["/etc/node-configurator" := NDir]>
    (<["/etc/node-configurator/config.yaml" := NFile 420 "cilium: {tunnel_mode: vxlan}"]> m))
    node_world.

Example apply_then_nothing_witness :
  let run := run (HK:=node_kernel) (HR:=node_runner) (HU:=plain_unicode) (HC:=demo_cloud)
    (HP:=demo_platform) (HT:=demo_clock) (HY:=vxlan_yaml) (HO:=plain_stdout) "dev" in
  let first := run ["apply"] (mkProc configured_node EmptyString EmptyString) in
  let second := run ["check"] (mkProc (world first.2) EmptyString EmptyString) in
  first.1 = 0%Z ∧ world first.2 ≠ configured_node ∧
  second.1 = 0%Z ∧ world second.2 = world first.2.
Proof.
  intros run first second.
  set (gather := gatherAllAndBuild (HK:=node_kernel) (HU:=plain_unicode) (HC:=demo_cloud) (HP:=demo_platform)
    (HT:=demo_clock) (HY:=vxlan_yaml) New default_flags).
  assert (first.1 = 0%Z) as Hzero by (by vm_compute).
  split; [exact Hzero|]. split.
  { intros Heq. apply (f_equal (λ w, host w !! "rings")) in Heq. by vm_compute in Heq. }
  apply (apply_then_nothing (HK:=node_kernel) (HR:=node_runner) (HU:=plain_unicode)
    (HC:=demo_cloud) (HP:=demo_platform) (HT:=demo_clock) (HY:=vxlan_yaml) (HO:=plain_stdout)
    ltac:(done) "dev" "check" [] default_flags node_facts vxlan_config
    (gather configured_node).2 (mkProc configured_node EmptyString EmptyString) first.2
    (mkProc (world first.2) EmptyString EmptyString)).
  - done.
  - done.
  - etrans; [apply surjective_pairing|]. apply f_equal2; [by vm_compute|done].
  - assert (value (PrimaryInterface New) (gather configured_node).2 = "eth0") as ->
      by (by vm_compute).
    exact node_host_ok.
  - by apply disks_block_ok; vm_compute.
  - etrans; [apply surjective_pairing|]. apply f_equal2; [exact Hzero|done].
  - etrans; [apply surjective_pairing|]. apply f_equal2; [by vm_compute|].
    refine (bool_decide_unpack _ _). by vm_compute.
  - by right; left.
  - apply world_mkProc.
Defined.
